(** * The match-action engine (MAE) control plane of the sfc driver

    A shallow embedding of [drivers/net/sfc/sfc_mae.c] and
    [drivers/net/sfc/sfc_mae_counter.c]: the three refcounted registries
    (outer rules, encap. headers, action sets), the flow insert and remove
    sequences, the pattern and action compilers and the counter subsystem.

    Conventions.
    - A C [unsigned int] / [uint32_t] is a [Z] in [0, 2^32); increments and
      decrements are written with their wrap-around ([u32]).
    - A byte is a [Z] in [0, 256); a buffer is a [list Z].
    - An [rte_be16_t] is kept as the number it denotes in network order, its
      two bytes in memory being [be16_bytes].
    - Registry entries live on the heap and are referred to by address
      ([ptr]); a registry is the TAILQ of its entries, in queue order.
    - [SFC_ASSERT] compiles to nothing in a release build; assertions are
      recorded as predicates ([fw_rsrc_released], [fw_rsrc_enabled]) and not
      executed.
    - Dereferencing an address that holds no entry is undefined in C; the
      monad [M] returns [None] there. *)

From Stdlib Require Import ZArith List Lia Bool String.
From stdpp Require Import base option list.
Import ListNotations.
Local Open Scope Z_scope.

(** ** Machine integers and bytes *)

Definition u8 (x : Z) : Z := x mod 2 ^ 8.
Definition u16 (x : Z) : Z := x mod 2 ^ 16.
Definition u32 (x : Z) : Z := x mod 2 ^ 32.
Definition u64 (x : Z) : Z := x mod 2 ^ 64.

Definition be16_bytes (v : Z) : list Z := [Z.shiftr v 8; Z.land v 255].
Definition be16_of_bytes (b : list Z) : Z :=
  Z.lor (Z.shiftl (nth 0 b 0) 8) (nth 1 b 0).

(** [RTE_PTR_ADD (p, ofst)] followed by a read of [size] bytes. *)
Definition bytes_at (buf : list Z) (ofst size : nat) : list Z :=
  take size (drop ofst buf).

(** [memcpy (buf + ofst, src, length src)] inside the bounds of [buf]. *)
Fixpoint bytes_put (buf : list Z) (ofst : nat) (src : list Z) : list Z :=
  match src with
  | [] => buf
  | b :: src' => bytes_put (<[ofst := b]> buf) (S ofst) src'
  end.

(** ** errno values (Linux) *)

Definition ENOENT : Z := 2.
Definition E2BIG : Z := 7.
Definition ENOEXEC : Z := 8.
Definition EAGAIN : Z := 11.
Definition ENOMEM : Z := 12.
Definition EFAULT : Z := 14.
Definition EINVAL : Z := 22.
Definition ENOSPC : Z := 28.
Definition EOVERFLOW : Z := 75.
Definition ENOTSUP : Z := 95.
Definition EALREADY : Z := 114.

(** ** The device control interface

    The libefx calls ([efx_mae_*], [base/efx_mae.c]) are not part of the
    sources at hand; neither are the calls of the service-core library the
    counter service is set up with (the last seven operations below).
    Every call either fully succeeds or fully fails; what the device
    answers is not decided by the driver, so the adapter carries
    the list of answers the device is going to give ([en_replies], consumed
    one per call; once exhausted every call succeeds with outputs 0) and
    the history of calls made ([en_calls]). *)

(** Modelled from the spec: the "invalid sentinel" of a hardware resource
    id, [EFX_MAE_RSRC_ID_INVALID] of [efx.h] (all ones in 32 bits). *)
Definition EFX_MAE_RSRC_ID_INVALID : Z := 4294967295.

Inductive efx_op : Type :=
| OP_MATCH_SPEC_INIT
| OP_MATCH_SPEC_FIELD_SET
| OP_MATCH_SPEC_MPORT_SET
| OP_MATCH_SPEC_OUTER_RULE_ID_SET
| OP_MATCH_SPEC_IS_VALID
| OP_OUTER_RULE_INSERT
| OP_OUTER_RULE_REMOVE
| OP_ENCAP_HEADER_ALLOC
| OP_ENCAP_HEADER_FREE
| OP_ACTION_SET_SPEC_INIT
| OP_ACTION_SET_POPULATE
| OP_ACTION_SET_FILL_IN_EH_ID
| OP_ACTION_SET_FILL_IN_COUNTER_ID
| OP_ACTION_SET_ALLOC
| OP_ACTION_SET_FREE
| OP_ACTION_RULE_INSERT
| OP_ACTION_RULE_REMOVE
| OP_COUNTERS_ALLOC
| OP_COUNTERS_FREE
| OP_COUNTERS_STREAM_START
| OP_COUNTERS_STREAM_STOP
| OP_MPORT_BY_PHY_PORT
| OP_MPORT_BY_PCIE_FUNCTION
| OP_SWITCH_PORT_BY_ETHDEV
| OP_GET_SERVICE_LCORE
| OP_SERVICE_LCORE_START
| OP_SERVICE_COMPONENT_REGISTER
| OP_SERVICE_COMPONENT_UNREGISTER
| OP_SERVICE_MAP_LCORE_SET
| OP_SERVICE_COMPONENT_RUNSTATE_SET
| OP_SERVICE_RUNSTATE_SET.

#[global] Instance efx_op_eq_dec : EqDecision efx_op.
Proof. solve_decision. Defined.

(** A device answer: the return code and up to two output words (a resource
    id; for a counter allocation also its generation count). *)
Record efx_reply : Type := mk_reply { rc_of : Z; out_of : Z; out2_of : Z }.

Definition reply_ok (out : Z) : efx_reply := mk_reply 0 out 0.
Definition reply_fail (rc : Z) : efx_reply := mk_reply rc 0 0.

Record efx_nic : Type := mk_nic {
  en_replies : list efx_reply;
  en_calls : list (efx_op * Z)
}.

(** Modelled from the spec: one request/response exchange with the device
    control interface ("each call either fully succeeds or fully fails"):
    the call is recorded and the next scripted answer is returned. *)
Definition efx_invoke (op : efx_op) (arg : Z) (nic : efx_nic)
  : efx_reply * efx_nic :=
  match en_replies nic with
  | [] => (reply_ok 0, mk_nic [] (en_calls nic ++ [(op, arg)]))
  | r :: rs => (r, mk_nic rs (en_calls nic ++ [(op, arg)]))
  end.

(** ** Match specifications and action-set specifications (libefx objects) *)

Inductive efx_mae_rule_type : Type := EFX_MAE_RULE_ACTION | EFX_MAE_RULE_OUTER.

Inductive efx_tunnel_protocol : Type :=
| EFX_TUNNEL_PROTOCOL_NONE
| EFX_TUNNEL_PROTOCOL_VXLAN
| EFX_TUNNEL_PROTOCOL_GENEVE
| EFX_TUNNEL_PROTOCOL_NVGRE.

(** The numbering of [efx_tunnel_protocol_t], used as a bit index into
    [encap_types_supported]. *)
Definition efx_tunnel_protocol_num (t : efx_tunnel_protocol) : Z :=
  match t with
  | EFX_TUNNEL_PROTOCOL_NONE => 0
  | EFX_TUNNEL_PROTOCOL_VXLAN => 1
  | EFX_TUNNEL_PROTOCOL_GENEVE => 2
  | EFX_TUNNEL_PROTOCOL_NVGRE => 3
  end.

Inductive efx_mae_field_id : Type :=
| EFX_MAE_FIELD_INGRESS_MPORT_SELECTOR
| EFX_MAE_FIELD_ETHER_TYPE_BE
| EFX_MAE_FIELD_ETH_SADDR_BE
| EFX_MAE_FIELD_ETH_DADDR_BE
| EFX_MAE_FIELD_VLAN0_TCI_BE
| EFX_MAE_FIELD_VLAN0_PROTO_BE
| EFX_MAE_FIELD_VLAN1_TCI_BE
| EFX_MAE_FIELD_VLAN1_PROTO_BE
| EFX_MAE_FIELD_SRC_IP4_BE
| EFX_MAE_FIELD_DST_IP4_BE
| EFX_MAE_FIELD_IP_PROTO
| EFX_MAE_FIELD_IP_TOS
| EFX_MAE_FIELD_IP_TTL
| EFX_MAE_FIELD_SRC_IP6_BE
| EFX_MAE_FIELD_DST_IP6_BE
| EFX_MAE_FIELD_L4_SPORT_BE
| EFX_MAE_FIELD_L4_DPORT_BE
| EFX_MAE_FIELD_TCP_FLAGS_BE
| EFX_MAE_FIELD_ENC_ETHER_TYPE_BE
| EFX_MAE_FIELD_ENC_ETH_SADDR_BE
| EFX_MAE_FIELD_ENC_ETH_DADDR_BE
| EFX_MAE_FIELD_ENC_VLAN0_TCI_BE
| EFX_MAE_FIELD_ENC_VLAN0_PROTO_BE
| EFX_MAE_FIELD_ENC_VLAN1_TCI_BE
| EFX_MAE_FIELD_ENC_VLAN1_PROTO_BE
| EFX_MAE_FIELD_ENC_SRC_IP4_BE
| EFX_MAE_FIELD_ENC_DST_IP4_BE
| EFX_MAE_FIELD_ENC_IP_PROTO
| EFX_MAE_FIELD_ENC_IP_TOS
| EFX_MAE_FIELD_ENC_IP_TTL
| EFX_MAE_FIELD_ENC_SRC_IP6_BE
| EFX_MAE_FIELD_ENC_DST_IP6_BE
| EFX_MAE_FIELD_ENC_L4_SPORT_BE
| EFX_MAE_FIELD_ENC_L4_DPORT_BE
| EFX_MAE_FIELD_ENC_VNET_ID_BE
| EFX_MAE_FIELD_OUTER_RULE_ID
| EFX_MAE_FIELD_NIDS.

#[global] Instance efx_mae_field_id_eq_dec : EqDecision efx_mae_field_id.
Proof. solve_decision. Defined.

#[global] Instance efx_mae_rule_type_eq_dec : EqDecision efx_mae_rule_type.
Proof. solve_decision. Defined.

#[global] Instance efx_tunnel_protocol_eq_dec : EqDecision efx_tunnel_protocol.
Proof. solve_decision. Defined.

(** One written field of a match specification: value bytes and mask
    bytes. *)
Definition mv_pair : Type := (list Z * list Z)%type.

(** Modelled from the spec: [efx_mae_match_spec_t], the "opaque compiled
    match criteria, typed as OUTER or ACTION": its rule type, priority and
    the fields written so far (the latest write of a field first). *)
Record efx_mae_match_spec : Type := mk_match_spec {
  emms_type : efx_mae_rule_type;
  emms_prio : Z;
  emms_fields : list (efx_mae_field_id * mv_pair)
}.

#[global] Instance efx_mae_match_spec_eq_dec : EqDecision efx_mae_match_spec.
Proof. solve_decision. Defined.

(** The mask-value pair a specification holds for a field. *)
Fixpoint fields_lookup (fs : list (efx_mae_field_id * mv_pair))
    (f : efx_mae_field_id) : option mv_pair :=
  match fs with
  | [] => None
  | (g, mv) :: fs' => if decide (g = f) then Some mv else fields_lookup fs' f
  end.

Definition match_spec_field (s : efx_mae_match_spec) (f : efx_mae_field_id)
  : option mv_pair := fields_lookup (emms_fields s) f.

Definition match_spec_write (s : efx_mae_match_spec) (f : efx_mae_field_id)
    (value mask : list Z) : efx_mae_match_spec :=
  mk_match_spec (emms_type s) (emms_prio s) ((f, (value, mask)) :: emms_fields s).

(** Modelled from the spec: [efx_mae_match_specs_equal], the "structural
    equality" predicate of match specifications (same rule type, priority,
    and the same pair held for every field). *)
Definition efx_mae_match_specs_equal (l r : efx_mae_match_spec) : bool :=
  bool_decide (emms_type l = emms_type r) &&
  bool_decide (emms_prio l = emms_prio r) &&
  forallb (fun fv => bool_decide (match_spec_field r (fst fv) = match_spec_field l (fst fv)))
          (emms_fields l) &&
  forallb (fun fv => bool_decide (match_spec_field l (fst fv) = match_spec_field r (fst fv)))
          (emms_fields r).

(** The actions of an action-set specification. *)
Inductive efx_mae_action : Type :=
| EFX_MAE_ACTION_DECAP
| EFX_MAE_ACTION_VLAN_POP
| EFX_MAE_ACTION_VLAN_PUSH (tpid_be tci_be : Z)
| EFX_MAE_ACTION_ENCAP
| EFX_MAE_ACTION_COUNT
| EFX_MAE_ACTION_FLAG
| EFX_MAE_ACTION_MARK (mark : Z)
| EFX_MAE_ACTION_DELIVER (mport : Z)
| EFX_MAE_ACTION_DROP.

#[global] Instance efx_mae_action_eq_dec : EqDecision efx_mae_action.
Proof. solve_decision. Defined.

(** Modelled from the spec: [efx_mae_actions_t], the "opaque compiled
    action sequence": the actions populated so far (in the order populated)
    and the resource ids filled in at enable time. *)
Record efx_mae_actions : Type := mk_actions {
  ema_actions : list efx_mae_action;
  ema_eh_id : Z;
  ema_counter_id : Z
}.

#[global] Instance efx_mae_actions_eq_dec : EqDecision efx_mae_actions.
Proof. solve_decision. Defined.

(** Modelled from the spec: [efx_mae_action_set_specs_equal], "action spec
    structural equality": the same actions (resource ids are the client's
    business and are not compared). *)
Definition efx_mae_action_set_specs_equal (l r : efx_mae_actions) : bool :=
  bool_decide (ema_actions l = ema_actions r).

(** Modelled from the spec: [efx_mae_action_set_get_nb_count], "the number
    of COUNT actions in a single rule". *)
Definition efx_mae_action_set_get_nb_count (s : efx_mae_actions) : Z :=
  Z.of_nat (length (filter (fun a => a = EFX_MAE_ACTION_COUNT) (ema_actions s))).

(** ** Driver data ([sfc_mae.h]) *)

(** The address of a heap object. *)
Definition ptr : Type := nat.

(** [struct sfc_mae_fw_rsrc]: the union of [aset_id], [rule_id] and [eh_id]
    is one 32-bit id. *)
Record sfc_mae_fw_rsrc : Type := mk_fw_rsrc {
  fw_refcnt : Z;
  fw_id : Z
}.

Record sfc_mae_outer_rule : Type := mk_outer_rule {
  or_refcnt : Z;
  or_match_spec : efx_mae_match_spec;
  or_encap_type : efx_tunnel_protocol;
  or_fw_rsrc : sfc_mae_fw_rsrc
}.

Record sfc_mae_encap_header : Type := mk_encap_header {
  eh_refcnt : Z;
  eh_buf : list Z;
  eh_size : Z;
  eh_type : efx_tunnel_protocol;
  eh_fw_rsrc : sfc_mae_fw_rsrc
}.

Record sfc_mae_counter_id : Type := mk_counter_id {
  mae_id : Z;
  rte_id : Z
}.

Record sfc_mae_action_set : Type := mk_action_set {
  as_refcnt : Z;
  as_counters : list sfc_mae_counter_id;
  as_n_counters : Z;
  as_spec : efx_mae_actions;
  as_encap_header : option ptr;
  as_fw_rsrc : sfc_mae_fw_rsrc
}.

Record sfc_mae_bounce_eh : Type := mk_bounce_eh {
  beh_buf : list Z;
  beh_buf_size : Z;
  beh_size : Z;
  beh_type : efx_tunnel_protocol
}.

(** [struct sfc_mae_counter]; [value] and [reset] are the packet and byte
    halves of [union sfc_pkts_bytes]. *)
Record sfc_mae_counter : Type := mk_counter {
  inuse : bool;
  generation_count : Z;
  value_pkts : Z;
  value_bytes : Z;
  reset_pkts : Z;
  reset_bytes : Z
}.

Record sfc_mae_counters_xstats : Type := mk_xstats {
  not_inuse_update : Z;
  realloc_update : Z
}.

Record sfc_mae_counters : Type := mk_counters {
  mae_counters : list sfc_mae_counter;
  xstats : sfc_mae_counters_xstats;
  n_mae_counters : Z
}.

(** [struct sfc_mae_counter_registry] beside its [counters] member: what
    the counter service uses and what the configuration routines keep.
    [rx_pkt_burst] and [rx_dp] are addresses. *)
Record sfc_mae_counter_service : Type := mk_counter_service {
  rx_pkt_burst : Z;
  rx_dp : Z;
  pushed_n_buffers : Z;
  use_credits : bool;
  service_core_id : Z;
  service_id : Z
}.

(** [struct sfc_mae], the part the control path and the counter path use.
    Each registry is its TAILQ: the entries in queue order, each with its
    address.  [counter_registry] is the [counters] member of the C field
    of that name, [counter_service] the rest of it. *)
Record sfc_mae : Type := mk_mae {
  nb_outer_rule_prios_max : Z;
  nb_action_rule_prios_max : Z;
  encap_types_supported : Z;
  outer_rules : list (ptr * sfc_mae_outer_rule);
  encap_headers : list (ptr * sfc_mae_encap_header);
  action_sets : list (ptr * sfc_mae_action_set);
  bounce_eh : sfc_mae_bounce_eh;
  counter_rxq_running : bool;
  counter_registry : sfc_mae_counters;
  counter_service : sfc_mae_counter_service
}.

(** [struct sfc_adapter]: the device handle, the MAE context, and the
    environment the control path consults: the outcome of the coming
    [rte_zmalloc]/[rte_malloc] calls ([sa_mem], [true] for a failed
    allocation; none left: the allocation succeeds), the next fresh heap
    address, the state of the counter receive queue, whether a service
    core is available, the [sfc_err] log (lines of other levels are not
    kept), the NUMA socket of the adapter, and the two addresses the
    counter service is given: the receive burst callback of the ethdev
    and the datapath queue of the counter receive queue. *)
Record sfc_adapter : Type := mk_adapter {
  sa_nic : efx_nic;
  sa_mae : sfc_mae;
  sa_mem : list bool;
  sa_next_ptr : ptr;
  sa_counter_rxq_initialized : bool;
  sa_service_lcore : bool;
  sa_log : list string;
  sa_socket_id : Z;
  sa_rx_pkt_burst : Z;
  sa_counter_rxq_dp : Z
}.

(** ** The control-path monad: adapter state, with [None] for an undefined
    dereference *)

Definition M (A : Type) : Type := sfc_adapter -> option (A * sfc_adapter).

Definition ret {A : Type} (a : A) : M A := fun sa => Some (a, sa).

Definition bind {A B : Type} (m : M A) (k : A -> M B) : M B :=
  fun sa => match m sa with
            | Some (a, sa') => k a sa'
            | None => None
            end.

Definition undefined {A : Type} : M A := fun _ => None.

Notation "'do' x <- m ; k" := (bind m (fun x => k))
  (at level 10, x pattern, m at level 100, k at level 200,
   format "'[v' 'do'  x  <-  m ; '/' k ']'").
Notation "m ;; k" := (bind m (fun _ => k))
  (at level 100, k at level 200, right associativity).

Definition get_sa : M sfc_adapter := fun sa => Some (sa, sa).

Definition set_nic (nic : efx_nic) (sa : sfc_adapter) : sfc_adapter :=
  mk_adapter nic (sa_mae sa) (sa_mem sa) (sa_next_ptr sa)
             (sa_counter_rxq_initialized sa) (sa_service_lcore sa) (sa_log sa)
             (sa_socket_id sa) (sa_rx_pkt_burst sa) (sa_counter_rxq_dp sa).

Definition set_mae (mae : sfc_mae) (sa : sfc_adapter) : sfc_adapter :=
  mk_adapter (sa_nic sa) mae (sa_mem sa) (sa_next_ptr sa)
             (sa_counter_rxq_initialized sa) (sa_service_lcore sa) (sa_log sa)
             (sa_socket_id sa) (sa_rx_pkt_burst sa) (sa_counter_rxq_dp sa).

Definition set_outer_rules (l : list (ptr * sfc_mae_outer_rule)) (mae : sfc_mae)
  : sfc_mae :=
  mk_mae (nb_outer_rule_prios_max mae) (nb_action_rule_prios_max mae)
         (encap_types_supported mae) l (encap_headers mae) (action_sets mae)
         (bounce_eh mae) (counter_rxq_running mae) (counter_registry mae)
         (counter_service mae).

Definition set_encap_headers (l : list (ptr * sfc_mae_encap_header))
    (mae : sfc_mae) : sfc_mae :=
  mk_mae (nb_outer_rule_prios_max mae) (nb_action_rule_prios_max mae)
         (encap_types_supported mae) (outer_rules mae) l (action_sets mae)
         (bounce_eh mae) (counter_rxq_running mae) (counter_registry mae)
         (counter_service mae).

Definition set_action_sets (l : list (ptr * sfc_mae_action_set)) (mae : sfc_mae)
  : sfc_mae :=
  mk_mae (nb_outer_rule_prios_max mae) (nb_action_rule_prios_max mae)
         (encap_types_supported mae) (outer_rules mae) (encap_headers mae) l
         (bounce_eh mae) (counter_rxq_running mae) (counter_registry mae)
         (counter_service mae).

Definition set_bounce_eh (b : sfc_mae_bounce_eh) (mae : sfc_mae) : sfc_mae :=
  mk_mae (nb_outer_rule_prios_max mae) (nb_action_rule_prios_max mae)
         (encap_types_supported mae) (outer_rules mae) (encap_headers mae)
         (action_sets mae) b (counter_rxq_running mae) (counter_registry mae)
         (counter_service mae).

Definition set_counter_rxq_running (b : bool) (mae : sfc_mae) : sfc_mae :=
  mk_mae (nb_outer_rule_prios_max mae) (nb_action_rule_prios_max mae)
         (encap_types_supported mae) (outer_rules mae) (encap_headers mae)
         (action_sets mae) (bounce_eh mae) b (counter_registry mae)
         (counter_service mae).

Definition set_counter_registry (c : sfc_mae_counters) (mae : sfc_mae) : sfc_mae :=
  mk_mae (nb_outer_rule_prios_max mae) (nb_action_rule_prios_max mae)
         (encap_types_supported mae) (outer_rules mae) (encap_headers mae)
         (action_sets mae) (bounce_eh mae) (counter_rxq_running mae) c
         (counter_service mae).

Definition set_counter_service (c : sfc_mae_counter_service) (mae : sfc_mae)
  : sfc_mae :=
  mk_mae (nb_outer_rule_prios_max mae) (nb_action_rule_prios_max mae)
         (encap_types_supported mae) (outer_rules mae) (encap_headers mae)
         (action_sets mae) (bounce_eh mae) (counter_rxq_running mae)
         (counter_registry mae) c.

Definition modify_mae (f : sfc_mae -> sfc_mae) : M unit :=
  fun sa => Some (tt, set_mae (f (sa_mae sa)) sa).

Definition get_mae : M sfc_mae := fun sa => Some (sa_mae sa, sa).

(** [sfc_err]: one line of the error log. *)
Definition sfc_err (msg : string) : M unit :=
  fun sa => Some (tt, mk_adapter (sa_nic sa) (sa_mae sa) (sa_mem sa)
                        (sa_next_ptr sa) (sa_counter_rxq_initialized sa)
                        (sa_service_lcore sa) (sa_log sa ++ [msg])
                        (sa_socket_id sa) (sa_rx_pkt_burst sa)
                        (sa_counter_rxq_dp sa)).

(** A call of the device control interface. *)
Definition efx (op : efx_op) (arg : Z) : M efx_reply :=
  fun sa => let '(r, nic) := efx_invoke op arg (sa_nic sa) in
            Some (r, set_nic nic sa).

(** [rte_zmalloc] / [rte_malloc]: [Some] fresh address, or [None] when the
    allocation fails.  The heap itself is not modelled: an address is a
    name that is handed out once, [rte_free] has no counterpart (an object
    is gone when nothing refers to it any more), and nothing below speaks
    of memory being released. *)
Definition rte_zmalloc : M (option ptr) :=
  fun sa =>
    match sa_mem sa with
    | true :: mem =>
        Some (None, mk_adapter (sa_nic sa) (sa_mae sa) mem (sa_next_ptr sa)
                      (sa_counter_rxq_initialized sa) (sa_service_lcore sa)
                      (sa_log sa) (sa_socket_id sa) (sa_rx_pkt_burst sa)
                      (sa_counter_rxq_dp sa))
    | _ =>
        Some (Some (sa_next_ptr sa),
              mk_adapter (sa_nic sa) (sa_mae sa) (tl (sa_mem sa))
                         (S (sa_next_ptr sa)) (sa_counter_rxq_initialized sa)
                         (sa_service_lcore sa) (sa_log sa) (sa_socket_id sa)
                         (sa_rx_pkt_burst sa) (sa_counter_rxq_dp sa))
    end.

(** Reading and writing a registry entry through its address. *)
Fixpoint entry_lookup {A : Type} (l : list (ptr * A)) (p : ptr) : option A :=
  match l with
  | [] => None
  | (q, a) :: l' => if decide (q = p) then Some a else entry_lookup l' p
  end.

Fixpoint entry_store {A : Type} (l : list (ptr * A)) (p : ptr) (a : A)
  : list (ptr * A) :=
  match l with
  | [] => []
  | (q, b) :: l' =>
      if decide (q = p) then (q, a) :: l' else (q, b) :: entry_store l' p a
  end.

(** [TAILQ_REMOVE]. *)
Fixpoint entry_remove {A : Type} (l : list (ptr * A)) (p : ptr)
  : list (ptr * A) :=
  match l with
  | [] => []
  | (q, b) :: l' =>
      if decide (q = p) then l' else (q, b) :: entry_remove l' p
  end.

Definition load_outer_rule (p : ptr) : M sfc_mae_outer_rule :=
  fun sa => match entry_lookup (outer_rules (sa_mae sa)) p with
            | Some r => Some (r, sa)
            | None => None
            end.

Definition store_outer_rule (p : ptr) (r : sfc_mae_outer_rule) : M unit :=
  modify_mae (fun mae => set_outer_rules (entry_store (outer_rules mae) p r) mae).

Definition load_encap_header (p : ptr) : M sfc_mae_encap_header :=
  fun sa => match entry_lookup (encap_headers (sa_mae sa)) p with
            | Some r => Some (r, sa)
            | None => None
            end.

Definition store_encap_header (p : ptr) (r : sfc_mae_encap_header) : M unit :=
  modify_mae (fun mae => set_encap_headers (entry_store (encap_headers mae) p r) mae).

Definition load_action_set (p : ptr) : M sfc_mae_action_set :=
  fun sa => match entry_lookup (action_sets (sa_mae sa)) p with
            | Some r => Some (r, sa)
            | None => None
            end.

Definition store_action_set (p : ptr) (r : sfc_mae_action_set) : M unit :=
  modify_mae (fun mae => set_action_sets (entry_store (action_sets mae) p r) mae).

(** ** Outer rule registry *)

Definition outer_rule_set_refcnt (n : Z) (r : sfc_mae_outer_rule)
  : sfc_mae_outer_rule :=
  mk_outer_rule n (or_match_spec r) (or_encap_type r) (or_fw_rsrc r).

Definition outer_rule_set_fw (fw : sfc_mae_fw_rsrc) (r : sfc_mae_outer_rule)
  : sfc_mae_outer_rule :=
  mk_outer_rule (or_refcnt r) (or_match_spec r) (or_encap_type r) fw.

Definition sfc_mae_outer_rule_attach (match_spec : efx_mae_match_spec)
    (encap_type : efx_tunnel_protocol) : M (option ptr) :=
  do mae <- get_mae;
  match
    find (fun e => efx_mae_match_specs_equal (or_match_spec (snd e)) match_spec &&
                   bool_decide (or_encap_type (snd e) = encap_type))
         (outer_rules mae)
  with
  | Some (p, rule) =>
      store_outer_rule p (outer_rule_set_refcnt (u32 (or_refcnt rule + 1)) rule) ;;
      ret (Some p)
  | None => ret None
  end.

Definition sfc_mae_outer_rule_add (match_spec : efx_mae_match_spec)
    (encap_type : efx_tunnel_protocol) : M (Z * option ptr) :=
  do m <- rte_zmalloc;
  match m with
  | None => ret (ENOMEM, None)
  | Some p =>
      let rule :=
        mk_outer_rule 1 match_spec encap_type
                      (mk_fw_rsrc 0 EFX_MAE_RSRC_ID_INVALID) in
      modify_mae (fun mae => set_outer_rules (outer_rules mae ++ [(p, rule)]) mae) ;;
      ret (0, Some p)
  end.

(** What [sfc_mae_outer_rule_del] asserts once the software refcount has
    dropped to zero. *)
Definition fw_rsrc_released (fw : sfc_mae_fw_rsrc) : Prop :=
  fw_id fw = EFX_MAE_RSRC_ID_INVALID /\ fw_refcnt fw = 0.

Definition sfc_mae_outer_rule_del (p : ptr) : M unit :=
  do rule <- load_outer_rule p;
  let rule := outer_rule_set_refcnt (u32 (or_refcnt rule - 1)) rule in
  store_outer_rule p rule ;;
  if decide (or_refcnt rule = 0) then
    modify_mae (fun mae => set_outer_rules (entry_remove (outer_rules mae) p) mae)
  else ret tt.

(** [efx_mae_match_spec_outer_rule_id_set]: on success the id becomes the
    (fully masked) OUTER_RULE_ID field of the action rule specification. *)
Definition u32_le_bytes (v : Z) : list Z :=
  [Z.land v 255; Z.land (Z.shiftr v 8) 255; Z.land (Z.shiftr v 16) 255;
   Z.land (Z.shiftr v 24) 255].

Definition efx_mae_match_spec_outer_rule_id_set (spec : efx_mae_match_spec)
    (id : Z) : M (Z * efx_mae_match_spec) :=
  do r <- efx OP_MATCH_SPEC_OUTER_RULE_ID_SET id;
  if decide (rc_of r = 0) then
    ret (0, match_spec_write spec EFX_MAE_FIELD_OUTER_RULE_ID
                             (u32_le_bytes id) [255; 255; 255; 255])
  else ret (rc_of r, spec).

Definition sfc_mae_outer_rule_enable (p : ptr)
    (match_spec_action : efx_mae_match_spec) : M (Z * efx_mae_match_spec) :=
  do rule <- load_outer_rule p;
  let fw_rsrc := or_fw_rsrc rule in
  do ins <-
    (if decide (fw_refcnt fw_rsrc = 0) then
       do r <- efx OP_OUTER_RULE_INSERT
                   (efx_tunnel_protocol_num (or_encap_type rule));
       if decide (rc_of r = 0) then
         let fw := mk_fw_rsrc (fw_refcnt fw_rsrc) (out_of r) in
         store_outer_rule p (outer_rule_set_fw fw rule) ;;
         ret (0, fw)
       else ret (rc_of r, fw_rsrc)
     else ret (0, fw_rsrc));
  let '(rc, fw_rsrc) := ins in
  if decide (rc = 0) then
    do s <- efx_mae_match_spec_outer_rule_id_set match_spec_action (fw_id fw_rsrc);
    let '(rc, spec') := s in
    if decide (rc = 0) then
      store_outer_rule p
        (outer_rule_set_fw (mk_fw_rsrc (u32 (fw_refcnt fw_rsrc + 1)) (fw_id fw_rsrc))
                           rule) ;;
      ret (0, spec')
    else
      (if decide (fw_refcnt fw_rsrc = 0) then
         do _ <- efx OP_OUTER_RULE_REMOVE (fw_id fw_rsrc); ret tt
       else ret tt) ;;
      ret (rc, spec')
  else ret (rc, match_spec_action).

(** What [sfc_mae_outer_rule_disable] (and its two siblings) assert on
    entry. *)
Definition fw_rsrc_enabled (fw : sfc_mae_fw_rsrc) : Prop :=
  fw_id fw <> EFX_MAE_RSRC_ID_INVALID /\ fw_refcnt fw <> 0.

Definition sfc_mae_outer_rule_disable (p : ptr) : M Z :=
  do rule <- load_outer_rule p;
  let fw_rsrc := or_fw_rsrc rule in
  do rm <-
    (if decide (fw_refcnt fw_rsrc = 1) then
       do r <- efx OP_OUTER_RULE_REMOVE (fw_id fw_rsrc);
       if decide (rc_of r = 0) then
         ret (0, mk_fw_rsrc (fw_refcnt fw_rsrc) EFX_MAE_RSRC_ID_INVALID)
       else ret (rc_of r, fw_rsrc)
     else ret (0, fw_rsrc));
  let '(rc, fw_rsrc) := rm in
  if decide (rc = 0) then
    store_outer_rule p
      (outer_rule_set_fw (mk_fw_rsrc (u32 (fw_refcnt fw_rsrc - 1)) (fw_id fw_rsrc))
                         rule) ;;
    ret 0
  else ret rc.

(** ** Encap. header registry *)

Definition encap_header_set_refcnt (n : Z) (e : sfc_mae_encap_header)
  : sfc_mae_encap_header :=
  mk_encap_header n (eh_buf e) (eh_size e) (eh_type e) (eh_fw_rsrc e).

Definition encap_header_set_fw (fw : sfc_mae_fw_rsrc) (e : sfc_mae_encap_header)
  : sfc_mae_encap_header :=
  mk_encap_header (eh_refcnt e) (eh_buf e) (eh_size e) (eh_type e) fw.

Definition sfc_mae_encap_header_attach (bounce : sfc_mae_bounce_eh)
  : M (option ptr) :=
  do mae <- get_mae;
  match
    find (fun e => bool_decide (eh_size (snd e) = beh_size bounce) &&
                   bool_decide (take (Z.to_nat (beh_size bounce)) (eh_buf (snd e)) =
                                take (Z.to_nat (beh_size bounce)) (beh_buf bounce)))
         (encap_headers mae)
  with
  | Some (p, e) =>
      store_encap_header p (encap_header_set_refcnt (u32 (eh_refcnt e + 1)) e) ;;
      ret (Some p)
  | None => ret None
  end.

Definition sfc_mae_encap_header_add (bounce : sfc_mae_bounce_eh)
  : M (Z * option ptr) :=
  do m <- rte_zmalloc;
  match m with
  | None => ret (ENOMEM, None)
  | Some p =>
      do b <- rte_zmalloc;
      match b with
      | None => ret (ENOMEM, None)
      | Some _ =>
          let e :=
            mk_encap_header 1 (take (Z.to_nat (beh_size bounce)) (beh_buf bounce))
                            (beh_size bounce) (beh_type bounce)
                            (mk_fw_rsrc 0 EFX_MAE_RSRC_ID_INVALID) in
          modify_mae (fun mae =>
            set_encap_headers (encap_headers mae ++ [(p, e)]) mae) ;;
          ret (0, Some p)
      end
  end.

Definition sfc_mae_encap_header_del (encap_header : option ptr) : M unit :=
  match encap_header with
  | None => ret tt
  | Some p =>
      do e <- load_encap_header p;
      let e := encap_header_set_refcnt (u32 (eh_refcnt e - 1)) e in
      store_encap_header p e ;;
      if decide (eh_refcnt e = 0) then
        modify_mae (fun mae =>
          set_encap_headers (entry_remove (encap_headers mae) p) mae)
      else ret tt
  end.

Definition efx_mae_action_set_fill_in_eh_id (spec : efx_mae_actions) (id : Z)
  : M (Z * efx_mae_actions) :=
  do r <- efx OP_ACTION_SET_FILL_IN_EH_ID id;
  if decide (rc_of r = 0) then
    ret (0, mk_actions (ema_actions spec) id (ema_counter_id spec))
  else ret (rc_of r, spec).

Definition sfc_mae_encap_header_enable (encap_header : option ptr)
    (action_set_spec : efx_mae_actions) : M (Z * efx_mae_actions) :=
  match encap_header with
  | None => ret (0, action_set_spec)
  | Some p =>
      do e <- load_encap_header p;
      let fw_rsrc := eh_fw_rsrc e in
      do al <-
        (if decide (fw_refcnt fw_rsrc = 0) then
           do r <- efx OP_ENCAP_HEADER_ALLOC (eh_size e);
           if decide (rc_of r = 0) then
             let fw := mk_fw_rsrc (fw_refcnt fw_rsrc) (out_of r) in
             store_encap_header p (encap_header_set_fw fw e) ;;
             ret (0, fw)
           else ret (rc_of r, fw_rsrc)
         else ret (0, fw_rsrc));
      let '(rc, fw_rsrc) := al in
      if decide (rc = 0) then
        do s <- efx_mae_action_set_fill_in_eh_id action_set_spec (fw_id fw_rsrc);
        let '(rc, spec') := s in
        if decide (rc = 0) then
          store_encap_header p
            (encap_header_set_fw
               (mk_fw_rsrc (u32 (fw_refcnt fw_rsrc + 1)) (fw_id fw_rsrc)) e) ;;
          ret (0, spec')
        else
          (if decide (fw_refcnt fw_rsrc = 0) then
             do _ <- efx OP_ENCAP_HEADER_FREE (fw_id fw_rsrc); ret tt
           else ret tt) ;;
          ret (rc, spec')
      else ret (rc, action_set_spec)
  end.

Definition sfc_mae_encap_header_disable (encap_header : option ptr) : M Z :=
  match encap_header with
  | None => ret 0
  | Some p =>
      do e <- load_encap_header p;
      let fw_rsrc := eh_fw_rsrc e in
      do fr <-
        (if decide (fw_refcnt fw_rsrc = 1) then
           do r <- efx OP_ENCAP_HEADER_FREE (fw_id fw_rsrc);
           if decide (rc_of r = 0) then
             ret (0, mk_fw_rsrc (fw_refcnt fw_rsrc) EFX_MAE_RSRC_ID_INVALID)
           else ret (rc_of r, fw_rsrc)
         else ret (0, fw_rsrc));
      let '(rc, fw_rsrc) := fr in
      if decide (rc = 0) then
        store_encap_header p
          (encap_header_set_fw
             (mk_fw_rsrc (u32 (fw_refcnt fw_rsrc - 1)) (fw_id fw_rsrc)) e) ;;
        ret 0
      else ret rc
  end.

(** ** Counters ([sfc_mae_counter.c]): allocation and release *)

Definition counter_set_inuse (b : bool) (c : sfc_mae_counter) : sfc_mae_counter :=
  mk_counter b (generation_count c) (value_pkts c) (value_bytes c)
             (reset_pkts c) (reset_bytes c).

Definition set_mae_counters (l : list sfc_mae_counter) (c : sfc_mae_counters)
  : sfc_mae_counters := mk_counters l (xstats c) (n_mae_counters c).

Definition get_counters : M sfc_mae_counters :=
  fun sa => Some (counter_registry (sa_mae sa), sa).

Definition put_counters (c : sfc_mae_counters) : M unit :=
  modify_mae (set_counter_registry c).

(** [&counters->mae_counters[id]]: undefined outside the array. *)
Definition load_counter (id : Z) : M sfc_mae_counter :=
  fun sa =>
    if decide (0 <= id) then
      match mae_counters (counter_registry (sa_mae sa)) !! Z.to_nat id with
      | Some c => Some (c, sa)
      | None => None
      end
    else None.

Definition store_counter (id : Z) (c : sfc_mae_counter) : M unit :=
  do cs <- get_counters;
  put_counters (set_mae_counters (<[Z.to_nat id := c]> (mae_counters cs)) cs).

Definition sfc_mae_counter_add (counterp : sfc_mae_counter_id)
  : M (Z * sfc_mae_counter_id) :=
  do r <- efx OP_COUNTERS_ALLOC 1;
  if decide (rc_of r = 0) then
    let mae_counter := out_of r in
    let generation := out2_of r in
    do counters <- get_counters;
    if decide (n_mae_counters counters <= mae_counter) then
      sfc_err "MAE counter ID is out of expected range" ;;
      do _ <- efx OP_COUNTERS_FREE mae_counter;
      ret (EFAULT, counterp)
    else
      do p <- load_counter mae_counter;
      store_counter mae_counter
        (mk_counter true generation (value_pkts p) (value_bytes p)
                    (value_pkts p) (value_bytes p)) ;;
      ret (0, mk_counter_id mae_counter (rte_id counterp))
  else
    sfc_err "failed to alloc MAE counter" ;;
    ret (rc_of r, counterp).

Definition sfc_mae_counter_del (counter : sfc_mae_counter_id) : M Z :=
  if decide (mae_id counter = EFX_MAE_RSRC_ID_INVALID) then ret 0
  else
    do p <- load_counter (mae_id counter);
    store_counter (mae_id counter) (counter_set_inuse false p) ;;
    do r <- efx OP_COUNTERS_FREE (mae_id counter);
    (if decide (rc_of r = 0) then ret tt
     else sfc_err "failed to free MAE counter") ;;
    ret (rc_of r).

Definition efx_mae_action_set_fill_in_counter_id (spec : efx_mae_actions)
    (id : Z) : M (Z * efx_mae_actions) :=
  do r <- efx OP_ACTION_SET_FILL_IN_COUNTER_ID id;
  if decide (rc_of r = 0) then
    ret (0, mk_actions (ema_actions spec) (ema_eh_id spec) id)
  else ret (rc_of r, spec).

(** [counters[0]] of a counter array; undefined when the array is empty. *)
Definition counters_head (counters : list sfc_mae_counter_id)
  : M sfc_mae_counter_id :=
  match counters with
  | c :: _ => ret c
  | [] => undefined
  end.

Definition sfc_mae_counters_enable (counters : list sfc_mae_counter_id)
    (n_counters : Z) (action_set_spec : efx_mae_actions)
  : M (Z * list sfc_mae_counter_id * efx_mae_actions) :=
  if decide (n_counters = 0) then ret (0, counters, action_set_spec)
  else
    do c0 <- counters_head counters;
    do a <- sfc_mae_counter_add c0;
    let '(rc, c0') := a in
    let counters' := c0' :: tl counters in
    if decide (rc = 0) then
      do f <- efx_mae_action_set_fill_in_counter_id action_set_spec (mae_id c0');
      let '(rc, spec') := f in
      if decide (rc = 0) then ret (0, counters', spec')
      else
        do _ <- sfc_mae_counter_del c0';
        ret (rc, counters', spec')
    else ret (rc, counters', action_set_spec).

Definition sfc_mae_counters_disable (counters : list sfc_mae_counter_id)
    (n_counters : Z) : M Z :=
  if decide (n_counters = 0) then ret 0
  else
    do c0 <- counters_head counters;
    sfc_mae_counter_del c0.

(** ** Rule description input ([rte_flow.h])

    A pattern is an END-terminated array of items, an action list an
    END-terminated array of actions: both are lists here, the END entry
    being the end of the list. *)

Inductive rte_flow_item_type : Type :=
| RTE_FLOW_ITEM_TYPE_VOID
| RTE_FLOW_ITEM_TYPE_PORT_ID
| RTE_FLOW_ITEM_TYPE_PHY_PORT
| RTE_FLOW_ITEM_TYPE_PF
| RTE_FLOW_ITEM_TYPE_VF
| RTE_FLOW_ITEM_TYPE_ETH
| RTE_FLOW_ITEM_TYPE_VLAN
| RTE_FLOW_ITEM_TYPE_IPV4
| RTE_FLOW_ITEM_TYPE_IPV6
| RTE_FLOW_ITEM_TYPE_TCP
| RTE_FLOW_ITEM_TYPE_UDP
| RTE_FLOW_ITEM_TYPE_VXLAN
| RTE_FLOW_ITEM_TYPE_GENEVE
| RTE_FLOW_ITEM_TYPE_NVGRE
| RTE_FLOW_ITEM_TYPE_OTHER (n : Z).

#[global] Instance rte_flow_item_type_eq_dec : EqDecision rte_flow_item_type.
Proof. solve_decision. Defined.

(** [struct rte_flow_item]: the type tag and the [spec], [last] and [mask]
    pointers (NULL is [None]), each to the bytes of the item structure. *)
Record rte_flow_item : Type := mk_item {
  item_type : rte_flow_item_type;
  item_spec : option (list Z);
  item_last : option (list Z);
  item_mask : option (list Z)
}.

(** [struct rte_flow_action]: the type tag with its configuration. *)
Inductive rte_flow_action : Type :=
| RTE_FLOW_ACTION_TYPE_VXLAN_DECAP
| RTE_FLOW_ACTION_TYPE_OF_POP_VLAN
| RTE_FLOW_ACTION_TYPE_OF_PUSH_VLAN (ethertype : Z)
| RTE_FLOW_ACTION_TYPE_OF_SET_VLAN_VID (vlan_vid : Z)
| RTE_FLOW_ACTION_TYPE_OF_SET_VLAN_PCP (vlan_pcp : Z)
| RTE_FLOW_ACTION_TYPE_VXLAN_ENCAP (definition : option (list rte_flow_item))
| RTE_FLOW_ACTION_TYPE_COUNT (shared : bool) (id : Z)
| RTE_FLOW_ACTION_TYPE_FLAG
| RTE_FLOW_ACTION_TYPE_MARK (id : Z)
| RTE_FLOW_ACTION_TYPE_PHY_PORT (original : bool) (index : Z)
| RTE_FLOW_ACTION_TYPE_PF
| RTE_FLOW_ACTION_TYPE_VF (conf : option (bool * Z))
| RTE_FLOW_ACTION_TYPE_PORT_ID (original : bool) (id : Z)
| RTE_FLOW_ACTION_TYPE_DROP
| RTE_FLOW_ACTION_TYPE_OTHER (n : Z).

(** The type tag of an action, without its configuration. *)
Inductive rte_flow_action_type : Type :=
| AT_VXLAN_DECAP | AT_OF_POP_VLAN | AT_OF_PUSH_VLAN | AT_OF_SET_VLAN_VID
| AT_OF_SET_VLAN_PCP | AT_VXLAN_ENCAP | AT_COUNT | AT_FLAG | AT_MARK
| AT_PHY_PORT | AT_PF | AT_VF | AT_PORT_ID | AT_DROP | AT_OTHER (n : Z).

#[global] Instance rte_flow_action_type_eq_dec : EqDecision rte_flow_action_type.
Proof. solve_decision. Defined.

Definition action_type (a : rte_flow_action) : rte_flow_action_type :=
  match a with
  | RTE_FLOW_ACTION_TYPE_VXLAN_DECAP => AT_VXLAN_DECAP
  | RTE_FLOW_ACTION_TYPE_OF_POP_VLAN => AT_OF_POP_VLAN
  | RTE_FLOW_ACTION_TYPE_OF_PUSH_VLAN _ => AT_OF_PUSH_VLAN
  | RTE_FLOW_ACTION_TYPE_OF_SET_VLAN_VID _ => AT_OF_SET_VLAN_VID
  | RTE_FLOW_ACTION_TYPE_OF_SET_VLAN_PCP _ => AT_OF_SET_VLAN_PCP
  | RTE_FLOW_ACTION_TYPE_VXLAN_ENCAP _ => AT_VXLAN_ENCAP
  | RTE_FLOW_ACTION_TYPE_COUNT _ _ => AT_COUNT
  | RTE_FLOW_ACTION_TYPE_FLAG => AT_FLAG
  | RTE_FLOW_ACTION_TYPE_MARK _ => AT_MARK
  | RTE_FLOW_ACTION_TYPE_PHY_PORT _ _ => AT_PHY_PORT
  | RTE_FLOW_ACTION_TYPE_PF => AT_PF
  | RTE_FLOW_ACTION_TYPE_VF _ => AT_VF
  | RTE_FLOW_ACTION_TYPE_PORT_ID _ _ => AT_PORT_ID
  | RTE_FLOW_ACTION_TYPE_DROP => AT_DROP
  | RTE_FLOW_ACTION_TYPE_OTHER n => AT_OTHER n
  end.

(** ** Action set registry *)

Definition action_set_set_refcnt (n : Z) (a : sfc_mae_action_set)
  : sfc_mae_action_set :=
  mk_action_set n (as_counters a) (as_n_counters a) (as_spec a)
                (as_encap_header a) (as_fw_rsrc a).

Definition action_set_set_fw (fw : sfc_mae_fw_rsrc) (a : sfc_mae_action_set)
  : sfc_mae_action_set :=
  mk_action_set (as_refcnt a) (as_counters a) (as_n_counters a) (as_spec a)
                (as_encap_header a) fw.

Definition action_set_set_spec (s : efx_mae_actions) (a : sfc_mae_action_set)
  : sfc_mae_action_set :=
  mk_action_set (as_refcnt a) (as_counters a) (as_n_counters a) s
                (as_encap_header a) (as_fw_rsrc a).

Definition action_set_set_counters (c : list sfc_mae_counter_id)
    (a : sfc_mae_action_set) : sfc_mae_action_set :=
  mk_action_set (as_refcnt a) c (as_n_counters a) (as_spec a)
                (as_encap_header a) (as_fw_rsrc a).

Definition sfc_mae_action_set_attach (encap_header : option ptr) (n_count : Z)
    (spec : efx_mae_actions) : M (option ptr) :=
  do mae <- get_mae;
  match
    find (fun e => bool_decide (as_encap_header (snd e) = encap_header) &&
                   bool_decide (n_count = 0) &&
                   efx_mae_action_set_specs_equal (as_spec (snd e)) spec)
         (action_sets mae)
  with
  | Some (p, a) =>
      store_action_set p (action_set_set_refcnt (u32 (as_refcnt a + 1)) a) ;;
      ret (Some p)
  | None => ret None
  end.

(** The loop of [sfc_mae_action_set_add] over the action list: the COUNT
    actions, at most [n] of them, each giving one counter binding. *)
Fixpoint action_set_add_counters (actions : list rte_flow_action) (n : nat)
  : list sfc_mae_counter_id :=
  match n with
  | O => []
  | S n' =>
      match actions with
      | [] => []
      | RTE_FLOW_ACTION_TYPE_COUNT _ id :: rest =>
          mk_counter_id EFX_MAE_RSRC_ID_INVALID id ::
          action_set_add_counters rest n'
      | _ :: rest => action_set_add_counters rest n
      end
  end.

(** [sfc_mae_action_set_add].  When the counter array cannot be allocated
    the action set just allocated is freed again: its address [p] is
    dropped. *)
Definition sfc_mae_action_set_add (actions : list rte_flow_action)
    (spec : efx_mae_actions) (encap_header : option ptr) (n_counters : Z)
  : M (Z * option ptr) :=
  do m <- rte_zmalloc;
  match m with
  | None => sfc_err "failed to alloc action set" ;; ret (ENOMEM, None)
  | Some p =>
      do cs <-
        (if decide (0 < n_counters) then
           do c <- rte_zmalloc;
           match c with
           | None => sfc_err "failed to alloc counters" ;; ret None
           | Some _ =>
               ret (Some (action_set_add_counters actions (Z.to_nat n_counters),
                          n_counters))
           end
         else ret (Some ([], 0)));
      match cs with
      | None => ret (ENOMEM, None)
      | Some (counters, n) =>
          let a :=
            mk_action_set 1 counters n spec encap_header
                          (mk_fw_rsrc 0 EFX_MAE_RSRC_ID_INVALID) in
          modify_mae (fun mae => set_action_sets (action_sets mae ++ [(p, a)]) mae) ;;
          ret (0, Some p)
      end
  end.

(** [sfc_mae_counters_remove]: every binding is released; a failure is
    logged and the loop goes on. *)
Fixpoint sfc_mae_counters_remove (counters : list sfc_mae_counter_id) : M unit :=
  match counters with
  | [] => ret tt
  | c :: rest =>
      do rc <- sfc_mae_counter_del c;
      (if decide (rc = 0) then ret tt else sfc_err "failed to remove counter") ;;
      sfc_mae_counters_remove rest
  end.

Definition sfc_mae_action_set_del (p : ptr) : M unit :=
  do a <- load_action_set p;
  let a := action_set_set_refcnt (u32 (as_refcnt a - 1)) a in
  store_action_set p a ;;
  if decide (as_refcnt a = 0) then
    sfc_mae_counters_remove (take (Z.to_nat (as_n_counters a)) (as_counters a)) ;;
    sfc_mae_encap_header_del (as_encap_header a) ;;
    modify_mae (fun mae => set_action_sets (entry_remove (action_sets mae) p) mae)
  else ret tt.

Definition sfc_mae_action_set_enable (p : ptr) : M Z :=
  do action_set <- load_action_set p;
  let encap_header := as_encap_header action_set in
  let counters := as_counters action_set in
  let fw_rsrc := as_fw_rsrc action_set in
  if decide (fw_refcnt fw_rsrc = 0) then
    do e <- sfc_mae_encap_header_enable encap_header (as_spec action_set);
    let '(rc, spec1) := e in
    store_action_set p (action_set_set_spec spec1 action_set) ;;
    if decide (rc = 0) then
      do c <- sfc_mae_counters_enable counters (as_n_counters action_set) spec1;
      let '(rc, counters', spec2) := c in
      let action_set' :=
        action_set_set_counters counters' (action_set_set_spec spec2 action_set) in
      store_action_set p action_set' ;;
      if decide (rc = 0) then
        do r <- efx OP_ACTION_SET_ALLOC 0;
        if decide (rc_of r = 0) then
          store_action_set p
            (action_set_set_fw (mk_fw_rsrc (u32 (fw_refcnt fw_rsrc + 1)) (out_of r))
                               action_set') ;;
          ret 0
        else
          do _ <- sfc_mae_counters_disable counters' (as_n_counters action_set);
          do _ <- sfc_mae_encap_header_disable encap_header;
          sfc_err "action set alloc failed" ;;
          ret (rc_of r)
      else
        sfc_err "counters enable failed" ;;
        ret rc
    else ret rc
  else
    store_action_set p
      (action_set_set_fw (mk_fw_rsrc (u32 (fw_refcnt fw_rsrc + 1)) (fw_id fw_rsrc))
                         action_set) ;;
    ret 0.

Definition sfc_mae_action_set_disable (p : ptr) : M Z :=
  do action_set <- load_action_set p;
  let fw_rsrc := as_fw_rsrc action_set in
  if decide (fw_refcnt fw_rsrc = 1) then
    do r <- efx OP_ACTION_SET_FREE (fw_id fw_rsrc);
    if decide (rc_of r = 0) then
      let fw := mk_fw_rsrc (fw_refcnt fw_rsrc) EFX_MAE_RSRC_ID_INVALID in
      store_action_set p (action_set_set_fw fw action_set) ;;
      do rc <- sfc_mae_counters_disable (as_counters action_set)
                                        (as_n_counters action_set);
      if decide (rc = 0) then
        do rc <- sfc_mae_encap_header_disable (as_encap_header action_set);
        if decide (rc = 0) then
          store_action_set p
            (action_set_set_fw (mk_fw_rsrc (u32 (fw_refcnt fw - 1)) (fw_id fw))
                               action_set) ;;
          ret 0
        else ret rc
      else ret rc
    else ret (rc_of r)
  else
    store_action_set p
      (action_set_set_fw (mk_fw_rsrc (u32 (fw_refcnt fw_rsrc - 1)) (fw_id fw_rsrc))
                         action_set) ;;
    ret 0.

(** ** Flow rules: insertion and removal *)

(** [struct sfc_flow_spec_mae]. *)
Record sfc_flow_spec_mae : Type := mk_flow_spec {
  fs_priority : Z;
  fs_outer_rule : option ptr;
  fs_action_set : option ptr;
  fs_match_spec : option efx_mae_match_spec;
  fs_rule_id : Z
}.

Definition flow_set_match_spec (s : efx_mae_match_spec) (f : sfc_flow_spec_mae)
  : sfc_flow_spec_mae :=
  mk_flow_spec (fs_priority f) (fs_outer_rule f) (fs_action_set f) (Some s)
               (fs_rule_id f).

Definition flow_set_rule_id (id : Z) (f : sfc_flow_spec_mae) : sfc_flow_spec_mae :=
  mk_flow_spec (fs_priority f) (fs_outer_rule f) (fs_action_set f)
               (fs_match_spec f) id.

(** A pointer the code dereferences without a check. *)
Definition deref {A : Type} (o : option A) : M A :=
  match o with
  | Some a => ret a
  | None => undefined
  end.

(** *** The counter service ([sfc_mae_counter.c])

    The service-core library ([rte_service.h]) and [sfc_get_service_lcore]
    are outside the sources at hand; like the device, they answer as the
    environment decides, so their calls go through the same interface: one
    scripted answer per call, each call recorded.  The argument recorded
    is the core for [rte_service_lcore_start], the service id for the
    unregistration, the socket for [sfc_get_service_lcore], and the
    enable flag for the three calls that take one.  [RTE_MAX_LCORE] is
    the build-time number of cores ([rte_config.h]) and [SOCKET_ID_ANY]
    the socket wildcard of [rte_memory.h]. *)
Definition RTE_MAX_LCORE : Z := 128.
Definition SOCKET_ID_ANY : Z := -1.

(** Modelled from the spec: the flag of the counter stream start that
    tells whether the device wants consumed receive buffers returned to
    it as "credits" ([EFX_MAE_COUNTERS_STREAM_OUT_USES_CREDITS] of
    [efx.h], bit 0). *)
Definition EFX_MAE_COUNTERS_STREAM_OUT_USES_CREDITS : Z := 1.

(** Modelled from the spec: [sfc_get_service_lcore] of [sfc_service.c],
    the search for "an available background service context": the id of
    a service core on the socket, or [RTE_MAX_LCORE] when there is none.
    The action compiler only asks whether there is a core at all
    ([sa_service_lcore]); the counter service passes the core found on,
    so here the answer is one of the environment's. *)
Definition sfc_get_service_lcore (socket_id : Z) : M Z :=
  do r <- efx OP_GET_SERVICE_LCORE socket_id;
  ret (out_of r).

(** [sfc_mae_counter_service_register].  The registry is prepared before
    anything can fail; every failure is logged, and what had been set up
    by then is taken down in reverse order.  The [sfc_warn] before the
    second core lookup leaves no line in the error log. *)
Definition sfc_mae_counter_service_register (counter_stream_flags : Z) : M Z :=
  do sa <- get_sa;
  modify_mae (fun mae =>
    set_counter_service
      (mk_counter_service
         (sa_rx_pkt_burst sa) (sa_counter_rxq_dp sa) 0
         (bool_decide (Z.land counter_stream_flags
                              EFX_MAE_COUNTERS_STREAM_OUT_USES_CREDITS <> 0))
         (service_core_id (counter_service mae))
         (service_id (counter_service mae))) mae) ;;
  do cid <- sfc_get_service_lcore (sa_socket_id sa);
  do cid <-
    (if decide (cid = RTE_MAX_LCORE /\ sa_socket_id sa <> SOCKET_ID_ANY) then
       sfc_get_service_lcore SOCKET_ID_ANY
     else ret cid);
  if decide (cid = RTE_MAX_LCORE) then
    sfc_err "failed to get service lcore for counter service" ;;
    ret ENOTSUP
  else
    do r <- efx OP_SERVICE_LCORE_START cid;
    if decide (rc_of r <> 0 /\ rc_of r <> - EALREADY) then
      sfc_err "failed to start service core for counter service" ;;
      ret ENOTSUP
    else
      do r <- efx OP_SERVICE_COMPONENT_REGISTER 0;
      let sid := out_of r in
      if decide (rc_of r <> 0) then
        sfc_err "failed to register counter service component" ;;
        ret ENOEXEC
      else
        do r <- efx OP_SERVICE_MAP_LCORE_SET 1;
        if decide (rc_of r <> 0) then
          sfc_err "failed to map lcore for counter service" ;;
          do _ <- efx OP_SERVICE_COMPONENT_UNREGISTER sid;
          ret (- rc_of r)
        else
          do r <- efx OP_SERVICE_COMPONENT_RUNSTATE_SET 1;
          if decide (rc_of r < 0) then
            sfc_err "failed to run counter service component" ;;
            do _ <- efx OP_SERVICE_MAP_LCORE_SET 0;
            do _ <- efx OP_SERVICE_COMPONENT_UNREGISTER sid;
            ret (- rc_of r)
          else
            do r <- efx OP_SERVICE_RUNSTATE_SET 1;
            if decide (rc_of r < 0) then
              sfc_err "failed to run counter service" ;;
              do _ <- efx OP_SERVICE_COMPONENT_RUNSTATE_SET 0;
              do _ <- efx OP_SERVICE_MAP_LCORE_SET 0;
              do _ <- efx OP_SERVICE_COMPONENT_UNREGISTER sid;
              ret (- rc_of r)
            else
              modify_mae (fun mae =>
                set_counter_service
                  (mk_counter_service
                     (rx_pkt_burst (counter_service mae))
                     (rx_dp (counter_service mae))
                     (pushed_n_buffers (counter_service mae))
                     (use_credits (counter_service mae)) cid sid) mae) ;;
              ret 0.

(** [sfc_mae_counter_start]: the counter stream is started and the counter
    service registered, unless the queue is running already; the stream
    is stopped again when the registration fails. *)
Definition sfc_mae_counter_start : M Z :=
  do mae <- get_mae;
  if counter_rxq_running mae then ret 0
  else
    do r <- efx OP_COUNTERS_STREAM_START 0;
    if decide (rc_of r = 0) then
      do rc <- sfc_mae_counter_service_register (out_of r);
      if decide (rc = 0) then
        modify_mae (set_counter_rxq_running true) ;;
        ret 0
      else
        do _ <- efx OP_COUNTERS_STREAM_STOP 0;
        ret rc
    else
      sfc_err "failed to start MAE counters stream" ;;
      ret (rc_of r).

Definition sfc_mae_flow_insert (flow : sfc_flow_spec_mae)
  : M (Z * sfc_flow_spec_mae) :=
  do action_set_p <- deref (fs_action_set flow);
  do o <-
    match fs_outer_rule flow with
    | Some outer_rule =>
        do match_spec <- deref (fs_match_spec flow);
        do e <- sfc_mae_outer_rule_enable outer_rule match_spec;
        ret (fst e, flow_set_match_spec (snd e) flow)
    | None => ret (0, flow)
    end;
  let '(rc, flow) := o in
  if decide (rc = 0) then
    do rc <- sfc_mae_action_set_enable action_set_p;
    if decide (rc = 0) then
      do action_set <- load_action_set action_set_p;
      do rc <- (if decide (0 < as_n_counters action_set)
                then sfc_mae_counter_start else ret 0);
      do rc <-
        (if decide (rc = 0) then
           do r <- efx OP_ACTION_RULE_INSERT (fw_id (as_fw_rsrc action_set));
           ret (rc_of r, out_of r)
         else ret (rc, fs_rule_id flow));
      let '(rc, rule_id) := rc in
      if decide (rc = 0) then ret (0, flow_set_rule_id rule_id flow)
      else
        do _ <- sfc_mae_action_set_disable action_set_p;
        do _ <- match fs_outer_rule flow with
                | Some outer_rule => sfc_mae_outer_rule_disable outer_rule
                | None => ret 0
                end;
        ret (rc, flow)
    else
      do _ <- match fs_outer_rule flow with
              | Some outer_rule => sfc_mae_outer_rule_disable outer_rule
              | None => ret 0
              end;
      ret (rc, flow)
  else ret (rc, flow).

Definition sfc_mae_flow_remove (flow : sfc_flow_spec_mae)
  : M (Z * sfc_flow_spec_mae) :=
  do action_set <- deref (fs_action_set flow);
  do r <- efx OP_ACTION_RULE_REMOVE (fs_rule_id flow);
  if decide (rc_of r = 0) then
    let flow := flow_set_rule_id EFX_MAE_RSRC_ID_INVALID flow in
    do rc <- sfc_mae_action_set_disable action_set;
    (if decide (rc = 0) then ret tt
     else sfc_err "failed to disable the action set") ;;
    match fs_outer_rule flow with
    | Some outer_rule =>
        do rc <- sfc_mae_outer_rule_disable outer_rule;
        ret (rc, flow)
    | None => ret (0, flow)
    end
  else ret (rc_of r, flow).

(** ** Counters: the telemetry path *)

Definition xstats_bump_not_inuse (c : sfc_mae_counters) : sfc_mae_counters :=
  mk_counters (mae_counters c)
              (mk_xstats (u64 (not_inuse_update (xstats c) + 1))
                         (realloc_update (xstats c)))
              (n_mae_counters c).

Definition xstats_bump_realloc (c : sfc_mae_counters) : sfc_mae_counters :=
  mk_counters (mae_counters c)
              (mk_xstats (not_inuse_update (xstats c))
                         (u64 (realloc_update (xstats c) + 1)))
              (n_mae_counters c).

Definition counter_set_value (pkts bytes : Z) (c : sfc_mae_counter)
  : sfc_mae_counter :=
  mk_counter (inuse c) (generation_count c) pkts bytes
             (reset_pkts c) (reset_bytes c).

(** [sfc_mae_counter_increment]; [None] when [mae_counter_id] indexes
    outside the slot array (the source does not check). *)
Definition sfc_mae_counter_increment (counters : sfc_mae_counters)
    (mae_counter_id generation : Z) (pkts bytes : Z)
  : option sfc_mae_counters :=
  match mae_counters counters !! Z.to_nat mae_counter_id with
  | None => None
  | Some p =>
      if negb (inuse p) then Some (xstats_bump_not_inuse counters)
      else if generation <? generation_count p then
        Some (xstats_bump_realloc counters)
      else
        Some (set_mae_counters
                (<[Z.to_nat mae_counter_id :=
                     counter_set_value (u64 (value_pkts p + pkts))
                                       (u64 (value_bytes p + bytes)) p]>
                   (mae_counters counters))
                counters)
  end.

(** [struct rte_mbuf], the fields the decoder reads: segment count, data
    length, the generation count the Rx prefix left in [hash.fdir.hi], and
    the packet data. *)
Record rte_mbuf : Type := mk_mbuf {
  nb_segs : Z;
  data_len : Z;
  hash_fdir_hi : Z;
  pkt_data : list Z
}.

(** A bit field of a hardware structure: lowest bit number and width. *)
Record efx_field : Type := mk_field { lbn : Z; width : Z }.

(** The layout of the counter stream ([efx_regs_mae_counter_format.h]),
    which the sources at hand use but do not define. *)
Record packetiser_format : Type := mk_format {
  ER_RX_SL_PACKETISER_HEADER_WORD_SIZE : Z;
  ERF_SC_PACKETISER_HEADER_VERSION : efx_field;
  ERF_SC_PACKETISER_HEADER_VERSION_VALUE : Z;
  ERF_SC_PACKETISER_HEADER_IDENTIFIER : efx_field;
  ERF_SC_PACKETISER_HEADER_IDENTIFIER_AR : Z;
  ERF_SC_PACKETISER_HEADER_HEADER_OFFSET : efx_field;
  ERF_SC_PACKETISER_HEADER_HEADER_OFFSET_DEFAULT : Z;
  ERF_SC_PACKETISER_HEADER_PAYLOAD_OFFSET : efx_field;
  ERF_SC_PACKETISER_HEADER_COUNT : efx_field;
  ERF_SC_PACKETISER_PAYLOAD_COUNTER_INDEX : efx_field;
  ERF_SC_PACKETISER_PAYLOAD_PACKET_COUNT_LO : efx_field;
  ERF_SC_PACKETISER_PAYLOAD_PACKET_COUNT_HI : efx_field;
  ERF_SC_PACKETISER_PAYLOAD_BYTE_COUNT_LO : efx_field;
  ERF_SC_PACKETISER_PAYLOAD_BYTE_COUNT_HI : efx_field
}.

(** [sizeof (efx_oword_t)], the size of one counter record. *)
Definition ER_RX_SL_PACKETISER_PAYLOAD_WORD_SIZE : Z := 16.

(** The little-endian number held by a run of bytes. *)
Fixpoint le_value (bytes : list Z) : Z :=
  match bytes with
  | [] => 0
  | b :: rest => Z.lor (Z.land b 255) (Z.shiftl (le_value rest) 8)
  end.

(** Modelled from the spec: the field accessors [EFX_XWORD_FIELD] and
    [EFX_OWORD_FIELD32] of [efx_types.h], which read one of the
    "hardware-defined bit fields" of a little-endian structure as a 32-bit
    number. *)
Definition EFX_FIELD (bytes : list Z) (f : efx_field) : Z :=
  u32 (Z.land (Z.shiftr (le_value bytes) (lbn f)) (Z.ones (width f))).

(** The record loop of [sfc_mae_parse_counter_packet], from record [i]
    on, [n] records to go. *)
Fixpoint parse_counter_records (fmt : packetiser_format) (payload : list Z)
    (generation : Z) (i n : nat) (counters : sfc_mae_counters)
  : option sfc_mae_counters :=
  match n with
  | O => Some counters
  | S n' =>
      let word :=
        bytes_at payload (i * Z.to_nat ER_RX_SL_PACKETISER_PAYLOAD_WORD_SIZE)
                 (Z.to_nat ER_RX_SL_PACKETISER_PAYLOAD_WORD_SIZE) in
      let packet_count_lo :=
        EFX_FIELD word (ERF_SC_PACKETISER_PAYLOAD_PACKET_COUNT_LO fmt) in
      let packet_count_hi :=
        EFX_FIELD word (ERF_SC_PACKETISER_PAYLOAD_PACKET_COUNT_HI fmt) in
      let byte_count_lo :=
        EFX_FIELD word (ERF_SC_PACKETISER_PAYLOAD_BYTE_COUNT_LO fmt) in
      let byte_count_hi :=
        EFX_FIELD word (ERF_SC_PACKETISER_PAYLOAD_BYTE_COUNT_HI fmt) in
      match
        sfc_mae_counter_increment counters
          (EFX_FIELD word (ERF_SC_PACKETISER_PAYLOAD_COUNTER_INDEX fmt))
          generation
          (Z.lor packet_count_lo (u64 (Z.shiftl packet_count_hi 32)))
          (Z.lor byte_count_lo (u64 (Z.shiftl byte_count_hi 32)))
      with
      | None => None
      | Some counters' =>
          parse_counter_records fmt payload generation (S i) n' counters'
      end
  end.

Definition sfc_mae_parse_counter_packet (fmt : packetiser_format)
    (m : rte_mbuf) : M unit :=
  if decide (nb_segs m <> 1) then
    sfc_err "unexpectedly scattered MAE counters packet"
  else if decide (data_len m < ER_RX_SL_PACKETISER_HEADER_WORD_SIZE fmt) then
    sfc_err "too short MAE counters packet"
  else
    let generation := hash_fdir_hi m in
    let hdr := bytes_at (pkt_data m) 0 32 in
    let version := EFX_FIELD hdr (ERF_SC_PACKETISER_HEADER_VERSION fmt) in
    if decide (version <> ERF_SC_PACKETISER_HEADER_VERSION_VALUE fmt) then
      sfc_err "unexpected MAE counters packet version"
    else
      let id := EFX_FIELD hdr (ERF_SC_PACKETISER_HEADER_IDENTIFIER fmt) in
      if decide (id <> ERF_SC_PACKETISER_HEADER_IDENTIFIER_AR fmt) then
        sfc_err "unexpected MAE counters source identifier"
      else
        let header_offset :=
          EFX_FIELD hdr (ERF_SC_PACKETISER_HEADER_HEADER_OFFSET fmt) in
        if decide (header_offset <>
                   ERF_SC_PACKETISER_HEADER_HEADER_OFFSET_DEFAULT fmt) then
          sfc_err "unexpected MAE counters packet header offset"
        else
          let payload_offset :=
            EFX_FIELD hdr (ERF_SC_PACKETISER_HEADER_PAYLOAD_OFFSET fmt) in
          let counter_count :=
            EFX_FIELD hdr (ERF_SC_PACKETISER_HEADER_COUNT fmt) in
          let required_len :=
            u32 (payload_offset +
                 u32 (counter_count * ER_RX_SL_PACKETISER_PAYLOAD_WORD_SIZE)) in
          if decide (data_len m < required_len) then
            sfc_err "truncated MAE counters packet"
          else if decide (payload_offset mod 4 <> 0) then
            sfc_err "unsupported MAE counters payload offset"
          else
            do counters <- get_counters;
            match
              parse_counter_records fmt
                (drop (Z.to_nat payload_offset) (pkt_data m)) generation
                0%nat (Z.to_nat counter_count) counters
            with
            | None => undefined
            | Some counters' => put_counters counters'
            end.

(** ** Action compiler: the VXLAN encap. header *)

Record sfc_mae_parsed_item : Type := mk_parsed_item {
  pi_item : rte_flow_item;
  pi_proto_header_size : nat
}.

(** A 16-bit word of a byte buffer, read and written in place (host order;
    the operations applied to it are bitwise, so the order is immaterial). *)
Definition rd16 (buf : list Z) (ofst : nat) : Z :=
  Z.lor (nth ofst buf 0) (Z.shiftl (nth (S ofst) buf 0) 8).

Definition wr16 (buf : list Z) (ofst : nat) (w : Z) : list Z :=
  <[S ofst := Z.land (Z.shiftr w 8) 255]> (<[ofst := Z.land w 255]> buf).

(** The body of the inner loop of [sfc_mae_header_force_item_masks]: the
    word is cleared under the mask word, then the masked spec word is ORed
    in. *)
Definition force_word (header_buf spec mask : list Z) (base ofst : nat)
  : list Z :=
  let wp := rd16 header_buf (base + ofst) in
  let w_mask := rd16 mask ofst in
  let w_spec := rd16 spec ofst in
  let wp := Z.land wp (u16 (Z.lnot w_mask)) in
  let wp := Z.lor wp (Z.land w_spec w_mask) in
  wr16 header_buf (base + ofst) wp.

(** The inner loop, [for (ofst = 0; ofst < proto_header_size; ofst += 2)],
    with [n] words still to visit. *)
Fixpoint force_words (n : nat) (header_buf spec mask : list Z)
    (base ofst : nat) : list Z :=
  match n with
  | O => header_buf
  | S n' =>
      force_words n' (force_word header_buf spec mask base ofst) spec mask
                  base (ofst + 2)
  end.

(** [sfc_mae_header_force_item_masks], with [base] the offset [header_buf]
    has advanced to; undefined when an item has no spec or no mask. *)
Fixpoint sfc_mae_header_force_item_masks_from (base : nat)
    (header_buf : list Z) (parsed_items : list sfc_mae_parsed_item)
  : option (list Z) :=
  match parsed_items with
  | [] => Some header_buf
  | parsed_item :: rest =>
      let proto_header_size := pi_proto_header_size parsed_item in
      match item_spec (pi_item parsed_item), item_mask (pi_item parsed_item) with
      | Some spec, Some mask =>
          sfc_mae_header_force_item_masks_from (base + proto_header_size)
            (force_words (Nat.div2 (S proto_header_size)) header_buf spec mask
                         base 0)
            rest
      | _, _ => None
      end
  end.

Definition sfc_mae_header_force_item_masks (header_buf : list Z)
    (parsed_items : list sfc_mae_parsed_item) : option (list Z) :=
  sfc_mae_header_force_item_masks_from 0 header_buf parsed_items.

Definition SFC_IPV4_TTL_DEF : Z := 64.
Definition SFC_IPV6_VTC_FLOW_DEF : Z := 1610612736.
Definition SFC_IPV6_HOP_LIMITS_DEF : Z := 255.
Definition SFC_VXLAN_FLAGS_DEF : Z := 134217728.

(** Protocol constants and header layouts of DPDK ([rte_ether.h],
    [rte_ip.h], [rte_udp.h], [rte_vxlan.h]). *)
Definition RTE_ETHER_TYPE_IPV4 : Z := 2048.
Definition RTE_ETHER_TYPE_IPV6 : Z := 34525.
Definition RTE_ETHER_TYPE_VLAN : Z := 33024.
Definition RTE_ETHER_TYPE_QINQ : Z := 34984.
Definition RTE_ETHER_TYPE_QINQ1 : Z := 37120.
Definition RTE_ETHER_TYPE_QINQ2 : Z := 37376.
Definition RTE_ETHER_TYPE_QINQ3 : Z := 37632.
Definition IPPROTO_TCP : Z := 6.
Definition IPPROTO_UDP : Z := 17.
Definition RTE_VXLAN_DEFAULT_PORT : Z := 4789.
Definition RTE_IPV4_VHL_DEF : Z := 69.

Definition sizeof_rte_ether_hdr : nat := 14.
Definition sizeof_rte_vlan_hdr : nat := 4.
Definition sizeof_rte_ipv4_hdr : nat := 20.
Definition sizeof_rte_ipv6_hdr : nat := 40.
Definition sizeof_rte_udp_hdr : nat := 8.
Definition sizeof_rte_vxlan_hdr : nat := 8.

Definition be32_bytes (v : Z) : list Z :=
  [Z.land (Z.shiftr v 24) 255; Z.land (Z.shiftr v 16) 255;
   Z.land (Z.shiftr v 8) 255; Z.land v 255].

(** Modelled from the spec: [rte_ipv4_cksum] of [rte_ip.h], which gives
    the "IPv4 checksum" among the default field values: the Internet
    checksum of a header (the complement of the one's-complement sum of
    its 16-bit words), as the number whose network-order bytes go into
    the checksum field. *)
Fixpoint be16_sum (bytes : list Z) : Z :=
  match bytes with
  | hi :: lo :: rest => Z.lor (Z.shiftl hi 8) lo + be16_sum rest
  | [b] => Z.shiftl b 8
  | [] => 0
  end.

Definition rte_ipv4_cksum (hdr : list Z) : Z :=
  let sum := be16_sum hdr in
  let sum := Z.land sum 65535 + Z.shiftr sum 16 in
  let sum := Z.land sum 65535 + Z.shiftr sum 16 in
  u16 (Z.lnot sum).

(** Where the L3 header under construction lives: in the bounce buffer at
    an offset, or nowhere yet (the pointer refers to [dummy_buf]). *)
Record vxlan_encap_state : Type := mk_encap_state {
  ves_buf : list Z;
  ves_size : nat;
  ves_parsed_items : list sfc_mae_parsed_item;
  ves_exp_items : list rte_flow_item_type;
  ves_nb_vlan_tags : nat;
  ves_ethertype_ofst : nat;
  ves_next_proto_ofst : nat;
  ves_ipv4 : option nat;
  ves_ipv6 : option nat;
  ves_udp : option nat;
  ves_vxlan : option nat
}.

Definition eth_ethertype_ofst : nat := 12.

(** What one turn of the item loop of
    [sfc_mae_rule_parse_action_vxlan_encap] comes to: the loop goes on, the
    item is rejected with an error code, or a NULL header pointer is
    dereferenced. *)
Inductive vxlan_encap_outcome : Type :=
| VE_NEXT (st : vxlan_encap_state)
| VE_REJECT (rc : Z) (st : vxlan_encap_state)
| VE_UNDEFINED.

(** The [switch (pattern->type)] of the loop: the size of the protocol
    header and the state after the case, or [None] in the [default] case. *)
Definition vxlan_encap_switch (pattern : rte_flow_item) (st : vxlan_encap_state)
  : option (option (nat * vxlan_encap_state)) :=
  let buf := ves_buf st in
  let size := ves_size st in
  match item_type pattern with
  | RTE_FLOW_ITEM_TYPE_ETH =>
      Some (Some (sizeof_rte_ether_hdr,
            mk_encap_state buf size (ves_parsed_items st)
              [RTE_FLOW_ITEM_TYPE_VLAN; RTE_FLOW_ITEM_TYPE_IPV4;
               RTE_FLOW_ITEM_TYPE_IPV6]
              (ves_nb_vlan_tags st) eth_ethertype_ofst
              (ves_next_proto_ofst st) (ves_ipv4 st) (ves_ipv6 st)
              (ves_udp st) (ves_vxlan st)))
  | RTE_FLOW_ITEM_TYPE_VLAN =>
      let buf := bytes_put buf eth_ethertype_ofst
                           (be16_bytes RTE_ETHER_TYPE_QINQ) in
      let buf := bytes_put buf (ves_ethertype_ofst st)
                           (be16_bytes RTE_ETHER_TYPE_VLAN) in
      Some (Some (sizeof_rte_vlan_hdr,
            mk_encap_state buf size (ves_parsed_items st)
              ([RTE_FLOW_ITEM_TYPE_IPV4; RTE_FLOW_ITEM_TYPE_IPV6] ++
               (if decide (ves_nb_vlan_tags st = 0%nat)
                then [RTE_FLOW_ITEM_TYPE_VLAN] else []))
              (S (ves_nb_vlan_tags st)) (size + 2)
              (ves_next_proto_ofst st) (ves_ipv4 st) (ves_ipv6 st)
              (ves_udp st) (ves_vxlan st)))
  | RTE_FLOW_ITEM_TYPE_IPV4 =>
      let buf := bytes_put buf (ves_ethertype_ofst st)
                           (be16_bytes RTE_ETHER_TYPE_IPV4) in
      Some (Some (sizeof_rte_ipv4_hdr,
            mk_encap_state buf size (ves_parsed_items st)
              [RTE_FLOW_ITEM_TYPE_UDP]
              (ves_nb_vlan_tags st) (ves_ethertype_ofst st)
              (size + 9) (Some size) (ves_ipv6 st)
              (ves_udp st) (ves_vxlan st)))
  | RTE_FLOW_ITEM_TYPE_IPV6 =>
      let buf := bytes_put buf (ves_ethertype_ofst st)
                           (be16_bytes RTE_ETHER_TYPE_IPV6) in
      Some (Some (sizeof_rte_ipv6_hdr,
            mk_encap_state buf size (ves_parsed_items st)
              [RTE_FLOW_ITEM_TYPE_UDP]
              (ves_nb_vlan_tags st) (ves_ethertype_ofst st)
              (size + 6) (ves_ipv4 st) (Some size)
              (ves_udp st) (ves_vxlan st)))
  | RTE_FLOW_ITEM_TYPE_UDP =>
      let buf := bytes_put buf (ves_next_proto_ofst st) [IPPROTO_UDP] in
      Some (Some (sizeof_rte_udp_hdr,
            mk_encap_state buf size (ves_parsed_items st)
              [RTE_FLOW_ITEM_TYPE_VXLAN]
              (ves_nb_vlan_tags st) (ves_ethertype_ofst st)
              (ves_next_proto_ofst st) (ves_ipv4 st) (ves_ipv6 st)
              (Some size) (ves_vxlan st)))
  | RTE_FLOW_ITEM_TYPE_VXLAN =>
      match ves_udp st with
      | None => None
      | Some udp =>
          let buf := bytes_put buf (udp + 2)
                               (be16_bytes RTE_VXLAN_DEFAULT_PORT) in
          let buf := bytes_put buf (udp + 4) (be16_bytes 16) in
          let buf := bytes_put buf (udp + 6) (be16_bytes 0) in
          Some (Some (sizeof_rte_vxlan_hdr,
                mk_encap_state buf size (ves_parsed_items st) []
                  (ves_nb_vlan_tags st) (ves_ethertype_ofst st)
                  (ves_next_proto_ofst st) (ves_ipv4 st) (ves_ipv6 st)
                  (ves_udp st) (Some size)))
      end
  | _ => Some None
  end.

Definition vxlan_encap_item (buf_size : Z) (pattern : rte_flow_item)
    (st : vxlan_encap_state) : vxlan_encap_outcome :=
  match item_spec pattern, item_mask pattern, item_last pattern with
  | None, _, _ => VE_REJECT EINVAL st
  | Some _, None, _ => VE_REJECT EINVAL st
  | Some _, Some _, Some _ => VE_REJECT EINVAL st
  | Some spec, Some _, None =>
      if decide (item_type pattern = RTE_FLOW_ITEM_TYPE_VOID) then VE_NEXT st
      else if negb (bool_decide (item_type pattern ∈ ves_exp_items st)) then
        VE_REJECT ENOTSUP st
      else
        match vxlan_encap_switch pattern st with
        | None => VE_UNDEFINED
        | Some None => VE_REJECT ENOTSUP st
        | Some (Some (proto_header_size, st')) =>
            let size := ves_size st in
            if decide (buf_size < Z.of_nat (size + proto_header_size)) then
              VE_REJECT E2BIG st'
            else if Nat.odd proto_header_size then VE_REJECT EINVAL st'
            else
              VE_NEXT
                (mk_encap_state
                   (bytes_put (ves_buf st') size (take proto_header_size spec))
                   (size + proto_header_size)
                   (ves_parsed_items st' ++
                    [mk_parsed_item pattern proto_header_size])
                   (ves_exp_items st') (ves_nb_vlan_tags st')
                   (ves_ethertype_ofst st') (ves_next_proto_ofst st')
                   (ves_ipv4 st') (ves_ipv6 st') (ves_udp st') (ves_vxlan st'))
        end
  end.

Fixpoint vxlan_encap_items (buf_size : Z) (pattern : list rte_flow_item)
    (st : vxlan_encap_state) : vxlan_encap_outcome :=
  match pattern with
  | [] => VE_NEXT st
  | item :: rest =>
      match vxlan_encap_item buf_size item st with
      | VE_NEXT st' => vxlan_encap_items buf_size rest st'
      | o => o
      end
  end.

(** The default field values written after the item loop; a header that
    is not part of the template takes its writes in [dummy_buf]. *)
Definition vxlan_encap_defaults (st : vxlan_encap_state) : list Z :=
  let buf := ves_buf st in
  let dgram_len :=
    match ves_udp st with
    | Some udp => bytes_at buf (udp + 4) 2
    | None => [0; 0]
    end in
  let buf :=
    match ves_ipv4 st with
    | Some ipv4 =>
        let buf := bytes_put buf ipv4 [RTE_IPV4_VHL_DEF] in
        let buf := bytes_put buf (ipv4 + 8) [SFC_IPV4_TTL_DEF] in
        let buf := bytes_put buf (ipv4 + 2) (be16_bytes 36) in
        let buf := bytes_put buf (ipv4 + 10) (be16_bytes 0) in
        bytes_put buf (ipv4 + 10)
                  (be16_bytes (rte_ipv4_cksum (bytes_at buf ipv4 20)))
    | None => buf
    end in
  let buf :=
    match ves_ipv6 st with
    | Some ipv6 =>
        let buf := bytes_put buf ipv6 (be32_bytes SFC_IPV6_VTC_FLOW_DEF) in
        let buf := bytes_put buf (ipv6 + 7) [SFC_IPV6_HOP_LIMITS_DEF] in
        bytes_put buf (ipv6 + 4) dgram_len
    | None => buf
    end in
  match ves_vxlan st with
  | Some vxlan => bytes_put buf vxlan (be32_bytes SFC_VXLAN_FLAGS_DEF)
  | None => buf
  end.

Definition efx_mae_action_set_populate (a : efx_mae_action)
    (spec : efx_mae_actions) : M (Z * efx_mae_actions) :=
  do r <- efx OP_ACTION_SET_POPULATE 0;
  if decide (rc_of r = 0) then
    ret (0, mk_actions (ema_actions spec ++ [a]) (ema_eh_id spec)
                       (ema_counter_id spec))
  else ret (rc_of r, spec).

(** [rte_flow_error_set (error, code, ...)] returns [-code]. *)
Definition rte_flow_error_set (code : Z) : Z := - code.

Definition sfc_mae_rule_parse_action_vxlan_encap
    (definition : option (list rte_flow_item)) (spec : efx_mae_actions)
  : M (Z * efx_mae_actions) :=
  match definition with
  | None => ret (rte_flow_error_set EINVAL, spec)
  | Some pattern =>
      do mae <- get_mae;
      let bounce := bounce_eh mae in
      let st0 :=
        mk_encap_state (beh_buf bounce) 0 [] [RTE_FLOW_ITEM_TYPE_ETH] 0 0 0
                       None None None None in
      let leave (buf : list Z) (size : nat) :=
        modify_mae (set_bounce_eh
                      (mk_bounce_eh buf (beh_buf_size bounce) (Z.of_nat size)
                                    EFX_TUNNEL_PROTOCOL_VXLAN)) in
      match vxlan_encap_items (beh_buf_size bounce) pattern st0 with
      | VE_UNDEFINED => undefined
      | VE_REJECT rc st =>
          leave (ves_buf st) (ves_size st) ;;
          ret (rte_flow_error_set rc, spec)
      | VE_NEXT st =>
          if decide (ves_exp_items st <> []) then
            leave (ves_buf st) (ves_size st) ;;
            ret (rte_flow_error_set ENOTSUP, spec)
          else
            match
              sfc_mae_header_force_item_masks (vxlan_encap_defaults st)
                                              (ves_parsed_items st)
            with
            | None => undefined
            | Some buf =>
                leave buf (ves_size st) ;;
                efx_mae_action_set_populate EFX_MAE_ACTION_ENCAP spec
            end
      end
  end.

(** ** Pattern compiler *)

Record sfc_mae_ethertype : Type := mk_ethertype { et_value : Z; et_mask : Z }.

Record sfc_mae_pattern_data : Type := mk_pattern_data {
  ethertypes : list sfc_mae_ethertype;
  tci_masks : list Z;
  nb_vlan_tags : nat;
  innermost_ethertype_restriction : sfc_mae_ethertype;
  l3_next_proto_value : Z;
  l3_next_proto_mask : Z;
  l3_next_proto_restriction_value : Z;
  l3_next_proto_restriction_mask : Z;
  has_ovlan_value : bool;
  has_ovlan_mask : bool;
  has_ivlan_value : bool;
  has_ivlan_mask : bool
}.

Definition SFC_MAE_MATCH_VLAN_MAX_NTAGS : nat := 2.
Definition SFC_MAE_L2_MAX_NITEMS : nat := S SFC_MAE_MATCH_VLAN_MAX_NTAGS.

(** [memset (&pattern_data, 0, sizeof (pattern_data))]. *)
Definition pattern_data_zero : sfc_mae_pattern_data :=
  mk_pattern_data (repeat (mk_ethertype 0 0) SFC_MAE_L2_MAX_NITEMS)
                  (repeat 0 SFC_MAE_MATCH_VLAN_MAX_NTAGS) 0
                  (mk_ethertype 0 0) 0 0 0 0 false false false false.

Definition pdata_set_ethertypes (l : list sfc_mae_ethertype)
    (d : sfc_mae_pattern_data) : sfc_mae_pattern_data :=
  mk_pattern_data l (tci_masks d) (nb_vlan_tags d)
    (innermost_ethertype_restriction d) (l3_next_proto_value d)
    (l3_next_proto_mask d) (l3_next_proto_restriction_value d)
    (l3_next_proto_restriction_mask d) (has_ovlan_value d) (has_ovlan_mask d)
    (has_ivlan_value d) (has_ivlan_mask d).

Definition pdata_set_nb_vlan_tags (n : nat) (d : sfc_mae_pattern_data)
  : sfc_mae_pattern_data :=
  mk_pattern_data (ethertypes d) (tci_masks d) n
    (innermost_ethertype_restriction d) (l3_next_proto_value d)
    (l3_next_proto_mask d) (l3_next_proto_restriction_value d)
    (l3_next_proto_restriction_mask d) (has_ovlan_value d) (has_ovlan_mask d)
    (has_ivlan_value d) (has_ivlan_mask d).

Definition pdata_set_innermost (e : sfc_mae_ethertype) (d : sfc_mae_pattern_data)
  : sfc_mae_pattern_data :=
  mk_pattern_data (ethertypes d) (tci_masks d) (nb_vlan_tags d) e
    (l3_next_proto_value d) (l3_next_proto_mask d)
    (l3_next_proto_restriction_value d) (l3_next_proto_restriction_mask d)
    (has_ovlan_value d) (has_ovlan_mask d) (has_ivlan_value d) (has_ivlan_mask d).

Definition pdata_set_l3_next_proto (value mask : Z) (d : sfc_mae_pattern_data)
  : sfc_mae_pattern_data :=
  mk_pattern_data (ethertypes d) (tci_masks d) (nb_vlan_tags d)
    (innermost_ethertype_restriction d) value mask
    (l3_next_proto_restriction_value d) (l3_next_proto_restriction_mask d)
    (has_ovlan_value d) (has_ovlan_mask d) (has_ivlan_value d) (has_ivlan_mask d).

Definition pdata_set_l3_restriction (value mask : Z) (d : sfc_mae_pattern_data)
  : sfc_mae_pattern_data :=
  mk_pattern_data (ethertypes d) (tci_masks d) (nb_vlan_tags d)
    (innermost_ethertype_restriction d) (l3_next_proto_value d)
    (l3_next_proto_mask d) value mask
    (has_ovlan_value d) (has_ovlan_mask d) (has_ivlan_value d) (has_ivlan_mask d).

(** Which of the two specifications of the parsing context the pointer
    [match_spec] refers to, and which of the two remap tables
    [field_ids_remap] refers to. *)
Inductive match_spec_ref : Type := MATCH_SPEC_ACTION | MATCH_SPEC_OUTER.
Inductive field_ids_remap_ref : Type := FIELD_IDS_NO_REMAP | FIELD_IDS_REMAP_TO_ENCAP.

#[global] Instance match_spec_ref_eq_dec : EqDecision match_spec_ref.
Proof. solve_decision. Defined.

Record sfc_mae_parse_ctx : Type := mk_parse_ctx {
  match_spec_action : efx_mae_match_spec;
  match_spec_outer : option efx_mae_match_spec;
  match_spec : match_spec_ref;
  field_ids_remap : field_ids_remap_ref;
  tunnel_def_mask : option (list Z);
  match_mport_set : bool;
  pattern_data : sfc_mae_pattern_data;
  encap_type : efx_tunnel_protocol;
  priority : Z
}.

Definition ctx_set_pattern_data (d : sfc_mae_pattern_data) (c : sfc_mae_parse_ctx)
  : sfc_mae_parse_ctx :=
  mk_parse_ctx (match_spec_action c) (match_spec_outer c) (match_spec c)
               (field_ids_remap c) (tunnel_def_mask c) (match_mport_set c) d
               (encap_type c) (priority c).

Definition ctx_set_match_mport_set (b : bool) (c : sfc_mae_parse_ctx)
  : sfc_mae_parse_ctx :=
  mk_parse_ctx (match_spec_action c) (match_spec_outer c) (match_spec c)
               (field_ids_remap c) (tunnel_def_mask c) b (pattern_data c)
               (encap_type c) (priority c).

Definition ctx_set_action (s : efx_mae_match_spec) (c : sfc_mae_parse_ctx)
  : sfc_mae_parse_ctx :=
  mk_parse_ctx s (match_spec_outer c) (match_spec c)
               (field_ids_remap c) (tunnel_def_mask c) (match_mport_set c)
               (pattern_data c) (encap_type c) (priority c).

Definition ctx_set_outer (s : option efx_mae_match_spec) (c : sfc_mae_parse_ctx)
  : sfc_mae_parse_ctx :=
  mk_parse_ctx (match_spec_action c) s (match_spec c)
               (field_ids_remap c) (tunnel_def_mask c) (match_mport_set c)
               (pattern_data c) (encap_type c) (priority c).

(** The two remap tables.  An index the initialiser does not list holds 0,
    which is [EFX_MAE_FIELD_INGRESS_MPORT_SELECTOR]. *)
Definition field_ids_no_remap (f : efx_mae_field_id) : efx_mae_field_id :=
  match f with
  | EFX_MAE_FIELD_ETHER_TYPE_BE | EFX_MAE_FIELD_ETH_SADDR_BE
  | EFX_MAE_FIELD_ETH_DADDR_BE | EFX_MAE_FIELD_VLAN0_TCI_BE
  | EFX_MAE_FIELD_VLAN0_PROTO_BE | EFX_MAE_FIELD_VLAN1_TCI_BE
  | EFX_MAE_FIELD_VLAN1_PROTO_BE | EFX_MAE_FIELD_SRC_IP4_BE
  | EFX_MAE_FIELD_DST_IP4_BE | EFX_MAE_FIELD_IP_PROTO | EFX_MAE_FIELD_IP_TOS
  | EFX_MAE_FIELD_IP_TTL | EFX_MAE_FIELD_SRC_IP6_BE | EFX_MAE_FIELD_DST_IP6_BE
  | EFX_MAE_FIELD_L4_SPORT_BE | EFX_MAE_FIELD_L4_DPORT_BE
  | EFX_MAE_FIELD_TCP_FLAGS_BE => f
  | _ => EFX_MAE_FIELD_INGRESS_MPORT_SELECTOR
  end.

Definition field_ids_remap_to_encap (f : efx_mae_field_id) : efx_mae_field_id :=
  match f with
  | EFX_MAE_FIELD_ETHER_TYPE_BE => EFX_MAE_FIELD_ENC_ETHER_TYPE_BE
  | EFX_MAE_FIELD_ETH_SADDR_BE => EFX_MAE_FIELD_ENC_ETH_SADDR_BE
  | EFX_MAE_FIELD_ETH_DADDR_BE => EFX_MAE_FIELD_ENC_ETH_DADDR_BE
  | EFX_MAE_FIELD_VLAN0_TCI_BE => EFX_MAE_FIELD_ENC_VLAN0_TCI_BE
  | EFX_MAE_FIELD_VLAN0_PROTO_BE => EFX_MAE_FIELD_ENC_VLAN0_PROTO_BE
  | EFX_MAE_FIELD_VLAN1_TCI_BE => EFX_MAE_FIELD_ENC_VLAN1_TCI_BE
  | EFX_MAE_FIELD_VLAN1_PROTO_BE => EFX_MAE_FIELD_ENC_VLAN1_PROTO_BE
  | EFX_MAE_FIELD_SRC_IP4_BE => EFX_MAE_FIELD_ENC_SRC_IP4_BE
  | EFX_MAE_FIELD_DST_IP4_BE => EFX_MAE_FIELD_ENC_DST_IP4_BE
  | EFX_MAE_FIELD_IP_PROTO => EFX_MAE_FIELD_ENC_IP_PROTO
  | EFX_MAE_FIELD_IP_TOS => EFX_MAE_FIELD_ENC_IP_TOS
  | EFX_MAE_FIELD_IP_TTL => EFX_MAE_FIELD_ENC_IP_TTL
  | EFX_MAE_FIELD_SRC_IP6_BE => EFX_MAE_FIELD_ENC_SRC_IP6_BE
  | EFX_MAE_FIELD_DST_IP6_BE => EFX_MAE_FIELD_ENC_DST_IP6_BE
  | EFX_MAE_FIELD_L4_SPORT_BE => EFX_MAE_FIELD_ENC_L4_SPORT_BE
  | EFX_MAE_FIELD_L4_DPORT_BE => EFX_MAE_FIELD_ENC_L4_DPORT_BE
  | _ => EFX_MAE_FIELD_INGRESS_MPORT_SELECTOR
  end.

Definition fremap (c : sfc_mae_parse_ctx) (f : efx_mae_field_id)
  : efx_mae_field_id :=
  match field_ids_remap c with
  | FIELD_IDS_NO_REMAP => field_ids_no_remap f
  | FIELD_IDS_REMAP_TO_ENCAP => field_ids_remap_to_encap f
  end.

(** Modelled from the spec: [efx_mae_match_spec_field_set], the
    "match-spec field-set" call of the device control interface: it either
    fails with the device's code and changes nothing, or records the value
    and mask bytes for the field. *)
Definition efx_mae_match_spec_field_set (spec : efx_mae_match_spec)
    (field_id : efx_mae_field_id) (value mask : list Z)
  : M (Z * efx_mae_match_spec) :=
  do r <- efx OP_MATCH_SPEC_FIELD_SET 0;
  if decide (rc_of r = 0) then ret (0, match_spec_write spec field_id value mask)
  else ret (rc_of r, spec).

(** A field-set call through [ctx->match_spec]. *)
Definition ctx_field_set (c : sfc_mae_parse_ctx) (field_id : efx_mae_field_id)
    (value mask : list Z) : M (Z * sfc_mae_parse_ctx) :=
  match match_spec c with
  | MATCH_SPEC_ACTION =>
      do r <- efx_mae_match_spec_field_set (match_spec_action c) field_id
                                           value mask;
      ret (fst r, ctx_set_action (snd r) c)
  | MATCH_SPEC_OUTER =>
      do outer <- deref (match_spec_outer c);
      do r <- efx_mae_match_spec_field_set outer field_id value mask;
      ret (fst r, ctx_set_outer (Some (snd r)) c)
  end.

(** The loop of [sfc_mae_set_ethertypes] over the VLAN tags, from tag [i]
    on, [n] tags to go: tag [i] goes to VLAN0_PROTO or VLAN1_PROTO. *)
Fixpoint set_ethertypes_tags (pdata : sfc_mae_pattern_data) (n i : nat)
    (ctx : sfc_mae_parse_ctx) : M (Z * sfc_mae_parse_ctx) :=
  match n with
  | O => ret (0, ctx)
  | S n' =>
      do et <- deref (ethertypes pdata !! i);
      do f <- deref ([EFX_MAE_FIELD_VLAN0_PROTO_BE;
                      EFX_MAE_FIELD_VLAN1_PROTO_BE] !! i);
      do r <- ctx_field_set ctx (fremap ctx f)
                            (be16_bytes (et_value et))
                            (be16_bytes (et_mask et));
      let '(rc, ctx) := r in
      if decide (rc = 0) then set_ethertypes_tags pdata n' (S i) ctx
      else ret (rc, ctx)
  end.

Definition sfc_mae_set_ethertypes (ctx : sfc_mae_parse_ctx)
  : M (Z * sfc_mae_parse_ctx) :=
  let pdata := pattern_data ctx in
  do et <- deref (ethertypes pdata !! nb_vlan_tags pdata);
  do r <- ctx_field_set ctx (fremap ctx EFX_MAE_FIELD_ETHER_TYPE_BE)
                        (be16_bytes (et_value et)) (be16_bytes (et_mask et));
  let '(rc, ctx) := r in
  if decide (rc = 0) then
    set_ethertypes_tags pdata (nb_vlan_tags pdata) 0%nat ctx
  else ret (rc, ctx).

Definition supported_tpids : list Z :=
  [RTE_ETHER_TYPE_VLAN; RTE_ETHER_TYPE_QINQ; RTE_ETHER_TYPE_QINQ1;
   RTE_ETHER_TYPE_QINQ2; RTE_ETHER_TYPE_QINQ3].

(** The TPID search of [sfc_mae_rule_process_pattern_data]: the first
    index from [tpid_idx] on, below [nb_supported_tpids], at which the
    table holds [value]; [nb_supported_tpids] when there is none. *)
Fixpoint tpid_search (n : nat) (tpid_idx nb_supported_tpids : nat) (value : Z)
  : nat :=
  match n with
  | O => nb_supported_tpids
  | S n' =>
      if decide (tpid_idx < nb_supported_tpids)%nat then
        if decide (Some value = supported_tpids !! tpid_idx) then tpid_idx
        else tpid_search n' (S tpid_idx) nb_supported_tpids value
      else nb_supported_tpids
  end.

(** The loop over the VLAN tags: [Some] number of TPIDs still supported
    when every tag passes, [None] for [EINVAL]. *)
Fixpoint check_tpids (n : nat) (ethertype_idx : nat) (d : sfc_mae_pattern_data)
    (nb_supported_tpids : nat) : M (option nat) :=
  match n with
  | O => ret (Some nb_supported_tpids)
  | S n' =>
      do et <- deref (ethertypes d !! ethertype_idx);
      if decide (et_mask et <> 65535) then ret None
      else
        let start := (nb_vlan_tags d - ethertype_idx - 1)%nat in
        let tpid_idx :=
          if decide (start < nb_supported_tpids)%nat then
            tpid_search (length supported_tpids) start nb_supported_tpids
                        (et_value et)
          else start in
        if decide (tpid_idx = nb_supported_tpids) then ret None
        else check_tpids n' (S ethertype_idx) d 1%nat
  end.

Definition sfc_mae_rule_process_pattern_data (ctx : sfc_mae_parse_ctx)
  : M (Z * sfc_mae_parse_ctx) :=
  let pdata := pattern_data ctx in
  let fail (rc : Z) (ctx : sfc_mae_parse_ctx) : M (Z * sfc_mae_parse_ctx) :=
    ret (rte_flow_error_set rc, ctx) in
  let nb_supported_tpids :=
    if decide (et_mask (innermost_ethertype_restriction pdata) <> 0) then
      if decide (nb_vlan_tags pdata < SFC_MAE_MATCH_VLAN_MAX_NTAGS)%nat then 1%nat
      else length supported_tpids
    else length supported_tpids in
  do t <- check_tpids (nb_vlan_tags pdata) 0 pdata nb_supported_tpids;
  match t with
  | None => fail EINVAL ctx
  | Some _ =>
      let ethertype_idx := nb_vlan_tags pdata in
      do e <-
        (if decide (et_mask (innermost_ethertype_restriction pdata) = 65535) then
           do et <- deref (ethertypes pdata !! ethertype_idx);
           if decide (et_mask et = 0) then
             ret (Some (pdata_set_ethertypes
                          (<[ethertype_idx :=
                               mk_ethertype
                                 (et_value (innermost_ethertype_restriction pdata))
                                 65535]> (ethertypes pdata)) pdata))
           else if decide (et_mask et <> 65535 \/
                           et_value et <>
                           et_value (innermost_ethertype_restriction pdata)) then
             ret None
           else ret (Some pdata)
         else ret (Some pdata));
      match e with
      | None => fail EINVAL ctx
      | Some pdata =>
          let ctx := ctx_set_pattern_data pdata ctx in
          do s <- sfc_mae_set_ethertypes ctx;
          let '(rc, ctx) := s in
          if decide (rc = 0) then
            let p :=
              if decide (l3_next_proto_restriction_mask pdata = 255) then
                if decide (l3_next_proto_mask pdata = 0) then
                  Some (pdata_set_l3_next_proto
                          (l3_next_proto_restriction_value pdata) 255 pdata)
                else if decide (l3_next_proto_mask pdata <> 255 \/
                                l3_next_proto_value pdata <>
                                l3_next_proto_restriction_value pdata) then None
                else Some pdata
              else Some pdata in
            match p with
            | None => fail EINVAL ctx
            | Some pdata =>
                let ctx := ctx_set_pattern_data pdata ctx in
                do r <- ctx_field_set ctx (fremap ctx EFX_MAE_FIELD_IP_PROTO)
                                      [l3_next_proto_value pdata]
                                      [l3_next_proto_mask pdata];
                let '(rc, ctx) := r in
                if decide (rc = 0) then ret (0, ctx) else fail rc ctx
            end
          else fail rc ctx
      end
  end.

(** *** Items *)

Record sfc_mae_field_locator : Type := mk_floc {
  fl_field_id : efx_mae_field_id;
  fl_size : nat;
  fl_ofst : nat
}.

Definition SFC_MAE_FIELD_HANDLING_DEFERRED : efx_mae_field_id := EFX_MAE_FIELD_NIDS.

(** [memset (p + ofst, 0xff, size)] inside the bounds of the buffer. *)
Definition memset_ff (buf : list Z) (ofst size : nat) : list Z :=
  bytes_put buf ofst (repeat 255 (min size (length buf - ofst))).

Definition sfc_mae_item_build_supp_mask
    (field_locators : list sfc_mae_field_locator) (mask_size : nat) : list Z :=
  fold_left (fun mask fl => memset_ff mask (fl_ofst fl) (fl_size fl))
            field_locators (repeat 0 mask_size).

(** Modelled from the spec: [sfc_flow_parse_init] of the generic front end
    ([sfc_flow.c]), which hands an item's spec and mask to the item parser.
    An item is "type tag, spec bytes, mask bytes, optional range-end"; a
    mask or a range-end without a spec is an error; an item without a mask
    takes the default mask of its type; a range-end that is neither zero
    nor equal to the spec is a range and is rejected; the mask may not ask
    for more than the supported mask.  The result is the return code, the
    spec (if any) and the mask. *)
Definition sfc_flow_parse_init (item : rte_flow_item)
    (supp_mask : option (list Z)) (def_mask : option (list Z)) (size : nat)
  : Z * option (list Z) * list Z :=
  let err := (- EINVAL, None, []) in
  match item_spec item, item_last item, item_mask item with
  | None, Some _, _ => err
  | None, _, Some _ => err
  | spec, last, mask =>
      match (match mask with Some m => Some m | None => def_mask end) with
      | None => err
      | Some mask =>
          match spec with
          | None => (0, None, mask)
          | Some spec =>
              let ranging :=
                match last with
                | Some last =>
                    negb (forallb (Z.eqb 0) (take size last)) &&
                    negb (bool_decide (take size last = take size spec))
                | None => false
                end in
              if ranging then err
              else
                match supp_mask with
                | None => err
                | Some supp =>
                    if forallb
                         (fun i => Z.land (Z.lnot (nth i supp 0)) (nth i mask 0) =? 0)
                         (seq 0 size)
                    then (0, Some spec, mask)
                    else (- ENOTSUP, None, [])
                end
          end
      end
  end.

(** [sfc_mae_parse_item]: every locator that is not deferred is written
    through [ctx->match_spec]; the first failure ends the loop. *)
Fixpoint sfc_mae_parse_item (field_locators : list sfc_mae_field_locator)
    (spec mask : list Z) (ctx : sfc_mae_parse_ctx) : M (Z * sfc_mae_parse_ctx) :=
  match field_locators with
  | [] => ret (0, ctx)
  | fl :: rest =>
      if decide (fl_field_id fl = SFC_MAE_FIELD_HANDLING_DEFERRED) then
        sfc_mae_parse_item rest spec mask ctx
      else
        do r <- ctx_field_set ctx (fremap ctx (fl_field_id fl))
                              (bytes_at spec (fl_ofst fl) (fl_size fl))
                              (bytes_at mask (fl_ofst fl) (fl_size fl));
        let '(rc, ctx) := r in
        if decide (rc = 0) then sfc_mae_parse_item rest spec mask ctx
        else ret (rte_flow_error_set rc, ctx)
  end.

(** Sizes of the item structures and their default masks ([rte_flow.h]). *)
Definition sizeof_rte_flow_item_eth : nat := 20.
Definition sizeof_rte_flow_item_vlan : nat := 8.
Definition sizeof_rte_flow_item_ipv4 : nat := 20.
Definition sizeof_rte_flow_item_ipv6 : nat := 44.
Definition sizeof_rte_flow_item_tcp : nat := 20.
Definition sizeof_rte_flow_item_udp : nat := 8.
Definition sizeof_rte_flow_item_vxlan : nat := 8.
Definition sizeof_rte_flow_item_port_id : nat := 4.

Definition rte_flow_item_eth_mask : list Z := repeat 255 12 ++ repeat 0 8.
Definition rte_flow_item_vlan_mask : list Z := [15; 255] ++ repeat 0 6.
Definition rte_flow_item_ipv4_mask : list Z := repeat 0 12 ++ repeat 255 8.
Definition rte_flow_item_ipv6_mask : list Z := repeat 0 8 ++ repeat 255 32 ++ repeat 0 4.
Definition rte_flow_item_tcp_mask : list Z := repeat 255 4 ++ repeat 0 16.
Definition rte_flow_item_udp_mask : list Z := repeat 255 4 ++ repeat 0 4.
Definition rte_flow_item_vxlan_mask : list Z := repeat 0 4 ++ repeat 255 3 ++ [0].
Definition rte_flow_item_geneve_mask : list Z := repeat 0 4 ++ repeat 255 3 ++ [0].
Definition rte_flow_item_nvgre_mask : list Z := repeat 0 4 ++ repeat 255 3 ++ [0].
Definition rte_flow_item_port_id_mask : list Z := repeat 255 4.

Definition flocs_eth : list sfc_mae_field_locator :=
  [mk_floc SFC_MAE_FIELD_HANDLING_DEFERRED 2 12;
   mk_floc EFX_MAE_FIELD_ETH_DADDR_BE 6 0;
   mk_floc EFX_MAE_FIELD_ETH_SADDR_BE 6 6].

Definition pdata_store_ethertype (i : nat) (spec mask : list Z) (ofst : nat)
    (d : sfc_mae_pattern_data) : sfc_mae_pattern_data :=
  pdata_set_ethertypes
    (<[i := mk_ethertype (be16_of_bytes (bytes_at spec ofst 2))
                         (be16_of_bytes (bytes_at mask ofst 2))]> (ethertypes d))
    d.

Definition sfc_mae_rule_parse_item_eth (item : rte_flow_item)
    (ctx_mae : sfc_mae_parse_ctx) : M (Z * sfc_mae_parse_ctx) :=
  let supp_mask := sfc_mae_item_build_supp_mask flocs_eth sizeof_rte_flow_item_eth in
  let '(rc, spec, mask) :=
    sfc_flow_parse_init item (Some supp_mask) (Some rte_flow_item_eth_mask)
                        sizeof_rte_flow_item_eth in
  if decide (rc = 0) then
    match spec with
    | Some spec =>
        let ctx_mae :=
          ctx_set_pattern_data
            (pdata_store_ethertype 0 spec mask 12 (pattern_data ctx_mae)) ctx_mae in
        sfc_mae_parse_item flocs_eth spec mask ctx_mae
    | None => ret (0, ctx_mae)
    end
  else ret (rc, ctx_mae).

Definition flocs_vlan : list sfc_mae_field_locator :=
  [mk_floc EFX_MAE_FIELD_VLAN0_TCI_BE 2 0;
   mk_floc SFC_MAE_FIELD_HANDLING_DEFERRED 2 2;
   mk_floc EFX_MAE_FIELD_VLAN1_TCI_BE 2 0;
   mk_floc SFC_MAE_FIELD_HANDLING_DEFERRED 2 2].

Definition sfc_mae_rule_parse_item_vlan (item : rte_flow_item)
    (ctx_mae : sfc_mae_parse_ctx) : M (Z * sfc_mae_parse_ctx) :=
  let pdata := pattern_data ctx_mae in
  if decide (nb_vlan_tags pdata = SFC_MAE_MATCH_VLAN_MAX_NTAGS) then
    ret (rte_flow_error_set ENOTSUP, ctx_mae)
  else
    let nb_flocs := (length flocs_vlan / SFC_MAE_MATCH_VLAN_MAX_NTAGS)%nat in
    let flocs := take nb_flocs (drop (nb_vlan_tags pdata * nb_flocs) flocs_vlan) in
    let pdata := pdata_set_nb_vlan_tags (S (nb_vlan_tags pdata)) pdata in
    let ctx_mae := ctx_set_pattern_data pdata ctx_mae in
    let supp_mask := sfc_mae_item_build_supp_mask flocs sizeof_rte_flow_item_vlan in
    let '(rc, spec, mask) :=
      sfc_flow_parse_init item (Some supp_mask) (Some rte_flow_item_vlan_mask)
                          sizeof_rte_flow_item_vlan in
    if decide (rc = 0) then
      match spec with
      | Some spec =>
          let ctx_mae :=
            ctx_set_pattern_data
              (pdata_store_ethertype (nb_vlan_tags pdata) spec mask 2 pdata)
              ctx_mae in
          sfc_mae_parse_item flocs spec mask ctx_mae
      | None => ret (0, ctx_mae)
      end
    else ret (rc, ctx_mae).

Definition flocs_ipv4 : list sfc_mae_field_locator :=
  [mk_floc EFX_MAE_FIELD_SRC_IP4_BE 4 12;
   mk_floc EFX_MAE_FIELD_DST_IP4_BE 4 16;
   mk_floc SFC_MAE_FIELD_HANDLING_DEFERRED 1 9;
   mk_floc EFX_MAE_FIELD_IP_TOS 1 1;
   mk_floc EFX_MAE_FIELD_IP_TTL 1 8].

Definition sfc_mae_rule_parse_item_ipv4 (item : rte_flow_item)
    (ctx_mae : sfc_mae_parse_ctx) : M (Z * sfc_mae_parse_ctx) :=
  let supp_mask := sfc_mae_item_build_supp_mask flocs_ipv4 sizeof_rte_flow_item_ipv4 in
  let '(rc, spec, mask) :=
    sfc_flow_parse_init item (Some supp_mask) (Some rte_flow_item_ipv4_mask)
                        sizeof_rte_flow_item_ipv4 in
  if decide (rc = 0) then
    let pdata :=
      pdata_set_innermost (mk_ethertype RTE_ETHER_TYPE_IPV4 65535)
                          (pattern_data ctx_mae) in
    match spec with
    | Some spec =>
        let pdata := pdata_set_l3_next_proto (nth 9 spec 0) (nth 9 mask 0) pdata in
        sfc_mae_parse_item flocs_ipv4 spec mask (ctx_set_pattern_data pdata ctx_mae)
    | None => ret (0, ctx_set_pattern_data pdata ctx_mae)
    end
  else ret (rc, ctx_mae).

Definition flocs_ipv6 : list sfc_mae_field_locator :=
  [mk_floc EFX_MAE_FIELD_SRC_IP6_BE 16 8;
   mk_floc EFX_MAE_FIELD_DST_IP6_BE 16 24;
   mk_floc SFC_MAE_FIELD_HANDLING_DEFERRED 1 6;
   mk_floc EFX_MAE_FIELD_IP_TTL 1 7].

Definition RTE_IPV6_HDR_TC_MASK : Z := 267386880.
Definition RTE_IPV6_HDR_TC_SHIFT : Z := 20.

Definition be32_of_bytes (b : list Z) : Z :=
  Z.lor (Z.shiftl (nth 0 b 0) 24)
        (Z.lor (Z.shiftl (nth 1 b 0) 16)
               (Z.lor (Z.shiftl (nth 2 b 0) 8) (nth 3 b 0))).

Definition sfc_mae_rule_parse_item_ipv6 (item : rte_flow_item)
    (ctx_mae : sfc_mae_parse_ctx) : M (Z * sfc_mae_parse_ctx) :=
  let supp_mask := sfc_mae_item_build_supp_mask flocs_ipv6 sizeof_rte_flow_item_ipv6 in
  let supp_mask := bytes_put supp_mask 0 (be32_bytes RTE_IPV6_HDR_TC_MASK) in
  let '(rc, spec, mask) :=
    sfc_flow_parse_init item (Some supp_mask) (Some rte_flow_item_ipv6_mask)
                        sizeof_rte_flow_item_ipv6 in
  if decide (rc = 0) then
    let pdata :=
      pdata_set_innermost (mk_ethertype RTE_ETHER_TYPE_IPV6 65535)
                          (pattern_data ctx_mae) in
    match spec with
    | Some spec =>
        let pdata := pdata_set_l3_next_proto (nth 6 spec 0) (nth 6 mask 0) pdata in
        do r <- sfc_mae_parse_item flocs_ipv6 spec mask
                                   (ctx_set_pattern_data pdata ctx_mae);
        let '(rc, ctx_mae) := r in
        if decide (rc = 0) then
          let tc_value :=
            u8 (Z.shiftr (Z.land (be32_of_bytes (bytes_at spec 0 4))
                                 RTE_IPV6_HDR_TC_MASK) RTE_IPV6_HDR_TC_SHIFT) in
          let tc_mask :=
            u8 (Z.shiftr (Z.land (be32_of_bytes (bytes_at mask 0 4))
                                 RTE_IPV6_HDR_TC_MASK) RTE_IPV6_HDR_TC_SHIFT) in
          do r <- ctx_field_set ctx_mae (fremap ctx_mae EFX_MAE_FIELD_IP_TOS)
                                [tc_value] [tc_mask];
          let '(rc, ctx_mae) := r in
          if decide (rc = 0) then ret (0, ctx_mae)
          else ret (rte_flow_error_set rc, ctx_mae)
        else ret (rc, ctx_mae)
    | None => ret (0, ctx_set_pattern_data pdata ctx_mae)
    end
  else ret (rc, ctx_mae).

Definition flocs_tcp : list sfc_mae_field_locator :=
  [mk_floc EFX_MAE_FIELD_L4_SPORT_BE 2 0;
   mk_floc EFX_MAE_FIELD_L4_DPORT_BE 2 2;
   mk_floc EFX_MAE_FIELD_TCP_FLAGS_BE 2 12].

Definition sfc_mae_rule_parse_item_tcp (item : rte_flow_item)
    (ctx_mae : sfc_mae_parse_ctx) : M (Z * sfc_mae_parse_ctx) :=
  if decide (match_spec ctx_mae <> MATCH_SPEC_ACTION) then
    ret (rte_flow_error_set EINVAL, ctx_mae)
  else
    let supp_mask := sfc_mae_item_build_supp_mask flocs_tcp sizeof_rte_flow_item_tcp in
    let '(rc, spec, mask) :=
      sfc_flow_parse_init item (Some supp_mask) (Some rte_flow_item_tcp_mask)
                          sizeof_rte_flow_item_tcp in
    if decide (rc = 0) then
      let ctx_mae :=
        ctx_set_pattern_data
          (pdata_set_l3_restriction IPPROTO_TCP 255 (pattern_data ctx_mae))
          ctx_mae in
      match spec with
      | None => ret (0, ctx_mae)
      | Some spec => sfc_mae_parse_item flocs_tcp spec mask ctx_mae
      end
    else ret (rc, ctx_mae).

Definition flocs_udp : list sfc_mae_field_locator :=
  [mk_floc EFX_MAE_FIELD_L4_SPORT_BE 2 0;
   mk_floc EFX_MAE_FIELD_L4_DPORT_BE 2 2].

Definition sfc_mae_rule_parse_item_udp (item : rte_flow_item)
    (ctx_mae : sfc_mae_parse_ctx) : M (Z * sfc_mae_parse_ctx) :=
  let supp_mask := sfc_mae_item_build_supp_mask flocs_udp sizeof_rte_flow_item_udp in
  let '(rc, spec, mask) :=
    sfc_flow_parse_init item (Some supp_mask) (Some rte_flow_item_udp_mask)
                        sizeof_rte_flow_item_udp in
  if decide (rc = 0) then
    let ctx_mae :=
      ctx_set_pattern_data
        (pdata_set_l3_restriction IPPROTO_UDP 255 (pattern_data ctx_mae))
        ctx_mae in
    match spec with
    | None => ret (0, ctx_mae)
    | Some spec => sfc_mae_parse_item flocs_udp spec mask ctx_mae
    end
  else ret (rc, ctx_mae).

Definition flocs_tunnel : list sfc_mae_field_locator :=
  [mk_floc EFX_MAE_FIELD_INGRESS_MPORT_SELECTOR 3 4].

Definition sfc_mae_rule_parse_item_tunnel (item : rte_flow_item)
    (ctx_mae : sfc_mae_parse_ctx) : M (Z * sfc_mae_parse_ctx) :=
  do r <- sfc_mae_rule_process_pattern_data ctx_mae;
  let '(rc, ctx_mae) := r in
  if decide (rc = 0) then
    let ctx_mae := ctx_set_pattern_data pattern_data_zero ctx_mae in
    let supp_mask := sfc_mae_item_build_supp_mask flocs_tunnel 8 in
    let '(rc, spec, mask) :=
      sfc_flow_parse_init item (Some supp_mask) (tunnel_def_mask ctx_mae)
        (match tunnel_def_mask ctx_mae with Some m => length m | None => 0%nat end) in
    if decide (rc = 0) then
      let ctx_mae :=
        mk_parse_ctx (match_spec_action ctx_mae) (match_spec_outer ctx_mae)
                     MATCH_SPEC_ACTION FIELD_IDS_NO_REMAP
                     (tunnel_def_mask ctx_mae) (match_mport_set ctx_mae)
                     (pattern_data ctx_mae) (encap_type ctx_mae)
                     (priority ctx_mae) in
      match spec with
      | None => ret (0, ctx_mae)
      | Some spec =>
          let vnet_id_v := 0 :: bytes_at spec 4 3 in
          let vnet_id_m := 0 :: bytes_at mask 4 3 in
          do r <- ctx_field_set ctx_mae EFX_MAE_FIELD_ENC_VNET_ID_BE
                                vnet_id_v vnet_id_m;
          let '(rc, ctx_mae) := r in
          if decide (rc = 0) then ret (0, ctx_mae)
          else ret (rte_flow_error_set rc, ctx_mae)
      end
    else ret (rc, ctx_mae)
  else ret (rc, ctx_mae).

(** *** Traffic source items *)

Definition rte_flow_item_phy_port_mask : list Z := repeat 0 4.
Definition rte_flow_item_vf_mask : list Z := repeat 0 4.
Definition UINT16_MAX : Z := 65535.

(** [efx_mae_match_spec_mport_set] with a NULL mask: an exact match on the
    traffic source. *)
Definition ctx_mport_set (c : sfc_mae_parse_ctx) (mport : Z)
  : M (Z * sfc_mae_parse_ctx) :=
  do r <- efx OP_MATCH_SPEC_MPORT_SET mport;
  if decide (rc_of r = 0) then
    match match_spec c with
    | MATCH_SPEC_ACTION =>
        ret (0, ctx_set_action
                  (match_spec_write (match_spec_action c)
                     EFX_MAE_FIELD_INGRESS_MPORT_SELECTOR (u32_le_bytes mport)
                     [255; 255; 255; 255]) c)
    | MATCH_SPEC_OUTER =>
        do outer <- deref (match_spec_outer c);
        ret (0, ctx_set_outer
                  (Some (match_spec_write outer
                           EFX_MAE_FIELD_INGRESS_MPORT_SELECTOR
                           (u32_le_bytes mport) [255; 255; 255; 255])) c)
    end
  else ret (rc_of r, c).

(** The common tail of the four traffic source items: resolve the m-port
    selector with [op], set it in the specification, remember that a
    traffic source has been set. *)
Definition parse_item_mport (op : efx_op) (arg : Z) (ctx_mae : sfc_mae_parse_ctx)
  : M (Z * sfc_mae_parse_ctx) :=
  do r <- efx op arg;
  if decide (rc_of r = 0) then
    do s <- ctx_mport_set ctx_mae (out_of r);
    let '(rc, ctx_mae) := s in
    if decide (rc = 0) then ret (0, ctx_set_match_mport_set true ctx_mae)
    else ret (rte_flow_error_set rc, ctx_mae)
  else ret (rte_flow_error_set (rc_of r), ctx_mae).

Definition sfc_mae_rule_parse_item_port_id (item : rte_flow_item)
    (ctx_mae : sfc_mae_parse_ctx) : M (Z * sfc_mae_parse_ctx) :=
  if match_mport_set ctx_mae then ret (rte_flow_error_set ENOTSUP, ctx_mae)
  else
    let supp_mask := repeat 255 4 in
    let '(rc, spec, mask) :=
      sfc_flow_parse_init item (Some supp_mask) (Some rte_flow_item_port_id_mask)
                          sizeof_rte_flow_item_port_id in
    if decide (rc = 0) then
      if decide (take 4 mask <> supp_mask) then
        ret (rte_flow_error_set EINVAL, ctx_mae)
      else
        match spec with
        | None => ret (0, ctx_mae)
        | Some spec =>
            if decide (UINT16_MAX < le_value (take 4 spec)) then
              ret (rte_flow_error_set EOVERFLOW, ctx_mae)
            else
              parse_item_mport OP_SWITCH_PORT_BY_ETHDEV (le_value (take 4 spec))
                               ctx_mae
        end
    else ret (rc, ctx_mae).

Definition sfc_mae_rule_parse_item_phy_port (item : rte_flow_item)
    (ctx_mae : sfc_mae_parse_ctx) : M (Z * sfc_mae_parse_ctx) :=
  if match_mport_set ctx_mae then ret (rte_flow_error_set ENOTSUP, ctx_mae)
  else
    let supp_mask := repeat 255 4 in
    let '(rc, spec, mask) :=
      sfc_flow_parse_init item (Some supp_mask) (Some rte_flow_item_phy_port_mask)
                          4 in
    if decide (rc = 0) then
      if decide (take 4 mask <> supp_mask) then
        ret (rte_flow_error_set EINVAL, ctx_mae)
      else
        match spec with
        | None => ret (0, ctx_mae)
        | Some spec =>
            parse_item_mport OP_MPORT_BY_PHY_PORT (le_value (take 4 spec)) ctx_mae
        end
    else ret (rc, ctx_mae).

Definition EFX_PCI_VF_INVALID : Z := 65535.

Definition sfc_mae_rule_parse_item_pf (item : rte_flow_item)
    (ctx_mae : sfc_mae_parse_ctx) : M (Z * sfc_mae_parse_ctx) :=
  if match_mport_set ctx_mae then ret (rte_flow_error_set ENOTSUP, ctx_mae)
  else parse_item_mport OP_MPORT_BY_PCIE_FUNCTION EFX_PCI_VF_INVALID ctx_mae.

Definition sfc_mae_rule_parse_item_vf (item : rte_flow_item)
    (ctx_mae : sfc_mae_parse_ctx) : M (Z * sfc_mae_parse_ctx) :=
  if match_mport_set ctx_mae then ret (rte_flow_error_set ENOTSUP, ctx_mae)
  else
    let supp_mask := repeat 255 4 in
    let '(rc, spec, mask) :=
      sfc_flow_parse_init item (Some supp_mask) (Some rte_flow_item_vf_mask) 4 in
    if decide (rc = 0) then
      if decide (take 4 mask <> supp_mask) then
        ret (rte_flow_error_set EINVAL, ctx_mae)
      else
        match spec with
        | None => ret (rte_flow_error_set EINVAL, ctx_mae)
        | Some spec =>
            parse_item_mport OP_MPORT_BY_PCIE_FUNCTION (le_value (take 4 spec))
                             ctx_mae
        end
    else ret (rc, ctx_mae).

(** *** The item table and the walk over a pattern *)

Inductive sfc_flow_item_layers : Type :=
| SFC_FLOW_ITEM_ANY_LAYER
| SFC_FLOW_ITEM_START_LAYER
| SFC_FLOW_ITEM_L2
| SFC_FLOW_ITEM_L3
| SFC_FLOW_ITEM_L4.

#[global] Instance sfc_flow_item_layers_eq_dec : EqDecision sfc_flow_item_layers.
Proof. solve_decision. Defined.

Record sfc_flow_item : Type := mk_flow_item {
  fi_type : rte_flow_item_type;
  fi_prev_layer : sfc_flow_item_layers;
  fi_layer : sfc_flow_item_layers;
  fi_parse : rte_flow_item -> sfc_mae_parse_ctx -> M (Z * sfc_mae_parse_ctx)
}.

Definition sfc_flow_items : list sfc_flow_item :=
  [mk_flow_item RTE_FLOW_ITEM_TYPE_PORT_ID SFC_FLOW_ITEM_ANY_LAYER
                SFC_FLOW_ITEM_ANY_LAYER sfc_mae_rule_parse_item_port_id;
   mk_flow_item RTE_FLOW_ITEM_TYPE_PHY_PORT SFC_FLOW_ITEM_ANY_LAYER
                SFC_FLOW_ITEM_ANY_LAYER sfc_mae_rule_parse_item_phy_port;
   mk_flow_item RTE_FLOW_ITEM_TYPE_PF SFC_FLOW_ITEM_ANY_LAYER
                SFC_FLOW_ITEM_ANY_LAYER sfc_mae_rule_parse_item_pf;
   mk_flow_item RTE_FLOW_ITEM_TYPE_VF SFC_FLOW_ITEM_ANY_LAYER
                SFC_FLOW_ITEM_ANY_LAYER sfc_mae_rule_parse_item_vf;
   mk_flow_item RTE_FLOW_ITEM_TYPE_ETH SFC_FLOW_ITEM_START_LAYER
                SFC_FLOW_ITEM_L2 sfc_mae_rule_parse_item_eth;
   mk_flow_item RTE_FLOW_ITEM_TYPE_VLAN SFC_FLOW_ITEM_L2
                SFC_FLOW_ITEM_L2 sfc_mae_rule_parse_item_vlan;
   mk_flow_item RTE_FLOW_ITEM_TYPE_IPV4 SFC_FLOW_ITEM_L2
                SFC_FLOW_ITEM_L3 sfc_mae_rule_parse_item_ipv4;
   mk_flow_item RTE_FLOW_ITEM_TYPE_IPV6 SFC_FLOW_ITEM_L2
                SFC_FLOW_ITEM_L3 sfc_mae_rule_parse_item_ipv6;
   mk_flow_item RTE_FLOW_ITEM_TYPE_TCP SFC_FLOW_ITEM_L3
                SFC_FLOW_ITEM_L4 sfc_mae_rule_parse_item_tcp;
   mk_flow_item RTE_FLOW_ITEM_TYPE_UDP SFC_FLOW_ITEM_L3
                SFC_FLOW_ITEM_L4 sfc_mae_rule_parse_item_udp;
   mk_flow_item RTE_FLOW_ITEM_TYPE_VXLAN SFC_FLOW_ITEM_L4
                SFC_FLOW_ITEM_START_LAYER sfc_mae_rule_parse_item_tunnel;
   mk_flow_item RTE_FLOW_ITEM_TYPE_GENEVE SFC_FLOW_ITEM_L4
                SFC_FLOW_ITEM_START_LAYER sfc_mae_rule_parse_item_tunnel;
   mk_flow_item RTE_FLOW_ITEM_TYPE_NVGRE SFC_FLOW_ITEM_L3
                SFC_FLOW_ITEM_START_LAYER sfc_mae_rule_parse_item_tunnel].

(** Modelled from the spec: [sfc_flow_parse_pattern] of the generic front
    end ([sfc_flow.c]), "the generic pattern-item-walking front end that
    classifies item ordering": the items are visited in order; an item
    whose type the table does not list is unsupported; an item must follow
    the layer its table entry names, unless either side is "any layer"
    (layers may be left out at the start); the entry's parser is then
    called, and the first failure ends the walk. *)
Fixpoint sfc_flow_parse_pattern (flow_items : list sfc_flow_item)
    (pattern : list rte_flow_item) (prev_layer : sfc_flow_item_layers)
    (ctx : sfc_mae_parse_ctx) : M (Z * sfc_mae_parse_ctx) :=
  match pattern with
  | [] => ret (0, ctx)
  | it :: rest =>
      match find (fun fi => bool_decide (fi_type fi = item_type it)) flow_items with
      | None => ret (rte_flow_error_set ENOTSUP, ctx)
      | Some fi =>
          if bool_decide (fi_prev_layer fi <> SFC_FLOW_ITEM_ANY_LAYER) &&
             bool_decide (prev_layer <> SFC_FLOW_ITEM_ANY_LAYER) &&
             bool_decide (fi_prev_layer fi <> prev_layer)
          then ret (rte_flow_error_set ENOTSUP, ctx)
          else
            do r <- fi_parse fi it ctx;
            let '(rc, ctx) := r in
            if decide (rc = 0) then
              sfc_flow_parse_pattern flow_items rest
                (if decide (fi_layer fi = SFC_FLOW_ITEM_ANY_LAYER)
                 then prev_layer else fi_layer fi)
                ctx
            else ret (rc, ctx)
      end
  end.

(** Modelled from the spec: [efx_mae_match_spec_init] and
    [efx_mae_match_spec_is_valid], the "match-spec init" call and the
    "structural validation" of a compiled match specification by the
    device control interface. *)
Definition efx_mae_match_spec_init (type : efx_mae_rule_type) (prio : Z)
  : M (Z * option efx_mae_match_spec) :=
  do r <- efx OP_MATCH_SPEC_INIT prio;
  if decide (rc_of r = 0) then ret (0, Some (mk_match_spec type prio []))
  else ret (rc_of r, None).

Definition efx_mae_match_spec_is_valid (spec : efx_mae_match_spec) : M bool :=
  do r <- efx OP_MATCH_SPEC_IS_VALID 0;
  ret (bool_decide (rc_of r = 0)).

Definition sfc_mae_rule_process_outer (ctx : sfc_mae_parse_ctx)
  : M (Z * option ptr * sfc_mae_parse_ctx) :=
  if decide (encap_type ctx = EFX_TUNNEL_PROTOCOL_NONE) then ret (0, None, ctx)
  else
    do outer <- deref (match_spec_outer ctx);
    do valid <- efx_mae_match_spec_is_valid outer;
    if valid then
      do a <- sfc_mae_outer_rule_attach outer (encap_type ctx);
      do r <-
        match a with
        | Some p => ret (0, Some p)
        | None => sfc_mae_outer_rule_add outer (encap_type ctx)
        end;
      match r with
      | (_, None) => ret (rte_flow_error_set (fst r), None, ctx)
      | (_, Some p) =>
          let ctx := ctx_set_outer None ctx in
          do rule <- load_outer_rule p;
          do s <- efx_mae_match_spec_outer_rule_id_set (match_spec_action ctx)
                                                       (fw_id (or_fw_rsrc rule));
          let '(rc, action) := s in
          if decide (rc = 0) then ret (0, Some p, ctx_set_action action ctx)
          else
            sfc_mae_outer_rule_del p ;;
            ret (rte_flow_error_set rc, None, ctx)
      end
    else ret (rte_flow_error_set ENOTSUP, None, ctx).

(** The first tunnel item of a pattern, with the encapsulation type and
    the default mask [sfc_mae_rule_encap_parse_init] picks for it. *)
Fixpoint encap_lookahead (pattern : list rte_flow_item)
  : option (efx_tunnel_protocol * list Z) :=
  match pattern with
  | [] => None
  | it :: rest =>
      match item_type it with
      | RTE_FLOW_ITEM_TYPE_VXLAN =>
          Some (EFX_TUNNEL_PROTOCOL_VXLAN, rte_flow_item_vxlan_mask)
      | RTE_FLOW_ITEM_TYPE_GENEVE =>
          Some (EFX_TUNNEL_PROTOCOL_GENEVE, rte_flow_item_geneve_mask)
      | RTE_FLOW_ITEM_TYPE_NVGRE =>
          Some (EFX_TUNNEL_PROTOCOL_NVGRE, rte_flow_item_nvgre_mask)
      | _ => encap_lookahead rest
      end
  end.

Definition sfc_mae_rule_encap_parse_init (pattern : option (list rte_flow_item))
    (ctx : sfc_mae_parse_ctx) : M (Z * sfc_mae_parse_ctx) :=
  match pattern with
  | None => ret (- EINVAL, ctx)
  | Some pattern =>
      match encap_lookahead pattern with
      | None => ret (0, ctx)
      | Some (encap, def_mask) =>
          let ctx :=
            mk_parse_ctx (match_spec_action ctx) (match_spec_outer ctx)
                         (match_spec ctx) (field_ids_remap ctx) (Some def_mask)
                         (match_mport_set ctx) (pattern_data ctx) encap
                         (priority ctx) in
          do mae <- get_mae;
          if decide (Z.land (encap_types_supported mae)
                            (Z.shiftl 1 (efx_tunnel_protocol_num encap)) = 0) then
            ret (rte_flow_error_set ENOTSUP, ctx)
          else if decide (nb_outer_rule_prios_max mae <= priority ctx) then
            ret (rte_flow_error_set ENOTSUP, ctx)
          else
            do r <- efx_mae_match_spec_init EFX_MAE_RULE_OUTER (priority ctx);
            match r with
            | (_, Some outer) =>
                ret (0, mk_parse_ctx (match_spec_action ctx) (Some outer)
                                     MATCH_SPEC_OUTER FIELD_IDS_REMAP_TO_ENCAP
                                     (tunnel_def_mask ctx) (match_mport_set ctx)
                                     (pattern_data ctx) (encap_type ctx)
                                     (priority ctx))
            | (rc, None) => ret (rte_flow_error_set rc, ctx)
            end
      end
  end.

Definition flow_set_outer_rule (o : option ptr) (f : sfc_flow_spec_mae)
  : sfc_flow_spec_mae :=
  mk_flow_spec (fs_priority f) o (fs_action_set f) (fs_match_spec f)
               (fs_rule_id f).

Definition sfc_mae_rule_parse_pattern (pattern : option (list rte_flow_item))
    (spec : sfc_flow_spec_mae) : M (Z * sfc_flow_spec_mae) :=
  do i <- efx_mae_match_spec_init EFX_MAE_RULE_ACTION (fs_priority spec);
  match i with
  | (rc, None) => ret (rte_flow_error_set rc, spec)
  | (_, Some action) =>
      let ctx_mae :=
        mk_parse_ctx action None MATCH_SPEC_ACTION FIELD_IDS_NO_REMAP None false
                     pattern_data_zero EFX_TUNNEL_PROTOCOL_NONE
                     (fs_priority spec) in
      do r <- sfc_mae_rule_encap_parse_init pattern ctx_mae;
      let '(rc, ctx_mae) := r in
      if decide (rc = 0) then
        do items <- deref pattern;
        do r <- sfc_flow_parse_pattern sfc_flow_items items
                                       SFC_FLOW_ITEM_ANY_LAYER ctx_mae;
        let '(rc, ctx_mae) := r in
        if decide (rc = 0) then
          do r <- sfc_mae_rule_process_pattern_data ctx_mae;
          let '(rc, ctx_mae) := r in
          if decide (rc = 0) then
            do r <- sfc_mae_rule_process_outer ctx_mae;
            let '(rc, outer_rule, ctx_mae) := r in
            let spec := flow_set_outer_rule outer_rule spec in
            if decide (rc = 0) then
              do valid <- efx_mae_match_spec_is_valid (match_spec_action ctx_mae);
              if valid then
                ret (0, flow_set_match_spec (match_spec_action ctx_mae) spec)
              else ret (rte_flow_error_set ENOTSUP, spec)
            else ret (rc, spec)
          else ret (rc, spec)
        else ret (rc, spec)
      else ret (rc, spec)
  end.

(** ** Action compiler *)

Inductive sfc_mae_actions_bundle_type : Type :=
| SFC_MAE_ACTIONS_BUNDLE_EMPTY
| SFC_MAE_ACTIONS_BUNDLE_VLAN_PUSH.

#[global] Instance sfc_mae_actions_bundle_type_eq_dec
  : EqDecision sfc_mae_actions_bundle_type.
Proof. solve_decision. Defined.

(** [struct sfc_mae_actions_bundle]; the bit mask [actions_mask] is the
    set of the action types it has a bit for. *)
Record sfc_mae_actions_bundle : Type := mk_bundle {
  bundle_type : sfc_mae_actions_bundle_type;
  actions_mask : list rte_flow_action_type;
  vlan_push_tpid : Z;
  vlan_push_tci : Z
}.

Definition bundle_zero : sfc_mae_actions_bundle :=
  mk_bundle SFC_MAE_ACTIONS_BUNDLE_EMPTY [] 0 0.

Definition sfc_mae_actions_bundle_submit (bundle : sfc_mae_actions_bundle)
    (spec : efx_mae_actions) : M (Z * efx_mae_actions) :=
  match bundle_type bundle with
  | SFC_MAE_ACTIONS_BUNDLE_EMPTY => ret (0, spec)
  | SFC_MAE_ACTIONS_BUNDLE_VLAN_PUSH =>
      efx_mae_action_set_populate
        (EFX_MAE_ACTION_VLAN_PUSH (vlan_push_tpid bundle) (vlan_push_tci bundle))
        spec
  end.

(** [sfc_mae_actions_bundle_sync]; the action is [None] for END. *)
Definition sfc_mae_actions_bundle_sync (action : option rte_flow_action_type)
    (bundle : sfc_mae_actions_bundle) (spec : efx_mae_actions)
  : M (Z * sfc_mae_actions_bundle * efx_mae_actions) :=
  let bundle_type_new :=
    match action with
    | Some AT_OF_PUSH_VLAN | Some AT_OF_SET_VLAN_VID | Some AT_OF_SET_VLAN_PCP =>
        SFC_MAE_ACTIONS_BUNDLE_VLAN_PUSH
    | _ => SFC_MAE_ACTIONS_BUNDLE_EMPTY
    end in
  let repeated :=
    match action with
    | Some t => bool_decide (t ∈ actions_mask bundle)
    | None => false
    end in
  if negb (bool_decide (bundle_type_new = bundle_type bundle)) || repeated then
    do s <- sfc_mae_actions_bundle_submit bundle spec;
    let '(rc, spec) := s in
    if decide (rc = 0) then
      ret (0, mk_bundle bundle_type_new [] 0 0, spec)
    else ret (rte_flow_error_set rc, bundle, spec)
  else
    ret (0, mk_bundle bundle_type_new (actions_mask bundle)
                      (vlan_push_tpid bundle) (vlan_push_tci bundle), spec).

Definition sfc_mae_rule_parse_action_count (shared : bool)
    (spec : efx_mae_actions) : M (Z * efx_mae_actions) :=
  if shared then ret (ENOTSUP, spec)
  else
    do sa <- get_sa;
    if negb (sa_counter_rxq_initialized sa) then
      sfc_err "counter queue is not configured for COUNT action" ;;
      ret (EINVAL, spec)
    else if negb (sa_service_lcore sa) then ret (EINVAL, spec)
    else efx_mae_action_set_populate EFX_MAE_ACTION_COUNT spec.

(** The delivery actions: resolve the m-port selector with [op], then
    populate one deliver action.  The values the NIC configuration
    supplies (own PF, VF, assigned port, own ethdev port id) are passed to
    the device as 0. *)
Definition parse_action_deliver (op : efx_op) (arg : Z) (spec : efx_mae_actions)
  : M (Z * efx_mae_actions) :=
  do r <- efx op arg;
  if decide (rc_of r = 0) then
    efx_mae_action_set_populate (EFX_MAE_ACTION_DELIVER (out_of r)) spec
  else ret (rc_of r, spec).

Definition bundle_mark (t : rte_flow_action_type) (b : sfc_mae_actions_bundle)
  : sfc_mae_actions_bundle :=
  mk_bundle (bundle_type b) (t :: actions_mask b) (vlan_push_tpid b)
            (vlan_push_tci b).

Definition sfc_mae_rule_parse_action (action : rte_flow_action)
    (outer_rule : option ptr) (bundle : sfc_mae_actions_bundle)
    (spec : efx_mae_actions)
  : M (Z * sfc_mae_actions_bundle * efx_mae_actions) :=
  let finish (custom_error : bool) (r : Z * efx_mae_actions)
             (bundle : sfc_mae_actions_bundle) :=
    let '(rc, spec) := r in
    if decide (rc = 0) then ret (0, bundle_mark (action_type action) bundle, spec)
    else if custom_error then ret (rc, bundle, spec)
    else ret (rte_flow_error_set rc, bundle, spec) in
  match action with
  | RTE_FLOW_ACTION_TYPE_VXLAN_DECAP =>
      do r <-
        match outer_rule with
        | None => ret (EINVAL, spec)
        | Some p =>
            do rule <- load_outer_rule p;
            if decide (or_encap_type rule <> EFX_TUNNEL_PROTOCOL_VXLAN) then
              ret (EINVAL, spec)
            else efx_mae_action_set_populate EFX_MAE_ACTION_DECAP spec
        end;
      finish false r bundle
  | RTE_FLOW_ACTION_TYPE_OF_POP_VLAN =>
      do r <- efx_mae_action_set_populate EFX_MAE_ACTION_VLAN_POP spec;
      finish false r bundle
  | RTE_FLOW_ACTION_TYPE_OF_PUSH_VLAN ethertype =>
      finish false (0, spec)
             (mk_bundle (bundle_type bundle) (actions_mask bundle) ethertype
                        (vlan_push_tci bundle))
  | RTE_FLOW_ACTION_TYPE_OF_SET_VLAN_VID vlan_vid =>
      finish false (0, spec)
             (mk_bundle (bundle_type bundle) (actions_mask bundle)
                        (vlan_push_tpid bundle)
                        (Z.lor (vlan_push_tci bundle) (Z.land vlan_vid 4095)))
  | RTE_FLOW_ACTION_TYPE_OF_SET_VLAN_PCP vlan_pcp =>
      finish false (0, spec)
             (mk_bundle (bundle_type bundle) (actions_mask bundle)
                        (vlan_push_tpid bundle)
                        (Z.lor (vlan_push_tci bundle)
                               (u16 (Z.shiftl (Z.land vlan_pcp 7) 13))))
  | RTE_FLOW_ACTION_TYPE_VXLAN_ENCAP definition =>
      do r <- sfc_mae_rule_parse_action_vxlan_encap definition spec;
      finish true r bundle
  | RTE_FLOW_ACTION_TYPE_COUNT shared _ =>
      do r <- sfc_mae_rule_parse_action_count shared spec;
      finish false r bundle
  | RTE_FLOW_ACTION_TYPE_FLAG =>
      do r <- efx_mae_action_set_populate EFX_MAE_ACTION_FLAG spec;
      finish false r bundle
  | RTE_FLOW_ACTION_TYPE_MARK id =>
      do r <- efx_mae_action_set_populate (EFX_MAE_ACTION_MARK id) spec;
      finish false r bundle
  | RTE_FLOW_ACTION_TYPE_PHY_PORT original index =>
      do r <- parse_action_deliver OP_MPORT_BY_PHY_PORT
                                   (if original then 0 else index) spec;
      finish false r bundle
  | RTE_FLOW_ACTION_TYPE_PF =>
      do r <- parse_action_deliver OP_MPORT_BY_PCIE_FUNCTION EFX_PCI_VF_INVALID
                                   spec;
      finish false r bundle
  | RTE_FLOW_ACTION_TYPE_VF conf =>
      do r <- parse_action_deliver OP_MPORT_BY_PCIE_FUNCTION
                (match conf with
                 | None => EFX_PCI_VF_INVALID
                 | Some (original, id) => if original then 0 else id
                 end) spec;
      finish false r bundle
  | RTE_FLOW_ACTION_TYPE_PORT_ID original id =>
      do r <- parse_action_deliver OP_SWITCH_PORT_BY_ETHDEV
                                   (if original then 0 else u16 id) spec;
      finish false r bundle
  | RTE_FLOW_ACTION_TYPE_DROP =>
      do r <- efx_mae_action_set_populate EFX_MAE_ACTION_DROP spec;
      finish false r bundle
  | RTE_FLOW_ACTION_TYPE_OTHER _ =>
      ret (rte_flow_error_set ENOTSUP, bundle, spec)
  end.

Definition sfc_mae_bounce_eh_invalidate : M unit :=
  modify_mae (fun mae =>
    set_bounce_eh (mk_bounce_eh (beh_buf (bounce_eh mae))
                                (beh_buf_size (bounce_eh mae))
                                (beh_size (bounce_eh mae))
                                EFX_TUNNEL_PROTOCOL_NONE) mae).

Definition sfc_mae_process_encap_header (bounce : sfc_mae_bounce_eh)
  : M (Z * option ptr) :=
  if decide (beh_type bounce = EFX_TUNNEL_PROTOCOL_NONE) then ret (0, None)
  else
    do a <- sfc_mae_encap_header_attach bounce;
    match a with
    | Some p => ret (0, Some p)
    | None => sfc_mae_encap_header_add bounce
    end.

(** Modelled from the spec: [efx_mae_action_set_spec_init], the
    "action-spec init" call of the device control interface: an empty
    action set with no resource ids. *)
Definition efx_mae_action_set_spec_init : M (Z * option efx_mae_actions) :=
  do r <- efx OP_ACTION_SET_SPEC_INIT 0;
  if decide (rc_of r = 0) then
    ret (0, Some (mk_actions [] EFX_MAE_RSRC_ID_INVALID EFX_MAE_RSRC_ID_INVALID))
  else ret (rc_of r, None).

(** The action loop of [sfc_mae_rule_parse_actions]. *)
Fixpoint parse_actions_loop (actions : list rte_flow_action)
    (outer_rule : option ptr) (bundle : sfc_mae_actions_bundle)
    (spec : efx_mae_actions)
  : M (Z * sfc_mae_actions_bundle * efx_mae_actions) :=
  match actions with
  | [] => ret (0, bundle, spec)
  | action :: rest =>
      do s <- sfc_mae_actions_bundle_sync (Some (action_type action)) bundle spec;
      let '(rc, bundle, spec) := s in
      if decide (rc = 0) then
        do p <- sfc_mae_rule_parse_action action outer_rule bundle spec;
        let '(rc, bundle, spec) := p in
        if decide (rc = 0) then parse_actions_loop rest outer_rule bundle spec
        else ret (rc, bundle, spec)
      else ret (rc, bundle, spec)
  end.

Definition flow_set_action_set (a : option ptr) (f : sfc_flow_spec_mae)
  : sfc_flow_spec_mae :=
  mk_flow_spec (fs_priority f) (fs_outer_rule f) a (fs_match_spec f)
               (fs_rule_id f).

(** The exit of [sfc_mae_rule_parse_actions] through its failure labels: a
    positive code is turned into a flow error. *)
Definition parse_actions_fail (rc : Z) : Z :=
  if decide (0 < rc) then rte_flow_error_set rc else rc.

Definition sfc_mae_rule_parse_actions (actions : option (list rte_flow_action))
    (spec_mae : sfc_flow_spec_mae) : M (Z * sfc_flow_spec_mae) :=
  match actions with
  | None => ret (rte_flow_error_set EINVAL, spec_mae)
  | Some actions =>
      do i <- efx_mae_action_set_spec_init;
      match i with
      | (rc, None) => ret (parse_actions_fail rc, spec_mae)
      | (_, Some spec) =>
          sfc_mae_bounce_eh_invalidate ;;
          do l <- parse_actions_loop actions (fs_outer_rule spec_mae)
                                     bundle_zero spec;
          let '(rc, bundle, spec) := l in
          if decide (rc = 0) then
            do s <- sfc_mae_actions_bundle_sync None bundle spec;
            let '(rc, bundle, spec) := s in
            if decide (rc = 0) then
              do mae <- get_mae;
              do e <- sfc_mae_process_encap_header (bounce_eh mae);
              let '(rc, encap_header) := e in
              if decide (rc = 0) then
                let n_count := efx_mae_action_set_get_nb_count spec in
                if decide (1 < n_count) then
                  sfc_err "failed to get number of count actions" ;;
                  sfc_mae_encap_header_del encap_header ;;
                  ret (parse_actions_fail ENOTSUP, spec_mae)
                else
                  do a <- sfc_mae_action_set_attach encap_header n_count spec;
                  match a with
                  | Some p =>
                      sfc_mae_encap_header_del encap_header ;;
                      ret (0, flow_set_action_set (Some p) spec_mae)
                  | None =>
                      do r <- sfc_mae_action_set_add actions spec encap_header
                                                     n_count;
                      match r with
                      | (_, Some p) =>
                          ret (0, flow_set_action_set (Some p) spec_mae)
                      | (rc, None) =>
                          sfc_mae_encap_header_del encap_header ;;
                          ret (parse_actions_fail rc,
                               flow_set_action_set None spec_mae)
                      end
                  end
              else ret (parse_actions_fail rc, spec_mae)
            else ret (parse_actions_fail rc, spec_mae)
          else ret (parse_actions_fail rc, spec_mae)
      end
  end.

(** [sfc_mae_counters_init]: the slot array is allocated zeroed, one slot
    per possible hardware counter id. *)
Definition sfc_mae_counters_init (nb_counters_max : Z) : M Z :=
  do m <- rte_zmalloc;
  match m with
  | None => ret ENOMEM
  | Some _ =>
      do counters <- get_counters;
      put_counters
        (mk_counters (repeat (mk_counter false 0 0 0 0 0)
                             (Z.to_nat nb_counters_max))
                     (xstats counters) nb_counters_max) ;;
      ret 0
  end.

(** ** Vocabulary of the properties *)

(** The counter stream layout of the hardware: an 8-byte header (version,
    source identifier, header offset, payload offset, index, count) and
    16-byte records (24-bit counter index, packet count, byte count). *)
Definition packetiser_format_hw : packetiser_format :=
  mk_format 8 (mk_field 0 8) 0 (mk_field 8 8) 0 (mk_field 16 8) 4
            (mk_field 24 8) (mk_field 48 16)
            (mk_field 0 24) (mk_field 24 16) (mk_field 40 32)
            (mk_field 72 16) (mk_field 88 32).

(** The payload offset and the record count are fields of at most 16
    bits, so the length a packet declares fits 32 bits. *)
Definition packetiser_format_wf (fmt : packetiser_format) : Prop :=
  0 <= width (ERF_SC_PACKETISER_HEADER_PAYLOAD_OFFSET fmt) <= 16 /\
  0 <= width (ERF_SC_PACKETISER_HEADER_COUNT fmt) <= 16.

Definition packet_header (m : rte_mbuf) : list Z := bytes_at (pkt_data m) 0 32.

(** A telemetry packet the decoder must discard. *)
Definition counter_packet_malformed (fmt : packetiser_format) (m : rte_mbuf)
  : Prop :=
  let hdr := packet_header m in
  nb_segs m <> 1 \/
  data_len m < ER_RX_SL_PACKETISER_HEADER_WORD_SIZE fmt \/
  EFX_FIELD hdr (ERF_SC_PACKETISER_HEADER_VERSION fmt) <>
    ERF_SC_PACKETISER_HEADER_VERSION_VALUE fmt \/
  EFX_FIELD hdr (ERF_SC_PACKETISER_HEADER_IDENTIFIER fmt) <>
    ERF_SC_PACKETISER_HEADER_IDENTIFIER_AR fmt \/
  EFX_FIELD hdr (ERF_SC_PACKETISER_HEADER_HEADER_OFFSET fmt) <>
    ERF_SC_PACKETISER_HEADER_HEADER_OFFSET_DEFAULT fmt \/
  data_len m <
    EFX_FIELD hdr (ERF_SC_PACKETISER_HEADER_PAYLOAD_OFFSET fmt) +
    EFX_FIELD hdr (ERF_SC_PACKETISER_HEADER_COUNT fmt) *
    ER_RX_SL_PACKETISER_PAYLOAD_WORD_SIZE \/
  EFX_FIELD hdr (ERF_SC_PACKETISER_HEADER_PAYLOAD_OFFSET fmt) mod 4 <> 0.

(** The slot array has one slot per possible hardware counter id. *)
Definition counters_sized (c : sfc_mae_counters) : Prop :=
  Z.of_nat (length (mae_counters c)) = n_mae_counters c.

(** An adapter with empty registries, [n] counter slots, a 64-byte bounce
    buffer, VXLAN, GENEVE and NVGRE supported, 4 priority levels, and the
    given device answers to come. *)
Definition adapter_init (n : nat) (replies : list efx_reply) : sfc_adapter :=
  mk_adapter (mk_nic replies [])
             (mk_mae 4 4 14 [] [] []
                     (mk_bounce_eh (repeat 0 64) 64 0 EFX_TUNNEL_PROTOCOL_NONE)
                     false
                     (mk_counters (repeat (mk_counter false 0 0 0 0 0) n)
                                  (mk_xstats 0 0) (Z.of_nat n))
                     (mk_counter_service 0 0 0 false 0 0))
             [] 0%nat true true [] 0 0 0.

Definition is_byte (b : Z) : Prop := 0 <= b < 256.

(** A parsed item of an encap. header template as
    [sfc_mae_rule_parse_action_vxlan_encap] records it: spec and mask are
    there and the protocol header has an even size; the spec bytes are
    bytes. *)
Definition parsed_item_wf (parsed_item : sfc_mae_parsed_item) : Prop :=
  exists spec mask,
    item_spec (pi_item parsed_item) = Some spec /\
    item_mask (pi_item parsed_item) = Some mask /\
    Nat.Even (pi_proto_header_size parsed_item) /\
    Forall is_byte spec.

(** Where the header of the [k]-th parsed item starts in the buffer. *)
Fixpoint item_offset (parsed_items : list sfc_mae_parsed_item) (k : nat) : nat :=
  match k, parsed_items with
  | S k', parsed_item :: rest =>
      (pi_proto_header_size parsed_item + item_offset rest k')%nat
  | _, _ => 0%nat
  end.

Definition items_size (parsed_items : list sfc_mae_parsed_item) : nat :=
  item_offset parsed_items (length parsed_items).

(** The bytes of [out] from [base] on agree with [spec] at every bit
    position where [mask] has a one, over [size] bytes. *)
Definition agrees_under_mask (out spec mask : list Z) (base size : nat) : Prop :=
  forall i j, (i < size)%nat -> 0 <= j < 8 ->
    Z.testbit (nth i mask 0) j = true ->
    Z.testbit (nth (base + i) out 0) j = Z.testbit (nth i spec 0) j.

(** The specification [ctx->match_spec] points to. *)
Definition ctx_active_spec (c : sfc_mae_parse_ctx) : option efx_mae_match_spec :=
  match match_spec c with
  | MATCH_SPEC_ACTION => Some (match_spec_action c)
  | MATCH_SPEC_OUTER => match_spec_outer c
  end.

(** The device has no scripted answer pending: every call succeeds. *)
Definition device_accepts (sa : sfc_adapter) : Prop :=
  en_replies (sa_nic sa) = [].

(** The L3 and L4 items the next-protocol byte is resolved between, with
    what the item table and the item parsers give for each: the type tag,
    the EtherType an L3 item requires, the protocol an L4 item implies,
    the place of the next-protocol byte in the L3 item structure, and the
    supported mask, default mask and size the parser passes to the
    generic item check. *)
Inductive l3_item_kind : Type := L3_IPV4 | L3_IPV6.
Inductive l4_item_kind : Type := L4_TCP | L4_UDP.

Definition l3_item_type (k : l3_item_kind) : rte_flow_item_type :=
  match k with
  | L3_IPV4 => RTE_FLOW_ITEM_TYPE_IPV4
  | L3_IPV6 => RTE_FLOW_ITEM_TYPE_IPV6
  end.

Definition l4_item_type (k : l4_item_kind) : rte_flow_item_type :=
  match k with
  | L4_TCP => RTE_FLOW_ITEM_TYPE_TCP
  | L4_UDP => RTE_FLOW_ITEM_TYPE_UDP
  end.

Definition l3_ethertype (k : l3_item_kind) : Z :=
  match k with
  | L3_IPV4 => RTE_ETHER_TYPE_IPV4
  | L3_IPV6 => RTE_ETHER_TYPE_IPV6
  end.

Definition l4_implied_proto (k : l4_item_kind) : Z :=
  match k with
  | L4_TCP => IPPROTO_TCP
  | L4_UDP => IPPROTO_UDP
  end.

Definition l3_proto_ofst (k : l3_item_kind) : nat :=
  match k with
  | L3_IPV4 => 9%nat
  | L3_IPV6 => 6%nat
  end.

Definition l3_item_check (k : l3_item_kind) (item : rte_flow_item)
  : Z * option (list Z) * list Z :=
  match k with
  | L3_IPV4 =>
      sfc_flow_parse_init item
        (Some (sfc_mae_item_build_supp_mask flocs_ipv4 sizeof_rte_flow_item_ipv4))
        (Some rte_flow_item_ipv4_mask) sizeof_rte_flow_item_ipv4
  | L3_IPV6 =>
      sfc_flow_parse_init item
        (Some (bytes_put
                 (sfc_mae_item_build_supp_mask flocs_ipv6
                                               sizeof_rte_flow_item_ipv6)
                 0 (be32_bytes RTE_IPV6_HDR_TC_MASK)))
        (Some rte_flow_item_ipv6_mask) sizeof_rte_flow_item_ipv6
  end.

Definition l4_item_check (k : l4_item_kind) (item : rte_flow_item)
  : Z * option (list Z) * list Z :=
  match k with
  | L4_TCP =>
      sfc_flow_parse_init item
        (Some (sfc_mae_item_build_supp_mask flocs_tcp sizeof_rte_flow_item_tcp))
        (Some rte_flow_item_tcp_mask) sizeof_rte_flow_item_tcp
  | L4_UDP =>
      sfc_flow_parse_init item
        (Some (sfc_mae_item_build_supp_mask flocs_udp sizeof_rte_flow_item_udp))
        (Some rte_flow_item_udp_mask) sizeof_rte_flow_item_udp
  end.

(** The next-protocol value and mask an L3 item declares: the byte of its
    spec and of its mask; an item without a spec declares nothing, and
    the byte is as the context has it (open, in a context that has not
    seen an L3 item). *)
Definition l3_declared_proto (k : l3_item_kind) (spec : option (list Z))
    (mask : list Z) (d : sfc_mae_pattern_data) : Z * Z :=
  match spec with
  | Some spec => (nth (l3_proto_ofst k) spec 0, nth (l3_proto_ofst k) mask 0)
  | None => (l3_next_proto_value d, l3_next_proto_mask d)
  end.

(** The L2 part of the pattern data is consistent with an L3 item of the
    given EtherType: a single VLAN tag has TPID 0x8100, the outer one of
    two tags has a double-tagging TPID and the inner one 0x8100, all
    matched exactly; and the innermost EtherType is left open or is
    exactly the one the L3 item requires. *)
Definition l2_consistent (ethertype : Z) (d : sfc_mae_pattern_data) : Prop :=
  match nb_vlan_tags d with
  | 0%nat => True
  | 1%nat => ethertypes d !! 0%nat = Some (mk_ethertype RTE_ETHER_TYPE_VLAN 65535)
  | 2%nat =>
      (exists tpid,
         ethertypes d !! 0%nat = Some (mk_ethertype tpid 65535) /\
         (tpid = RTE_ETHER_TYPE_QINQ \/ tpid = RTE_ETHER_TYPE_QINQ1 \/
          tpid = RTE_ETHER_TYPE_QINQ2 \/ tpid = RTE_ETHER_TYPE_QINQ3)) /\
      ethertypes d !! 1%nat = Some (mk_ethertype RTE_ETHER_TYPE_VLAN 65535)
  | _ => False
  end /\
  exists et,
    ethertypes d !! nb_vlan_tags d = Some et /\
    (et_mask et = 0 \/ (et_mask et = 65535 /\ et_value et = ethertype)).

(** The parsing context after [ETH] (any) and [IPV4] with the given
    next-protocol value and mask, no tunnel in the pattern. *)
Definition ctx_after_ipv4 (proto_value proto_mask : Z) : sfc_mae_parse_ctx :=
  mk_parse_ctx (mk_match_spec EFX_MAE_RULE_ACTION 0 []) None MATCH_SPEC_ACTION
               FIELD_IDS_NO_REMAP None false
               (pdata_set_l3_next_proto proto_value proto_mask
                  (pdata_set_innermost (mk_ethertype RTE_ETHER_TYPE_IPV4 65535)
                                       pattern_data_zero))
               EFX_TUNNEL_PROTOCOL_NONE 0.

(** Items without a spec, and the flow specification a compilation starts
    from. *)
Definition item_any (t : rte_flow_item_type) : rte_flow_item :=
  mk_item t None None None.

Definition flow_spec_init (prio : Z) : sfc_flow_spec_mae :=
  mk_flow_spec prio None None None EFX_MAE_RSRC_ID_INVALID.

(** The two-level lifecycle invariant of a registry entry: the hardware
    resource id is the invalid sentinel exactly when the hardware-enable
    refcount is zero. *)
Definition fw_rsrc_consistent (fw : sfc_mae_fw_rsrc) : Prop :=
  fw_id fw = EFX_MAE_RSRC_ID_INVALID <-> fw_refcnt fw = 0.

(** The pattern [ETH, VLAN tci, IPV6, UDP, VXLAN vni=0x123456]; the ETH
    item either names the VLAN TPID 0x8100 exactly or has no spec. *)
Definition item_eth_type (type_hi type_lo : Z) : rte_flow_item :=
  mk_item RTE_FLOW_ITEM_TYPE_ETH
          (Some (repeat 0 12 ++ [type_hi; type_lo] ++ repeat 0 6)) None
          (Some (repeat 0 12 ++ [255; 255] ++ repeat 0 6)).

Definition item_vlan_tci (tci_hi tci_lo : Z) : rte_flow_item :=
  mk_item RTE_FLOW_ITEM_TYPE_VLAN (Some ([tci_hi; tci_lo] ++ repeat 0 6))
          None None.

Definition item_vxlan_vni (b0 b1 b2 : Z) : rte_flow_item :=
  mk_item RTE_FLOW_ITEM_TYPE_VXLAN (Some ([0; 0; 0; 0; b0; b1; b2; 0]))
          None None.

Definition pattern_vxlan (eth : rte_flow_item) (tci_hi tci_lo : Z)
  : list rte_flow_item :=
  [eth; item_vlan_tci tci_hi tci_lo; item_any RTE_FLOW_ITEM_TYPE_IPV6;
   item_any RTE_FLOW_ITEM_TYPE_UDP; item_vxlan_vni 18 52 86].

(** What the scenario says of the compiled pattern: an OUTER
    specification is produced and holds the tunnel identifier
    0x00123456/0x00ffffff. *)
Definition outer_spec_holds_vni (pattern : list rte_flow_item) : Prop :=
  exists flow sa' p rule,
    sfc_mae_rule_parse_pattern (Some pattern) (flow_spec_init 0)
                               (adapter_init 0 []) = Some (0, flow, sa') /\
    fs_outer_rule flow = Some p /\
    entry_lookup (outer_rules (sa_mae sa')) p = Some rule /\
    match_spec_field (or_match_spec rule) EFX_MAE_FIELD_ENC_VNET_ID_BE =
      Some ([0; 18; 52; 86], [0; 255; 255; 255]).

(** ** Footprints of the control path

    [preserves R m]: every defined run of [m] takes the adapter to a state
    related by [R]; [returns Q m]: every defined run of [m] returns a value
    that satisfies [Q]. *)
Definition preserves {A : Type} (R : relation sfc_adapter) (m : M A) : Prop :=
  forall sa x sa', m sa = Some (x, sa') -> R sa sa'.

Definition returns {A : Type} (Q : A -> Prop) (m : M A) : Prop :=
  forall sa x sa', m sa = Some (x, sa') -> Q x.

(** A part of the adapter is left as it is. *)
Definition keeps {X : Type} (f : sfc_adapter -> X) : relation sfc_adapter :=
  fun sa sa' => f sa' = f sa.

(** The stage of the life of a flow rule a device operation belongs to. *)
Inductive flow_stage : Type :=
| STAGE_OUTER_RULE
| STAGE_ACTION_SET
| STAGE_COUNTER_STREAM
| STAGE_ACTION_RULE.

#[global] Instance flow_stage_eq_dec : EqDecision flow_stage.
Proof. solve_decision. Defined.

Definition efx_op_stage (op : efx_op) : option flow_stage :=
  match op with
  | OP_OUTER_RULE_INSERT | OP_OUTER_RULE_REMOVE
  | OP_MATCH_SPEC_OUTER_RULE_ID_SET => Some STAGE_OUTER_RULE
  | OP_ENCAP_HEADER_ALLOC | OP_ENCAP_HEADER_FREE
  | OP_ACTION_SET_FILL_IN_EH_ID | OP_ACTION_SET_FILL_IN_COUNTER_ID
  | OP_COUNTERS_ALLOC | OP_COUNTERS_FREE
  | OP_ACTION_SET_ALLOC | OP_ACTION_SET_FREE => Some STAGE_ACTION_SET
  | OP_COUNTERS_STREAM_START | OP_COUNTERS_STREAM_STOP
  | OP_GET_SERVICE_LCORE | OP_SERVICE_LCORE_START
  | OP_SERVICE_COMPONENT_REGISTER | OP_SERVICE_COMPONENT_UNREGISTER
  | OP_SERVICE_MAP_LCORE_SET | OP_SERVICE_COMPONENT_RUNSTATE_SET
  | OP_SERVICE_RUNSTATE_SET => Some STAGE_COUNTER_STREAM
  | OP_ACTION_RULE_INSERT | OP_ACTION_RULE_REMOVE => Some STAGE_ACTION_RULE
  | _ => None
  end.

(** Device calls that all belong to one stage. *)
Definition stage_calls (s : flow_stage) (cs : list (efx_op * Z)) : Prop :=
  Forall (fun c => efx_op_stage (fst c) = Some s) cs.

(** The device calls issued from [sa] to [sa'] all belong to stage [s]. *)
Definition calls_in (s : flow_stage) : relation sfc_adapter :=
  fun sa sa' =>
    exists cs, en_calls (sa_nic sa') = en_calls (sa_nic sa) ++ cs /\
               stage_calls s cs.

(** The next fresh address of the allocator does not go down. *)
Definition ptr_mono : relation sfc_adapter :=
  fun sa sa' => (sa_next_ptr sa <= sa_next_ptr sa')%nat.

(** Every action set of the registry lives at an allocated address. *)
Definition action_set_ptrs_allocated (sa : sfc_adapter) : Prop :=
  Forall (fun e => (fst e < sa_next_ptr sa)%nat) (action_sets (sa_mae sa)).

(** A counter binding does not point outside the slot array. *)
Definition counter_bound (sa : sfc_adapter) (c : sfc_mae_counter_id) : Prop :=
  mae_id c = EFX_MAE_RSRC_ID_INVALID \/
  0 <= mae_id c <
    Z.of_nat (length (mae_counters (counter_registry (sa_mae sa)))).

(** The pointers of a flow are valid: its action set is in the registry,
    with its counter array and its encap. header, and so is its outer rule
    if it has one. *)
Definition action_set_loaded (sa : sfc_adapter) (q : ptr) : Prop :=
  exists a,
    entry_lookup (action_sets (sa_mae sa)) q = Some a /\
    (as_n_counters a <> 0 ->
     exists c rest, as_counters a = c :: rest /\ counter_bound sa c) /\
    (forall h, as_encap_header a = Some h ->
               is_Some (entry_lookup (encap_headers (sa_mae sa)) h)).

Definition flow_resources_loaded (flow : sfc_flow_spec_mae) (sa : sfc_adapter)
  : Prop :=
  (exists q, fs_action_set flow = Some q /\ action_set_loaded sa q) /\
  (forall p, fs_outer_rule flow = Some p ->
             is_Some (entry_lookup (outer_rules (sa_mae sa)) p)).

(** [m] is defined in [sa]. *)
Definition runs {A : Type} (m : M A) (sa : sfc_adapter) : Prop :=
  exists x sa', m sa = Some (x, sa').

(** An adapter with one inserted flow: an outer rule at address 0 (hardware
    id 5) and an action set at address 1 (hardware id 9), each enabled
    once, and the flow that holds them (action rule id 3). *)
Definition adapter_one_flow (replies : list efx_reply) : sfc_adapter :=
  mk_adapter (mk_nic replies [])
             (mk_mae 4 4 14
                     [(0%nat,
                       mk_outer_rule 1 (mk_match_spec EFX_MAE_RULE_OUTER 0 [])
                                     EFX_TUNNEL_PROTOCOL_VXLAN (mk_fw_rsrc 1 5))]
                     []
                     [(1%nat,
                       mk_action_set 1 [] 0
                         (mk_actions [EFX_MAE_ACTION_DROP]
                                     EFX_MAE_RSRC_ID_INVALID
                                     EFX_MAE_RSRC_ID_INVALID)
                         None (mk_fw_rsrc 1 9))]
                     (mk_bounce_eh (repeat 0 64) 64 0 EFX_TUNNEL_PROTOCOL_NONE)
                     false
                     (mk_counters [] (mk_xstats 0 0) 0)
                     (mk_counter_service 0 0 0 false 0 0))
             [] 2%nat true true [] 0 0 0.

Definition flow_one : sfc_flow_spec_mae :=
  mk_flow_spec 0 (Some 0%nat) (Some 1%nat)
               (Some (mk_match_spec EFX_MAE_RULE_ACTION 0 [])) 3.

(** The footprint of the compiler up to the registry lookup: the action
    set registry is not touched and the addresses handed out so far stay
    handed out. *)
Definition compiler_frame : relation sfc_adapter :=
  fun sa sa' =>
    action_sets (sa_mae sa') = action_sets (sa_mae sa) /\ ptr_mono sa sa'.

(** ** Flow rules: the counter query

    [struct rte_flow_query_count] ([rte_flow.h]): the [reset] bit is the
    caller's, the other fields are the answer. *)
Record rte_flow_query_count : Type := mk_query_count {
  qc_reset : bool;
  qc_hits_set : bool;
  qc_bytes_set : bool;
  qc_hits : Z;
  qc_bytes : Z
}.

(** [sfc_mae_counter_get] ([sfc_mae_counter.c]); it works on the slot
    array, like [sfc_mae_counter_increment], and indexes it unchecked. *)
Definition sfc_mae_counter_get (counters : sfc_mae_counters)
    (counter : sfc_mae_counter_id) (data : rte_flow_query_count)
  : option (Z * sfc_mae_counters * rte_flow_query_count) :=
  match mae_counters counters !! Z.to_nat (mae_id counter) with
  | None => None
  | Some p =>
      let data' :=
        mk_query_count (qc_reset data) true true
                       (u64 (value_pkts p - reset_pkts p))
                       (u64 (value_bytes p - reset_bytes p)) in
      if qc_reset data then
        Some (0,
              set_mae_counters
                (<[Z.to_nat (mae_id counter) :=
                     mk_counter (inuse p) (generation_count p) (value_pkts p)
                                (value_bytes p) (value_pkts p) (value_bytes p)]>
                   (mae_counters counters))
                counters,
              data')
      else Some (0, counters, data')
  end.

(** The loop of [sfc_mae_query_counter] over [counters[i]], [n] bindings
    to go; [conf] is the id asked for, [None] for a NULL [conf]. *)
Fixpoint query_counter_loop (counters : list sfc_mae_counter_id) (n : nat)
    (conf : option Z) (data : rte_flow_query_count)
  : M (Z * rte_flow_query_count) :=
  match n with
  | O => ret (rte_flow_error_set ENOENT, data)
  | S n' =>
      do c <- counters_head counters;
      if match conf with
         | Some id => bool_decide (rte_id c <> id)
         | None => false
         end
      then query_counter_loop (tl counters) n' conf data
      else
        do cs <- get_counters;
        match sfc_mae_counter_get cs c data with
        | None => undefined
        | Some (rc, cs', data') =>
            put_counters cs' ;;
            if decide (rc <> 0) then ret (rte_flow_error_set EINVAL, data')
            else ret (0, data')
        end
  end.

Definition sfc_mae_query_counter (spec : sfc_flow_spec_mae) (conf : option Z)
    (data : rte_flow_query_count) : M (Z * rte_flow_query_count) :=
  do p <- deref (fs_action_set spec);
  do action_set <- load_action_set p;
  if decide (as_n_counters action_set = 0) then
    ret (rte_flow_error_set EINVAL, data)
  else
    query_counter_loop (as_counters action_set)
                       (Z.to_nat (as_n_counters action_set)) conf data.

(** [sfc_mae_flow_query]: the action is given by its type and, for COUNT,
    its [conf]. *)
Definition sfc_mae_flow_query (spec_mae : sfc_flow_spec_mae)
    (action : rte_flow_action_type) (conf : option Z)
    (data : rte_flow_query_count) : M (Z * rte_flow_query_count) :=
  match action with
  | AT_COUNT => sfc_mae_query_counter spec_mae conf data
  | _ => ret (rte_flow_error_set ENOTSUP, data)
  end.

(** What the telemetry path leaves alone in the slot array: its size, and
    in every slot the in-use flag, the generation and the query baseline. *)
Definition slot_meta_eq (p p' : sfc_mae_counter) : Prop :=
  inuse p' = inuse p /\ generation_count p' = generation_count p /\
  reset_pkts p' = reset_pkts p /\ reset_bytes p' = reset_bytes p.

Definition counters_meta_eq (c c' : sfc_mae_counters) : Prop :=
  n_mae_counters c' = n_mae_counters c /\
  Forall2 slot_meta_eq (mae_counters c) (mae_counters c').

(** An adapter with four counter slots and one action set (address 0,
    enabled, hardware id 9) that counts on slot 2 under the caller's id 5.
    Slot 1 is free and holds what an earlier user left; slot 2 was
    allocated with generation 3 and has its query baseline at 40 packets. *)
Definition adapter_with_counters (replies : list efx_reply) : sfc_adapter :=
  mk_adapter (mk_nic replies [])
             (mk_mae 4 4 14 [] []
                     [(0%nat,
                       mk_action_set 1 [mk_counter_id 2 5] 1
                         (mk_actions [EFX_MAE_ACTION_COUNT]
                                     EFX_MAE_RSRC_ID_INVALID 2)
                         None (mk_fw_rsrc 1 9))]
                     (mk_bounce_eh (repeat 0 64) 64 0 EFX_TUNNEL_PROTOCOL_NONE)
                     true
                     (mk_counters
                        [mk_counter false 0 0 0 0 0;
                         mk_counter false 7 10 640 4 256;
                         mk_counter true 3 100 6400 40 2560;
                         mk_counter false 0 0 0 0 0]
                        (mk_xstats 0 0) 4)
                     (mk_counter_service 0 0 0 false 0 0))
             [] 1%nat true true [] 0 0 0.

Definition flow_with_counter : sfc_flow_spec_mae :=
  mk_flow_spec 0 None (Some 0%nat)
               (Some (mk_match_spec EFX_MAE_RULE_ACTION 0 [])) 3.

(** A well-formed registry: every entry at an address of its own that the
    allocator has handed out, and a software refcount the registry can
    still count up from. *)
Definition registry_wf {A : Type} (refcnt : A -> Z) (next : ptr)
    (l : list (ptr * A)) : Prop :=
  NoDup (map fst l) /\
  Forall (fun e => (fst e < next)%nat /\ 0 < refcnt (snd e) < 2 ^ 32 - 1) l.

(** The test of [sfc_mae_encap_header_attach]: same size, same bytes. *)
Definition encap_header_matches (bounce : sfc_mae_bounce_eh)
    (e : sfc_mae_encap_header) : Prop :=
  eh_size e = beh_size bounce /\
  take (Z.to_nat (beh_size bounce)) (eh_buf e) =
  take (Z.to_nat (beh_size bounce)) (beh_buf bounce).

(** An adapter with one encap. header (address 0) and one action set
    (address 2) that refers to it; neither is enabled in hardware. *)
Definition adapter_with_header (replies : list efx_reply) : sfc_adapter :=
  mk_adapter (mk_nic replies [])
             (mk_mae 4 4 14 []
                     [(0%nat,
                       mk_encap_header 1 [1; 2; 3; 4] 4 EFX_TUNNEL_PROTOCOL_VXLAN
                                       (mk_fw_rsrc 0 EFX_MAE_RSRC_ID_INVALID))]
                     [(2%nat,
                       mk_action_set 1 [] 0
                         (mk_actions [EFX_MAE_ACTION_ENCAP]
                                     EFX_MAE_RSRC_ID_INVALID
                                     EFX_MAE_RSRC_ID_INVALID)
                         (Some 0%nat) (mk_fw_rsrc 0 EFX_MAE_RSRC_ID_INVALID))]
                     (mk_bounce_eh (repeat 0 64) 64 0 EFX_TUNNEL_PROTOCOL_NONE)
                     false
                     (mk_counters [] (mk_xstats 0 0) 0)
                     (mk_counter_service 0 0 0 false 0 0))
             [] 3%nat true true [] 0 0 0.

(** An adapter with four free counter slots and one action set (address 0,
    not enabled) with one COUNT action under the caller's id 5, to which no
    hardware counter has been bound yet. *)
Definition adapter_counter_unbound (replies : list efx_reply) : sfc_adapter :=
  mk_adapter (mk_nic replies [])
             (mk_mae 4 4 14 [] []
                     [(0%nat,
                       mk_action_set 1
                         [mk_counter_id EFX_MAE_RSRC_ID_INVALID 5] 1
                         (mk_actions [EFX_MAE_ACTION_COUNT]
                                     EFX_MAE_RSRC_ID_INVALID 2)
                         None (mk_fw_rsrc 0 EFX_MAE_RSRC_ID_INVALID))]
                     (mk_bounce_eh (repeat 0 64) 64 0 EFX_TUNNEL_PROTOCOL_NONE)
                     true
                     (mk_counters
                        [mk_counter false 0 0 0 0 0;
                         mk_counter false 7 10 640 4 256;
                         mk_counter false 0 0 0 0 0;
                         mk_counter false 0 0 0 0 0]
                        (mk_xstats 0 0) 4)
                     (mk_counter_service 0 0 0 false 0 0))
             [] 1%nat true true [] 0 0 0.

(** An adapter with an outer rule (address 0, held by two flows) and an
    action set (address 1), neither of them in hardware. *)
Definition adapter_not_enabled (replies : list efx_reply) : sfc_adapter :=
  mk_adapter (mk_nic replies [])
             (mk_mae 4 4 14
                     [(0%nat,
                       mk_outer_rule 2 (mk_match_spec EFX_MAE_RULE_OUTER 0 [])
                                     EFX_TUNNEL_PROTOCOL_VXLAN
                                     (mk_fw_rsrc 0 EFX_MAE_RSRC_ID_INVALID))]
                     []
                     [(1%nat,
                       mk_action_set 1 [] 0
                         (mk_actions [EFX_MAE_ACTION_DROP]
                                     EFX_MAE_RSRC_ID_INVALID
                                     EFX_MAE_RSRC_ID_INVALID)
                         None (mk_fw_rsrc 0 EFX_MAE_RSRC_ID_INVALID))]
                     (mk_bounce_eh (repeat 0 64) 64 0 EFX_TUNNEL_PROTOCOL_NONE)
                     false
                     (mk_counters [] (mk_xstats 0 0) 0)
                     (mk_counter_service 0 0 0 false 0 0))
             [] 2%nat true true [] 0 0 0.

(** The encap. header templates [sfc_mae_rule_parse_action_vxlan_encap]
    takes, VOID items apart: Ethernet, up to two VLAN tags, IPv4 or IPv6,
    UDP, VXLAN. *)
Definition encap_layout (nb_vlan_tags : nat) (l3 : rte_flow_item_type)
  : list rte_flow_item_type :=
  RTE_FLOW_ITEM_TYPE_ETH :: repeat RTE_FLOW_ITEM_TYPE_VLAN nb_vlan_tags ++
  [l3; RTE_FLOW_ITEM_TYPE_UDP; RTE_FLOW_ITEM_TYPE_VXLAN].

Definition encap_layout_size (nb_vlan_tags : nat) (l3 : rte_flow_item_type)
  : nat :=
  sizeof_rte_ether_hdr + nb_vlan_tags * sizeof_rte_vlan_hdr +
  (if decide (l3 = RTE_FLOW_ITEM_TYPE_IPV6) then sizeof_rte_ipv6_hdr
   else sizeof_rte_ipv4_hdr) +
  sizeof_rte_udp_hdr + sizeof_rte_vxlan_hdr.

Definition non_void_types (pattern : list rte_flow_item)
  : list rte_flow_item_type :=
  filter (fun t => t <> RTE_FLOW_ITEM_TYPE_VOID) (map item_type pattern).

(** How far the item loop of [sfc_mae_rule_parse_action_vxlan_encap] has
    got: nothing yet, Ethernet and some VLAN tags, the L3 header, UDP, or
    the whole template. *)
Inductive encap_phase : Type :=
| EP_START
| EP_L2 (nb_vlan_tags : nat)
| EP_L3 (nb_vlan_tags : nat) (l3 : rte_flow_item_type)
| EP_UDP (nb_vlan_tags : nat) (l3 : rte_flow_item_type)
| EP_VXLAN (nb_vlan_tags : nat) (l3 : rte_flow_item_type).

Definition phase_types (ph : encap_phase) : list rte_flow_item_type :=
  match ph with
  | EP_START => []
  | EP_L2 n => RTE_FLOW_ITEM_TYPE_ETH :: repeat RTE_FLOW_ITEM_TYPE_VLAN n
  | EP_L3 n l3 =>
      RTE_FLOW_ITEM_TYPE_ETH :: repeat RTE_FLOW_ITEM_TYPE_VLAN n ++ [l3]
  | EP_UDP n l3 =>
      RTE_FLOW_ITEM_TYPE_ETH :: repeat RTE_FLOW_ITEM_TYPE_VLAN n ++
      [l3; RTE_FLOW_ITEM_TYPE_UDP]
  | EP_VXLAN n l3 => encap_layout n l3
  end.

Definition phase_exp_items (ph : encap_phase) : list rte_flow_item_type :=
  match ph with
  | EP_START => [RTE_FLOW_ITEM_TYPE_ETH]
  | EP_L2 0 =>
      [RTE_FLOW_ITEM_TYPE_VLAN; RTE_FLOW_ITEM_TYPE_IPV4;
       RTE_FLOW_ITEM_TYPE_IPV6]
  | EP_L2 1 =>
      [RTE_FLOW_ITEM_TYPE_IPV4; RTE_FLOW_ITEM_TYPE_IPV6;
       RTE_FLOW_ITEM_TYPE_VLAN]
  | EP_L2 _ => [RTE_FLOW_ITEM_TYPE_IPV4; RTE_FLOW_ITEM_TYPE_IPV6]
  | EP_L3 _ _ => [RTE_FLOW_ITEM_TYPE_UDP]
  | EP_UDP _ _ => [RTE_FLOW_ITEM_TYPE_VXLAN]
  | EP_VXLAN _ _ => []
  end.

Definition phase_size (ph : encap_phase) : nat :=
  match ph with
  | EP_START => 0
  | EP_L2 n => sizeof_rte_ether_hdr + n * sizeof_rte_vlan_hdr
  | EP_L3 n l3 =>
      encap_layout_size n l3 - sizeof_rte_udp_hdr - sizeof_rte_vxlan_hdr
  | EP_UDP n l3 => encap_layout_size n l3 - sizeof_rte_vxlan_hdr
  | EP_VXLAN n l3 => encap_layout_size n l3
  end.

Definition phase_wf (ph : encap_phase) : Prop :=
  match ph with
  | EP_START => True
  | EP_L2 n => (n <= 2)%nat
  | EP_L3 n l3 | EP_UDP n l3 | EP_VXLAN n l3 =>
      (n <= 2)%nat /\
      (l3 = RTE_FLOW_ITEM_TYPE_IPV4 \/ l3 = RTE_FLOW_ITEM_TYPE_IPV6)
  end.

(** The loop state in a phase. *)
Definition encap_progress (ph : encap_phase) (st : vxlan_encap_state) : Prop :=
  phase_wf ph /\
  ves_exp_items st = phase_exp_items ph /\
  ves_size st = phase_size ph /\
  (match ph with
   | EP_START => ves_nb_vlan_tags st = 0%nat
   | EP_L2 n => ves_nb_vlan_tags st = n
   | EP_UDP _ _ => is_Some (ves_udp st)
   | _ => True
   end).

(** An encap. header template with one VLAN tag and a VOID item: every
    item with its header bytes as spec and an all-zero mask. *)
Definition encap_template_vlan_ipv4 : list rte_flow_item :=
  [mk_item RTE_FLOW_ITEM_TYPE_ETH (Some (repeat 1 14)) None
           (Some (repeat 0 14));
   mk_item RTE_FLOW_ITEM_TYPE_VLAN (Some (repeat 2 4)) None
           (Some (repeat 0 4));
   mk_item RTE_FLOW_ITEM_TYPE_VOID (Some []) None (Some []);
   mk_item RTE_FLOW_ITEM_TYPE_IPV4 (Some (repeat 3 20)) None
           (Some (repeat 0 20));
   mk_item RTE_FLOW_ITEM_TYPE_UDP (Some (repeat 4 8)) None
           (Some (repeat 0 8));
   mk_item RTE_FLOW_ITEM_TYPE_VXLAN (Some (repeat 5 8)) None
           (Some (repeat 0 8))].

(** The parsing context after [ETH] with TPID 0x88a8 and two [VLAN] items,
    the first with inner TPID 0x8100, no L3 item. *)
Definition ctx_double_tagged : sfc_mae_parse_ctx :=
  mk_parse_ctx (mk_match_spec EFX_MAE_RULE_ACTION 0 []) None MATCH_SPEC_ACTION
               FIELD_IDS_NO_REMAP None false
               (pdata_set_nb_vlan_tags 2
                  (pdata_set_ethertypes
                     [mk_ethertype RTE_ETHER_TYPE_QINQ 65535;
                      mk_ethertype RTE_ETHER_TYPE_VLAN 65535;
                      mk_ethertype 0 0]
                     pattern_data_zero))
               EFX_TUNNEL_PROTOCOL_NONE 0.

(** The four traffic source items and their parsers. *)
Inductive traffic_source_item : Type :=
| TS_PORT_ID | TS_PHY_PORT | TS_PF | TS_VF.

Definition traffic_source_parse (k : traffic_source_item)
  : rte_flow_item -> sfc_mae_parse_ctx -> M (Z * sfc_mae_parse_ctx) :=
  match k with
  | TS_PORT_ID => sfc_mae_rule_parse_item_port_id
  | TS_PHY_PORT => sfc_mae_rule_parse_item_phy_port
  | TS_PF => sfc_mae_rule_parse_item_pf
  | TS_VF => sfc_mae_rule_parse_item_vf
  end.

(** Byte [i] of an item structure lies in the field a locator names. *)
Definition floc_covers (i : nat) (fl : sfc_mae_field_locator) : Prop :=
  (fl_ofst fl <= i < fl_ofst fl + fl_size fl)%nat.

#[global] Instance floc_covers_dec i fl : Decision (floc_covers i fl).
Proof. unfold floc_covers. apply _. Defined.

(** The loop state after the template Ethernet, IPv4, UDP, VXLAN in a
    64-byte buffer: the IPv4 header at offset 14, UDP at 34, VXLAN at 42. *)
Definition encap_state_ipv4 : vxlan_encap_state :=
  mk_encap_state (repeat 3 64) 50 [] [] 0 12 23 (Some 14%nat) None
                 (Some 34%nat) (Some 42%nat).

(** ** Flow verification

    [sfc_mae_flow_verify] and the class checks under it.  The class
    comparison of libefx, [efx_mae_match_specs_class_cmp], asks the device;
    it is a parameter here: any computation that yields a return code and
    a flag.  [started] stands for [sa->state == SFC_ETHDEV_STARTED], and
    the flow list of the adapter is passed along: each flow with the type
    of its specification. *)
Inductive sfc_flow_spec_type : Type :=
| SFC_FLOW_SPEC_FILTER
| SFC_FLOW_SPEC_MAE.

Section ClassVerify.
Variable efx_mae_match_specs_class_cmp :
  efx_mae_match_spec -> efx_mae_match_spec -> M (Z * bool).

Definition sfc_mae_rules_class_cmp (left right : efx_mae_match_spec) : M bool :=
  do r <- efx_mae_match_specs_class_cmp left right;
  let '(rc, have_same_class) := r in
  ret (if decide (rc = 0) then have_same_class else false).

(** The loop of [sfc_mae_outer_rule_class_verify] over the entries (given
    in the order visited): [true] when an entry other than [rule] has the
    class of [rule]. *)
Fixpoint outer_rule_class_loop (entries : list (ptr * sfc_mae_outer_rule))
    (p : ptr) (rule : sfc_mae_outer_rule) : M bool :=
  match entries with
  | [] => ret false
  | (q, entry) :: rest =>
      if decide (q = p) then outer_rule_class_loop rest p rule
      else
        do same <- sfc_mae_rules_class_cmp (or_match_spec entry)
                                           (or_match_spec rule);
        if same then ret true else outer_rule_class_loop rest p rule
  end.

Definition sfc_mae_outer_rule_class_verify (p : ptr) : M Z :=
  do rule <- load_outer_rule p;
  if decide (fw_id (or_fw_rsrc rule) <> EFX_MAE_RSRC_ID_INVALID) then ret 0
  else
    do mae <- get_mae;
    do found <- outer_rule_class_loop (rev (outer_rules mae)) p rule;
    if found then ret 0 else ret 0.

(** The loop of [sfc_mae_action_rule_class_verify] over the flow list
    (given in the order visited). *)
Fixpoint action_rule_class_loop
    (flows : list (sfc_flow_spec_type * sfc_flow_spec_mae))
    (spec : sfc_flow_spec_mae) : M bool :=
  match flows with
  | [] => ret false
  | (SFC_FLOW_SPEC_FILTER, _) :: rest => action_rule_class_loop rest spec
  | (SFC_FLOW_SPEC_MAE, es_mae) :: rest =>
      do l <- deref (fs_match_spec es_mae);
      do r <- deref (fs_match_spec spec);
      do same <- sfc_mae_rules_class_cmp l r;
      if same then ret true else action_rule_class_loop rest spec
  end.

Definition sfc_mae_action_rule_class_verify
    (flow_list : list (sfc_flow_spec_type * sfc_flow_spec_mae))
    (spec : sfc_flow_spec_mae) : M Z :=
  do found <- action_rule_class_loop (rev flow_list) spec;
  if found then ret 0 else ret 0.

Definition sfc_mae_flow_verify (started : bool)
    (flow_list : list (sfc_flow_spec_type * sfc_flow_spec_mae))
    (spec_mae : sfc_flow_spec_mae) : M Z :=
  if negb started then ret EAGAIN
  else
    do rc <-
      match fs_outer_rule spec_mae with
      | Some outer_rule => sfc_mae_outer_rule_class_verify outer_rule
      | None => ret 0
      end;
    if decide (rc <> 0) then ret rc
    else sfc_mae_action_rule_class_verify flow_list spec_mae.
End ClassVerify.

(** [sfc_mae_flow_cleanup], for a flow that is there: the references of
    the flow are given back. *)
Definition sfc_mae_flow_cleanup (spec_mae : sfc_flow_spec_mae) : M unit :=
  (match fs_outer_rule spec_mae with
   | Some outer_rule => sfc_mae_outer_rule_del outer_rule
   | None => ret tt
   end) ;;
  match fs_action_set spec_mae with
  | Some action_set => sfc_mae_action_set_del action_set
  | None => ret tt
  end.

(** The MAE context apart from the outer rule registry. *)
Definition mae_but_outer_rules (sa : sfc_adapter) :=
  (action_sets (sa_mae sa), encap_headers (sa_mae sa),
   counter_registry (sa_mae sa), bounce_eh (sa_mae sa),
   counter_rxq_running (sa_mae sa)).

(** The actions [sfc_mae_rule_parse_action] refuses whatever the device
    answers: a shared COUNT, a COUNT without a configured counter queue or
    without a service core, VXLAN_DECAP in a flow without an outer rule,
    VXLAN_ENCAP without a definition, and the actions it does not know. *)
Definition action_refused (sa : sfc_adapter) (outer_rule : option ptr)
    (a : rte_flow_action) : Prop :=
  match a with
  | RTE_FLOW_ACTION_TYPE_COUNT shared _ =>
      shared = true \/ sa_counter_rxq_initialized sa = false \/
      sa_service_lcore sa = false
  | RTE_FLOW_ACTION_TYPE_VXLAN_DECAP => outer_rule = None
  | RTE_FLOW_ACTION_TYPE_VXLAN_ENCAP None => True
  | RTE_FLOW_ACTION_TYPE_OTHER _ => True
  | _ => False
  end.

(** The configuration of the counter path the action compiler consults. *)
Definition counter_path_config (sa : sfc_adapter) : bool * bool :=
  (sa_counter_rxq_initialized sa, sa_service_lcore sa).

(** The registries and buffers of the MAE context: everything but the
    state of the counter stream and of the counter service. *)
Definition mae_registries (sa : sfc_adapter) :=
  (outer_rules (sa_mae sa), encap_headers (sa_mae sa),
   action_sets (sa_mae sa), counter_registry (sa_mae sa),
   bounce_eh (sa_mae sa)).

(** The counter index of record [i] of a telemetry packet, and what the
    decoder relies on without checking it: every record the header
    announces names a slot of an array of [n] slots. *)
Definition packet_counter_index (fmt : packetiser_format) (m : rte_mbuf)
    (i : nat) : Z :=
  let payload_offset :=
    EFX_FIELD (packet_header m) (ERF_SC_PACKETISER_HEADER_PAYLOAD_OFFSET fmt) in
  EFX_FIELD
    (bytes_at (drop (Z.to_nat payload_offset) (pkt_data m))
              (i * Z.to_nat ER_RX_SL_PACKETISER_PAYLOAD_WORD_SIZE)
              (Z.to_nat ER_RX_SL_PACKETISER_PAYLOAD_WORD_SIZE))
    (ERF_SC_PACKETISER_PAYLOAD_COUNTER_INDEX fmt).

Definition packet_indices_in_range (fmt : packetiser_format) (m : rte_mbuf)
    (n : nat) : Prop :=
  let counter_count :=
    EFX_FIELD (packet_header m) (ERF_SC_PACKETISER_HEADER_COUNT fmt) in
  Forall (fun i => (Z.to_nat (packet_counter_index fmt m i) < n)%nat)
         (seq 0 (Z.to_nat counter_count)).

(** The parsing context [sfc_mae_rule_parse_pattern] starts the walk
    with, at priority 0: for a pattern without a tunnel item, and for one
    with a VXLAN item (the OUTER specification is being built and the
    fields are remapped to the encapsulated ones). *)
Definition ctx_pattern_start : sfc_mae_parse_ctx :=
  mk_parse_ctx (mk_match_spec EFX_MAE_RULE_ACTION 0 []) None MATCH_SPEC_ACTION
               FIELD_IDS_NO_REMAP None false pattern_data_zero
               EFX_TUNNEL_PROTOCOL_NONE 0.

Definition ctx_pattern_start_vxlan : sfc_mae_parse_ctx :=
  mk_parse_ctx (mk_match_spec EFX_MAE_RULE_ACTION 0 [])
               (Some (mk_match_spec EFX_MAE_RULE_OUTER 0 [])) MATCH_SPEC_OUTER
               FIELD_IDS_REMAP_TO_ENCAP (Some rte_flow_item_vxlan_mask) false
               pattern_data_zero EFX_TUNNEL_PROTOCOL_VXLAN 0.

(** An IPV4 item that names the next protocol exactly. *)
Definition item_ipv4_proto (proto : Z) : rte_flow_item :=
  mk_item RTE_FLOW_ITEM_TYPE_IPV4
          (Some (repeat 0 9 ++ [proto] ++ repeat 0 10)) None
          (Some (repeat 0 9 ++ [255] ++ repeat 0 10)).

(** * Properties *)

(** ** Reasoning about the control-path monad *)

Lemma bind_Some {A B : Type} (m : M A) (k : A -> M B) sa b sa' :
  bind m k sa = Some (b, sa') ->
  exists a sa1, m sa = Some (a, sa1) /\ k a sa1 = Some (b, sa').
Proof.
  unfold bind. destruct (m sa) as [[a sa1]|] eqn:E; [|discriminate].
  intros H. exists a, sa1. split; [reflexivity|exact H].
Qed.

Lemma ret_Some {A : Type} (a b : A) sa sa' :
  ret a sa = Some (b, sa') -> b = a /\ sa' = sa.
Proof. unfold ret. intros H. inversion H. split; reflexivity. Qed.

(** Inversion of a successful run, one monadic step at a time. *)
Ltac minv H :=
  match type of H with
  | bind _ _ _ = Some _ =>
      let a := fresh "a" in
      let s := fresh "sa" in
      let H1 := fresh "Hm" in
      apply bind_Some in H; destruct H as (a & s & H1 & H)
  | ret _ _ = Some _ =>
      apply ret_Some in H; destruct H as [H ?]; simplify_eq
  | undefined _ = Some _ => discriminate H
  end.

(** ** Counters *)

Lemma xstats_bump_realloc_slots c :
  mae_counters (xstats_bump_realloc c) = mae_counters c.
Proof. reflexivity. Qed.

Lemma xstats_bump_not_inuse_slots c :
  mae_counters (xstats_bump_not_inuse c) = mae_counters c.
Proof. reflexivity. Qed.

(** C4. A counter update that carries a generation older than the one the
    in-use slot was allocated with, or that hits a slot which is not in
    use, changes no slot of the array (accumulated values, baselines,
    generations and in-use flags all stay); it only bumps the matching
    diagnostic counter ([realloc_update], respectively
    [not_inuse_update]). *)
Theorem C4_stale_update_is_noop :
  forall (counters : sfc_mae_counters) (mae_counter_id generation pkts bytes : Z)
         (p : sfc_mae_counter),
    mae_counters counters !! Z.to_nat mae_counter_id = Some p ->
    (inuse p = true -> generation < generation_count p ->
     exists counters',
       sfc_mae_counter_increment counters mae_counter_id generation pkts bytes
         = Some counters' /\
       mae_counters counters' = mae_counters counters /\
       mae_counters counters' !! Z.to_nat mae_counter_id = Some p /\
       realloc_update (xstats counters') =
         u64 (realloc_update (xstats counters) + 1) /\
       not_inuse_update (xstats counters') = not_inuse_update (xstats counters)) /\
    (inuse p = false ->
     exists counters',
       sfc_mae_counter_increment counters mae_counter_id generation pkts bytes
         = Some counters' /\
       mae_counters counters' = mae_counters counters /\
       not_inuse_update (xstats counters') =
         u64 (not_inuse_update (xstats counters) + 1) /\
       realloc_update (xstats counters') = realloc_update (xstats counters)).
Proof.
  intros counters id gen pkts bytes p Hp. split.
  - intros Hin Hgen. unfold sfc_mae_counter_increment. rewrite Hp, Hin. simpl.
    apply Z.ltb_lt in Hgen. rewrite Hgen.
    eexists. split; [reflexivity|]. simpl. repeat split; try reflexivity.
    exact Hp.
  - intros Hin. unfold sfc_mae_counter_increment. rewrite Hp, Hin. simpl.
    eexists. split; [reflexivity|]. simpl. repeat split; reflexivity.
Qed.

(** A slot allocated with generation 7 and holding 10 packets / 640 bytes:
    an update of generation 6 leaves it as it is. *)
Lemma C4_stale_update_is_noop_witness :
  let counters :=
    mk_counters [mk_counter false 0 0 0 0 0; mk_counter true 7 10 640 0 0]
                (mk_xstats 0 0) 2 in
  exists counters',
    sfc_mae_counter_increment counters 1 6 5 320 = Some counters' /\
    mae_counters counters' = mae_counters counters /\
    mae_counters counters' !! Z.to_nat 1 = Some (mk_counter true 7 10 640 0 0) /\
    realloc_update (xstats counters') = u64 (realloc_update (xstats counters) + 1) /\
    not_inuse_update (xstats counters') = not_inuse_update (xstats counters).
Proof.
  intros counters.
  apply (C4_stale_update_is_noop counters 1 6 5 320 (mk_counter true 7 10 640 0 0)).
  - reflexivity.
  - reflexivity.
  - simpl. lia.
Defined.

Lemma EFX_FIELD_bound (bytes : list Z) (f : efx_field) :
  0 <= width f <= 16 -> 0 <= EFX_FIELD bytes f < 2 ^ 16.
Proof.
  intros [Hw0 Hw]. unfold EFX_FIELD, u32.
  rewrite Z.land_ones by exact Hw0.
  assert (Hp : 0 < 2 ^ width f) by (apply Z.pow_pos_nonneg; lia).
  assert (Hle : 2 ^ width f <= 2 ^ 16) by (apply Z.pow_le_mono_r; lia).
  pose proof (Z.mod_pos_bound (Z.shiftr (le_value bytes) (lbn f)) (2 ^ width f) Hp)
    as Hb.
  assert (H16 : (2 ^ 16 : Z) = 65536) by reflexivity.
  rewrite Z.mod_small; [rewrite H16 in *; lia|].
  assert (H32 : (2 ^ 32 : Z) = 4294967296) by reflexivity.
  rewrite H32, H16 in *. lia.
Qed.

Lemma sfc_err_run (msg : string) (sa : sfc_adapter) :
  exists sa', sfc_err msg sa = Some (tt, sa') /\
              sa_mae sa' = sa_mae sa /\ sa_nic sa' = sa_nic sa /\
              sa_log sa' = sa_log sa ++ [msg].
Proof. eexists. split; [reflexivity|]. simpl. repeat split; reflexivity. Qed.

(** C8. A telemetry packet that is multi-segment, shorter than the fixed
    header, of unexpected version, source identifier or header offset,
    truncated (payload offset plus record count times record size exceeds
    the data length), or whose payload offset is not 32-bit aligned, is
    discarded whole: decoding returns with the MAE state (counter slots and
    diagnostic counters included) and the device untouched, one line added
    to the error log. *)
Theorem C8_malformed_packet_is_discarded :
  forall (fmt : packetiser_format) (m : rte_mbuf) (sa : sfc_adapter),
    packetiser_format_wf fmt ->
    counter_packet_malformed fmt m ->
    exists sa' msg,
      sfc_mae_parse_counter_packet fmt m sa = Some (tt, sa') /\
      sa_mae sa' = sa_mae sa /\
      sa_nic sa' = sa_nic sa /\
      sa_log sa' = sa_log sa ++ [msg].
Proof.
  intros fmt m sa [Hpo Hcnt] Hbad.
  unfold sfc_mae_parse_counter_packet.
  assert (Hgo : forall msg, exists sa' msg',
             sfc_err msg sa = Some (tt, sa') /\ sa_mae sa' = sa_mae sa /\
             sa_nic sa' = sa_nic sa /\ sa_log sa' = sa_log sa ++ [msg']).
  { intros msg. destruct (sfc_err_run msg sa) as (sa' & H1 & H2 & H3 & H4).
    exists sa', msg. repeat split; assumption. }
  repeat (case_decide; [apply Hgo|]).
  exfalso.
  pose proof (EFX_FIELD_bound (bytes_at (pkt_data m) 0 32) _ Hpo) as Bpo.
  pose proof (EFX_FIELD_bound (bytes_at (pkt_data m) 0 32) _ Hcnt) as Bcnt.
  set (po := EFX_FIELD (bytes_at (pkt_data m) 0 32)
                       (ERF_SC_PACKETISER_HEADER_PAYLOAD_OFFSET fmt)) in *.
  set (cnt := EFX_FIELD (bytes_at (pkt_data m) 0 32)
                        (ERF_SC_PACKETISER_HEADER_COUNT fmt)) in *.
  assert (H16 : (2 ^ 16 : Z) = 65536) by reflexivity. rewrite H16 in *.
  assert (Hreq : u32 (po + u32 (cnt * ER_RX_SL_PACKETISER_PAYLOAD_WORD_SIZE)) =
                 po + cnt * ER_RX_SL_PACKETISER_PAYLOAD_WORD_SIZE).
  { unfold u32, ER_RX_SL_PACKETISER_PAYLOAD_WORD_SIZE.
    assert (H32 : (2 ^ 32 : Z) = 4294967296) by reflexivity. rewrite H32.
    rewrite (Z.mod_small (cnt * 16)) by lia. rewrite Z.mod_small by lia.
    reflexivity. }
  rewrite Hreq in *.
  unfold counter_packet_malformed, packet_header in Hbad. fold po cnt in Hbad.
  destruct Hbad as [Hb|[Hb|[Hb|[Hb|[Hb|[Hb|Hb]]]]]];
    try contradiction; try lia.
  all: match goal with H : ~ (_ <> _) |- _ => apply H; exact Hb end.
Qed.

(** A truncated packet (two records declared at payload offset 20, 40
    bytes of data) on the hardware layout. *)
Lemma C8_malformed_packet_is_discarded_witness :
  exists sa' msg,
    sfc_mae_parse_counter_packet packetiser_format_hw
      (mk_mbuf 1 40 7 ([0; 0; 4; 20; 0; 0; 2; 0] ++ repeat 0 32))
      (adapter_init 4 []) = Some (tt, sa') /\
    sa_mae sa' = sa_mae (adapter_init 4 []) /\
    sa_nic sa' = sa_nic (adapter_init 4 []) /\
    sa_log sa' = sa_log (adapter_init 4 []) ++ [msg].
Proof.
  apply (C8_malformed_packet_is_discarded packetiser_format_hw
           (mk_mbuf 1 40 7 ([0; 0; 4; 20; 0; 0; 2; 0] ++ repeat 0 32))
           (adapter_init 4 [])).
  - unfold packetiser_format_wf. simpl. lia.
  - unfold counter_packet_malformed.
    right. right. right. right. right. left. vm_compute. reflexivity.
Defined.

(** A well-formed packet, for contrast: one record for counter 1 with 3
    packets and 200 bytes is applied to the in-use slot. *)
Example parse_counter_packet_applies :
  let sa := adapter_init 0 [] in
  let sa :=
    set_mae (set_counter_registry
               (mk_counters [mk_counter false 0 0 0 0 0; mk_counter true 7 10 640 0 0]
                            (mk_xstats 0 0) 2) (sa_mae sa)) sa in
  option_map (fun r => mae_counters (counter_registry (sa_mae (snd r))))
    (sfc_mae_parse_counter_packet packetiser_format_hw
       (mk_mbuf 1 36 7 ([0; 0; 4; 20; 0; 0; 1; 0] ++ repeat 0 12 ++
                        [1; 0; 0; 3; 0; 0; 0; 0; 0; 200; 0; 0; 0; 0; 0; 0]))
       sa)
  = Some [mk_counter false 0 0 0 0 0; mk_counter true 7 13 840 0 0].
Proof. vm_compute. reflexivity. Qed.

(** C10. Counter allocation keeps every in-use slot inside the slot array:
    when the device hands out an id at or beyond [n_mae_counters], the
    hardware counter is freed again, the call fails with [EFAULT] and no
    slot is touched; when the device refuses, no slot is touched either;
    otherwise the id is below [n_mae_counters], indexes an existing slot,
    and that slot is the one marked in use. *)
Theorem C10_counter_add_in_bounds :
  forall (sa : sfc_adapter) (counterp : sfc_mae_counter_id)
         (r : efx_reply) (rest : list efx_reply),
    en_replies (sa_nic sa) = r :: rest ->
    0 <= out_of r ->
    counters_sized (counter_registry (sa_mae sa)) ->
    let n := n_mae_counters (counter_registry (sa_mae sa)) in
    (rc_of r = 0 -> n <= out_of r ->
     exists sa',
       sfc_mae_counter_add counterp sa = Some (EFAULT, counterp, sa') /\
       counter_registry (sa_mae sa') = counter_registry (sa_mae sa) /\
       en_calls (sa_nic sa') =
         en_calls (sa_nic sa) ++
         [(OP_COUNTERS_ALLOC, 1); (OP_COUNTERS_FREE, out_of r)]) /\
    (rc_of r <> 0 ->
     exists sa',
       sfc_mae_counter_add counterp sa = Some (rc_of r, counterp, sa') /\
       counter_registry (sa_mae sa') = counter_registry (sa_mae sa)) /\
    (rc_of r = 0 -> out_of r < n ->
     exists sa' slot,
       sfc_mae_counter_add counterp sa =
         Some (0, mk_counter_id (out_of r) (rte_id counterp), sa') /\
       counters_sized (counter_registry (sa_mae sa')) /\
       n_mae_counters (counter_registry (sa_mae sa')) = n /\
       (Z.to_nat (out_of r) < length (mae_counters (counter_registry (sa_mae sa'))))%nat /\
       mae_counters (counter_registry (sa_mae sa')) !! Z.to_nat (out_of r) = Some slot /\
       inuse slot = true /\
       forall i, i <> Z.to_nat (out_of r) ->
         mae_counters (counter_registry (sa_mae sa')) !! i =
         mae_counters (counter_registry (sa_mae sa)) !! i).
Proof.
  intros sa counterp r rest Hrep Hout Hsized n.
  destruct sa as [nic mae mem nxt rxq lcore log sock burst dp].
  destruct nic as [replies calls]. simpl in Hrep. subst replies.
  simpl in *. subst n.
  unfold counters_sized in Hsized.
  repeat split.
  - intros Hrc Hge.
    unfold sfc_mae_counter_add, bind, efx, efx_invoke. simpl.
    rewrite Hrc. simpl.
    destruct (decide (n_mae_counters (counter_registry mae) <= out_of r));
      [|contradiction].
    simpl. destruct rest as [|r' rest']; simpl.
    all: eexists; (split; [reflexivity|]); simpl; (split; [reflexivity|]).
    all: rewrite <- app_assoc; reflexivity.
  - intros Hrc.
    unfold sfc_mae_counter_add, bind, efx, efx_invoke. simpl.
    destruct (decide (rc_of r = 0)); [contradiction|].
    simpl. eexists. split; reflexivity.
  - intros Hrc Hlt.
    unfold sfc_mae_counter_add, bind, efx, efx_invoke. simpl.
    rewrite Hrc. simpl.
    destruct (decide (n_mae_counters (counter_registry mae) <= out_of r));
      [lia|].
    assert (Hidx : (Z.to_nat (out_of r) < length (mae_counters (counter_registry mae)))%nat)
      by lia.
    destruct (lookup_lt_is_Some_2 _ _ Hidx) as [p Hp].
    unfold load_counter. simpl.
    destruct (decide (0 <= out_of r)); [|contradiction].
    rewrite Hp. simpl.
    eexists. eexists. split; [reflexivity|]. simpl.
    unfold counters_sized. simpl. rewrite length_insert.
    repeat split; try assumption.
    + apply list_lookup_insert_eq. exact Hidx.
    + reflexivity.
    + intros i Hi. apply list_lookup_insert_ne. congruence.
Qed.

(** Four slots; the device answers the allocation with id 9. *)
Lemma C10_counter_add_in_bounds_witness :
  exists sa',
    sfc_mae_counter_add (mk_counter_id EFX_MAE_RSRC_ID_INVALID 3)
                        (adapter_init 4 [mk_reply 0 9 1]) =
      Some (EFAULT, mk_counter_id EFX_MAE_RSRC_ID_INVALID 3, sa') /\
    counter_registry (sa_mae sa') =
      counter_registry (sa_mae (adapter_init 4 [mk_reply 0 9 1])) /\
    en_calls (sa_nic sa') =
      en_calls (sa_nic (adapter_init 4 [mk_reply 0 9 1])) ++
      [(OP_COUNTERS_ALLOC, 1); (OP_COUNTERS_FREE, 9)].
Proof.
  apply (C10_counter_add_in_bounds (adapter_init 4 [mk_reply 0 9 1])
           (mk_counter_id EFX_MAE_RSRC_ID_INVALID 3) (mk_reply 0 9 1) []).
  - reflexivity.
  - simpl. lia.
  - reflexivity.
  - reflexivity.
  - simpl. lia.
Defined.

(** ** The mask pass over the encap. header *)

Lemma is_byte_high_bit (b : Z) (k : Z) : is_byte b -> 8 <= k -> Z.testbit b k = false.
Proof.
  intros [H0 H1] Hk.
  destruct (Z.eq_dec b 0) as [->|Hne]; [apply Z.testbit_0_l|].
  apply Z.bits_above_log2; [lia|].
  apply Z.log2_lt_pow2; [lia|].
  apply Z.lt_le_trans with (2 ^ 8); [exact H1|].
  apply Z.pow_le_mono_r; lia.
Qed.

Lemma nth_is_byte (l : list Z) (i : nat) : Forall is_byte l -> is_byte (nth i l 0).
Proof.
  intros Hl. rewrite nth_lookup. destruct (l !! i) as [b|] eqn:E; simpl.
  - rewrite Forall_lookup in Hl. eapply Hl. exact E.
  - unfold is_byte. lia.
Qed.

Lemma rd16_low_bit (buf : list Z) (ofst : nat) (j : Z) :
  0 <= j < 8 -> Z.testbit (rd16 buf ofst) j = Z.testbit (nth ofst buf 0) j.
Proof.
  intros Hj. unfold rd16. rewrite Z.lor_spec.
  rewrite Z.shiftl_spec_low by lia. apply orb_false_r.
Qed.

Lemma rd16_high_bit (buf : list Z) (ofst : nat) (j : Z) :
  0 <= j < 8 -> is_byte (nth ofst buf 0) ->
  Z.testbit (rd16 buf ofst) (j + 8) = Z.testbit (nth (S ofst) buf 0) j.
Proof.
  intros Hj Hb. unfold rd16. rewrite Z.lor_spec.
  rewrite (is_byte_high_bit _ (j + 8) Hb) by lia.
  rewrite Z.shiftl_spec by lia. simpl. f_equal. lia.
Qed.

(** Clearing a word under the mask and ORing the masked spec in leaves
    the spec bit wherever the mask bit is one. *)
Lemma force_bit (wp m s k : Z) :
  0 <= k < 16 -> Z.testbit m k = true ->
  Z.testbit (Z.lor (Z.land wp (u16 (Z.lnot m))) (Z.land s m)) k = Z.testbit s k.
Proof.
  intros Hk Hm. rewrite Z.lor_spec, !Z.land_spec. unfold u16.
  rewrite Z.mod_pow2_bits_low by lia.
  rewrite Z.lnot_spec by lia. rewrite Hm. simpl.
  rewrite andb_false_r, andb_true_r. reflexivity.
Qed.

Lemma force_bit_clear (wp m s k : Z) :
  0 <= k < 16 -> Z.testbit m k = false ->
  Z.testbit (Z.lor (Z.land wp (u16 (Z.lnot m))) (Z.land s m)) k = Z.testbit wp k.
Proof.
  intros Hk Hm. rewrite Z.lor_spec, !Z.land_spec. unfold u16.
  rewrite Z.mod_pow2_bits_low by lia.
  rewrite Z.lnot_spec by lia. rewrite Hm. simpl.
  rewrite andb_false_r, andb_true_r, orb_false_r. reflexivity.
Qed.

Lemma nth_wr16_low (buf : list Z) (ofst : nat) (w : Z) :
  (S ofst < length buf)%nat -> nth ofst (wr16 buf ofst w) 0 = Z.land w 255.
Proof.
  intros H. unfold wr16. rewrite nth_lookup.
  rewrite list_lookup_insert_ne by lia.
  rewrite list_lookup_insert_eq by lia. reflexivity.
Qed.

Lemma nth_wr16_high (buf : list Z) (ofst : nat) (w : Z) :
  (S ofst < length buf)%nat ->
  nth (S ofst) (wr16 buf ofst w) 0 = Z.land (Z.shiftr w 8) 255.
Proof.
  intros H. unfold wr16. rewrite nth_lookup.
  rewrite list_lookup_insert_eq by (rewrite length_insert; lia). reflexivity.
Qed.

Lemma nth_wr16_other (buf : list Z) (ofst p : nat) (w : Z) :
  p <> ofst -> p <> S ofst -> nth p (wr16 buf ofst w) 0 = nth p buf 0.
Proof.
  intros H1 H2. unfold wr16. rewrite !nth_lookup.
  rewrite !list_lookup_insert_ne by lia. reflexivity.
Qed.

Lemma length_wr16 (buf : list Z) (ofst : nat) (w : Z) :
  length (wr16 buf ofst w) = length buf.
Proof. unfold wr16. rewrite !length_insert. reflexivity. Qed.

Lemma land_255_bit (w j : Z) : 0 <= j < 8 -> Z.testbit (Z.land w 255) j = Z.testbit w j.
Proof.
  intros Hj. change 255 with (Z.ones 8). rewrite Z.land_spec.
  rewrite Z.ones_spec_low by lia. apply andb_true_r.
Qed.

(** One word of the pass. *)
Lemma force_word_spec (buf spec mask : list Z) (base ofst : nat) :
  (base + ofst + 2 <= length buf)%nat ->
  Forall is_byte spec ->
  let out := force_word buf spec mask base ofst in
  length out = length buf /\
  (forall p, p <> (base + ofst)%nat -> p <> S (base + ofst) ->
             nth p out 0 = nth p buf 0) /\
  (forall i j, (i = ofst \/ i = S ofst) -> 0 <= j < 8 ->
     Z.testbit (nth i mask 0) j = true ->
     Z.testbit (nth (base + i) out 0) j = Z.testbit (nth i spec 0) j).
Proof.
  intros Hlen Hspec out. subst out. unfold force_word.
  split; [apply length_wr16|]. split.
  - intros p H1 H2. apply nth_wr16_other; assumption.
  - intros i j [-> | ->] Hj Hm.
    + rewrite nth_wr16_low by lia. rewrite land_255_bit by exact Hj.
      rewrite force_bit; [apply rd16_low_bit; exact Hj|lia|].
      rewrite rd16_low_bit by exact Hj. exact Hm.
    + replace (base + S ofst)%nat with (S (base + ofst)) by lia.
      rewrite nth_wr16_high by lia. rewrite land_255_bit by exact Hj.
      rewrite Z.shiftr_spec by lia.
      rewrite force_bit.
      * apply rd16_high_bit; [exact Hj|apply nth_is_byte; exact Hspec].
      * lia.
      * unfold rd16. rewrite Z.lor_spec. rewrite Z.shiftl_spec by lia.
        replace (j + 8 - 8) with j by lia. rewrite Hm. apply orb_true_r.
Qed.

(** The words of one item. *)
Lemma force_words_spec (n : nat) :
  forall (buf spec mask : list Z) (base ofst : nat),
    (base + ofst + 2 * n <= length buf)%nat ->
    Forall is_byte spec ->
    let out := force_words n buf spec mask base ofst in
    length out = length buf /\
    (forall p, (p < base + ofst \/ base + ofst + 2 * n <= p)%nat ->
               nth p out 0 = nth p buf 0) /\
    (forall i j, (ofst <= i < ofst + 2 * n)%nat -> 0 <= j < 8 ->
       Z.testbit (nth i mask 0) j = true ->
       Z.testbit (nth (base + i) out 0) j = Z.testbit (nth i spec 0) j).
Proof.
  induction n as [|n IH]; intros buf spec mask base ofst Hlen Hspec out.
  - subst out. simpl. split; [reflexivity|]. split; [reflexivity|].
    intros i j Hi. lia.
  - subst out. simpl.
    destruct (force_word_spec buf spec mask base ofst) as (L1 & U1 & F1);
      [lia|exact Hspec|].
    destruct (IH (force_word buf spec mask base ofst) spec mask base (ofst + 2)%nat)
      as (L2 & U2 & F2); [rewrite L1; lia|exact Hspec|].
    split; [rewrite L2; exact L1|]. split.
    + intros p Hp. rewrite U2 by lia. apply U1; lia.
    + intros i j Hi Hj Hm.
      destruct (decide (i < ofst + 2)%nat) as [Hlt|Hge].
      * rewrite U2 by lia. apply F1; [lia|exact Hj|exact Hm].
      * apply F2; [lia|exact Hj|exact Hm].
Qed.

Lemma div2_S_even (n : nat) : Nat.Even n -> (2 * Nat.div2 (S n) = n)%nat.
Proof.
  intros [k ->]. replace (S (2 * k)) with (1 + 2 * k)%nat by lia.
  rewrite Nat.div2_div. replace (1 + 2 * k)%nat with (1 + k * 2)%nat by lia.
  rewrite Nat.div_add by lia. simpl. lia.
Qed.

Lemma force_item_masks_from_spec (parsed_items : list sfc_mae_parsed_item) :
  forall (base : nat) (buf : list Z),
    Forall parsed_item_wf parsed_items ->
    (base + items_size parsed_items <= length buf)%nat ->
    exists out,
      sfc_mae_header_force_item_masks_from base buf parsed_items = Some out /\
      length out = length buf /\
      (forall p, (p < base)%nat -> nth p out 0 = nth p buf 0) /\
      (forall k parsed_item spec mask,
         parsed_items !! k = Some parsed_item ->
         item_spec (pi_item parsed_item) = Some spec ->
         item_mask (pi_item parsed_item) = Some mask ->
         agrees_under_mask out spec mask (base + item_offset parsed_items k)
                           (pi_proto_header_size parsed_item)).
Proof.
  induction parsed_items as [|pi rest IH]; intros base buf Hwf Hlen.
  - exists buf. simpl. repeat split; try reflexivity.
    intros k parsed_item spec mask Hk. rewrite lookup_nil in Hk. discriminate.
  - inversion Hwf as [|? ? Hpi Hrest]; subst.
    destruct Hpi as (spec & mask & Hs & Hm & Heven & Hbytes).
    unfold items_size in Hlen. simpl in Hlen. fold (items_size rest) in Hlen.
    simpl. rewrite Hs, Hm.
    pose proof (div2_S_even _ Heven) as Hdiv.
    destruct (force_words_spec (Nat.div2 (S (pi_proto_header_size pi)))
                buf spec mask base 0) as (L1 & U1 & F1);
      [lia|exact Hbytes|].
    destruct (IH (base + pi_proto_header_size pi)%nat
                 (force_words (Nat.div2 (S (pi_proto_header_size pi))) buf spec
                              mask base 0))
      as (out & Hrun & L2 & U2 & F2); [exact Hrest|rewrite L1; lia|].
    exists out. split; [exact Hrun|]. split; [rewrite L2; exact L1|]. split.
    + intros p Hp. rewrite U2 by lia. apply U1. lia.
    + intros k parsed_item spec' mask' Hk Hs' Hm'.
      destruct k as [|k]; simpl in Hk.
      * inversion Hk; subst parsed_item. rewrite Hs in Hs'. rewrite Hm in Hm'.
        inversion Hs'; inversion Hm'; subst spec' mask'.
        intros i j Hi Hj Hbit. simpl.
        replace (base + 0 + i)%nat with (base + i)%nat by lia.
        rewrite U2 by lia. apply F1; [lia|exact Hj|exact Hbit].
      * specialize (F2 k parsed_item spec' mask' Hk Hs' Hm').
        intros i j Hi Hj Hbit. simpl.
        replace (base + (pi_proto_header_size pi + item_offset rest k) + i)%nat
          with (base + pi_proto_header_size pi + item_offset rest k + i)%nat by lia.
        apply F2; assumption.
Qed.

(** C5. After the word-wise mask pass over an assembled encap. header,
    the header bytes of every parsed template item agree with the item's
    spec bytes at every bit position where the item's mask has a one,
    whatever the buffer held before (the defaults computed into it). *)
Theorem C5_force_item_masks_restores_spec :
  forall (header_buf : list Z) (parsed_items : list sfc_mae_parsed_item),
    Forall parsed_item_wf parsed_items ->
    (items_size parsed_items <= length header_buf)%nat ->
    exists out,
      sfc_mae_header_force_item_masks header_buf parsed_items = Some out /\
      length out = length header_buf /\
      forall k parsed_item spec mask,
        parsed_items !! k = Some parsed_item ->
        item_spec (pi_item parsed_item) = Some spec ->
        item_mask (pi_item parsed_item) = Some mask ->
        agrees_under_mask out spec mask (item_offset parsed_items k)
                          (pi_proto_header_size parsed_item).
Proof.
  intros header_buf parsed_items Hwf Hlen.
  destruct (force_item_masks_from_spec parsed_items 0 header_buf Hwf)
    as (out & Hrun & L & _ & F); [simpl; exact Hlen|].
  exists out. split; [exact Hrun|]. split; [exact L|].
  intros k parsed_item spec mask Hk Hs Hm.
  specialize (F k parsed_item spec mask Hk Hs Hm). simpl in F. exact F.
Qed.

(** A VLAN header template with spec [12 34 56 78] and mask [f0 00 ff 0f]
    over a buffer holding [aa bb cc dd]. *)
Lemma C5_force_item_masks_restores_spec_witness :
  exists out,
    sfc_mae_header_force_item_masks [170; 187; 204; 221]
      [mk_parsed_item (mk_item RTE_FLOW_ITEM_TYPE_VLAN (Some [18; 52; 86; 120])
                               None (Some [240; 0; 255; 15])) 4] = Some out /\
    length out = length [170; 187; 204; 221] /\
    forall k parsed_item spec mask,
      [mk_parsed_item (mk_item RTE_FLOW_ITEM_TYPE_VLAN (Some [18; 52; 86; 120])
                               None (Some [240; 0; 255; 15])) 4] !! k
        = Some parsed_item ->
      item_spec (pi_item parsed_item) = Some spec ->
      item_mask (pi_item parsed_item) = Some mask ->
      agrees_under_mask out spec mask
        (item_offset
           [mk_parsed_item (mk_item RTE_FLOW_ITEM_TYPE_VLAN (Some [18; 52; 86; 120])
                                    None (Some [240; 0; 255; 15])) 4] k)
        (pi_proto_header_size parsed_item).
Proof.
  apply (C5_force_item_masks_restores_spec [170; 187; 204; 221]
           [mk_parsed_item (mk_item RTE_FLOW_ITEM_TYPE_VLAN (Some [18; 52; 86; 120])
                                    None (Some [240; 0; 255; 15])) 4]).
  - constructor; [|constructor].
    exists [18; 52; 86; 120], [240; 0; 255; 15].
    split; [reflexivity|]. split; [reflexivity|]. split.
    + exists 2%nat. reflexivity.
    + repeat constructor; unfold is_byte; lia.
  - unfold items_size. simpl. lia.
Defined.

(** The pass on that input: [1a bb 56 d8]. *)
Example force_item_masks_run :
  sfc_mae_header_force_item_masks [170; 187; 204; 221]
    [mk_parsed_item (mk_item RTE_FLOW_ITEM_TYPE_VLAN (Some [18; 52; 86; 120])
                             None (Some [240; 0; 255; 15])) 4]
  = Some [26; 187; 86; 216].
Proof. vm_compute. reflexivity. Qed.
(** ** Deferred-field resolution *)

Lemma efx_inv (op : efx_op) (arg : Z) sa r sa' :
  efx op arg sa = Some (r, sa') ->
  sa_mae sa' = sa_mae sa /\
  sa_log sa' = sa_log sa /\
  (device_accepts sa -> rc_of r = 0 /\ device_accepts sa').
Proof.
  unfold efx, efx_invoke, device_accepts.
  destruct sa as [[replies calls] mae mem nxt rxq lcore log sock burst dp]. simpl.
  destruct replies as [|r0 rest]; simpl; intros H; inversion H; subst; simpl.
  - repeat split; reflexivity.
  - repeat split; try reflexivity; intros; discriminate.
Qed.

Lemma efx_total (op : efx_op) (arg : Z) sa :
  exists r sa', efx op arg sa = Some (r, sa').
Proof.
  unfold efx. destruct (efx_invoke op arg (sa_nic sa)) as [r nic].
  eexists. eexists. reflexivity.
Qed.

Lemma match_spec_field_write s f v m :
  match_spec_field (match_spec_write s f v m) f = Some (v, m).
Proof.
  unfold match_spec_field, match_spec_write. simpl.
  destruct (decide (f = f)); [reflexivity|contradiction].
Qed.

Lemma ctx_field_set_inv c f v m sa rc c' sa' :
  ctx_field_set c f v m sa = Some (rc, c', sa') ->
  pattern_data c' = pattern_data c /\
  match_spec c' = match_spec c /\
  field_ids_remap c' = field_ids_remap c /\
  is_Some (ctx_active_spec c') /\
  sa_mae sa' = sa_mae sa /\
  (rc = 0 ->
   exists s, ctx_active_spec c' = Some s /\ match_spec_field s f = Some (v, m)) /\
  (device_accepts sa -> rc = 0 /\ device_accepts sa').
Proof.
  unfold ctx_field_set, ctx_active_spec.
  destruct (match_spec c) eqn:Hms.
  - intros H. minv H. unfold efx_mae_match_spec_field_set in Hm. minv Hm.
    destruct (efx_inv _ _ _ _ _ Hm0) as (Hmae & _ & Hacc).
    destruct (decide (rc_of a0 = 0)) as [Hrc|Hrc]; minv Hm; minv H; simpl;
      rewrite Hms.
    + split; [reflexivity|]. split; [reflexivity|]. split; [reflexivity|].
      split; [eexists; reflexivity|]. split; [exact Hmae|]. split.
      * intros _. eexists. split; [reflexivity|apply match_spec_field_write].
      * intros Ha. split; [reflexivity|apply Hacc; exact Ha].
    + split; [reflexivity|]. split; [reflexivity|]. split; [reflexivity|].
      split; [eexists; reflexivity|]. split; [exact Hmae|]. split.
      * intros Hz. contradiction.
      * exact Hacc.
  - intros H. minv H. unfold deref in Hm.
    destruct (match_spec_outer c) as [outer|] eqn:Ho; [|discriminate Hm].
    minv Hm. minv H. unfold efx_mae_match_spec_field_set in Hm. minv Hm.
    destruct (efx_inv _ _ _ _ _ Hm0) as (Hmae & _ & Hacc).
    destruct (decide (rc_of a0 = 0)) as [Hrc|Hrc]; minv Hm; minv H; simpl;
      rewrite Hms.
    + split; [reflexivity|]. split; [reflexivity|]. split; [reflexivity|].
      split; [eexists; reflexivity|]. split; [exact Hmae|]. split.
      * intros _. eexists. split; [reflexivity|apply match_spec_field_write].
      * intros Ha. split; [reflexivity|apply Hacc; exact Ha].
    + split; [reflexivity|]. split; [reflexivity|]. split; [reflexivity|].
      split; [eexists; reflexivity|]. split; [exact Hmae|]. split.
      * intros Hz. contradiction.
      * exact Hacc.
Qed.

Lemma ctx_field_set_total c f v m sa :
  is_Some (ctx_active_spec c) ->
  exists rc c' sa', ctx_field_set c f v m sa = Some (rc, c', sa').
Proof.
  intros [s Hs]. unfold ctx_field_set, ctx_active_spec in *.
  destruct (match_spec c).
  - unfold bind, efx_mae_match_spec_field_set, bind.
    destruct (efx_total OP_MATCH_SPEC_FIELD_SET 0 sa) as (r & sa' & ->).
    destruct (decide (rc_of r = 0)); simpl; eauto.
  - rewrite Hs. unfold bind, deref, ret, efx_mae_match_spec_field_set, bind.
    destruct (efx_total OP_MATCH_SPEC_FIELD_SET 0 sa) as (r & sa' & ->).
    destruct (decide (rc_of r = 0)); simpl; eauto.
Qed.

Lemma fremap_same (c c' : sfc_mae_parse_ctx) (f : efx_mae_field_id) :
  field_ids_remap c' = field_ids_remap c -> fremap c' f = fremap c f.
Proof. unfold fremap. intros ->. reflexivity. Qed.

Lemma set_ethertypes_tags_inv (pdata : sfc_mae_pattern_data) (n : nat) :
  forall i c sa rc c' sa',
    set_ethertypes_tags pdata n i c sa = Some (rc, c', sa') ->
    pattern_data c' = pattern_data c /\
    match_spec c' = match_spec c /\
    field_ids_remap c' = field_ids_remap c /\
    (is_Some (ctx_active_spec c) -> is_Some (ctx_active_spec c')) /\
    sa_mae sa' = sa_mae sa /\
    (device_accepts sa -> rc = 0 /\ device_accepts sa').
Proof.
  induction n as [|n IH]; intros i c sa rc c' sa' H; simpl in H.
  - minv H. repeat split; auto.
  - minv H. minv H. minv H. destruct a1 as [rc1 c1].
    destruct (ctx_field_set_inv _ _ _ _ _ _ _ _ Hm1)
      as (P1 & P2 & P3 & P4 & P5 & _ & P7).
    unfold deref in Hm, Hm0.
    destruct (ethertypes pdata !! i); [|discriminate Hm]. minv Hm.
    match type of Hm0 with
    | match ?x with _ => _ end _ = _ => destruct x; [|discriminate Hm0]
    end.
    minv Hm0.
    destruct (decide (rc1 = 0)) as [Hz|Hnz].
    + destruct (IH _ _ _ _ _ _ H) as (Q1 & Q2 & Q3 & Q4 & Q5 & Q6).
      split; [congruence|]. split; [congruence|]. split; [congruence|].
      split; [intros _; apply Q4; exact P4|]. split; [congruence|].
      intros Ha. apply Q6. apply P7. exact Ha.
    + minv H.
      split; [congruence|]. split; [congruence|]. split; [congruence|].
      split; [intros _; exact P4|]. split; [congruence|].
      exact P7.
Qed.

Lemma sfc_mae_set_ethertypes_inv c sa rc c' sa' :
  sfc_mae_set_ethertypes c sa = Some (rc, c', sa') ->
  pattern_data c' = pattern_data c /\
  match_spec c' = match_spec c /\
  field_ids_remap c' = field_ids_remap c /\
  is_Some (ctx_active_spec c') /\
  sa_mae sa' = sa_mae sa /\
  (device_accepts sa -> rc = 0 /\ device_accepts sa').
Proof.
  unfold sfc_mae_set_ethertypes. intros H. minv H. minv H.
  destruct a0 as [rc1 c1].
  destruct (ctx_field_set_inv _ _ _ _ _ _ _ _ Hm0)
    as (P1 & P2 & P3 & P4 & P5 & _ & P7).
  unfold deref in Hm.
  destruct (ethertypes (pattern_data c) !! nb_vlan_tags (pattern_data c));
    [|discriminate Hm].
  minv Hm.
  destruct (decide (rc1 = 0)) as [Hz|Hnz].
  - destruct (set_ethertypes_tags_inv _ _ _ _ _ _ _ _ H)
      as (Q1 & Q2 & Q3 & Q4 & Q5 & Q6).
    split; [congruence|]. split; [congruence|]. split; [congruence|].
    split; [apply Q4; exact P4|]. split; [congruence|].
    intros Ha. apply Q6. apply P7. exact Ha.
  - minv H.
    split; [congruence|]. split; [congruence|]. split; [congruence|].
    split; [exact P4|]. split; [congruence|].
    exact P7.
Qed.

Lemma check_tpids_state (n : nat) :
  forall i d nb sa t sa', check_tpids n i d nb sa = Some (t, sa') -> sa' = sa.
Proof.
  induction n as [|n IH]; intros i d nb sa t sa' H; simpl in H.
  - minv H. reflexivity.
  - minv H. unfold deref in Hm.
    destruct (ethertypes d !! i) as [et|]; [|discriminate Hm].
    minv Hm.
    destruct (decide (et_mask et <> 65535)); [minv H; reflexivity|].
    match type of H with
    | (if ?c then _ else _) _ = _ => destruct c
    end.
    + minv H. reflexivity.
    + eapply IH. exact H.
Qed.
Lemma process_pattern_data_l3 (ctx : sfc_mae_parse_ctx) (sa : sfc_adapter) :
  let pdata := pattern_data ctx in
  let implied := l3_next_proto_restriction_value pdata in
  l3_next_proto_restriction_mask pdata = 255 ->
  forall rc ctx' sa',
    sfc_mae_rule_process_pattern_data ctx sa = Some (rc, ctx', sa') ->
    ((l3_next_proto_mask pdata = 0 \/
      (l3_next_proto_mask pdata = 255 /\ l3_next_proto_value pdata = implied)) ->
     rc = 0 ->
     exists s, ctx_active_spec ctx' = Some s /\
               match_spec_field s (fremap ctx EFX_MAE_FIELD_IP_PROTO) =
                 Some ([implied], [255])) /\
    (l3_next_proto_mask pdata <> 0 ->
     (l3_next_proto_mask pdata <> 255 \/ l3_next_proto_value pdata <> implied) ->
     rc <> 0 /\ (device_accepts sa -> rc = - EINVAL)).
Proof.
  intros pdata implied Hrestr rc ctx' sa' H.
  unfold sfc_mae_rule_process_pattern_data in H. fold pdata in H.
  minv H. apply check_tpids_state in Hm. subst sa0.
  destruct a as [nb|];
    [|minv H; split;
      [intros _ Hz; discriminate Hz
      |intros _ _; split; [discriminate|reflexivity]]].
  minv H.
  assert (Ha : sa0 = sa /\
               forall pd, a = Some pd ->
                 l3_next_proto_mask pd = l3_next_proto_mask pdata /\
                 l3_next_proto_value pd = l3_next_proto_value pdata /\
                 l3_next_proto_restriction_value pd = implied /\
                 l3_next_proto_restriction_mask pd = 255).
  { destruct (decide (et_mask (innermost_ethertype_restriction pdata) = 65535)).
    - minv Hm. unfold deref in Hm0.
      destruct (ethertypes pdata !! nb_vlan_tags pdata) as [et|];
        [|discriminate Hm0].
      minv Hm0.
      destruct (decide (et_mask et = 0)).
      + minv Hm. split; [reflexivity|]. intros pd Hpd. simplify_eq. simpl.
        repeat split; try reflexivity. exact Hrestr.
      + destruct (decide (et_mask et <> 65535 \/
                          et_value et <>
                          et_value (innermost_ethertype_restriction pdata))).
        * minv Hm. split; [reflexivity|]. intros pd Hpd. discriminate Hpd.
        * minv Hm. split; [reflexivity|]. intros pd Hpd. simplify_eq.
          repeat split; try reflexivity. exact Hrestr.
    - minv Hm. split; [reflexivity|]. intros pd Hpd. simplify_eq.
      repeat split; try reflexivity. exact Hrestr. }
  destruct Ha as [-> Ha]. clear Hm.
  destruct a as [pd|];
    [|minv H; split;
      [intros _ Hz; discriminate Hz
      |intros _ _; split; [discriminate|reflexivity]]].
  destruct (Ha pd eq_refl) as (Hmask & Hval & Hrv & Hrm). clear Ha.
  minv H. destruct a as [rc1 ctx1].
  destruct (sfc_mae_set_ethertypes_inv _ _ _ _ _ Hm)
    as (P1 & P2 & P3 & P4 & P5 & P6).
  simpl in P1, P2, P3.
  destruct (decide (rc1 = 0)) as [Hz1|Hnz1].
  2:{ minv H. split.
      - intros _ Hz. unfold rte_flow_error_set in Hz. lia.
      - intros _ _. split; [unfold rte_flow_error_set; lia|].
        intros Hacc. apply P6 in Hacc. destruct Hacc; contradiction. }
  rewrite Hrm in H. simpl in H. rewrite Hmask, Hval, Hrv in H.
  destruct (decide (l3_next_proto_mask pdata = 0)) as [Hm0|Hm0].
  - minv H. destruct a as [rc2 ctx2].
    destruct (ctx_field_set_inv _ _ _ _ _ _ _ _ Hm1)
      as (Q1 & Q2 & Q3 & Q4 & Q5 & Q6 & Q7).
    simpl in Q6.
    destruct (decide (rc2 = 0)) as [Hz2|Hnz2]; minv H.
    + split.
      * intros _ _. destruct (Q6 eq_refl) as (s & Hs & Hf). exists s.
        split; [exact Hs|].
        rewrite <- Hf. f_equal. unfold fremap. simpl. rewrite P3. reflexivity.
      * intros Hne. contradiction.
    + split.
      * intros _ Hz. unfold rte_flow_error_set in Hz. lia.
      * intros Hne. contradiction.
  - destruct (decide (l3_next_proto_mask pdata <> 255 \/
                      l3_next_proto_value pdata <> implied)) as [Hbad|Hok].
    + minv H. split.
      * intros [Hz|[Hz1' Hz2']] _; [contradiction|].
        destruct Hbad; contradiction.
      * intros _ _. split; [discriminate|]. reflexivity.
    + minv H. destruct a as [rc2 ctx2].
      destruct (ctx_field_set_inv _ _ _ _ _ _ _ _ Hm1)
        as (Q1 & Q2 & Q3 & Q4 & Q5 & Q6 & Q7).
      assert (Hm255 : l3_next_proto_mask pdata = 255).
      { destruct (decide (l3_next_proto_mask pdata = 255)); [assumption|].
        exfalso. apply Hok. left. assumption. }
      assert (Hv : l3_next_proto_value pdata = implied).
      { destruct (decide (l3_next_proto_value pdata = implied)); [assumption|].
        exfalso. apply Hok. right. assumption. }
      destruct (decide (rc2 = 0)) as [Hz2|Hnz2]; minv H.
      * split.
        -- intros _ _. destruct (Q6 eq_refl) as (s & Hs & Hf). exists s.
           split; [exact Hs|].
           rewrite Hmask, Hval, Hm255, Hv in Hf. rewrite <- Hf.
           f_equal. unfold fremap. simpl. rewrite P3. reflexivity.
        -- intros _ Hb. exfalso. apply Hok. exact Hb.
      * split.
        -- intros _ Hz. unfold rte_flow_error_set in Hz. lia.
        -- intros _ Hb. exfalso. apply Hok. exact Hb.
Qed.
Lemma bind_run {A B : Type} (m : M A) (k : A -> M B) sa a sa1 :
  m sa = Some (a, sa1) -> bind m k sa = k a sa1.
Proof. intros H. unfold bind. rewrite H. reflexivity. Qed.

Lemma ctx_field_set_accepts c f v m sa :
  is_Some (ctx_active_spec c) -> device_accepts sa ->
  exists c' sa',
    ctx_field_set c f v m sa = Some (0, c', sa') /\
    device_accepts sa' /\
    is_Some (ctx_active_spec c') /\
    pattern_data c' = pattern_data c /\
    field_ids_remap c' = field_ids_remap c.
Proof.
  intros Hs Hacc.
  destruct (ctx_field_set_total c f v m sa Hs) as (rc & c' & sa' & Hrun).
  destruct (ctx_field_set_inv _ _ _ _ _ _ _ _ Hrun)
    as (P1 & P2 & P3 & P4 & P5 & P6 & P7).
  destruct (P7 Hacc) as [-> Hacc'].
  exists c', sa'. repeat split; assumption.
Qed.

(** With a consistent L2 part the TPID checks pass. *)
Lemma check_tpids_consistent (ethertype : Z) (d : sfc_mae_pattern_data)
    (sa : sfc_adapter) :
  l2_consistent ethertype d ->
  et_mask (innermost_ethertype_restriction d) = 65535 ->
  exists k,
    check_tpids (nb_vlan_tags d) 0 d
      (if decide (et_mask (innermost_ethertype_restriction d) <> 0) then
         if decide (nb_vlan_tags d < SFC_MAE_MATCH_VLAN_MAX_NTAGS)%nat then 1%nat
         else length supported_tpids
       else length supported_tpids) sa = Some (Some k, sa).
Proof.
  intros [Htags _] Hr. rewrite Hr.
  destruct (decide (65535 <> 0)) as [_|Hn]; [|exfalso; apply Hn; lia].
  destruct (nb_vlan_tags d) as [|[|[|n]]] eqn:Hnb; try contradiction.
  - eexists. reflexivity.
  - simpl. unfold bind, deref. rewrite Htags. simpl.
    rewrite Hnb. simpl. eexists. reflexivity.
  - destruct Htags as [(tpid & H0 & Htp) H1].
    simpl. unfold bind, deref. rewrite H0. simpl. rewrite Hnb. simpl.
    destruct Htp as [-> | [-> | [-> | ->]]]; simpl; rewrite H1; simpl;
      eexists; reflexivity.
Qed.

Lemma set_ethertypes_tags_accepts (pdata : sfc_mae_pattern_data) (n : nat) :
  forall i c sa,
    (i + n <= SFC_MAE_MATCH_VLAN_MAX_NTAGS)%nat ->
    (forall j, (j < i + n)%nat -> is_Some (ethertypes pdata !! j)) ->
    is_Some (ctx_active_spec c) -> device_accepts sa ->
    exists c' sa',
      set_ethertypes_tags pdata n i c sa = Some (0, c', sa') /\
      device_accepts sa' /\
      is_Some (ctx_active_spec c') /\
      pattern_data c' = pattern_data c /\
      field_ids_remap c' = field_ids_remap c.
Proof.
  unfold SFC_MAE_MATCH_VLAN_MAX_NTAGS.
  induction n as [|n IH]; intros i c sa Hle Het Hs Hacc; simpl.
  - exists c, sa. repeat split; assumption.
  - destruct (Het i ltac:(lia)) as [et Hi]. rewrite Hi.
    unfold deref at 1. rewrite (bind_run _ _ sa et sa eq_refl).
    assert (Hf : exists f, [EFX_MAE_FIELD_VLAN0_PROTO_BE;
                            EFX_MAE_FIELD_VLAN1_PROTO_BE] !! i = Some f).
    { destruct i as [|[|i]]; [eexists; reflexivity|eexists; reflexivity|lia]. }
    destruct Hf as [f Hf]. rewrite Hf.
    unfold deref. rewrite (bind_run _ _ sa f sa eq_refl).
    destruct (ctx_field_set_accepts c (fremap c f) (be16_bytes (et_value et))
                (be16_bytes (et_mask et)) sa Hs Hacc)
      as (c1 & sa1 & Hfs & Hacc1 & Hs1 & Hpd1 & Hrm1).
    rewrite (bind_run _ _ _ _ _ Hfs). simpl.
    destruct (IH (S i) c1 sa1 ltac:(lia)
                 ltac:(intros j Hj; apply Het; lia) Hs1 Hacc1)
      as (c' & sa' & Hrun & Hacc' & Hs' & Hpd' & Hrm').
    exists c', sa'. split; [exact Hrun|]. split; [exact Hacc'|].
    split; [exact Hs'|]. split; congruence.
Qed.

Lemma set_ethertypes_accepts (c : sfc_mae_parse_ctx) (sa : sfc_adapter) :
  (nb_vlan_tags (pattern_data c) <= SFC_MAE_MATCH_VLAN_MAX_NTAGS)%nat ->
  (forall j, (j <= nb_vlan_tags (pattern_data c))%nat ->
             is_Some (ethertypes (pattern_data c) !! j)) ->
  is_Some (ctx_active_spec c) -> device_accepts sa ->
  exists c' sa',
    sfc_mae_set_ethertypes c sa = Some (0, c', sa') /\
    device_accepts sa' /\
    is_Some (ctx_active_spec c') /\
    pattern_data c' = pattern_data c /\
    field_ids_remap c' = field_ids_remap c.
Proof.
  intros Hle Het Hs Hacc. unfold sfc_mae_set_ethertypes.
  destruct (Het (nb_vlan_tags (pattern_data c)) ltac:(lia)) as [et He].
  rewrite He. unfold deref. rewrite (bind_run _ _ sa et sa eq_refl).
  destruct (ctx_field_set_accepts c (fremap c EFX_MAE_FIELD_ETHER_TYPE_BE)
              (be16_bytes (et_value et)) (be16_bytes (et_mask et)) sa Hs Hacc)
    as (c1 & sa1 & Hfs & Hacc1 & Hs1 & Hpd1 & Hrm1).
  rewrite (bind_run _ _ _ _ _ Hfs). simpl.
  destruct (set_ethertypes_tags_accepts (pattern_data c)
              (nb_vlan_tags (pattern_data c)) 0%nat c1 sa1
              ltac:(simpl; exact Hle)
              ltac:(intros j Hj; apply Het; simpl in Hj; lia) Hs1 Hacc1)
    as (c' & sa' & Hrun & Hacc' & Hs' & Hpd' & Hrm').
  exists c', sa'. split; [exact Hrun|]. split; [exact Hacc'|].
  split; [exact Hs'|]. split; congruence.
Qed.

Lemma l2_consistent_ethertypes (ethertype : Z) (d : sfc_mae_pattern_data) :
  l2_consistent ethertype d ->
  (nb_vlan_tags d <= SFC_MAE_MATCH_VLAN_MAX_NTAGS)%nat /\
  forall j, (j <= nb_vlan_tags d)%nat -> is_Some (ethertypes d !! j).
Proof.
  intros [Htags (et & He & _)]. unfold SFC_MAE_MATCH_VLAN_MAX_NTAGS.
  destruct (nb_vlan_tags d) as [|[|[|n]]] eqn:Hnb; try contradiction.
  - split; [lia|]. intros j Hj. replace j with 0%nat by lia. eexists. exact He.
  - split; [lia|]. intros j Hj.
    destruct j as [|[|j]]; [eexists; exact Htags|eexists; exact He|lia].
  - destruct Htags as [(tpid & H0 & _) H1]. split; [lia|]. intros j Hj.
    destruct j as [|[|[|j]]];
      [eexists; exact H0|eexists; exact H1|eexists; exact He|lia].
Qed.

(** With a consistent L2 part, on a device that accepts every call,
    resolution runs to its end: it succeeds when the next-protocol byte
    is open or names the implied protocol, and fails with [EINVAL]
    otherwise. *)
Lemma process_pattern_data_consistent (ctx : sfc_mae_parse_ctx)
    (sa : sfc_adapter) :
  let pdata := pattern_data ctx in
  let implied := l3_next_proto_restriction_value pdata in
  l3_next_proto_restriction_mask pdata = 255 ->
  et_mask (innermost_ethertype_restriction pdata) = 65535 ->
  l2_consistent (et_value (innermost_ethertype_restriction pdata)) pdata ->
  is_Some (ctx_active_spec ctx) ->
  device_accepts sa ->
  exists ctx' sa',
    sfc_mae_rule_process_pattern_data ctx sa =
      Some ((if decide (l3_next_proto_mask pdata = 0 \/
                        (l3_next_proto_mask pdata = 255 /\
                         l3_next_proto_value pdata = implied))
             then 0 else - EINVAL), ctx', sa').
Proof.
  intros pdata implied Hrestr H65 Hl2 Hs Hacc.
  unfold sfc_mae_rule_process_pattern_data. fold pdata.
  destruct (check_tpids_consistent _ pdata sa Hl2 H65) as [k Hk].
  rewrite (bind_run _ _ _ _ _ Hk).
  destruct (l2_consistent_ethertypes _ _ Hl2) as [Hle Hall].
  destruct Hl2 as [_ (et & Het & Hcons)].
  assert (He : exists pd,
             (if decide (et_mask (innermost_ethertype_restriction pdata) = 65535)
              then
                do et <- deref (ethertypes pdata !! nb_vlan_tags pdata);
                if decide (et_mask et = 0) then
                  ret (Some (pdata_set_ethertypes
                               (<[nb_vlan_tags pdata :=
                                    mk_ethertype
                                      (et_value (innermost_ethertype_restriction pdata))
                                      65535]> (ethertypes pdata)) pdata))
                else if decide (et_mask et <> 65535 \/
                                et_value et <>
                                et_value (innermost_ethertype_restriction pdata))
                then ret None
                else ret (Some pdata)
              else ret (Some pdata)) sa = Some (Some pd, sa) /\
             nb_vlan_tags pd = nb_vlan_tags pdata /\
             (forall j, (j <= nb_vlan_tags pdata)%nat ->
                        is_Some (ethertypes pd !! j)) /\
             l3_next_proto_mask pd = l3_next_proto_mask pdata /\
             l3_next_proto_value pd = l3_next_proto_value pdata /\
             l3_next_proto_restriction_value pd = implied /\
             l3_next_proto_restriction_mask pd = 255).
  { destruct (decide (et_mask (innermost_ethertype_restriction pdata) = 65535))
      as [_|Hn]; [|contradiction].
    rewrite Het. unfold deref. rewrite (bind_run _ _ sa et sa eq_refl).
    destruct (decide (et_mask et = 0)) as [Hz|Hnz].
    - eexists. split; [reflexivity|]. simpl.
      split; [reflexivity|]. split.
      + intros j Hj. apply lookup_lt_is_Some_2. rewrite length_insert.
        apply lookup_lt_is_Some_1. apply Hall. exact Hj.
      + repeat split; try reflexivity. exact Hrestr.
    - destruct Hcons as [Hz|[Hm Hv]]; [contradiction|].
      destruct (decide (et_mask et <> 65535 \/
                        et_value et <>
                        et_value (innermost_ethertype_restriction pdata)))
        as [[Hb|Hb]|Hok]; [contradiction|contradiction|].
      exists pdata. split; [reflexivity|].
      split; [reflexivity|]. split; [exact Hall|].
      repeat split; try reflexivity. exact Hrestr. }
  destruct He as (pd & Hrun & Hnb' & Hall' & Hmask & Hval & Hrv & Hrm).
  rewrite (bind_run _ _ _ _ _ Hrun).
  destruct (set_ethertypes_accepts (ctx_set_pattern_data pd ctx) sa
              ltac:(simpl; rewrite Hnb'; exact Hle)
              ltac:(simpl; rewrite Hnb'; exact Hall')
              Hs Hacc)
    as (c1 & sa1 & Hset & Hacc1 & Hs1' & Hpd1 & Hrm1).
  rewrite (bind_run _ _ _ _ _ Hset). simpl.
  rewrite Hrm. simpl. rewrite Hmask, Hval, Hrv.
  destruct (decide (l3_next_proto_mask pdata = 0)) as [Hm0|Hm0].
  - destruct (ctx_field_set_accepts
                (ctx_set_pattern_data (pdata_set_l3_next_proto implied 255 pd) c1)
                (fremap (ctx_set_pattern_data
                           (pdata_set_l3_next_proto implied 255 pd) c1)
                        EFX_MAE_FIELD_IP_PROTO)
                [l3_next_proto_value (pdata_set_l3_next_proto implied 255 pd)]
                [l3_next_proto_mask (pdata_set_l3_next_proto implied 255 pd)]
                sa1 Hs1' Hacc1)
      as (c2 & sa2 & Hfs2 & _).
    rewrite (bind_run _ _ _ _ _ Hfs2). simpl.
    destruct (decide (l3_next_proto_mask pdata = 0 \/
                      l3_next_proto_mask pdata = 255 /\
                      l3_next_proto_value pdata = implied)) as [_|Hn].
    + eexists. eexists. reflexivity.
    + exfalso. apply Hn. left. exact Hm0.
  - destruct (decide (l3_next_proto_mask pdata <> 255 \/
                      l3_next_proto_value pdata <> implied)) as [Hbad|Hok].
    + destruct (decide (l3_next_proto_mask pdata = 0 \/
                        l3_next_proto_mask pdata = 255 /\
                        l3_next_proto_value pdata = implied))
        as [[Hz|[Ha Hb]]|_].
      * contradiction.
      * destruct Hbad; contradiction.
      * eexists. eexists. reflexivity.
    + destruct (ctx_field_set_accepts
                  (ctx_set_pattern_data pd c1)
                  (fremap (ctx_set_pattern_data pd c1) EFX_MAE_FIELD_IP_PROTO)
                  [l3_next_proto_value pd] [l3_next_proto_mask pd]
                  sa1 Hs1' Hacc1)
        as (c2 & sa2 & Hfs2 & _).
      rewrite (bind_run _ _ _ _ _ Hfs2). simpl.
      destruct (decide (l3_next_proto_mask pdata = 0 \/
                        l3_next_proto_mask pdata = 255 /\
                        l3_next_proto_value pdata = implied)) as [_|Hn].
      * eexists. eexists. reflexivity.
      * exfalso. apply Hn. right.
        split.
        -- destruct (decide (l3_next_proto_mask pdata = 255)); [assumption|].
           exfalso. apply Hok. left. assumption.
        -- destruct (decide (l3_next_proto_value pdata = implied)); [assumption|].
           exfalso. apply Hok. right. assumption.
Qed.

Lemma sfc_mae_parse_item_inv (flocs : list sfc_mae_field_locator) :
  forall spec mask c sa rc c' sa',
    sfc_mae_parse_item flocs spec mask c sa = Some (rc, c', sa') ->
    pattern_data c' = pattern_data c /\
    match_spec c' = match_spec c /\
    field_ids_remap c' = field_ids_remap c /\
    (is_Some (ctx_active_spec c) -> is_Some (ctx_active_spec c')).
Proof.
  induction flocs as [|fl rest IH]; intros spec mask c sa rc c' sa' H;
    simpl in H.
  - minv H. repeat split; auto.
  - destruct (decide (fl_field_id fl = SFC_MAE_FIELD_HANDLING_DEFERRED)).
    + eapply IH. exact H.
    + minv H. destruct a as [rc1 c1].
      destruct (ctx_field_set_inv _ _ _ _ _ _ _ _ Hm)
        as (P1 & P2 & P3 & P4 & _).
      destruct (decide (rc1 = 0)).
      * destruct (IH _ _ _ _ _ _ _ H) as (Q1 & Q2 & Q3 & Q4).
        split; [congruence|]. split; [congruence|]. split; [congruence|].
        intros _. apply Q4. exact P4.
      * minv H. split; [congruence|]. split; [congruence|].
        split; [congruence|]. intros _. exact P4.
Qed.

(** An accepted TCP item requires next-protocol 6 of the L3 item before
    it, an accepted UDP item 17; what the L3 item declared stays. *)
Lemma l4_item_sets_restriction (k : l4_item_kind) item c sa c' sa' :
  match k with
  | L4_TCP => sfc_mae_rule_parse_item_tcp
  | L4_UDP => sfc_mae_rule_parse_item_udp
  end item c sa = Some (0, c', sa') ->
  pattern_data c' =
    pdata_set_l3_restriction (l4_implied_proto k) 255 (pattern_data c) /\
  match_spec c' = match_spec c /\
  field_ids_remap c' = field_ids_remap c /\
  (is_Some (ctx_active_spec c) -> is_Some (ctx_active_spec c')).
Proof.
  destruct k.
  - unfold sfc_mae_rule_parse_item_tcp.
    destruct (decide (match_spec c <> MATCH_SPEC_ACTION)).
    + intros H. minv H; try (unfold rte_flow_error_set, EINVAL in *; lia).
    + destruct (sfc_flow_parse_init item
                  (Some (sfc_mae_item_build_supp_mask flocs_tcp
                                                      sizeof_rte_flow_item_tcp))
                  (Some rte_flow_item_tcp_mask) sizeof_rte_flow_item_tcp)
        as [[rc spec] mask].
      destruct (decide (rc = 0)); [|intros H; minv H; try contradiction].
      destruct spec as [spec|]; intros H.
      * destruct (sfc_mae_parse_item_inv _ _ _ _ _ _ _ _ H)
          as (Q1 & Q2 & Q3 & Q4).
        simpl in Q1, Q2, Q3. repeat split; try assumption.
      * minv H. repeat split; auto.
  - unfold sfc_mae_rule_parse_item_udp.
    destruct (sfc_flow_parse_init item
                (Some (sfc_mae_item_build_supp_mask flocs_udp
                                                    sizeof_rte_flow_item_udp))
                (Some rte_flow_item_udp_mask) sizeof_rte_flow_item_udp)
      as [[rc spec] mask].
    destruct (decide (rc = 0)); [|intros H; minv H; try contradiction].
    destruct spec as [spec|]; intros H.
    + destruct (sfc_mae_parse_item_inv _ _ _ _ _ _ _ _ H)
        as (Q1 & Q2 & Q3 & Q4).
      simpl in Q1, Q2, Q3. repeat split; try assumption.
    + minv H. repeat split; auto.
Qed.

(** On a device that accepts every call the locators of an item are all
    written. *)
Lemma sfc_mae_parse_item_accepts (flocs : list sfc_mae_field_locator) :
  forall spec mask c sa,
    is_Some (ctx_active_spec c) -> device_accepts sa ->
    exists c' sa',
      sfc_mae_parse_item flocs spec mask c sa = Some (0, c', sa') /\
      device_accepts sa' /\
      is_Some (ctx_active_spec c').
Proof.
  induction flocs as [|fl rest IH]; intros spec mask c sa Hs Hacc; simpl.
  - exists c, sa. repeat split; assumption.
  - destruct (decide (fl_field_id fl = SFC_MAE_FIELD_HANDLING_DEFERRED)).
    + apply IH; assumption.
    + destruct (ctx_field_set_accepts c (fremap c (fl_field_id fl))
                  (bytes_at spec (fl_ofst fl) (fl_size fl))
                  (bytes_at mask (fl_ofst fl) (fl_size fl)) sa Hs Hacc)
        as (c1 & sa1 & Hfs & Hacc1 & Hs1 & _).
      rewrite (bind_run _ _ _ _ _ Hfs). simpl.
      apply IH; assumption.
Qed.

(** What an accepted L3 item leaves in the pattern data: the EtherType it
    requires, and the next-protocol byte it declares. *)
Lemma l3_item_sets_next_proto (k : l3_item_kind) item spec mask c sa c' sa' :
  l3_item_check k item = (0, spec, mask) ->
  match k with
  | L3_IPV4 => sfc_mae_rule_parse_item_ipv4
  | L3_IPV6 => sfc_mae_rule_parse_item_ipv6
  end item c sa = Some (0, c', sa') ->
  l3_next_proto_value (pattern_data c') =
    fst (l3_declared_proto k spec mask (pattern_data c)) /\
  l3_next_proto_mask (pattern_data c') =
    snd (l3_declared_proto k spec mask (pattern_data c)) /\
  innermost_ethertype_restriction (pattern_data c') =
    mk_ethertype (l3_ethertype k) 65535 /\
  ethertypes (pattern_data c') = ethertypes (pattern_data c) /\
  nb_vlan_tags (pattern_data c') = nb_vlan_tags (pattern_data c) /\
  match_spec c' = match_spec c /\
  field_ids_remap c' = field_ids_remap c /\
  (is_Some (ctx_active_spec c) -> is_Some (ctx_active_spec c')).
Proof.
  intros Hchk H. destruct k; unfold l3_item_check in Hchk.
  - unfold sfc_mae_rule_parse_item_ipv4 in H. rewrite Hchk in H.
    destruct (decide (0 = 0)) as [_|Hn]; [|contradiction].
    destruct spec as [spec|].
    + destruct (sfc_mae_parse_item_inv _ _ _ _ _ _ _ _ H)
        as (Q1 & Q2 & Q3 & Q4).
      rewrite Q1. simpl. repeat split; assumption.
    + minv H. simpl. repeat split; auto.
  - unfold sfc_mae_rule_parse_item_ipv6 in H. cbv zeta in H.
    rewrite Hchk in H.
    destruct (decide (0 = 0)) as [_|Hn]; [|contradiction].
    destruct spec as [spec|].
    + minv H. destruct a as [rc1 c1].
      destruct (sfc_mae_parse_item_inv _ _ _ _ _ _ _ _ Hm)
        as (Q1 & Q2 & Q3 & Q4).
      destruct (decide (rc1 = 0)); [|minv H; contradiction].
      minv H. destruct a as [rc2 c2].
      destruct (ctx_field_set_inv _ _ _ _ _ _ _ _ Hm0)
        as (P1 & P2 & P3 & P4 & _).
      destruct (decide (rc2 = 0));
        [|minv H; unfold rte_flow_error_set in *; lia].
      minv H. rewrite P1, Q1. simpl in Q2, Q3 |- *.
      do 7 (split; [congruence|]). intros _. exact P4.
    + minv H. simpl. repeat split; auto.
Qed.

(** On a device that accepts every call an L3 item that passes the
    generic item check is accepted. *)
Lemma l3_item_accepts (k : l3_item_kind) item spec mask c sa :
  l3_item_check k item = (0, spec, mask) ->
  is_Some (ctx_active_spec c) -> device_accepts sa ->
  exists c' sa',
    match k with
    | L3_IPV4 => sfc_mae_rule_parse_item_ipv4
    | L3_IPV6 => sfc_mae_rule_parse_item_ipv6
    end item c sa = Some (0, c', sa') /\
    device_accepts sa'.
Proof.
  intros Hchk Hs Hacc. destruct k; unfold l3_item_check in Hchk.
  - unfold sfc_mae_rule_parse_item_ipv4. rewrite Hchk.
    destruct (decide (0 = 0)) as [_|Hn]; [|contradiction].
    destruct spec as [spec|].
    + match goal with
      | |- exists _ _, sfc_mae_parse_item ?f ?s ?m ?c0 _ = _ /\ _ =>
          destruct (sfc_mae_parse_item_accepts f s m c0 sa Hs Hacc)
            as (c' & sa' & Hrun & Hacc' & _)
      end.
      exists c', sa'. split; assumption.
    + eexists. eexists. split; [reflexivity|exact Hacc].
  - unfold sfc_mae_rule_parse_item_ipv6. cbv zeta. rewrite Hchk.
    destruct (decide (0 = 0)) as [_|Hn]; [|contradiction].
    destruct spec as [spec|].
    + match goal with
      | |- exists _ _, bind (sfc_mae_parse_item ?f ?s ?m ?c0) _ _ = _ /\ _ =>
          destruct (sfc_mae_parse_item_accepts f s m c0 sa Hs Hacc)
            as (c1 & sa1 & Hrun & Hacc1 & Hs1)
      end.
      rewrite (bind_run _ _ _ _ _ Hrun). simpl.
      match goal with
      | |- exists _ _, bind (ctx_field_set ?c0 ?f ?v ?m) _ _ = _ /\ _ =>
          destruct (ctx_field_set_accepts c0 f v m sa1 Hs1 Hacc1)
            as (c2 & sa2 & Hfs & Hacc2 & _)
      end.
      rewrite (bind_run _ _ _ _ _ Hfs). simpl.
      exists c2, sa2. split; [reflexivity|exact Hacc2].
    + eexists. eexists. split; [reflexivity|exact Hacc].
Qed.

(** On a device that accepts every call an L4 item that passes the
    generic item check is accepted; a TCP item is only valid while the
    ACTION specification is the one being built. *)
Lemma l4_item_accepts (k : l4_item_kind) item spec mask c sa :
  l4_item_check k item = (0, spec, mask) ->
  (k = L4_TCP -> match_spec c = MATCH_SPEC_ACTION) ->
  is_Some (ctx_active_spec c) -> device_accepts sa ->
  exists c' sa',
    match k with
    | L4_TCP => sfc_mae_rule_parse_item_tcp
    | L4_UDP => sfc_mae_rule_parse_item_udp
    end item c sa = Some (0, c', sa') /\
    device_accepts sa'.
Proof.
  intros Hchk Htcp Hs Hacc. destruct k; unfold l4_item_check in Hchk.
  - unfold sfc_mae_rule_parse_item_tcp.
    destruct (decide (match_spec c <> MATCH_SPEC_ACTION)) as [Hn|_];
      [exfalso; apply Hn, Htcp; reflexivity|].
    cbv zeta. rewrite Hchk.
    destruct (decide (0 = 0)) as [_|Hn]; [|contradiction].
    destruct spec as [spec|].
    + match goal with
      | |- exists _ _, sfc_mae_parse_item ?f ?s ?m ?c0 _ = _ /\ _ =>
          destruct (sfc_mae_parse_item_accepts f s m c0 sa Hs Hacc)
            as (c' & sa' & Hrun & Hacc' & _)
      end.
      exists c', sa'. split; assumption.
    + eexists. eexists. split; [reflexivity|exact Hacc].
  - unfold sfc_mae_rule_parse_item_udp. rewrite Hchk.
    destruct (decide (0 = 0)) as [_|Hn]; [|contradiction].
    destruct spec as [spec|].
    + match goal with
      | |- exists _ _, sfc_mae_parse_item ?f ?s ?m ?c0 _ = _ /\ _ =>
          destruct (sfc_mae_parse_item_accepts f s m c0 sa Hs Hacc)
            as (c' & sa' & Hrun & Hacc' & _)
      end.
      exists c', sa'. split; assumption.
    + eexists. eexists. split; [reflexivity|exact Hacc].
Qed.

(** One step of the walk over a pattern, for an item of the table that
    may follow the layer before it. *)
Lemma sfc_flow_parse_pattern_step (fi : sfc_flow_item) it rest prev c sa :
  find (fun fi => bool_decide (fi_type fi = item_type it)) sfc_flow_items =
    Some fi ->
  fi_prev_layer fi = SFC_FLOW_ITEM_ANY_LAYER \/
  prev = SFC_FLOW_ITEM_ANY_LAYER \/ fi_prev_layer fi = prev ->
  sfc_flow_parse_pattern sfc_flow_items (it :: rest) prev c sa =
    (do r <- fi_parse fi it c;
     let '(rc, ctx) := r in
     if decide (rc = 0) then
       sfc_flow_parse_pattern sfc_flow_items rest
         (if decide (fi_layer fi = SFC_FLOW_ITEM_ANY_LAYER)
          then prev else fi_layer fi) ctx
     else ret (rc, ctx)) sa.
Proof.
  intros Hfind Hlayer.
  change (sfc_flow_parse_pattern sfc_flow_items (it :: rest) prev c sa)
    with (match find (fun fi => bool_decide (fi_type fi = item_type it))
                     sfc_flow_items with
          | None => ret (rte_flow_error_set ENOTSUP, c)
          | Some fi =>
              if bool_decide (fi_prev_layer fi <> SFC_FLOW_ITEM_ANY_LAYER) &&
                 bool_decide (prev <> SFC_FLOW_ITEM_ANY_LAYER) &&
                 bool_decide (fi_prev_layer fi <> prev)
              then ret (rte_flow_error_set ENOTSUP, c)
              else
                do r <- fi_parse fi it c;
                let '(rc, ctx) := r in
                if decide (rc = 0) then
                  sfc_flow_parse_pattern sfc_flow_items rest
                    (if decide (fi_layer fi = SFC_FLOW_ITEM_ANY_LAYER)
                     then prev else fi_layer fi)
                    ctx
                else ret (rc, ctx)
          end sa).
  rewrite Hfind.
  replace (bool_decide (fi_prev_layer fi <> SFC_FLOW_ITEM_ANY_LAYER) &&
           bool_decide (prev <> SFC_FLOW_ITEM_ANY_LAYER) &&
           bool_decide (fi_prev_layer fi <> prev)) with false; [reflexivity|].
  symmetry. destruct Hlayer as [H|[H|H]].
  - rewrite (bool_decide_eq_false_2 (fi_prev_layer fi <> SFC_FLOW_ITEM_ANY_LAYER));
      [reflexivity|]. intros Hn. apply Hn. exact H.
  - rewrite (bool_decide_eq_false_2 (prev <> SFC_FLOW_ITEM_ANY_LAYER));
      [rewrite andb_false_r; reflexivity|]. intros Hn. apply Hn. exact H.
  - rewrite (bool_decide_eq_false_2 (fi_prev_layer fi <> prev));
      [apply andb_false_r|]. intros Hn. apply Hn. exact H.
Qed.

(** A walk that succeeds has called the parser of every item. *)
Lemma sfc_flow_parse_pattern_cons_inv (fi : sfc_flow_item) it rest prev c sa
    c' sa' :
  find (fun fi => bool_decide (fi_type fi = item_type it)) sfc_flow_items =
    Some fi ->
  sfc_flow_parse_pattern sfc_flow_items (it :: rest) prev c sa =
    Some (0, c', sa') ->
  exists c1 sa1,
    fi_parse fi it c sa = Some (0, c1, sa1) /\
    sfc_flow_parse_pattern sfc_flow_items rest
      (if decide (fi_layer fi = SFC_FLOW_ITEM_ANY_LAYER)
       then prev else fi_layer fi) c1 sa1 = Some (0, c', sa').
Proof.
  intros Hfind H.
  change (sfc_flow_parse_pattern sfc_flow_items (it :: rest) prev c sa)
    with (match find (fun fi => bool_decide (fi_type fi = item_type it))
                     sfc_flow_items with
          | None => ret (rte_flow_error_set ENOTSUP, c)
          | Some fi =>
              if bool_decide (fi_prev_layer fi <> SFC_FLOW_ITEM_ANY_LAYER) &&
                 bool_decide (prev <> SFC_FLOW_ITEM_ANY_LAYER) &&
                 bool_decide (fi_prev_layer fi <> prev)
              then ret (rte_flow_error_set ENOTSUP, c)
              else
                do r <- fi_parse fi it c;
                let '(rc, ctx) := r in
                if decide (rc = 0) then
                  sfc_flow_parse_pattern sfc_flow_items rest
                    (if decide (fi_layer fi = SFC_FLOW_ITEM_ANY_LAYER)
                     then prev else fi_layer fi)
                    ctx
                else ret (rc, ctx)
          end sa) in H.
  rewrite Hfind in H.
  destruct (bool_decide (fi_prev_layer fi <> SFC_FLOW_ITEM_ANY_LAYER) &&
            bool_decide (prev <> SFC_FLOW_ITEM_ANY_LAYER) &&
            bool_decide (fi_prev_layer fi <> prev)).
  { unfold ret in H. inversion H. }
  minv H. destruct a as [rc1 c1].
  destruct (decide (rc1 = 0)) as [->|Hne].
  - exists c1, sa0. split; assumption.
  - minv H; try contradiction.
Qed.
Lemma l3_item_entry (k : l3_item_kind) (s la m : option (list Z)) :
  find (fun fi => bool_decide
                    (fi_type fi = item_type (mk_item (l3_item_type k) s la m)))
       sfc_flow_items =
    Some (mk_flow_item (l3_item_type k) SFC_FLOW_ITEM_L2 SFC_FLOW_ITEM_L3
            match k with
            | L3_IPV4 => sfc_mae_rule_parse_item_ipv4
            | L3_IPV6 => sfc_mae_rule_parse_item_ipv6
            end).
Proof. destruct k; reflexivity. Qed.

Lemma l4_item_entry (k : l4_item_kind) (s la m : option (list Z)) :
  find (fun fi => bool_decide
                    (fi_type fi = item_type (mk_item (l4_item_type k) s la m)))
       sfc_flow_items =
    Some (mk_flow_item (l4_item_type k) SFC_FLOW_ITEM_L3 SFC_FLOW_ITEM_L4
            match k with
            | L4_TCP => sfc_mae_rule_parse_item_tcp
            | L4_UDP => sfc_mae_rule_parse_item_udp
            end).
Proof. destruct k; reflexivity. Qed.

Lemma l2_consistent_ext (ethertype : Z) (d d' : sfc_mae_pattern_data) :
  nb_vlan_tags d' = nb_vlan_tags d -> ethertypes d' = ethertypes d ->
  l2_consistent ethertype d -> l2_consistent ethertype d'.
Proof. unfold l2_consistent. intros -> ->. trivial. Qed.

(** C7. An L3 item (IPV4 or IPV6) followed by an L4 item (TCP implies
    next-protocol 6, UDP 17), both passing the generic item check, at any
    point of a pattern.

    On a device that accepts every call, with a specification to write
    to, a consistent L2 part and, for TCP, outside the outer frame: the
    walk over the two items succeeds and deferred-field resolution
    returns.  If the L3 item leaves the next-protocol byte open (mask 0)
    or names exactly the implied protocol, resolution succeeds and has
    emitted IP_PROTO (ENC_IP_PROTO in the outer part) with the implied
    value and the full mask; any other declared value/mask makes it fail
    with [-EINVAL].

    Whatever the device answers and whatever the L2 part: if the walk
    over the two items has succeeded, a successful resolution has emitted
    the implied value with the full mask, and any declared value/mask
    other than open or exactly the implied one is rejected (a non-zero
    result, [-EINVAL] where the device accepts every call). *)
Theorem C7_l3_next_proto_resolution
    (k3 : l3_item_kind) (k4 : l4_item_kind)
    (s3 la3 m3 s4 la4 m4 : option (list Z))
    (spec3 spec4 : option (list Z)) (mask3 mask4 : list Z)
    (prev : sfc_flow_item_layers) (ctx0 : sfc_mae_parse_ctx) :
  let l3 := mk_item (l3_item_type k3) s3 la3 m3 in
  let l4 := mk_item (l4_item_type k4) s4 la4 m4 in
  let implied := l4_implied_proto k4 in
  let value := fst (l3_declared_proto k3 spec3 mask3 (pattern_data ctx0)) in
  let mask := snd (l3_declared_proto k3 spec3 mask3 (pattern_data ctx0)) in
  l3_item_check k3 l3 = (0, spec3, mask3) ->
  l4_item_check k4 l4 = (0, spec4, mask4) ->
  (forall sa0,
     device_accepts sa0 ->
     is_Some (ctx_active_spec ctx0) ->
     (k4 = L4_TCP -> match_spec ctx0 = MATCH_SPEC_ACTION) ->
     prev = SFC_FLOW_ITEM_L2 \/ prev = SFC_FLOW_ITEM_ANY_LAYER ->
     l2_consistent (l3_ethertype k3) (pattern_data ctx0) ->
     exists ctx2 sa2 rc ctx3 sa3,
       sfc_flow_parse_pattern sfc_flow_items [l3; l4] prev ctx0 sa0 =
         Some (0, ctx2, sa2) /\
       sfc_mae_rule_process_pattern_data ctx2 sa2 = Some (rc, ctx3, sa3) /\
       (mask = 0 \/ (mask = 255 /\ value = implied) ->
        rc = 0 /\
        exists s, ctx_active_spec ctx3 = Some s /\
                  match_spec_field s (fremap ctx0 EFX_MAE_FIELD_IP_PROTO) =
                    Some ([implied], [255])) /\
       (mask <> 0 -> mask <> 255 \/ value <> implied -> rc = - EINVAL)) /\
  (forall sa0 ctx2 sa2 sa rc ctx3 sa3,
     sfc_flow_parse_pattern sfc_flow_items [l3; l4] prev ctx0 sa0 =
       Some (0, ctx2, sa2) ->
     sfc_mae_rule_process_pattern_data ctx2 sa = Some (rc, ctx3, sa3) ->
     (mask = 0 \/ (mask = 255 /\ value = implied) -> rc = 0 ->
      exists s, ctx_active_spec ctx3 = Some s /\
                match_spec_field s (fremap ctx0 EFX_MAE_FIELD_IP_PROTO) =
                  Some ([implied], [255])) /\
     (mask <> 0 -> mask <> 255 \/ value <> implied ->
      rc <> 0 /\ (device_accepts sa -> rc = - EINVAL))).
Proof.
  intros l3 l4 implied value mask H3 H4.
  assert (Hafter : forall c1 sa0 sa1 c2 sa1' sa2,
            match k3 with
            | L3_IPV4 => sfc_mae_rule_parse_item_ipv4
            | L3_IPV6 => sfc_mae_rule_parse_item_ipv6
            end l3 ctx0 sa0 = Some (0, c1, sa1) ->
            match k4 with
            | L4_TCP => sfc_mae_rule_parse_item_tcp
            | L4_UDP => sfc_mae_rule_parse_item_udp
            end l4 c1 sa1' = Some (0, c2, sa2) ->
            l3_next_proto_restriction_mask (pattern_data c2) = 255 /\
            l3_next_proto_restriction_value (pattern_data c2) = implied /\
            l3_next_proto_mask (pattern_data c2) = mask /\
            l3_next_proto_value (pattern_data c2) = value /\
            innermost_ethertype_restriction (pattern_data c2) =
              mk_ethertype (l3_ethertype k3) 65535 /\
            ethertypes (pattern_data c2) = ethertypes (pattern_data ctx0) /\
            nb_vlan_tags (pattern_data c2) = nb_vlan_tags (pattern_data ctx0) /\
            field_ids_remap c2 = field_ids_remap ctx0 /\
            (is_Some (ctx_active_spec ctx0) -> is_Some (ctx_active_spec c2))).
  { intros c1 sa0 sa1 c2 sa1' sa2 Hr3 Hr4.
    destruct (l3_item_sets_next_proto k3 l3 spec3 mask3 ctx0 sa0 c1 sa1 H3 Hr3)
      as (V & Mk & I & E & N & MS & RM & AS).
    destruct (l4_item_sets_restriction k4 l4 c1 sa1' c2 sa2 Hr4)
      as (PD & MS2 & RM2 & AS2).
    rewrite PD. simpl. unfold implied, value, mask.
    do 8 (split; [congruence|]). intros Hs. apply AS2, AS, Hs. }
  split.
  - intros sa0 Hacc Hs Htcp Hprev Hl2.
    destruct (l3_item_accepts k3 l3 spec3 mask3 ctx0 sa0 H3 Hs Hacc)
      as (c1 & sa1 & Hr3 & Hacc1).
    destruct (l3_item_sets_next_proto k3 l3 spec3 mask3 ctx0 sa0 c1 sa1 H3 Hr3)
      as (_ & _ & _ & _ & _ & MS & _ & AS).
    destruct (l4_item_accepts k4 l4 spec4 mask4 c1 sa1 H4
                ltac:(intros Hk; rewrite MS; apply Htcp; exact Hk)
                (AS Hs) Hacc1)
      as (c2 & sa2 & Hr4 & Hacc2).
    destruct (Hafter c1 sa0 sa1 c2 sa1 sa2 Hr3 Hr4)
      as (Rm & Rv & Mm & Mv & I & E & N & RM & AS2).
    assert (Hwalk : sfc_flow_parse_pattern sfc_flow_items [l3; l4] prev ctx0 sa0 =
                    Some (0, c2, sa2)).
    { assert (Hlay : SFC_FLOW_ITEM_L2 = SFC_FLOW_ITEM_ANY_LAYER \/
                     prev = SFC_FLOW_ITEM_ANY_LAYER \/ SFC_FLOW_ITEM_L2 = prev)
        by (destruct Hprev as [Hp|Hp]; rewrite Hp; auto).
      unfold l3.
      rewrite (sfc_flow_parse_pattern_step _ _ _ _ _ _
                 (l3_item_entry k3 s3 la3 m3) Hlay).
      simpl fi_parse. fold l3. rewrite (bind_run _ _ _ _ _ Hr3).
      cbv beta iota zeta. simpl fi_layer.
      destruct (decide (0 = 0)) as [_|Hn]; [|contradiction].
      destruct (decide (SFC_FLOW_ITEM_L3 = SFC_FLOW_ITEM_ANY_LAYER))
        as [Hn|_]; [discriminate Hn|].
      unfold l4.
      rewrite (sfc_flow_parse_pattern_step _ _ _ _ _ _
                 (l4_item_entry k4 s4 la4 m4)
                 ltac:(right; right; reflexivity)).
      simpl fi_parse. fold l4. rewrite (bind_run _ _ _ _ _ Hr4).
      cbv beta iota zeta.
      destruct (decide (0 = 0)) as [_|Hn]; [|contradiction].
      reflexivity. }
    assert (H65 : et_mask (innermost_ethertype_restriction (pattern_data c2)) =
                  65535) by (rewrite I; reflexivity).
    assert (Hl2' : l2_consistent
                     (et_value (innermost_ethertype_restriction (pattern_data c2)))
                     (pattern_data c2)).
    { rewrite I. simpl. eapply l2_consistent_ext; [exact N|exact E|exact Hl2]. }
    destruct (process_pattern_data_consistent c2 sa2 Rm H65 Hl2' (AS2 Hs) Hacc2)
      as (ctx3 & sa3 & Hrun).
    rewrite Rv, Mm, Mv in Hrun.
    destruct (process_pattern_data_l3 c2 sa2 Rm _ _ _ Hrun) as [Hemit _].
    rewrite Rv, Mm, Mv in Hemit.
    eexists c2, sa2, _, ctx3, sa3.
    split; [exact Hwalk|]. split; [exact Hrun|]. split.
    + intros Hok.
      destruct (decide (mask = 0 \/ mask = 255 /\ value = implied))
        as [_|Hn]; [|contradiction].
      split; [reflexivity|].
      rewrite <- (fremap_same ctx0 c2 _ RM). apply Hemit; [exact Hok|reflexivity].
    + intros Hne Hbad.
      destruct (decide (mask = 0 \/ mask = 255 /\ value = implied))
        as [[Hz|[Ha Hb]]|_].
      * contradiction.
      * destruct Hbad; contradiction.
      * reflexivity.
  - intros sa0 ctx2 sa2 sa rc ctx3 sa3 Hwalk Hrun.
    unfold l3 in Hwalk.
    destruct (sfc_flow_parse_pattern_cons_inv _ _ _ _ _ _ _ _
                (l3_item_entry k3 s3 la3 m3) Hwalk)
      as (c1 & sa1 & Hr3 & Hwalk1).
    simpl fi_parse in Hr3. simpl fi_layer in Hwalk1. unfold l4 in Hwalk1.
    destruct (sfc_flow_parse_pattern_cons_inv _ _ _ _ _ _ _ _
                (l4_item_entry k4 s4 la4 m4) Hwalk1)
      as (c2 & sa2' & Hr4 & Hwalk2).
    simpl fi_parse in Hr4. simpl in Hwalk2. unfold ret in Hwalk2.
    inversion Hwalk2; subst c2 sa2'. clear Hwalk2.
    destruct (Hafter c1 sa0 sa1 ctx2 sa1 sa2 Hr3 Hr4)
      as (Rm & Rv & Mm & Mv & _ & _ & _ & RM & _).
    destruct (process_pattern_data_l3 ctx2 sa Rm rc ctx3 sa3 Hrun)
      as [Hemit Hrej].
    rewrite Rv, Mm, Mv in Hemit, Hrej.
    rewrite <- (fremap_same ctx0 ctx2 _ RM).
    split; assumption.
Qed.

(** [IPV6] with the next-protocol byte open, then [TCP], at the start of
    a pattern without a tunnel; and [IPV4] that names protocol 17, then
    [UDP], in the outer frame of a VXLAN pattern. *)
Lemma C7_l3_next_proto_resolution_witness :
  (exists ctx2 sa2 ctx3 sa3 s,
     sfc_flow_parse_pattern sfc_flow_items
       [item_any RTE_FLOW_ITEM_TYPE_IPV6; item_any RTE_FLOW_ITEM_TYPE_TCP]
       SFC_FLOW_ITEM_ANY_LAYER ctx_pattern_start (adapter_init 0 []) =
       Some (0, ctx2, sa2) /\
     sfc_mae_rule_process_pattern_data ctx2 sa2 = Some (0, ctx3, sa3) /\
     ctx_active_spec ctx3 = Some s /\
     match_spec_field s EFX_MAE_FIELD_IP_PROTO = Some ([6], [255])) /\
  (exists ctx2 sa2 ctx3 sa3 s,
     sfc_flow_parse_pattern sfc_flow_items
       [item_ipv4_proto 17; item_any RTE_FLOW_ITEM_TYPE_UDP]
       SFC_FLOW_ITEM_L2 ctx_pattern_start_vxlan (adapter_init 0 []) =
       Some (0, ctx2, sa2) /\
     sfc_mae_rule_process_pattern_data ctx2 sa2 = Some (0, ctx3, sa3) /\
     ctx_active_spec ctx3 = Some s /\
     match_spec_field s EFX_MAE_FIELD_ENC_IP_PROTO = Some ([17], [255])) /\
  (exists ctx2 sa2 ctx3 sa3,
     sfc_flow_parse_pattern sfc_flow_items
       [item_ipv4_proto 6; item_any RTE_FLOW_ITEM_TYPE_UDP]
       SFC_FLOW_ITEM_L2 ctx_pattern_start (adapter_init 0 []) =
       Some (0, ctx2, sa2) /\
     sfc_mae_rule_process_pattern_data ctx2 sa2 = Some (- EINVAL, ctx3, sa3)).
Proof.
  split; [|split].
  - destruct (C7_l3_next_proto_resolution L3_IPV6 L4_TCP
                None None None None None None None None
                rte_flow_item_ipv6_mask rte_flow_item_tcp_mask
                SFC_FLOW_ITEM_ANY_LAYER ctx_pattern_start
                eq_refl eq_refl) as [HA _].
    destruct (HA (adapter_init 0 [])) as
      (ctx2 & sa2 & rc & ctx3 & sa3 & Hw & Hp & Hok & _).
    + reflexivity.
    + eexists. reflexivity.
    + reflexivity.
    + right. reflexivity.
    + split; [exact I|]. exists (mk_ethertype 0 0).
      split; [reflexivity|]. left. reflexivity.
    + destruct (Hok (or_introl eq_refl)) as [Hrc (s & Hs & Hf)]. subst rc.
      exists ctx2, sa2, ctx3, sa3, s. repeat split; assumption.
  - destruct (C7_l3_next_proto_resolution L3_IPV4 L4_UDP
                (Some (repeat 0 9 ++ [17] ++ repeat 0 10)) None
                (Some (repeat 0 9 ++ [255] ++ repeat 0 10))
                None None None
                (Some (repeat 0 9 ++ [17] ++ repeat 0 10)) None
                (repeat 0 9 ++ [255] ++ repeat 0 10) rte_flow_item_udp_mask
                SFC_FLOW_ITEM_L2 ctx_pattern_start_vxlan
                eq_refl eq_refl) as [HA _].
    destruct (HA (adapter_init 0 [])) as
      (ctx2 & sa2 & rc & ctx3 & sa3 & Hw & Hp & Hok & _).
    + reflexivity.
    + eexists. reflexivity.
    + intros Hk. discriminate Hk.
    + left. reflexivity.
    + split; [exact I|]. exists (mk_ethertype 0 0).
      split; [reflexivity|]. left. reflexivity.
    + destruct (Hok (or_intror (conj eq_refl eq_refl))) as [Hrc (s & Hs & Hf)].
      subst rc. exists ctx2, sa2, ctx3, sa3, s. repeat split; assumption.
  - destruct (C7_l3_next_proto_resolution L3_IPV4 L4_UDP
                (Some (repeat 0 9 ++ [6] ++ repeat 0 10)) None
                (Some (repeat 0 9 ++ [255] ++ repeat 0 10))
                None None None
                (Some (repeat 0 9 ++ [6] ++ repeat 0 10)) None
                (repeat 0 9 ++ [255] ++ repeat 0 10) rte_flow_item_udp_mask
                SFC_FLOW_ITEM_L2 ctx_pattern_start
                eq_refl eq_refl) as [HA _].
    destruct (HA (adapter_init 0 [])) as
      (ctx2 & sa2 & rc & ctx3 & sa3 & Hw & Hp & _ & Hbad).
    + reflexivity.
    + eexists. reflexivity.
    + intros Hk. discriminate Hk.
    + left. reflexivity.
    + split; [exact I|]. exists (mk_ethertype 0 0).
      split; [reflexivity|]. left. reflexivity.
    + rewrite (Hbad ltac:(simpl; lia) ltac:(right; simpl; unfold IPPROTO_UDP; lia))
        in Hp.
      exists ctx2, sa2, ctx3, sa3. split; assumption.
Defined.

(** The scenario [ETH wildcard, IPV4 proto=TCP exact, TCP dst-port=80
    exact]: one ACTION specification with IP_PROTO 6/0xff, L4_DPORT
    80/0xffff and ETHER_TYPE resolved to IPv4, and no outer rule. *)
Example parse_pattern_eth_ipv4_tcp :
  option_map
    (fun r =>
       (fst (fst r), fs_outer_rule (snd (fst r)),
        match fs_match_spec (snd (fst r)) with
        | Some s => (match_spec_field s EFX_MAE_FIELD_IP_PROTO,
                     match_spec_field s EFX_MAE_FIELD_L4_DPORT_BE,
                     match_spec_field s EFX_MAE_FIELD_ETHER_TYPE_BE)
        | None => (None, None, None)
        end))
    (sfc_mae_rule_parse_pattern
       (Some [item_any RTE_FLOW_ITEM_TYPE_ETH;
              mk_item RTE_FLOW_ITEM_TYPE_IPV4
                      (Some (repeat 0 9 ++ [6] ++ repeat 0 10)) None
                      (Some (repeat 0 9 ++ [255] ++ repeat 0 10));
              mk_item RTE_FLOW_ITEM_TYPE_TCP
                      (Some ([0; 0; 0; 80] ++ repeat 0 16)) None
                      (Some ([0; 0; 255; 255] ++ repeat 0 16))])
       (flow_spec_init 0) (adapter_init 0 []))
  = Some (0, None,
          (Some ([6], [255]), Some ([0; 80], [255; 255]),
           Some ([8; 0], [255; 255]))).
Proof. vm_compute. reflexivity. Qed.

(** [IPV4 proto=UDP exact] followed by [TCP] is rejected. *)
Example parse_pattern_ipv4_udp_tcp_rejected :
  option_map (fun r => fst (fst r))
    (sfc_mae_rule_parse_pattern
       (Some [item_any RTE_FLOW_ITEM_TYPE_ETH;
              mk_item RTE_FLOW_ITEM_TYPE_IPV4
                      (Some (repeat 0 9 ++ [17] ++ repeat 0 10)) None
                      (Some (repeat 0 9 ++ [255] ++ repeat 0 10));
              item_any RTE_FLOW_ITEM_TYPE_TCP])
       (flow_spec_init 0) (adapter_init 0 []))
  = Some (- EINVAL).
Proof. vm_compute. reflexivity. Qed.

(** A VLAN-tagged pattern, [IPV6] with the next-protocol byte open, then
    [UDP]: IP_PROTO is emitted as 17/0xff. *)
Example parse_pattern_vlan_ipv6_udp :
  option_map
    (fun r =>
       (fst (fst r),
        match fs_match_spec (snd (fst r)) with
        | Some s => match_spec_field s EFX_MAE_FIELD_IP_PROTO
        | None => None
        end))
    (sfc_mae_rule_parse_pattern
       (Some [item_eth_type 129 0; item_vlan_tci 0 5;
              item_any RTE_FLOW_ITEM_TYPE_IPV6;
              item_any RTE_FLOW_ITEM_TYPE_UDP])
       (flow_spec_init 0) (adapter_init 0 []))
  = Some (0, Some ([17], [255])).
Proof. vm_compute. reflexivity. Qed.

(** A next-protocol byte matched under a partial mask is rejected, even
    where its value is the implied one. *)
Example parse_pattern_ipv4_partial_mask_rejected :
  option_map (fun r => fst (fst r))
    (sfc_mae_rule_parse_pattern
       (Some [item_any RTE_FLOW_ITEM_TYPE_ETH;
              mk_item RTE_FLOW_ITEM_TYPE_IPV4
                      (Some (repeat 0 9 ++ [6] ++ repeat 0 10)) None
                      (Some (repeat 0 9 ++ [15] ++ repeat 0 10));
              item_any RTE_FLOW_ITEM_TYPE_TCP])
       (flow_spec_init 0) (adapter_init 0 []))
  = Some (- EINVAL).
Proof. vm_compute. reflexivity. Qed.

(** ** Footprints *)

Section Footprint.
Context {R : relation sfc_adapter} `{!PreOrder R}.

Lemma preserves_ret {A : Type} (a : A) : preserves R (ret a).
Proof. intros sa x sa' H. apply ret_Some in H. destruct H as [_ ->]. reflexivity. Qed.

Lemma preserves_undefined {A : Type} : preserves R (@undefined A).
Proof. intros sa x sa' H. discriminate H. Qed.

Lemma preserves_bind {A B : Type} (m : M A) (k : A -> M B) :
  preserves R m -> (forall a, preserves R (k a)) -> preserves R (bind m k).
Proof.
  intros Hm Hk sa x sa' H. apply bind_Some in H.
  destruct H as (a & sa1 & H1 & H2).
  transitivity sa1; [eapply Hm | eapply Hk]; eassumption.
Qed.

(** A step that only reads the state. *)
Lemma preserves_read {A : Type} (m : M A) :
  (forall sa x sa', m sa = Some (x, sa') -> sa' = sa) -> preserves R m.
Proof. intros Hr sa x sa' H. apply Hr in H. subst sa'. reflexivity. Qed.
End Footprint.

#[export] Instance keeps_preorder {X : Type} (f : sfc_adapter -> X)
  : PreOrder (keeps f).
Proof.
  split.
  - intros sa. reflexivity.
  - intros a b c H1 H2. unfold keeps in *. congruence.
Qed.

#[export] Instance calls_in_preorder (s : flow_stage) : PreOrder (calls_in s).
Proof.
  split.
  - intros sa. exists []. split; [symmetry; apply app_nil_r|constructor].
  - intros a b c (cs1 & H1 & F1) (cs2 & H2 & F2). exists (cs1 ++ cs2). split.
    + rewrite H2, H1, app_assoc. reflexivity.
    + apply Forall_app. split; assumption.
Qed.

(** The primitive steps. *)
Lemma get_sa_read sa x sa' : get_sa sa = Some (x, sa') -> sa' = sa.
Proof. intros H. inversion H. reflexivity. Qed.

Lemma get_mae_read sa x sa' : get_mae sa = Some (x, sa') -> sa' = sa.
Proof. intros H. inversion H. reflexivity. Qed.

Lemma get_counters_read sa x sa' : get_counters sa = Some (x, sa') -> sa' = sa.
Proof. intros H. inversion H. reflexivity. Qed.

Lemma load_outer_rule_read p sa x sa' :
  load_outer_rule p sa = Some (x, sa') -> sa' = sa.
Proof.
  unfold load_outer_rule. intros H.
  destruct (entry_lookup _ p); inversion H. reflexivity.
Qed.

Lemma load_encap_header_read p sa x sa' :
  load_encap_header p sa = Some (x, sa') -> sa' = sa.
Proof.
  unfold load_encap_header. intros H.
  destruct (entry_lookup _ p); inversion H. reflexivity.
Qed.

Lemma load_action_set_read p sa x sa' :
  load_action_set p sa = Some (x, sa') -> sa' = sa.
Proof.
  unfold load_action_set. intros H.
  destruct (entry_lookup _ p); inversion H. reflexivity.
Qed.

Lemma load_counter_read id sa x sa' :
  load_counter id sa = Some (x, sa') -> sa' = sa.
Proof.
  unfold load_counter. intros H. destruct (decide (0 <= id)); [|discriminate].
  destruct (_ !! _); inversion H. reflexivity.
Qed.

Lemma efx_run op arg sa r sa' :
  efx op arg sa = Some (r, sa') ->
  exists nic, sa' = set_nic nic sa /\
              en_calls nic = en_calls (sa_nic sa) ++ [(op, arg)].
Proof.
  unfold efx, efx_invoke. intros H.
  destruct (en_replies (sa_nic sa)); inversion H; subst;
    eexists; (split; [reflexivity|reflexivity]).
Qed.

Lemma preserves_calls_efx s op arg :
  efx_op_stage op = Some s -> preserves (calls_in s) (efx op arg).
Proof.
  intros Hs sa r sa' H. apply efx_run in H. destruct H as (nic & -> & Hc).
  exists [(op, arg)]. split; [exact Hc|]. repeat constructor. exact Hs.
Qed.

Lemma preserves_keeps_efx {X : Type} (f : sfc_adapter -> X) op arg :
  (forall nic sa, f (set_nic nic sa) = f sa) -> preserves (keeps f) (efx op arg).
Proof.
  intros Hf sa r sa' H. apply efx_run in H. destruct H as (nic & -> & _).
  apply Hf.
Qed.

Lemma calls_in_same_nic s sa sa' : sa_nic sa' = sa_nic sa -> calls_in s sa sa'.
Proof.
  intros H. exists []. rewrite H. split; [symmetry; apply app_nil_r|constructor].
Qed.

Lemma preserves_calls_modify_mae s f : preserves (calls_in s) (modify_mae f).
Proof. intros sa x sa' H. inversion H. apply calls_in_same_nic. reflexivity. Qed.

Lemma preserves_calls_sfc_err s msg : preserves (calls_in s) (sfc_err msg).
Proof. intros sa x sa' H. inversion H. apply calls_in_same_nic. reflexivity. Qed.

Lemma preserves_calls_rte_zmalloc s : preserves (calls_in s) rte_zmalloc.
Proof.
  intros sa x sa' H. unfold rte_zmalloc in H. apply calls_in_same_nic.
  destruct (sa_mem sa) as [|[] ?]; inversion H; reflexivity.
Qed.

Lemma preserves_keeps_modify_mae {X : Type} (f : sfc_adapter -> X) g :
  (forall sa, f (set_mae (g (sa_mae sa)) sa) = f sa) ->
  preserves (keeps f) (modify_mae g).
Proof. intros Hf sa x sa' H. inversion H. apply Hf. Qed.

Lemma preserves_keeps_sfc_err {X : Type} (f : sfc_adapter -> X) msg :
  (forall sa sa', sfc_err msg sa = Some (tt, sa') -> f sa' = f sa) ->
  preserves (keeps f) (sfc_err msg).
Proof. intros Hf sa [] sa' H. apply Hf in H. exact H. Qed.

Lemma preserves_keeps_rte_zmalloc {X : Type} (f : sfc_adapter -> X) :
  (forall sa x sa', rte_zmalloc sa = Some (x, sa') -> f sa' = f sa) ->
  preserves (keeps f) rte_zmalloc.
Proof. intros Hf sa x sa' H. apply Hf in H. exact H. Qed.

Create HintDb footprint.

#[export] Hint Resolve preserves_calls_modify_mae preserves_calls_sfc_err
  preserves_calls_rte_zmalloc : footprint.
#[export] Hint Extern 1 (preserves (calls_in _) (efx _ _)) =>
  apply preserves_calls_efx; reflexivity : footprint.
#[export] Hint Extern 1 (preserves (keeps _) (efx _ _)) =>
  apply preserves_keeps_efx; reflexivity : footprint.
#[export] Hint Extern 1 (preserves (keeps _) (modify_mae _)) =>
  apply preserves_keeps_modify_mae; reflexivity : footprint.
#[export] Hint Extern 1 (preserves (keeps _) (sfc_err _)) =>
  apply preserves_keeps_sfc_err;
  let H := fresh in intros ? ? H; inversion H; reflexivity : footprint.
#[export] Hint Extern 1 (preserves (keeps _) rte_zmalloc) =>
  apply preserves_keeps_rte_zmalloc;
  let H := fresh in
  intros ? ? ? H; unfold rte_zmalloc in H;
  repeat case_match; inversion H; reflexivity : footprint.
#[export] Hint Extern 1 (preserves _ get_sa) =>
  apply preserves_read, get_sa_read : footprint.
#[export] Hint Extern 1 (preserves _ get_mae) =>
  apply preserves_read, get_mae_read : footprint.
#[export] Hint Extern 1 (preserves _ get_counters) =>
  apply preserves_read, get_counters_read : footprint.
#[export] Hint Extern 1 (preserves _ (load_outer_rule _)) =>
  apply preserves_read, load_outer_rule_read : footprint.
#[export] Hint Extern 1 (preserves _ (load_encap_header _)) =>
  apply preserves_read, load_encap_header_read : footprint.
#[export] Hint Extern 1 (preserves _ (load_action_set _)) =>
  apply preserves_read, load_action_set_read : footprint.
#[export] Hint Extern 1 (preserves _ (load_counter _)) =>
  apply preserves_read, load_counter_read : footprint.

(** One step of a footprint proof: the shape of the program decides. *)
Ltac footprint_step :=
  match goal with
  | |- preserves _ (ret _) => apply preserves_ret
  | |- preserves _ undefined => apply preserves_undefined
  | |- preserves _ (bind _ _) => apply preserves_bind; [|intros ?]
  | |- preserves _ (if ?c then _ else _) => destruct c
  | |- preserves _ (match ?x with _ => _ end) => destruct x
  | |- preserves _ _ => solve [auto with footprint]
  end.

Ltac footprint := repeat (cbv beta zeta; footprint_step).

Lemma outer_rule_disable_calls p :
  preserves (calls_in STAGE_OUTER_RULE) (sfc_mae_outer_rule_disable p).
Proof. unfold sfc_mae_outer_rule_disable, store_outer_rule. footprint. Qed.

Lemma outer_rule_disable_log p :
  preserves (keeps sa_log) (sfc_mae_outer_rule_disable p).
Proof. unfold sfc_mae_outer_rule_disable, store_outer_rule. footprint. Qed.

Lemma outer_rule_enable_calls p s :
  preserves (calls_in STAGE_OUTER_RULE) (sfc_mae_outer_rule_enable p s).
Proof.
  unfold sfc_mae_outer_rule_enable, store_outer_rule,
    efx_mae_match_spec_outer_rule_id_set.
  footprint.
Qed.
Lemma counter_del_calls c :
  preserves (calls_in STAGE_ACTION_SET) (sfc_mae_counter_del c).
Proof. unfold sfc_mae_counter_del, store_counter, put_counters. footprint. Qed.

Lemma counter_add_calls c :
  preserves (calls_in STAGE_ACTION_SET) (sfc_mae_counter_add c).
Proof. unfold sfc_mae_counter_add, store_counter, put_counters. footprint. Qed.

Lemma encap_header_disable_calls h :
  preserves (calls_in STAGE_ACTION_SET) (sfc_mae_encap_header_disable h).
Proof. unfold sfc_mae_encap_header_disable, store_encap_header. footprint. Qed.

Lemma encap_header_enable_calls h s :
  preserves (calls_in STAGE_ACTION_SET) (sfc_mae_encap_header_enable h s).
Proof.
  unfold sfc_mae_encap_header_enable, store_encap_header,
    efx_mae_action_set_fill_in_eh_id.
  footprint.
Qed.

#[export] Hint Resolve counter_del_calls counter_add_calls
  encap_header_disable_calls encap_header_enable_calls : footprint.

Lemma counters_disable_calls cs n :
  preserves (calls_in STAGE_ACTION_SET) (sfc_mae_counters_disable cs n).
Proof. unfold sfc_mae_counters_disable, counters_head. footprint. Qed.

Lemma counters_enable_calls cs n s :
  preserves (calls_in STAGE_ACTION_SET) (sfc_mae_counters_enable cs n s).
Proof.
  unfold sfc_mae_counters_enable, counters_head,
    efx_mae_action_set_fill_in_counter_id.
  footprint.
Qed.

#[export] Hint Resolve counters_disable_calls counters_enable_calls : footprint.

Lemma action_set_disable_calls p :
  preserves (calls_in STAGE_ACTION_SET) (sfc_mae_action_set_disable p).
Proof. unfold sfc_mae_action_set_disable, store_action_set. footprint. Qed.

Lemma action_set_enable_calls p :
  preserves (calls_in STAGE_ACTION_SET) (sfc_mae_action_set_enable p).
Proof. unfold sfc_mae_action_set_enable, store_action_set. footprint. Qed.

Lemma counter_start_calls :
  preserves (calls_in STAGE_COUNTER_STREAM) sfc_mae_counter_start.
Proof.
  unfold sfc_mae_counter_start, sfc_mae_counter_service_register,
    sfc_get_service_lcore.
  footprint.
Qed.

(** What the action-set stage leaves alone: the outer rule registry. *)
Lemma action_set_disable_outer_rules p :
  preserves (keeps (fun sa => outer_rules (sa_mae sa)))
            (sfc_mae_action_set_disable p).
Proof.
  unfold sfc_mae_action_set_disable, store_action_set,
    sfc_mae_counters_disable, counters_head, sfc_mae_counter_del, store_counter,
    put_counters, sfc_mae_encap_header_disable, store_encap_header.
  footprint.
Qed.

(** ** Definedness of the disable path *)

Lemma runs_bind {A B : Type} (m : M A) (k : A -> M B) sa x sa1 :
  m sa = Some (x, sa1) -> runs (k x) sa1 -> runs (bind m k) sa.
Proof.
  intros H (y & sa' & Hk). exists y, sa'. unfold bind. rewrite H. exact Hk.
Qed.

(** Definedness by cases on the device answers and the tests of the code. *)
Ltac runs_cases :=
  repeat (simpl;
    match goal with
    | H : ?x = Some _ |- context [?x] => rewrite H
    | |- context [efx_invoke ?op ?arg ?nic] =>
        destruct (efx_invoke op arg nic) as [? ?]
    | |- context [decide ?P] => destruct (decide P)
    end);
  simpl; eauto.

Lemma outer_rule_disable_runs p sa :
  is_Some (entry_lookup (outer_rules (sa_mae sa)) p) ->
  runs (sfc_mae_outer_rule_disable p) sa.
Proof.
  intros [rule Hr].
  unfold runs, sfc_mae_outer_rule_disable, bind, load_outer_rule,
    store_outer_rule, modify_mae, efx, ret.
  runs_cases.
Qed.

Lemma encap_header_disable_runs h sa :
  (forall p, h = Some p ->
             is_Some (entry_lookup (encap_headers (sa_mae sa)) p)) ->
  runs (sfc_mae_encap_header_disable h) sa.
Proof.
  intros Hh. destruct h as [p|]; [|eexists; eexists; reflexivity].
  destruct (Hh p eq_refl) as [e He].
  unfold runs, sfc_mae_encap_header_disable, bind, load_encap_header,
    store_encap_header, modify_mae, efx, ret.
  runs_cases.
Qed.

Lemma counter_del_runs c sa :
  counter_bound sa c -> runs (sfc_mae_counter_del c) sa.
Proof.
  intros Hb. unfold sfc_mae_counter_del.
  destruct (decide (mae_id c = EFX_MAE_RSRC_ID_INVALID)) as [|Hne];
    [eexists; eexists; reflexivity|].
  destruct Hb as [Hb|Hb]; [contradiction|].
  assert (Hidx : (Z.to_nat (mae_id c) <
                  length (mae_counters (counter_registry (sa_mae sa))))%nat)
    by lia.
  destruct (lookup_lt_is_Some_2 _ _ Hidx) as [slot Hslot].
  unfold runs, bind, load_counter, store_counter, put_counters, get_counters,
    modify_mae, efx, sfc_err, ret.
  destruct (decide (0 <= mae_id c)); [|lia].
  runs_cases.
Qed.

Lemma counters_disable_runs cs n sa :
  (n <> 0 -> exists c rest, cs = c :: rest /\ counter_bound sa c) ->
  runs (sfc_mae_counters_disable cs n) sa.
Proof.
  intros H. unfold sfc_mae_counters_disable.
  destruct (decide (n = 0)); [eexists; eexists; reflexivity|].
  destruct (H n0) as (c & rest & -> & Hb).
  eapply runs_bind; [reflexivity|]. apply counter_del_runs. exact Hb.
Qed.

Lemma counters_disable_encap_headers cs n :
  preserves (keeps (fun sa => encap_headers (sa_mae sa)))
            (sfc_mae_counters_disable cs n).
Proof.
  unfold sfc_mae_counters_disable, counters_head, sfc_mae_counter_del,
    store_counter, put_counters.
  footprint.
Qed.

Lemma action_set_disable_runs q sa :
  action_set_loaded sa q -> runs (sfc_mae_action_set_disable q) sa.
Proof.
  intros (a & Ha & Hc & Hh). unfold sfc_mae_action_set_disable.
  eapply runs_bind; [unfold load_action_set; rewrite Ha; reflexivity|].
  destruct (decide (fw_refcnt (as_fw_rsrc a) = 1));
    [|eapply runs_bind; [reflexivity|eexists; eexists; reflexivity]].
  destruct (efx_total OP_ACTION_SET_FREE (fw_id (as_fw_rsrc a)) sa)
    as (r & sa1 & E).
  eapply runs_bind; [exact E|].
  apply efx_inv in E. destruct E as (Emae & _).
  destruct (decide (rc_of r = 0)); [|eexists; eexists; reflexivity].
  eapply runs_bind; [reflexivity|].
  match goal with |- runs _ ?s => set (sa2 := s) end.
  destruct (counters_disable_runs (as_counters a) (as_n_counters a) sa2)
    as (rc & sa3 & E3).
  { intros Hn. destruct (Hc Hn) as (c & rest & Hcs & Hb).
    exists c, rest. split; [exact Hcs|].
    unfold counter_bound in *. subst sa2. simpl. rewrite Emae. exact Hb. }
  eapply runs_bind; [exact E3|].
  apply counters_disable_encap_headers in E3. unfold keeps in E3.
  destruct (decide (rc = 0)); [|eexists; eexists; reflexivity].
  destruct (encap_header_disable_runs (as_encap_header a) sa3)
    as (rc' & sa4 & E4).
  { intros h Hsome. rewrite E3. subst sa2. simpl. rewrite Emae.
    apply Hh. exact Hsome. }
  eapply runs_bind; [exact E4|].
  destruct (decide (rc' = 0)); [|eexists; eexists; reflexivity].
  eapply runs_bind; [reflexivity|eexists; eexists; reflexivity].
Qed.

(** ** Flow rules: the order of insertion and removal *)

Lemma flow_remove_log_step (rc_as : Z) sa :
  exists sa',
    (if decide (rc_as = 0) then ret tt
     else sfc_err "failed to disable the action set") sa = Some (tt, sa') /\
    sa_nic sa' = sa_nic sa /\ sa_mae sa' = sa_mae sa.
Proof.
  destruct (decide (rc_as = 0)); eexists; (split; [reflexivity|]);
    split; reflexivity.
Qed.

(** C9. With the pointers of the flow valid, flow removal is defined and
    undoes the insertion in reverse order.  It first removes the action
    rule; if the device refuses, that is the result and nothing else is
    touched.  Otherwise the rule id is invalidated, the action set is
    disabled, a failure of that step is logged and not returned, and the
    outer rule (if any) is disabled from the state so reached, its code
    being the result.  The device sees the action-rule call, then calls of
    the action-set stage only, then calls of the outer-rule stage only.  A
    successful insertion issues its device calls the other way round:
    outer-rule stage, action-set stage, counter stream, action rule. *)
Theorem C9_flow_remove_reverses_insert (flow : sfc_flow_spec_mae)
    (sa : sfc_adapter) :
  flow_resources_loaded flow sa ->
  (exists rc flow' sa' r sa1,
     sfc_mae_flow_remove flow sa = Some ((rc, flow'), sa') /\
     efx OP_ACTION_RULE_REMOVE (fs_rule_id flow) sa = Some (r, sa1) /\
     (rc_of r <> 0 -> rc = rc_of r /\ flow' = flow /\ sa' = sa1) /\
     (rc_of r = 0 ->
      exists q rc_as sa2 sa3 cs_as cs_or,
        fs_action_set flow = Some q /\
        sfc_mae_action_set_disable q sa1 = Some (rc_as, sa2) /\
        (if decide (rc_as = 0) then ret tt
         else sfc_err "failed to disable the action set") sa2 =
          Some (tt, sa3) /\
        match fs_outer_rule flow with
        | Some p => sfc_mae_outer_rule_disable p sa3 = Some (rc, sa')
        | None => rc = 0 /\ sa' = sa3
        end /\
        flow' = flow_set_rule_id EFX_MAE_RSRC_ID_INVALID flow /\
        en_calls (sa_nic sa') =
          en_calls (sa_nic sa) ++
          (OP_ACTION_RULE_REMOVE, fs_rule_id flow) :: cs_as ++ cs_or /\
        stage_calls STAGE_ACTION_SET cs_as /\
        stage_calls STAGE_OUTER_RULE cs_or /\
        sa_log sa' =
          sa_log sa2 ++
          (if decide (rc_as = 0) then []
           else ["failed to disable the action set"%string]))) /\
  (forall flow1 sa1,
     sfc_mae_flow_insert flow sa = Some ((0, flow1), sa1) ->
     exists cs_or cs_as cs_cs aset_id,
       en_calls (sa_nic sa1) =
         en_calls (sa_nic sa) ++
         cs_or ++ cs_as ++ cs_cs ++ [(OP_ACTION_RULE_INSERT, aset_id)] /\
       stage_calls STAGE_OUTER_RULE cs_or /\
       stage_calls STAGE_ACTION_SET cs_as /\
       stage_calls STAGE_COUNTER_STREAM cs_cs).
Proof.
  intros [(q & Hq & Hload) Hor]. split.
  - destruct (efx_total OP_ACTION_RULE_REMOVE (fs_rule_id flow) sa)
      as (r & sa1 & E).
    pose proof (efx_run _ _ _ _ _ E) as (nic & Hsa1 & Hcalls1).
    pose proof (efx_inv _ _ _ _ _ E) as (Hmae1 & _).
    unfold sfc_mae_flow_remove. rewrite Hq. unfold deref.
    rewrite (bind_run _ _ sa q sa eq_refl), (bind_run _ _ _ _ _ E).
    destruct (decide (rc_of r = 0)) as [Hr|Hr].
    + assert (Hload1 : action_set_loaded sa1 q).
      { destruct Hload as (a & Ha & Hc & Hh). exists a.
        unfold counter_bound. rewrite Hmae1. repeat split; assumption. }
      destruct (action_set_disable_runs q sa1 Hload1) as (rc_as & sa2 & E2).
      pose proof (action_set_disable_calls q _ _ _ E2) as (cs_as & Hcalls2 & Hst2).
      pose proof (action_set_disable_outer_rules q _ _ _ E2) as Hor2.
      unfold keeps in Hor2.
      destruct (flow_remove_log_step rc_as sa2) as (sa3 & E3 & Hnic3 & Hmae3).
      rewrite (bind_run _ _ _ _ _ E2), (bind_run _ _ _ _ _ E3).
      assert (Hlog3 : sa_log sa3 =
                      sa_log sa2 ++
                      (if decide (rc_as = 0) then []
                       else ["failed to disable the action set"%string])).
      { destruct (decide (rc_as = 0)); inversion E3; simpl;
          [rewrite app_nil_r|]; reflexivity. }
      change (fs_outer_rule (flow_set_rule_id EFX_MAE_RSRC_ID_INVALID flow))
        with (fs_outer_rule flow).
      destruct (fs_outer_rule flow) as [p|] eqn:Hp.
      * assert (Hp3 : is_Some (entry_lookup (outer_rules (sa_mae sa3)) p)).
        { rewrite Hmae3, Hor2, Hmae1. apply Hor. reflexivity. }
        destruct (outer_rule_disable_runs p sa3 Hp3) as (rc & sa' & E4).
        pose proof (outer_rule_disable_calls p _ _ _ E4) as (cs_or & Hcalls4 & Hst4).
        pose proof (outer_rule_disable_log p _ _ _ E4) as Hlog4.
        unfold keeps in Hlog4.
        rewrite (bind_run _ _ _ _ _ E4).
        exists rc, (flow_set_rule_id EFX_MAE_RSRC_ID_INVALID flow), sa', r, sa1.
        split; [reflexivity|]. split; [exact E|].
        split; [intros; contradiction|]. intros _.
        exists q, rc_as, sa2, sa3, cs_as, cs_or.
        split; [reflexivity|]. split; [exact E2|]. split; [exact E3|].
        split; [exact E4|]. split; [reflexivity|].
        split; [|split; [exact Hst2|split; [exact Hst4|congruence]]].
        rewrite Hcalls4, Hnic3, Hcalls2, Hsa1. simpl. rewrite Hcalls1.
        rewrite <- !app_assoc. reflexivity.
      * exists 0, (flow_set_rule_id EFX_MAE_RSRC_ID_INVALID flow), sa3, r, sa1.
        split; [reflexivity|]. split; [exact E|].
        split; [intros; contradiction|]. intros _.
        exists q, rc_as, sa2, sa3, cs_as, [].
        split; [reflexivity|]. split; [exact E2|]. split; [exact E3|].
        split; [split; reflexivity|]. split; [reflexivity|].
        split; [|split; [exact Hst2|split; [constructor|exact Hlog3]]].
        rewrite Hnic3, Hcalls2, Hsa1. simpl. rewrite Hcalls1.
        rewrite app_nil_r, <- !app_assoc. reflexivity.
    + exists (rc_of r), flow, sa1, r, sa1.
      split; [reflexivity|]. split; [exact E|].
      split; [intros _; repeat split|intros; contradiction].
  - intros flow1 sa4 H.
    unfold sfc_mae_flow_insert in H. rewrite Hq in H. unfold deref in H.
    rewrite (bind_run _ _ sa q sa eq_refl) in H.
    minv H. destruct a as [rc0 flow0].
    assert (Hor0 : calls_in STAGE_OUTER_RULE sa sa0 /\
                   fs_outer_rule flow0 = fs_outer_rule flow).
    { destruct (fs_outer_rule flow) as [p|] eqn:Hp.
      - minv Hm. minv Hm. minv Hm. split; [|exact Hp].
        pose proof (outer_rule_enable_calls _ _ _ _ _ Hm1) as Hc.
        destruct (fs_match_spec flow); [|discriminate Hm0].
        apply ret_Some in Hm0. destruct Hm0 as [_ ->]. exact Hc.
      - minv Hm. split; [reflexivity|exact Hp]. }
    destruct Hor0 as [(cs_or & Hc0 & Hs0) Hfo].
    destruct (decide (rc0 = 0)); [|minv H; contradiction].
    minv H. destruct (decide (a = 0));
      [|minv H; minv H; contradiction].
    pose proof (action_set_enable_calls _ _ _ _ Hm0) as (cs_as & Hc1 & Hs1).
    minv H. minv H.
    assert (Hcs : calls_in STAGE_COUNTER_STREAM sa2 sa3).
    { destruct (decide (0 < as_n_counters a0)).
      - exact (counter_start_calls _ _ _ Hm2).
      - minv Hm2. reflexivity. }
    destruct Hcs as (cs_cs & Hc2 & Hs2).
    pose proof (load_action_set_read _ _ _ _ Hm1) as ->.
    minv H. destruct a2 as [rc2 rule_id].
    destruct (decide (a1 = 0)).
    + minv Hm3. minv Hm3.
      apply efx_run in Hm4. destruct Hm4 as (nic & -> & Hc3).
      destruct (decide (rc_of a2 = 0)); [|minv H; minv H; minv H; contradiction].
      minv H.
      exists cs_or, cs_as, cs_cs, (fw_id (as_fw_rsrc a0)).
      split; [|repeat split; assumption].
      simpl. rewrite Hc3, Hc2, Hc1, Hc0. rewrite <- !app_assoc. reflexivity.
    + minv Hm3. destruct (decide (a1 = 0)); [contradiction|].
      minv H. minv H. minv H; contradiction.
Qed.

(** The device refuses to free the action set: the failure is logged, the
    outer rule is removed all the same. *)
Lemma C9_flow_remove_reverses_insert_witness :
  flow_resources_loaded flow_one
    (adapter_one_flow [reply_ok 0; reply_fail EINVAL]) /\
  exists rc flow' sa',
    sfc_mae_flow_remove flow_one
      (adapter_one_flow [reply_ok 0; reply_fail EINVAL]) =
      Some ((rc, flow'), sa').
Proof.
  assert (H : flow_resources_loaded flow_one
                (adapter_one_flow [reply_ok 0; reply_fail EINVAL])).
  { split.
    - exists 1%nat. split; [reflexivity|]. eexists. split; [reflexivity|].
      split; [intros Hn; contradiction Hn; reflexivity|].
      intros h Hh. discriminate Hh.
    - intros p Hp. inversion Hp; subst. eexists. reflexivity. }
  split; [exact H|].
  destruct (C9_flow_remove_reverses_insert _ _ H)
    as [(rc & flow' & sa' & _ & _ & Hrun & _) _].
  exists rc, flow', sa'. exact Hrun.
Defined.

Example flow_remove_tolerates_action_set_failure :
  option_map
    (fun r => (fst r, en_calls (sa_nic (snd r)), sa_log (snd r),
               option_map or_fw_rsrc
                 (entry_lookup (outer_rules (sa_mae (snd r))) 0%nat),
               option_map as_fw_rsrc
                 (entry_lookup (action_sets (sa_mae (snd r))) 1%nat)))
    (sfc_mae_flow_remove flow_one
       (adapter_one_flow [reply_ok 0; reply_fail EINVAL]))
  = Some ((0, mk_flow_spec 0 (Some 0%nat) (Some 1%nat)
                 (Some (mk_match_spec EFX_MAE_RULE_ACTION 0 []))
                 EFX_MAE_RSRC_ID_INVALID),
          [(OP_ACTION_RULE_REMOVE, 3); (OP_ACTION_SET_FREE, 9);
           (OP_OUTER_RULE_REMOVE, 5)],
          ["failed to disable the action set"%string],
          Some (mk_fw_rsrc 0 EFX_MAE_RSRC_ID_INVALID),
          Some (mk_fw_rsrc 1 9)).
Proof. vm_compute. reflexivity. Qed.

Example flow_insert_then_remove_calls :
  option_map (fun r => (fst (fst r), en_calls (sa_nic (snd r))))
    ((do _ <- sfc_mae_outer_rule_add (mk_match_spec EFX_MAE_RULE_OUTER 0 [])
                                     EFX_TUNNEL_PROTOCOL_VXLAN;
      do _ <- sfc_mae_action_set_add [RTE_FLOW_ACTION_TYPE_COUNT false 9]
                (mk_actions [EFX_MAE_ACTION_COUNT] EFX_MAE_RSRC_ID_INVALID
                            EFX_MAE_RSRC_ID_INVALID) None 1;
      do i <- sfc_mae_flow_insert
                (mk_flow_spec 0 (Some 0%nat) (Some 1%nat)
                   (Some (mk_match_spec EFX_MAE_RULE_ACTION 0 []))
                   EFX_MAE_RSRC_ID_INVALID);
      sfc_mae_flow_remove (snd i))
       (adapter_init 4 [reply_ok 5; reply_ok 0; mk_reply 0 2 1; reply_ok 0;
                        reply_ok 9; reply_ok 0; reply_ok 2; reply_ok 0;
                        reply_ok 7; reply_ok 0; reply_ok 0; reply_ok 0;
                        reply_ok 3]))
  = Some (0, [(OP_OUTER_RULE_INSERT, 1); (OP_MATCH_SPEC_OUTER_RULE_ID_SET, 5);
              (OP_COUNTERS_ALLOC, 1); (OP_ACTION_SET_FILL_IN_COUNTER_ID, 2);
              (OP_ACTION_SET_ALLOC, 0); (OP_COUNTERS_STREAM_START, 0);
              (OP_GET_SERVICE_LCORE, 0); (OP_SERVICE_LCORE_START, 2);
              (OP_SERVICE_COMPONENT_REGISTER, 0);
              (OP_SERVICE_MAP_LCORE_SET, 1);
              (OP_SERVICE_COMPONENT_RUNSTATE_SET, 1);
              (OP_SERVICE_RUNSTATE_SET, 1); (OP_ACTION_RULE_INSERT, 9);
              (OP_ACTION_RULE_REMOVE, 3); (OP_ACTION_SET_FREE, 9);
              (OP_COUNTERS_FREE, 2); (OP_OUTER_RULE_REMOVE, 5)]).
Proof. vm_compute. reflexivity. Qed.

(** ** The registries: hardware enable and disable *)

(** A fresh entry satisfies the invariant. *)
Lemma outer_rule_add_consistent match_spec encap_type sa p sa' :
  sfc_mae_outer_rule_add match_spec encap_type sa = Some ((0, Some p), sa') ->
  exists rule,
    outer_rules (sa_mae sa') = outer_rules (sa_mae sa) ++ [(p, rule)] /\
    or_refcnt rule = 1 /\
    fw_rsrc_consistent (or_fw_rsrc rule).
Proof.
  unfold sfc_mae_outer_rule_add. intros H. minv H.
  assert (Hz : preserves (keeps sa_mae) rte_zmalloc) by auto with footprint.
  apply Hz in Hm. unfold keeps in Hm.
  destruct a as [q|]; [|minv H].
  minv H. minv H. unfold modify_mae in Hm0. inversion Hm0; subst. simpl.
  rewrite Hm.
  eexists. split; [reflexivity|]. split; [reflexivity|].
  unfold fw_rsrc_consistent. simpl. split; reflexivity.
Qed.

(** The last disable of an outer rule keeps the invariant whatever the
    device answers. *)
Lemma outer_rule_disable_consistent p sa rule rc sa' :
  entry_lookup (outer_rules (sa_mae sa)) p = Some rule ->
  fw_refcnt (or_fw_rsrc rule) = 1 ->
  fw_rsrc_consistent (or_fw_rsrc rule) ->
  sfc_mae_outer_rule_disable p sa = Some (rc, sa') ->
  exists rule',
    entry_lookup (outer_rules (sa_mae sa')) p = Some rule' /\
    fw_rsrc_consistent (or_fw_rsrc rule') /\
    (rc = 0 -> fw_refcnt (or_fw_rsrc rule') = 0).
Proof.
  intros Hl H1 Hc H. unfold sfc_mae_outer_rule_disable in H.
  minv H. unfold load_outer_rule in Hm. rewrite Hl in Hm.
  inversion Hm; subst; clear Hm.
  destruct (decide (fw_refcnt (or_fw_rsrc a) = 1)); [|contradiction].
  minv H. minv Hm. apply efx_inv in Hm0. destruct Hm0 as (Hmae & _).
  destruct (decide (rc_of a1 = 0)).
  - minv Hm. destruct (decide (0 = 0)); [|contradiction].
    minv H. minv H. inversion Hm; subst; clear Hm. simpl.
    rewrite Hmae. rewrite H1.
    assert (Hst : forall (l : list (ptr * sfc_mae_outer_rule)) x y,
               entry_lookup l p = Some x ->
               entry_lookup (entry_store l p y) p = Some y).
    { induction l as [|[q b] l IH]; simpl; intros x y Hx; [discriminate|].
      destruct (decide (q = p)); simpl.
      - destruct (decide (q = p)); [reflexivity|contradiction].
      - destruct (decide (q = p)); [contradiction|]. eapply IH. exact Hx. }
    eexists. split; [eapply Hst; exact Hl|].
    split; [|intros _; reflexivity].
    unfold fw_rsrc_consistent. simpl. split; reflexivity.
  - minv Hm. destruct (decide (rc_of a1 = 0)); [contradiction|].
    minv H. exists a. rewrite Hmae.
    split; [exact Hl|]. split; [exact Hc|]. intros; contradiction.
Qed.

(** C1. The invariant "hardware id invalid iff hardware refcount zero"
    does not survive a device failure in the middle of a disable.  An
    action set with one counter is enabled once (hardware refcount 1, id
    8).  Its disable frees the action set in hardware, invalidates the id,
    and then the device refuses to free the counter: the call returns that
    error, and the entry is left with the invalid id and hardware refcount
    1. *)
Theorem C1_action_set_disable_failure_breaks_invariant :
  exists sa1 sa2 aset,
    (do _ <- sfc_mae_action_set_add [RTE_FLOW_ACTION_TYPE_COUNT false 9]
               (mk_actions [EFX_MAE_ACTION_COUNT] EFX_MAE_RSRC_ID_INVALID
                           EFX_MAE_RSRC_ID_INVALID) None 1;
     sfc_mae_action_set_enable 0%nat)
      (adapter_init 4 [mk_reply 0 2 1; reply_ok 0; reply_ok 8; reply_ok 0;
                       reply_fail EINVAL])
      = Some (0, sa1) /\
    option_map as_fw_rsrc (entry_lookup (action_sets (sa_mae sa1)) 0%nat)
      = Some (mk_fw_rsrc 1 8) /\
    sfc_mae_action_set_disable 0%nat sa1 = Some (EINVAL, sa2) /\
    en_calls (sa_nic sa2) =
      [(OP_COUNTERS_ALLOC, 1); (OP_ACTION_SET_FILL_IN_COUNTER_ID, 2);
       (OP_ACTION_SET_ALLOC, 0); (OP_ACTION_SET_FREE, 8);
       (OP_COUNTERS_FREE, 2)] /\
    entry_lookup (action_sets (sa_mae sa2)) 0%nat = Some aset /\
    fw_id (as_fw_rsrc aset) = EFX_MAE_RSRC_ID_INVALID /\
    fw_refcnt (as_fw_rsrc aset) = 1 /\
    ~ fw_rsrc_consistent (as_fw_rsrc aset).
Proof.
  eexists. eexists. eexists.
  split; [vm_compute; reflexivity|].
  split; [vm_compute; reflexivity|].
  split; [vm_compute; reflexivity|].
  split; [vm_compute; reflexivity|].
  split; [vm_compute; reflexivity|].
  split; [reflexivity|]. split; [reflexivity|].
  unfold fw_rsrc_consistent. simpl. intros [H _].
  specialize (H eq_refl). discriminate H.
Qed.

(** The same slip in the enable of an outer rule: the rule is inserted in
    hardware (id 5), the write of that id into the action rule
    specification fails, the hardware rule is removed again, but the entry
    keeps the stale id 5 while its hardware refcount is 0. *)
Example outer_rule_enable_failure_leaves_stale_id :
  option_map
    (fun r => (fst (fst r), en_calls (sa_nic (snd r)),
               option_map or_fw_rsrc
                 (entry_lookup (outer_rules (sa_mae (snd r))) 0%nat)))
    ((do _ <- sfc_mae_outer_rule_add (mk_match_spec EFX_MAE_RULE_OUTER 0 [])
                                     EFX_TUNNEL_PROTOCOL_VXLAN;
      sfc_mae_outer_rule_enable 0%nat (mk_match_spec EFX_MAE_RULE_ACTION 0 []))
       (adapter_init 0 [reply_ok 5; reply_fail EINVAL; reply_ok 0]))
  = Some (EINVAL,
          [(OP_OUTER_RULE_INSERT, 1); (OP_MATCH_SPEC_OUTER_RULE_ID_SET, 5);
           (OP_OUTER_RULE_REMOVE, 5)],
          Some (mk_fw_rsrc 0 5)).
Proof. vm_compute. reflexivity. Qed.

(** Where no device call fails the enable keeps the invariant: the id is
    valid and the refcount is 1. *)
Example outer_rule_enable_success :
  option_map
    (fun r => (fst (fst r),
               option_map or_fw_rsrc
                 (entry_lookup (outer_rules (sa_mae (snd r))) 0%nat)))
    ((do _ <- sfc_mae_outer_rule_add (mk_match_spec EFX_MAE_RULE_OUTER 0 [])
                                     EFX_TUNNEL_PROTOCOL_VXLAN;
      sfc_mae_outer_rule_enable 0%nat (mk_match_spec EFX_MAE_RULE_ACTION 0 []))
       (adapter_init 0 [reply_ok 5]))
  = Some (0, Some (mk_fw_rsrc 1 5)).
Proof. vm_compute. reflexivity. Qed.

(** C2. Action-set enable does not roll back the encap. header when the
    counter step fails: with an encap. header (hardware refcount 0) and
    one counter, the header is allocated in hardware (id 7) and filled into
    the specification, the counter allocation then fails with [ENOSPC];
    the call returns that error with the action set's hardware refcount
    still 0, but the encap. header stays enabled (refcount 1, id 7) and no
    ENCAP_HEADER_FREE is issued. *)
Theorem C2_action_set_enable_counter_failure_keeps_header :
  exists sa1 sa2 eh aset,
    (do h <- sfc_mae_encap_header_add
               (mk_bounce_eh [1; 2; 3; 4] 64 4 EFX_TUNNEL_PROTOCOL_VXLAN);
     sfc_mae_action_set_add
       [RTE_FLOW_ACTION_TYPE_VXLAN_ENCAP None; RTE_FLOW_ACTION_TYPE_COUNT false 9]
       (mk_actions [EFX_MAE_ACTION_ENCAP; EFX_MAE_ACTION_COUNT]
                   EFX_MAE_RSRC_ID_INVALID EFX_MAE_RSRC_ID_INVALID)
       (snd h) 1)
      (adapter_init 4 [reply_ok 7; reply_ok 0; reply_fail ENOSPC])
      = Some ((0, Some 2%nat), sa1) /\
    entry_lookup (encap_headers (sa_mae sa1)) 0%nat
      = Some (mk_encap_header 1 [1; 2; 3; 4] 4 EFX_TUNNEL_PROTOCOL_VXLAN
                              (mk_fw_rsrc 0 EFX_MAE_RSRC_ID_INVALID)) /\
    sfc_mae_action_set_enable 2%nat sa1 = Some (ENOSPC, sa2) /\
    en_calls (sa_nic sa2) =
      [(OP_ENCAP_HEADER_ALLOC, 4); (OP_ACTION_SET_FILL_IN_EH_ID, 7);
       (OP_COUNTERS_ALLOC, 1)] /\
    entry_lookup (encap_headers (sa_mae sa2)) 0%nat = Some eh /\
    eh_fw_rsrc eh = mk_fw_rsrc 1 7 /\
    entry_lookup (action_sets (sa_mae sa2)) 2%nat = Some aset /\
    as_encap_header aset = Some 0%nat /\
    fw_refcnt (as_fw_rsrc aset) = 0.
Proof.
  eexists. eexists. eexists. eexists.
  split; [vm_compute; reflexivity|].
  split; [vm_compute; reflexivity|].
  split; [vm_compute; reflexivity|].
  split; [vm_compute; reflexivity|].
  split; [vm_compute; reflexivity|].
  split; [reflexivity|].
  split; [vm_compute; reflexivity|].
  split; reflexivity.
Qed.

(** The sibling failure path does roll back: when it is the allocation of
    the action set itself that fails, the counter and the encap. header
    are disabled again. *)
Example action_set_enable_alloc_failure_rolls_back :
  option_map
    (fun r => (fst r,
               option_map eh_fw_rsrc
                 (entry_lookup (encap_headers (sa_mae (snd r))) 0%nat),
               map fst (en_calls (sa_nic (snd r)))))
    ((do h <- sfc_mae_encap_header_add
                (mk_bounce_eh [1; 2; 3; 4] 64 4 EFX_TUNNEL_PROTOCOL_VXLAN);
      do _ <- sfc_mae_action_set_add
                [RTE_FLOW_ACTION_TYPE_VXLAN_ENCAP None;
                 RTE_FLOW_ACTION_TYPE_COUNT false 9]
                (mk_actions [EFX_MAE_ACTION_ENCAP; EFX_MAE_ACTION_COUNT]
                            EFX_MAE_RSRC_ID_INVALID EFX_MAE_RSRC_ID_INVALID)
                (snd h) 1;
      sfc_mae_action_set_enable 2%nat)
       (adapter_init 4 [reply_ok 7; reply_ok 0; mk_reply 0 2 1; reply_ok 0;
                        reply_fail ENOSPC]))
  = Some (ENOSPC, Some (mk_fw_rsrc 0 EFX_MAE_RSRC_ID_INVALID),
          [OP_ENCAP_HEADER_ALLOC; OP_ACTION_SET_FILL_IN_EH_ID;
           OP_COUNTERS_ALLOC; OP_ACTION_SET_FILL_IN_COUNTER_ID;
           OP_ACTION_SET_ALLOC; OP_COUNTERS_FREE; OP_ENCAP_HEADER_FREE]).
Proof. vm_compute. reflexivity. Qed.

(** What does hold of a failed enable: the action set's own hardware
    resource is as it was, refcount 0 and no id. *)
Lemma encap_header_enable_action_sets h s :
  preserves (keeps (fun sa => action_sets (sa_mae sa)))
            (sfc_mae_encap_header_enable h s).
Proof.
  unfold sfc_mae_encap_header_enable, store_encap_header,
    efx_mae_action_set_fill_in_eh_id.
  footprint.
Qed.

Lemma encap_header_disable_action_sets h :
  preserves (keeps (fun sa => action_sets (sa_mae sa)))
            (sfc_mae_encap_header_disable h).
Proof. unfold sfc_mae_encap_header_disable, store_encap_header. footprint. Qed.

Lemma counters_enable_action_sets cs n s :
  preserves (keeps (fun sa => action_sets (sa_mae sa)))
            (sfc_mae_counters_enable cs n s).
Proof.
  unfold sfc_mae_counters_enable, counters_head, sfc_mae_counter_add,
    sfc_mae_counter_del, store_counter, put_counters,
    efx_mae_action_set_fill_in_counter_id.
  footprint.
Qed.

Lemma counters_disable_action_sets cs n :
  preserves (keeps (fun sa => action_sets (sa_mae sa)))
            (sfc_mae_counters_disable cs n).
Proof.
  unfold sfc_mae_counters_disable, counters_head, sfc_mae_counter_del,
    store_counter, put_counters.
  footprint.
Qed.

Lemma entry_lookup_store {A : Type} (l : list (ptr * A)) (p : ptr) (x y : A) :
  entry_lookup l p = Some x -> entry_lookup (entry_store l p y) p = Some y.
Proof.
  induction l as [|[q b] l IH]; simpl; intros Hx; [discriminate|].
  case_decide; simpl; case_decide; try contradiction; [reflexivity|].
  apply IH. exact Hx.
Qed.

Lemma store_action_set_run p a sa x sa' b :
  store_action_set p a sa = Some (x, sa') ->
  entry_lookup (action_sets (sa_mae sa)) p = Some b ->
  entry_lookup (action_sets (sa_mae sa')) p = Some a.
Proof.
  intros H Hb. inversion H; subst. simpl. eapply entry_lookup_store. exact Hb.
Qed.

Lemma action_set_enable_failure_keeps_fw p sa a rc sa' :
  entry_lookup (action_sets (sa_mae sa)) p = Some a ->
  fw_refcnt (as_fw_rsrc a) = 0 ->
  sfc_mae_action_set_enable p sa = Some (rc, sa') ->
  rc <> 0 ->
  exists a',
    entry_lookup (action_sets (sa_mae sa')) p = Some a' /\
    as_fw_rsrc a' = as_fw_rsrc a /\
    as_refcnt a' = as_refcnt a /\
    as_encap_header a' = as_encap_header a.
Proof.
  intros Ha H0 H Hrc. unfold sfc_mae_action_set_enable in H.
  minv H. unfold load_action_set in Hm. rewrite Ha in Hm.
  inversion Hm; subst; clear Hm. cbv zeta in H.
  destruct (decide (fw_refcnt (as_fw_rsrc a0) = 0)); [|contradiction].
  minv H. destruct a as [rc1 spec1].
  apply encap_header_enable_action_sets in Hm. unfold keeps in Hm.
  minv H. rewrite <- Hm in Ha.
  pose proof (store_action_set_run _ _ _ _ _ _ Hm0 Ha) as Ha1.
  destruct (decide (rc1 = 0)).
  2:{ minv H. eexists. split; [exact Ha1|]. repeat split. }
  minv H. destruct a1 as [[rc2 counters'] spec2].
  apply counters_enable_action_sets in Hm1. unfold keeps in Hm1.
  rewrite <- Hm1 in Ha1. minv H.
  pose proof (store_action_set_run _ _ _ _ _ _ Hm2 Ha1) as Ha2.
  destruct (decide (rc2 = 0)).
  2:{ minv H. minv H. inversion Hm3; subst. simpl.
      eexists. split; [exact Ha2|]. repeat split. }
  minv H. apply efx_inv in Hm3. destruct Hm3 as (Hmae & _).
  destruct (decide (rc_of a2 = 0)).
  { minv H. minv H; contradiction. }
  minv H. apply counters_disable_action_sets in Hm3. unfold keeps in Hm3.
  minv H. apply encap_header_disable_action_sets in Hm4. unfold keeps in Hm4.
  minv H. minv H. inversion Hm5; subst. simpl.
  rewrite Hm4, Hm3, Hmae.
  eexists. split; [exact Ha2|]. repeat split.
Qed.

(** ** The VXLAN scenario of the pattern compiler *)

(** The tunnel item, in any context: it ends the outer part of the
    pattern, makes the ACTION specification the active one with the plain
    field ids, and only then writes the tunnel identifier, which so lands
    in the ACTION specification; the OUTER specification is as the
    deferred-field resolution of the outer part left it. *)
Lemma parse_item_tunnel_vni item ctx sa ctx' sa' :
  sfc_mae_rule_parse_item_tunnel item ctx sa = Some ((0, ctx'), sa') ->
  exists ctx1 sa1,
    sfc_mae_rule_process_pattern_data ctx sa = Some ((0, ctx1), sa1) /\
    match_spec ctx' = MATCH_SPEC_ACTION /\
    field_ids_remap ctx' = FIELD_IDS_NO_REMAP /\
    match_spec_outer ctx' = match_spec_outer ctx1 /\
    (forall spec, item_spec item = Some spec ->
       exists mask,
         match_spec_field (match_spec_action ctx') EFX_MAE_FIELD_ENC_VNET_ID_BE =
           Some (0 :: bytes_at spec 4 3, 0 :: bytes_at mask 4 3)).
Proof.
  intros H. unfold sfc_mae_rule_parse_item_tunnel in H. minv H.
  destruct a as [rc1 ctx1].
  destruct (decide (rc1 = 0)) as [->|Hne]; [|minv H; contradiction].
  exists ctx1, sa0. split; [exact Hm|]. cbv zeta in H.
  destruct (sfc_flow_parse_init item _ _ _) as [[rc2 spec2] mask2] eqn:Hinit.
  destruct (decide (rc2 = 0)) as [->|Hne]; [|minv H; contradiction].
  assert (Hspec : forall spec, item_spec item = Some spec -> spec2 = Some spec).
  { intros spec Hs. unfold sfc_flow_parse_init in Hinit. rewrite Hs in Hinit.
    repeat case_match; simplify_eq; try reflexivity;
      unfold EINVAL, ENOTSUP in *; discriminate. }
  destruct spec2 as [spec|].
  - minv H. destruct a as [rc3 ctx3].
    destruct (decide (rc3 = 0)) as [->|Hne].
    2:{ minv H. unfold rte_flow_error_set in *. lia. }
    minv H. unfold ctx_field_set in Hm0. simpl in Hm0.
    minv Hm0. minv Hm0. simpl.
    split; [reflexivity|]. split; [reflexivity|]. split; [reflexivity|].
    intros spec' Hs. apply Hspec in Hs. inversion Hs; subst spec'.
    exists mask2.
    unfold efx_mae_match_spec_field_set in Hm1. minv Hm1.
    destruct (decide (rc_of a0 = 0)); minv Hm1; simpl in *;
      try congruence.
    apply match_spec_field_write.
  - minv H. simpl.
    split; [reflexivity|]. split; [reflexivity|]. split; [reflexivity|].
    intros spec' Hs. apply Hspec in Hs. discriminate Hs.
Qed.

(** C3, as stated, fails: with the ETH item naming the VLAN TPID the
    pattern compiles, but the OUTER specification holds no tunnel
    identifier; with an ETH item that has no spec the pattern is
    rejected and no OUTER specification is produced at all. *)
Lemma C3_outer_spec_has_no_vni :
  ~ outer_spec_holds_vni (pattern_vxlan (item_eth_type 129 0) 0 100) /\
  ~ outer_spec_holds_vni
      (pattern_vxlan (item_any RTE_FLOW_ITEM_TYPE_ETH) 0 100).
Proof.
  split.
  - intros (flow & sa' & p & rule & Hrun & Hp & Hl & Hf).
    vm_compute in Hrun. inversion Hrun; subst; clear Hrun.
    simpl in Hp. inversion Hp; subst; clear Hp.
    vm_compute in Hl. inversion Hl; subst; clear Hl.
    vm_compute in Hf. discriminate Hf.
  - intros (flow & sa' & p & rule & Hrun & _).
    vm_compute in Hrun. discriminate Hrun.
Qed.

(** C3, amended. For [ETH type=0x8100, VLAN tci=X, IPV6, UDP, VXLAN
    vni=0x123456] on a fresh adapter whose device accepts every call, the
    compilation succeeds; the OUTER specification (held by a new outer
    rule entry of encapsulation type VXLAN) covers the pre-tunnel layers
    with the remapped fields and holds no tunnel identifier; the tunnel
    identifier is an exact match 0x00123456/0x00ffffff in the ACTION
    specification. *)
Theorem C3_vni_is_set_in_action_spec :
  forall tci_hi tci_lo : Z,
  exists flow sa' p rule action,
    sfc_mae_rule_parse_pattern
      (Some (pattern_vxlan (item_eth_type 129 0) tci_hi tci_lo))
      (flow_spec_init 0) (adapter_init 0 []) = Some (0, flow, sa') /\
    fs_outer_rule flow = Some p /\
    entry_lookup (outer_rules (sa_mae sa')) p = Some rule /\
    or_refcnt rule = 1 /\
    or_encap_type rule = EFX_TUNNEL_PROTOCOL_VXLAN /\
    emms_type (or_match_spec rule) = EFX_MAE_RULE_OUTER /\
    match_spec_field (or_match_spec rule) EFX_MAE_FIELD_ENC_VLAN0_PROTO_BE =
      Some ([129; 0], [255; 255]) /\
    match_spec_field (or_match_spec rule) EFX_MAE_FIELD_ENC_VLAN0_TCI_BE =
      Some ([tci_hi; tci_lo], [15; 255]) /\
    match_spec_field (or_match_spec rule) EFX_MAE_FIELD_ENC_ETHER_TYPE_BE =
      Some ([134; 221], [255; 255]) /\
    match_spec_field (or_match_spec rule) EFX_MAE_FIELD_ENC_IP_PROTO =
      Some ([17], [255]) /\
    match_spec_field (or_match_spec rule) EFX_MAE_FIELD_ENC_VNET_ID_BE = None /\
    fs_match_spec flow = Some action /\
    emms_type action = EFX_MAE_RULE_ACTION /\
    match_spec_field action EFX_MAE_FIELD_ENC_VNET_ID_BE =
      Some ([0; 18; 52; 86], [0; 255; 255; 255]).
Proof.
  intros tci_hi tci_lo.
  eexists. eexists. eexists. eexists. eexists.
  split; [vm_compute; reflexivity|].
  split; [reflexivity|].
  split; [vm_compute; reflexivity|].
  repeat split; reflexivity.
Qed.

(** ** The action compiler and the action set registry *)

#[export] Instance ptr_mono_preorder : PreOrder ptr_mono.
Proof.
  split.
  - intros sa. unfold ptr_mono. lia.
  - intros a b c H1 H2. unfold ptr_mono in *. lia.
Qed.

Lemma ptr_mono_same sa sa' : sa_next_ptr sa' = sa_next_ptr sa -> ptr_mono sa sa'.
Proof. unfold ptr_mono. intros ->. lia. Qed.

Lemma preserves_ptr_efx op arg : preserves ptr_mono (efx op arg).
Proof.
  intros sa r sa' H. apply efx_run in H. destruct H as (nic & -> & _).
  apply ptr_mono_same. reflexivity.
Qed.

Lemma preserves_ptr_modify_mae f : preserves ptr_mono (modify_mae f).
Proof. intros sa x sa' H. inversion H. apply ptr_mono_same. reflexivity. Qed.

Lemma preserves_ptr_sfc_err msg : preserves ptr_mono (sfc_err msg).
Proof. intros sa x sa' H. inversion H. apply ptr_mono_same. reflexivity. Qed.

Lemma rte_zmalloc_run sa x sa' :
  rte_zmalloc sa = Some (x, sa') ->
  sa_mae sa' = sa_mae sa /\ sa_nic sa' = sa_nic sa /\
  match x with
  | Some p => p = sa_next_ptr sa /\ sa_next_ptr sa' = S p
  | None => sa_next_ptr sa' = sa_next_ptr sa
  end.
Proof.
  unfold rte_zmalloc. intros H.
  destruct (sa_mem sa) as [|[] ?]; inversion H; subst; simpl;
    repeat split; reflexivity.
Qed.

Lemma preserves_ptr_rte_zmalloc : preserves ptr_mono rte_zmalloc.
Proof.
  intros sa x sa' H. apply rte_zmalloc_run in H. destruct H as (_ & _ & H).
  unfold ptr_mono. destruct x as [p|]; [destruct H as [-> ->]|rewrite H]; lia.
Qed.

#[export] Hint Resolve preserves_ptr_efx preserves_ptr_modify_mae
  preserves_ptr_sfc_err preserves_ptr_rte_zmalloc : footprint.

#[export] Instance compiler_frame_preorder : PreOrder compiler_frame.
Proof.
  split.
  - intros sa. split; reflexivity.
  - intros a b c [H1 M1] [H2 M2]. split; [congruence|].
    transitivity b; assumption.
Qed.

Lemma preserves_frame {A : Type} (m : M A) :
  preserves (keeps (fun sa => action_sets (sa_mae sa))) m ->
  preserves ptr_mono m -> preserves compiler_frame m.
Proof. intros H1 H2 sa x sa' H. split; [eapply H1|eapply H2]; exact H. Qed.

Ltac frame_prim := apply preserves_frame; auto with footprint.

#[export] Hint Extern 1 (preserves compiler_frame (efx _ _)) => frame_prim : footprint.
#[export] Hint Extern 1 (preserves compiler_frame (modify_mae _)) => frame_prim : footprint.
#[export] Hint Extern 1 (preserves compiler_frame (sfc_err _)) => frame_prim : footprint.
#[export] Hint Extern 1 (preserves compiler_frame rte_zmalloc) => frame_prim : footprint.

Lemma populate_frame a s :
  preserves compiler_frame (efx_mae_action_set_populate a s).
Proof. unfold efx_mae_action_set_populate. footprint. Qed.

#[export] Hint Resolve populate_frame : footprint.

Lemma bundle_sync_frame t b s :
  preserves compiler_frame (sfc_mae_actions_bundle_sync t b s).
Proof.
  unfold sfc_mae_actions_bundle_sync, sfc_mae_actions_bundle_submit. footprint.
Qed.

Lemma vxlan_encap_frame d s :
  preserves compiler_frame (sfc_mae_rule_parse_action_vxlan_encap d s).
Proof. unfold sfc_mae_rule_parse_action_vxlan_encap. footprint. Qed.

#[export] Hint Resolve bundle_sync_frame vxlan_encap_frame : footprint.

Lemma parse_action_frame a o b s :
  preserves compiler_frame (sfc_mae_rule_parse_action a o b s).
Proof.
  unfold sfc_mae_rule_parse_action, sfc_mae_rule_parse_action_count,
    parse_action_deliver.
  destruct a; footprint.
Qed.

#[export] Hint Resolve parse_action_frame : footprint.

Lemma parse_actions_loop_frame actions o b s :
  preserves compiler_frame (parse_actions_loop actions o b s).
Proof.
  revert b s. induction actions as [|a rest IH]; intros b s; simpl.
  - footprint.
  - footprint.
Qed.

Lemma process_encap_header_frame bounce :
  preserves compiler_frame (sfc_mae_process_encap_header bounce).
Proof.
  unfold sfc_mae_process_encap_header, sfc_mae_encap_header_attach,
    sfc_mae_encap_header_add, store_encap_header.
  footprint.
Qed.

Lemma action_set_spec_init_frame :
  preserves compiler_frame efx_mae_action_set_spec_init.
Proof. unfold efx_mae_action_set_spec_init. footprint. Qed.

Lemma bounce_eh_invalidate_frame :
  preserves compiler_frame sfc_mae_bounce_eh_invalidate.
Proof. unfold sfc_mae_bounce_eh_invalidate. footprint. Qed.

(** The number of COUNT actions of a specification only grows while the
    action list is compiled, and a COUNT action adds one. *)
Lemma nb_count_app s a :
  efx_mae_action_set_get_nb_count
    (mk_actions (ema_actions s ++ [a]) (ema_eh_id s) (ema_counter_id s)) =
  efx_mae_action_set_get_nb_count s +
  (if decide (a = EFX_MAE_ACTION_COUNT) then 1 else 0).
Proof.
  unfold efx_mae_action_set_get_nb_count. simpl.
  rewrite filter_app, length_app. rewrite filter_cons, filter_nil.
  destruct (decide (a = EFX_MAE_ACTION_COUNT)); simpl; lia.
Qed.

Lemma populate_count a s :
  returns (fun r =>
             efx_mae_action_set_get_nb_count s <=
             efx_mae_action_set_get_nb_count (snd r) /\
             (fst r = 0 -> a = EFX_MAE_ACTION_COUNT ->
              efx_mae_action_set_get_nb_count s <
              efx_mae_action_set_get_nb_count (snd r)))
          (efx_mae_action_set_populate a s).
Proof.
  intros sa r sa' H. unfold efx_mae_action_set_populate in H. minv H.
  destruct (decide (rc_of a0 = 0)); minv H; simpl.
  - rewrite nb_count_app.
    destruct (decide (a = EFX_MAE_ACTION_COUNT)); split; try lia;
      intros; try lia; contradiction.
  - split; [lia|]. intros; contradiction.
Qed.

Lemma bundle_sync_count t b s :
  returns (fun r =>
             efx_mae_action_set_get_nb_count s <=
             efx_mae_action_set_get_nb_count (snd r))
          (sfc_mae_actions_bundle_sync t b s).
Proof.
  intros sa r sa' H. unfold sfc_mae_actions_bundle_sync in H.
  destruct (_ || _).
  - minv H. destruct a as [rc s1].
    assert (Hs : efx_mae_action_set_get_nb_count s <=
                 efx_mae_action_set_get_nb_count s1).
    { unfold sfc_mae_actions_bundle_submit in Hm.
      destruct (bundle_type b).
      - minv Hm. lia.
      - apply populate_count in Hm. simpl in Hm. lia. }
    destruct (decide (rc = 0)); minv H; exact Hs.
  - minv H. simpl. lia.
Qed.

Lemma vxlan_encap_count d s :
  returns (fun r =>
             efx_mae_action_set_get_nb_count s <=
             efx_mae_action_set_get_nb_count (snd r))
          (sfc_mae_rule_parse_action_vxlan_encap d s).
Proof.
  intros sa r sa' H. unfold sfc_mae_rule_parse_action_vxlan_encap in H.
  destruct d as [pattern|]; [|minv H; simpl; lia].
  minv H. destruct (vxlan_encap_items _ _ _) as [st|rc st|].
  - destruct (decide (ves_exp_items st <> [])).
    + minv H. minv H. simpl. lia.
    + destruct (sfc_mae_header_force_item_masks _ _); [|discriminate H].
      minv H. apply populate_count in H. lia.
  - minv H. minv H. simpl. lia.
  - discriminate H.
Qed.

Lemma parse_action_count_count shared s :
  returns (fun r =>
             efx_mae_action_set_get_nb_count s <=
             efx_mae_action_set_get_nb_count (snd r) /\
             (fst r = 0 ->
              efx_mae_action_set_get_nb_count s <
              efx_mae_action_set_get_nb_count (snd r)))
          (sfc_mae_rule_parse_action_count shared s).
Proof.
  intros sa r sa' H. unfold sfc_mae_rule_parse_action_count in H.
  destruct shared; [minv H; simpl; split; [lia|discriminate]|].
  minv H. destruct (negb (sa_counter_rxq_initialized a)).
  { minv H. minv H. simpl. split; [lia|discriminate]. }
  destruct (negb (sa_service_lcore a)).
  { minv H. simpl. split; [lia|discriminate]. }
  apply populate_count in H. destruct H as [H1 H2].
  split; [exact H1|]. intros Hr. apply H2; [exact Hr|reflexivity].
Qed.

Lemma parse_action_deliver_count op arg s :
  returns (fun r =>
             efx_mae_action_set_get_nb_count s <=
             efx_mae_action_set_get_nb_count (snd r))
          (parse_action_deliver op arg s).
Proof.
  intros sa r sa' H. unfold parse_action_deliver in H. minv H.
  destruct (decide (rc_of a = 0)).
  - apply populate_count in H. lia.
  - minv H. simpl. lia.
Qed.

(** The common exit of [sfc_mae_rule_parse_action]: the specification is
    passed on, and the result is 0 only if the step's was. *)
Lemma parse_action_finish (custom_error : bool) (t : rte_flow_action_type)
    (r : Z * efx_mae_actions) (bundle : sfc_mae_actions_bundle) sa x sa' :
  (let '(rc, spec) := r in
   if decide (rc = 0) then ret (0, bundle_mark t bundle, spec)
   else if custom_error then ret (rc, bundle, spec)
        else ret (rte_flow_error_set rc, bundle, spec)) sa = Some (x, sa') ->
  snd x = snd r /\ (fst (fst x) = 0 -> fst r = 0).
Proof.
  destruct r as [rc spec]. intros H.
  destruct (decide (rc = 0)); [minv H; split; [reflexivity|intros _; reflexivity]|].
  destruct custom_error; minv H; simpl; (split; [reflexivity|]);
    unfold rte_flow_error_set; lia.
Qed.

Lemma parse_action_nb_count a o b s :
  returns (fun r =>
             efx_mae_action_set_get_nb_count s <=
             efx_mae_action_set_get_nb_count (snd r) /\
             (fst (fst r) = 0 -> action_type a = AT_COUNT ->
              efx_mae_action_set_get_nb_count s <
              efx_mae_action_set_get_nb_count (snd r)))
          (sfc_mae_rule_parse_action a o b s).
Proof.
  intros sa r sa' H. unfold sfc_mae_rule_parse_action in H.
  cbv beta zeta in H.
  destruct a.
  all: try (destruct (decide (0 = 0)) as [_|]; [|contradiction]; minv H;
            simpl; split; [lia|intros _ Hc; discriminate Hc]).
  all: try (minv H;
            first [apply (parse_action_finish false) in H
                  |apply (parse_action_finish true) in H];
            destruct H as [-> H0]).
  - (* VXLAN_DECAP *)
    split; [|intros _ Hc; discriminate Hc].
    destruct o as [p|]; [|minv Hm; simpl; lia].
    minv Hm. destruct (decide (or_encap_type a0 <> EFX_TUNNEL_PROTOCOL_VXLAN)).
    + minv Hm. simpl. lia.
    + apply populate_count in Hm. lia.
  - apply populate_count in Hm. split; [lia|intros _ Hc; discriminate Hc].
  - apply vxlan_encap_count in Hm. split; [lia|intros _ Hc; discriminate Hc].
  - apply parse_action_count_count in Hm. destruct Hm as [H1 H2].
    split; [exact H1|]. intros Hr _. apply H2, H0, Hr.
  - apply populate_count in Hm. split; [lia|intros _ Hc; discriminate Hc].
  - apply populate_count in Hm. split; [lia|intros _ Hc; discriminate Hc].
  - apply parse_action_deliver_count in Hm. split; [lia|intros _ Hc; discriminate Hc].
  - apply parse_action_deliver_count in Hm. split; [lia|intros _ Hc; discriminate Hc].
  - apply parse_action_deliver_count in Hm. split; [lia|intros _ Hc; discriminate Hc].
  - apply parse_action_deliver_count in Hm. split; [lia|intros _ Hc; discriminate Hc].
  - apply populate_count in Hm. split; [lia|intros _ Hc; discriminate Hc].
Qed.

Lemma parse_actions_loop_nb_count actions o b s :
  returns (fun r =>
             efx_mae_action_set_get_nb_count s <=
             efx_mae_action_set_get_nb_count (snd r) /\
             (fst (fst r) = 0 ->
              (exists a, In a actions /\ action_type a = AT_COUNT) ->
              efx_mae_action_set_get_nb_count s <
              efx_mae_action_set_get_nb_count (snd r)))
          (parse_actions_loop actions o b s).
Proof.
  revert b s. induction actions as [|a rest IH]; intros b s sa r sa' H;
    simpl in H.
  - minv H. simpl. split; [lia|]. intros _ (a & [] & _).
  - minv H. destruct a0 as [[rc1 b1] s1].
    apply bundle_sync_count in Hm. simpl in Hm.
    destruct (decide (rc1 = 0)).
    + minv H. destruct a0 as [[rc2 b2] s2].
      apply parse_action_nb_count in Hm0. simpl in Hm0.
      destruct Hm0 as [Hle Hlt].
      destruct (decide (rc2 = 0)).
      * apply IH in H. destruct H as [Hle' Hlt'].
        split; [lia|]. intros Hr (c & [->|Hin] & Hc).
        -- specialize (Hlt e0 Hc). lia.
        -- assert (efx_mae_action_set_get_nb_count s2 <
                   efx_mae_action_set_get_nb_count (snd r)); [|lia].
           apply Hlt'; [exact Hr|]. exists c. split; assumption.
      * minv H. simpl. split; [lia|]. intros; contradiction.
    + minv H. simpl. split; [lia|]. intros; contradiction.
Qed.

Lemma parse_actions_fail_zero rc : 0 = parse_actions_fail rc -> rc = 0.
Proof.
  unfold parse_actions_fail, rte_flow_error_set.
  destruct (decide (0 < rc)); lia.
Qed.

(** A failure exit does not return 0. *)
Ltac fail_exit :=
  match goal with
  | H : 0 = parse_actions_fail _ |- _ =>
      apply parse_actions_fail_zero in H;
      first [contradiction | discriminate H | lia
            | vm_compute in H; discriminate H]
  end.

(** [sfc_mae_action_set_attach] finds nothing for a specification with a
    COUNT action, whatever the registry holds. *)
Lemma action_set_attach_count encap_header n_count spec sa :
  n_count <> 0 ->
  sfc_mae_action_set_attach encap_header n_count spec sa = Some (None, sa).
Proof.
  intros Hn. unfold sfc_mae_action_set_attach, bind, get_mae.
  assert (Hf : forall l : list (ptr * sfc_mae_action_set),
             find (fun e => bool_decide (as_encap_header (snd e) = encap_header) &&
                            bool_decide (n_count = 0) &&
                            efx_mae_action_set_specs_equal (as_spec (snd e)) spec)
                  l = None).
  { rewrite (bool_decide_eq_false_2 _ Hn).
    induction l as [|e l IH]; simpl; [reflexivity|].
    rewrite andb_false_r. simpl. exact IH. }
  rewrite Hf. reflexivity.
Qed.

Lemma action_set_add_inv actions spec encap_header n_counters sa rc o sa' :
  sfc_mae_action_set_add actions spec encap_header n_counters sa =
    Some ((rc, o), sa') ->
  match o with
  | Some p =>
      rc = 0 /\ (sa_next_ptr sa <= p < sa_next_ptr sa')%nat /\
      exists a,
        action_sets (sa_mae sa') = action_sets (sa_mae sa) ++ [(p, a)] /\
        as_refcnt a = 1 /\ as_spec a = spec /\
        as_encap_header a = encap_header /\
        (0 < n_counters -> as_n_counters a = n_counters) /\
        as_fw_rsrc a = mk_fw_rsrc 0 EFX_MAE_RSRC_ID_INVALID
  | None => rc = ENOMEM
  end.
Proof.
  unfold sfc_mae_action_set_add. intros H. minv H.
  apply rte_zmalloc_run in Hm. destruct Hm as (Hmae & _ & Hp).
  destruct a as [p|]; [|minv H; minv H; reflexivity].
  destruct Hp as [-> Hnext]. minv H.
  assert (Hcs : sa_mae sa1 = sa_mae sa /\
                (sa_next_ptr sa < sa_next_ptr sa1)%nat /\
                match a with
                | Some (_, n) => 0 < n_counters -> n = n_counters
                | None => True
                end).
  { destruct (decide (0 < n_counters)).
    - minv Hm. apply rte_zmalloc_run in Hm0. destruct Hm0 as (Hmae1 & _ & Hq).
      destruct a0 as [q|].
      + minv Hm. destruct Hq as [Hq0 Hq].
        split; [congruence|]. split; [lia|]. intros _. reflexivity.
      + minv Hm. minv Hm. inversion Hm0; subst; simpl in *.
        split; [congruence|]. split; [lia|exact I].
    - minv Hm. split; [exact Hmae|]. split; [lia|]. intros; contradiction. }
  destruct Hcs as (Hmae1 & Hlt & Hn).
  destruct a as [[counters n]|]; [|minv H; reflexivity].
  minv H. minv H. inversion Hm0; subst; clear Hm0. simpl.
  split; [reflexivity|]. split; [lia|].
  eexists. split; [rewrite Hmae1; reflexivity|]. simpl.
  repeat split; try reflexivity. exact Hn.
Qed.

Lemma entry_lookup_fresh {A : Type} (l : list (ptr * A)) (n p : nat) :
  Forall (fun e => (fst e < n)%nat) l -> (n <= p)%nat -> entry_lookup l p = None.
Proof.
  induction 1 as [|[q a] l Hq _ IH]; intros Hp; simpl; [reflexivity|].
  simpl in Hq. case_decide; [lia|]. apply IH. exact Hp.
Qed.

Lemma entry_lookup_app_fresh {A : Type} (l : list (ptr * A)) (p : ptr) (a : A) :
  entry_lookup l p = None -> entry_lookup (l ++ [(p, a)]) p = Some a.
Proof.
  induction l as [|[q b] l IH]; simpl; intros H.
  - case_decide; [reflexivity|contradiction].
  - case_decide; [discriminate|]. apply IH. exact H.
Qed.

Lemma entry_lookup_app_old {A : Type} (l : list (ptr * A)) (p q : ptr) (a b : A) :
  entry_lookup l q = Some b -> entry_lookup (l ++ [(p, a)]) q = Some b.
Proof.
  induction l as [|[r c] l IH]; simpl; intros H; [discriminate|].
  case_decide; [exact H|]. apply IH. exact H.
Qed.

(** Compiling an action list with a COUNT action, seen from any registry:
    the flow gets a new entry at a fresh address, appended to the registry,
    and no existing entry is touched. *)
Lemma parse_actions_count_new_entry actions spec_mae sa flow' sa' :
  (exists a, In a actions /\ action_type a = AT_COUNT) ->
  sfc_mae_rule_parse_actions (Some actions) spec_mae sa = Some ((0, flow'), sa') ->
  exists p a,
    fs_action_set flow' = Some p /\
    (sa_next_ptr sa <= p < sa_next_ptr sa')%nat /\
    action_sets (sa_mae sa') = action_sets (sa_mae sa) ++ [(p, a)] /\
    as_refcnt a = 1 /\ as_n_counters a = 1 /\
    efx_mae_action_set_get_nb_count (as_spec a) = 1 /\
    as_fw_rsrc a = mk_fw_rsrc 0 EFX_MAE_RSRC_ID_INVALID.
Proof.
  intros Hcount H. unfold sfc_mae_rule_parse_actions in H.
  minv H. pose proof (action_set_spec_init_frame _ _ _ Hm) as F0.
  destruct a as [rc0 [spec0|]]; cbv beta iota in H.
  2:{ unfold efx_mae_action_set_spec_init in Hm. minv Hm.
      destruct (decide (rc_of a = 0)); minv Hm; minv H; fail_exit. }
  assert (Hnb0 : efx_mae_action_set_get_nb_count spec0 = 0).
  { unfold efx_mae_action_set_spec_init in Hm. minv Hm.
    destruct (decide (rc_of a = 0)); minv Hm. reflexivity. }
  minv H. pose proof (bounce_eh_invalidate_frame _ _ _ Hm0) as F1.
  minv H. destruct a0 as [[rc1 b1] spec1].
  pose proof (parse_actions_loop_frame _ _ _ _ _ _ _ Hm1) as F2.
  apply parse_actions_loop_nb_count in Hm1. simpl in Hm1.
  destruct Hm1 as [_ Hlt].
  destruct (decide (rc1 = 0)) as [Hr1|Hr1];
    [|minv H; fail_exit].
  specialize (Hlt Hr1 Hcount).
  minv H. destruct a0 as [[rc2 b2] spec2].
  pose proof (bundle_sync_frame _ _ _ _ _ _ Hm1) as F3.
  apply bundle_sync_count in Hm1. simpl in Hm1.
  destruct (decide (rc2 = 0)) as [Hr2|Hr2];
    [|minv H; fail_exit].
  minv H. apply get_mae_read in Hm2. subst sa4.
  minv H. destruct a1 as [rc3 encap_header].
  pose proof (process_encap_header_frame _ _ _ _ Hm2) as F4.
  destruct (decide (rc3 = 0)) as [Hr3|Hr3];
    [|minv H; fail_exit].
  cbv zeta in H.
  destruct (decide (1 < efx_mae_action_set_get_nb_count spec2)) as [Hn|Hn].
  { minv H. minv H. minv H; fail_exit. }
  assert (Hone : efx_mae_action_set_get_nb_count spec2 = 1) by lia.
  assert (Hne : efx_mae_action_set_get_nb_count spec2 <> 0) by lia.
  rewrite (bind_run _ _ _ _ _
             (action_set_attach_count encap_header _ spec2 _ Hne)) in H.
  minv H. destruct a1 as [rc4 [p|]].
  2:{ apply action_set_add_inv in Hm3. subst rc4. minv H. minv H; fail_exit. }
  minv H. apply action_set_add_inv in Hm3.
  destruct Hm3 as (_ & Hp & aset & Hsets & Hrc & Hspec & _ & Hnc & Hfw).
  assert (F : compiler_frame sa sa4).
  { transitivity sa0; [exact F0|]. transitivity sa1; [exact F1|].
    transitivity sa2; [exact F2|]. transitivity sa3; [exact F3|exact F4]. }
  destruct F as [Fs Fp]. unfold ptr_mono in Fp.
  exists p, aset. split; [reflexivity|]. split; [lia|].
  split; [rewrite Hsets, Fs; reflexivity|]. split; [exact Hrc|].
  split; [rewrite Hnc; lia|]. split; [rewrite Hspec; exact Hone|exact Hfw].
Qed.

(** C6. Two flow rules whose action lists both contain a COUNT action,
    compiled one after the other, never share an action set entry: the
    second compilation does not attach to the entry of the first, whatever
    the two lists are otherwise; each flow gets an entry of its own, at its
    own address, with software refcount 1, appended to the registry. *)
Theorem C6_count_action_sets_are_not_shared
    (actions1 actions2 : list rte_flow_action)
    (spec1 spec2 flow1 flow2 : sfc_flow_spec_mae) (sa sa1 sa2 : sfc_adapter) :
  (exists a, In a actions1 /\ action_type a = AT_COUNT) ->
  (exists a, In a actions2 /\ action_type a = AT_COUNT) ->
  action_set_ptrs_allocated sa ->
  sfc_mae_rule_parse_actions (Some actions1) spec1 sa = Some ((0, flow1), sa1) ->
  sfc_mae_rule_parse_actions (Some actions2) spec2 sa1 = Some ((0, flow2), sa2) ->
  exists p1 a1 p2 a2,
    fs_action_set flow1 = Some p1 /\
    fs_action_set flow2 = Some p2 /\
    p1 <> p2 /\
    action_sets (sa_mae sa1) = action_sets (sa_mae sa) ++ [(p1, a1)] /\
    action_sets (sa_mae sa2) = action_sets (sa_mae sa) ++ [(p1, a1); (p2, a2)] /\
    entry_lookup (action_sets (sa_mae sa)) p1 = None /\
    entry_lookup (action_sets (sa_mae sa2)) p1 = Some a1 /\
    entry_lookup (action_sets (sa_mae sa2)) p2 = Some a2 /\
    as_refcnt a1 = 1 /\ as_refcnt a2 = 1 /\
    as_n_counters a1 = 1 /\ as_n_counters a2 = 1.
Proof.
  intros Hc1 Hc2 Halloc H1 H2.
  apply parse_actions_count_new_entry in H1; [|exact Hc1].
  apply parse_actions_count_new_entry in H2; [|exact Hc2].
  destruct H1 as (p1 & a1 & Hf1 & Hp1 & Hs1 & Hr1 & Hn1 & _).
  destruct H2 as (p2 & a2 & Hf2 & Hp2 & Hs2 & Hr2 & Hn2 & _).
  assert (Hfresh1 : entry_lookup (action_sets (sa_mae sa)) p1 = None).
  { eapply entry_lookup_fresh; [exact Halloc|lia]. }
  assert (Halloc1 : action_set_ptrs_allocated sa1).
  { unfold action_set_ptrs_allocated. rewrite Hs1. apply Forall_app. split.
    - eapply Forall_impl; [exact Halloc|]. simpl. intros e He. lia.
    - constructor; [simpl; lia|constructor]. }
  assert (Hfresh2 : entry_lookup (action_sets (sa_mae sa1)) p2 = None).
  { eapply entry_lookup_fresh; [exact Halloc1|lia]. }
  exists p1, a1, p2, a2.
  split; [exact Hf1|]. split; [exact Hf2|]. split; [lia|].
  split; [exact Hs1|].
  split; [rewrite Hs2, Hs1, <- app_assoc; reflexivity|].
  split; [exact Hfresh1|].
  split; [rewrite Hs2; apply entry_lookup_app_old; rewrite Hs1;
          apply entry_lookup_app_fresh; exact Hfresh1|].
  split; [rewrite Hs2; apply entry_lookup_app_fresh; exact Hfresh2|].
  repeat split; assumption.
Qed.

(** Two rules with the same action list [COUNT, DROP], differing in the
    caller's counter id only, on a fresh adapter. *)
Lemma C6_count_action_sets_are_not_shared_witness :
  exists flow1 sa1 flow2 sa2,
    sfc_mae_rule_parse_actions
      (Some [RTE_FLOW_ACTION_TYPE_COUNT false 1; RTE_FLOW_ACTION_TYPE_DROP])
      (flow_spec_init 0) (adapter_init 4 []) = Some ((0, flow1), sa1) /\
    sfc_mae_rule_parse_actions
      (Some [RTE_FLOW_ACTION_TYPE_COUNT false 2; RTE_FLOW_ACTION_TYPE_DROP])
      (flow_spec_init 0) sa1 = Some ((0, flow2), sa2) /\
    exists p1 a1 p2 a2,
      fs_action_set flow1 = Some p1 /\
      fs_action_set flow2 = Some p2 /\
      p1 <> p2 /\
      action_sets (sa_mae sa1) =
        action_sets (sa_mae (adapter_init 4 [])) ++ [(p1, a1)] /\
      action_sets (sa_mae sa2) =
        action_sets (sa_mae (adapter_init 4 [])) ++ [(p1, a1); (p2, a2)] /\
      entry_lookup (action_sets (sa_mae (adapter_init 4 []))) p1 = None /\
      entry_lookup (action_sets (sa_mae sa2)) p1 = Some a1 /\
      entry_lookup (action_sets (sa_mae sa2)) p2 = Some a2 /\
      as_refcnt a1 = 1 /\ as_refcnt a2 = 1 /\
      as_n_counters a1 = 1 /\ as_n_counters a2 = 1.
Proof.
  eexists. eexists. eexists. eexists.
  split; [vm_compute; reflexivity|].
  split; [vm_compute; reflexivity|].
  eapply (C6_count_action_sets_are_not_shared
            [RTE_FLOW_ACTION_TYPE_COUNT false 1; RTE_FLOW_ACTION_TYPE_DROP]
            [RTE_FLOW_ACTION_TYPE_COUNT false 2; RTE_FLOW_ACTION_TYPE_DROP]
            (flow_spec_init 0) (flow_spec_init 0)).
  - eexists. split; [left; reflexivity|reflexivity].
  - eexists. split; [left; reflexivity|reflexivity].
  - constructor.
  - vm_compute. reflexivity.
  - vm_compute. reflexivity.
Defined.

(** Without COUNT the second rule attaches: one entry, refcount 2. With
    COUNT, even with the same caller's id, there are two entries. *)
Example action_sets_without_count_are_shared :
  option_map
    (fun r => (fst (fst r), fs_action_set (snd (fst r)),
               map (fun e => (fst e, as_refcnt (snd e)))
                   (action_sets (sa_mae (snd r)))))
    ((do _ <- sfc_mae_rule_parse_actions (Some [RTE_FLOW_ACTION_TYPE_DROP])
                                         (flow_spec_init 0);
      sfc_mae_rule_parse_actions (Some [RTE_FLOW_ACTION_TYPE_DROP])
                                 (flow_spec_init 0))
       (adapter_init 4 []))
  = Some (0, Some 0%nat, [(0%nat, 2)]).
Proof. vm_compute. reflexivity. Qed.

Example action_sets_with_count_are_not_shared :
  option_map
    (fun r => (fst (fst r), fs_action_set (snd (fst r)),
               map (fun e => (fst e, as_refcnt (snd e)))
                   (action_sets (sa_mae (snd r)))))
    ((do _ <- sfc_mae_rule_parse_actions
                (Some [RTE_FLOW_ACTION_TYPE_COUNT false 7;
                       RTE_FLOW_ACTION_TYPE_DROP]) (flow_spec_init 0);
      sfc_mae_rule_parse_actions
        (Some [RTE_FLOW_ACTION_TYPE_COUNT false 7; RTE_FLOW_ACTION_TYPE_DROP])
        (flow_spec_init 0))
       (adapter_init 4 []))
  = Some (0, Some 2%nat, [(0%nat, 1); (2%nat, 1)]).
Proof. vm_compute. reflexivity. Qed.

(** * Further properties of the code *)

(** ** Counters: allocation, updates and queries *)

(** X1. A counter that has just been allocated reads zero: after a
    successful [sfc_mae_counter_add] (the device returned an id inside the
    slot array), [sfc_mae_counter_get] on the new binding reports 0 hits
    and 0 bytes, both marked valid, whatever the slot had accumulated in an
    earlier life. *)
Theorem X1_counter_add_zeroes_query (sa : sfc_adapter)
    (counterp : sfc_mae_counter_id) (r : efx_reply) (rest : list efx_reply)
    (data : rte_flow_query_count) :
  en_replies (sa_nic sa) = r :: rest ->
  rc_of r = 0 ->
  0 <= out_of r < n_mae_counters (counter_registry (sa_mae sa)) ->
  counters_sized (counter_registry (sa_mae sa)) ->
  exists c' sa' cs' data',
    sfc_mae_counter_add counterp sa = Some ((0, c'), sa') /\
    mae_id c' = out_of r /\ rte_id c' = rte_id counterp /\
    sfc_mae_counter_get (counter_registry (sa_mae sa')) c' data =
      Some (0, cs', data') /\
    qc_hits data' = 0 /\ qc_bytes data' = 0 /\
    qc_hits_set data' = true /\ qc_bytes_set data' = true.
Proof.
  intros Hrep Hrc Hid Hsized.
  destruct sa as [[replies calls] mae mem nxt rxq lcore log sock burst dp].
  simpl in *. subst replies. unfold counters_sized in Hsized.
  assert (Hidx : (Z.to_nat (out_of r) <
                  length (mae_counters (counter_registry mae)))%nat) by lia.
  destruct (lookup_lt_is_Some_2 _ _ Hidx) as [p Hp].
  unfold sfc_mae_counter_add, bind, efx, efx_invoke. simpl.
  rewrite Hrc. simpl.
  destruct (decide (n_mae_counters (counter_registry mae) <= out_of r)); [lia|].
  unfold load_counter. simpl.
  destruct (decide (0 <= out_of r)); [|lia].
  rewrite Hp. simpl.
  destruct (qc_reset data) eqn:Hreset.
  all: eexists; eexists; eexists; eexists.
  all: split; [reflexivity|]; simpl.
  all: split; [reflexivity|]; split; [reflexivity|].
  all: unfold sfc_mae_counter_get; simpl.
  all: rewrite list_lookup_insert_eq by exact Hidx; rewrite Hreset; simpl.
  all: split; [reflexivity|]; simpl.
  all: rewrite !Z.sub_diag; repeat split; reflexivity.
Qed.

(** Slot 1 of four has counted 10 packets before; the device hands out id
    1 again. *)
Lemma X1_counter_add_zeroes_query_witness :
  exists c' sa' cs' data',
    sfc_mae_counter_add (mk_counter_id EFX_MAE_RSRC_ID_INVALID 3)
      (adapter_with_counters [mk_reply 0 1 8]) = Some ((0, c'), sa') /\
    mae_id c' = 1 /\ rte_id c' = 3 /\
    sfc_mae_counter_get (counter_registry (sa_mae sa')) c'
      (mk_query_count false false false 0 0) = Some (0, cs', data') /\
    qc_hits data' = 0 /\ qc_bytes data' = 0 /\
    qc_hits_set data' = true /\ qc_bytes_set data' = true.
Proof.
  apply (X1_counter_add_zeroes_query
           (adapter_with_counters [mk_reply 0 1 8])
           (mk_counter_id EFX_MAE_RSRC_ID_INVALID 3) (mk_reply 0 1 8) []).
  - reflexivity.
  - reflexivity.
  - simpl. lia.
  - reflexivity.
Defined.

Lemma u64_sub_add (v r d : Z) : u64 (u64 (v + d) - r) = u64 (u64 (v - r) + d).
Proof.
  unfold u64. rewrite Zminus_mod_idemp_l, Zplus_mod_idemp_l.
  f_equal. lia.
Qed.

(** X2. Traffic the hardware reports shows in the next query: when an
    update for an in-use slot carries a generation that is not older than
    the slot's, [sfc_mae_counter_increment] accepts it, and
    [sfc_mae_counter_get] then reports the hits and bytes it reported
    before plus the update's packets and bytes (modulo 2^64). *)
Theorem X2_counter_update_shows_in_query (counters : sfc_mae_counters)
    (c : sfc_mae_counter_id) (generation pkts bytes : Z) (p : sfc_mae_counter)
    (data : rte_flow_query_count) :
  mae_counters counters !! Z.to_nat (mae_id c) = Some p ->
  inuse p = true ->
  generation_count p <= generation ->
  qc_reset data = false ->
  exists counters1 d0 d1,
    sfc_mae_counter_increment counters (mae_id c) generation pkts bytes =
      Some counters1 /\
    sfc_mae_counter_get counters c data = Some (0, counters, d0) /\
    sfc_mae_counter_get counters1 c data = Some (0, counters1, d1) /\
    qc_hits d1 = u64 (qc_hits d0 + pkts) /\
    qc_bytes d1 = u64 (qc_bytes d0 + bytes) /\
    xstats counters1 = xstats counters.
Proof.
  intros Hp Hin Hgen Hreset.
  assert (Hidx : (Z.to_nat (mae_id c) < length (mae_counters counters))%nat).
  { apply lookup_lt_is_Some. eexists. exact Hp. }
  assert (Hlt : (generation <? generation_count p) = false)
    by (apply Z.ltb_ge; exact Hgen).
  eexists. eexists. eexists.
  split.
  { unfold sfc_mae_counter_increment. rewrite Hp, Hin. simpl. rewrite Hlt.
    reflexivity. }
  split.
  { unfold sfc_mae_counter_get. rewrite Hp, Hreset. reflexivity. }
  split.
  { unfold sfc_mae_counter_get. simpl.
    rewrite list_lookup_insert_eq by exact Hidx. rewrite Hreset. reflexivity. }
  simpl. split; [apply u64_sub_add|]. split; [apply u64_sub_add|reflexivity].
Qed.

(** Slot 2 of the adapter: 60 hits so far, 5 more packets reported. *)
Lemma X2_counter_update_shows_in_query_witness :
  exists counters1 d0 d1,
    sfc_mae_counter_increment
      (counter_registry (sa_mae (adapter_with_counters []))) 2 3 5 320 =
      Some counters1 /\
    sfc_mae_counter_get (counter_registry (sa_mae (adapter_with_counters [])))
      (mk_counter_id 2 5) (mk_query_count false false false 0 0) =
      Some (0, counter_registry (sa_mae (adapter_with_counters [])), d0) /\
    sfc_mae_counter_get counters1 (mk_counter_id 2 5)
      (mk_query_count false false false 0 0) = Some (0, counters1, d1) /\
    qc_hits d1 = u64 (qc_hits d0 + 5) /\
    qc_bytes d1 = u64 (qc_bytes d0 + 320) /\
    xstats counters1 = xstats (counter_registry (sa_mae (adapter_with_counters []))).
Proof.
  apply (X2_counter_update_shows_in_query
           (counter_registry (sa_mae (adapter_with_counters [])))
           (mk_counter_id 2 5) 3 5 320 (mk_counter true 3 100 6400 40 2560)
           (mk_query_count false false false 0 0)).
  - reflexivity.
  - reflexivity.
  - simpl. lia.
  - reflexivity.
Defined.

(** X3. A query with the [reset] bit moves the baseline and nothing else:
    it answers with the hits and bytes since the previous baseline, keeps
    the accumulated value, the in-use flag and the generation of the slot
    and every other slot, and any query that follows (before new traffic)
    reads 0 hits and 0 bytes. *)
Theorem X3_query_reset_restarts_the_count (counters : sfc_mae_counters)
    (c : sfc_mae_counter_id) (p : sfc_mae_counter)
    (data data2 : rte_flow_query_count) :
  mae_counters counters !! Z.to_nat (mae_id c) = Some p ->
  qc_reset data = true ->
  exists counters1 d1 counters2 d2 p1,
    sfc_mae_counter_get counters c data = Some (0, counters1, d1) /\
    qc_hits d1 = u64 (value_pkts p - reset_pkts p) /\
    qc_bytes d1 = u64 (value_bytes p - reset_bytes p) /\
    mae_counters counters1 !! Z.to_nat (mae_id c) = Some p1 /\
    value_pkts p1 = value_pkts p /\ value_bytes p1 = value_bytes p /\
    inuse p1 = inuse p /\ generation_count p1 = generation_count p /\
    (forall i, i <> Z.to_nat (mae_id c) ->
               mae_counters counters1 !! i = mae_counters counters !! i) /\
    sfc_mae_counter_get counters1 c data2 = Some (0, counters2, d2) /\
    qc_hits d2 = 0 /\ qc_bytes d2 = 0.
Proof.
  intros Hp Hreset.
  assert (Hidx : (Z.to_nat (mae_id c) < length (mae_counters counters))%nat).
  { apply lookup_lt_is_Some. eexists. exact Hp. }
  destruct (qc_reset data2) eqn:Hreset2.
  all: eexists; eexists; eexists; eexists; eexists.
  all: split; [unfold sfc_mae_counter_get; rewrite Hp, Hreset; reflexivity|].
  all: simpl.
  all: split; [reflexivity|]; split; [reflexivity|].
  all: split; [apply list_lookup_insert_eq; exact Hidx|]; simpl.
  all: split; [reflexivity|]; split; [reflexivity|].
  all: split; [reflexivity|]; split; [reflexivity|].
  all: split; [intros i Hi; apply list_lookup_insert_ne; congruence|].
  all: split;
    [unfold sfc_mae_counter_get; simpl;
     rewrite list_lookup_insert_eq by exact Hidx; rewrite Hreset2; reflexivity|].
  all: simpl; rewrite !Z.sub_diag; split; reflexivity.
Qed.

Lemma X3_query_reset_restarts_the_count_witness :
  exists counters1 d1 counters2 d2 p1,
    sfc_mae_counter_get (counter_registry (sa_mae (adapter_with_counters [])))
      (mk_counter_id 2 5) (mk_query_count true false false 0 0) =
      Some (0, counters1, d1) /\
    qc_hits d1 = u64 (100 - 40) /\
    qc_bytes d1 = u64 (6400 - 2560) /\
    mae_counters counters1 !! Z.to_nat 2 = Some p1 /\
    value_pkts p1 = 100 /\ value_bytes p1 = 6400 /\
    inuse p1 = true /\ generation_count p1 = 3 /\
    (forall i, i <> Z.to_nat 2 ->
               mae_counters counters1 !! i =
               mae_counters (counter_registry (sa_mae (adapter_with_counters [])))
                 !! i) /\
    sfc_mae_counter_get counters1 (mk_counter_id 2 5)
      (mk_query_count false false false 0 0) = Some (0, counters2, d2) /\
    qc_hits d2 = 0 /\ qc_bytes d2 = 0.
Proof.
  apply (X3_query_reset_restarts_the_count
           (counter_registry (sa_mae (adapter_with_counters [])))
           (mk_counter_id 2 5) (mk_counter true 3 100 6400 40 2560)
           (mk_query_count true false false 0 0)
           (mk_query_count false false false 0 0)).
  - reflexivity.
  - reflexivity.
Defined.

(** X4. Once a counter is released its slot takes no more updates, even
    if the device refuses to free the hardware counter:
    [sfc_mae_counter_del] clears the in-use flag before it calls the
    device, keeps the accumulated value, and every later
    [sfc_mae_counter_increment] for that id, of any generation, changes no
    slot and is counted as a not-in-use update. *)
Theorem X4_released_counter_ignores_updates (sa : sfc_adapter)
    (c : sfc_mae_counter_id) (p : sfc_mae_counter) :
  mae_id c <> EFX_MAE_RSRC_ID_INVALID ->
  0 <= mae_id c ->
  mae_counters (counter_registry (sa_mae sa)) !! Z.to_nat (mae_id c) = Some p ->
  exists rc sa',
    sfc_mae_counter_del c sa = Some (rc, sa') /\
    en_calls (sa_nic sa') =
      en_calls (sa_nic sa) ++ [(OP_COUNTERS_FREE, mae_id c)] /\
    mae_counters (counter_registry (sa_mae sa')) !! Z.to_nat (mae_id c) =
      Some (counter_set_inuse false p) /\
    forall generation pkts bytes,
    exists counters',
      sfc_mae_counter_increment (counter_registry (sa_mae sa')) (mae_id c)
                                generation pkts bytes = Some counters' /\
      mae_counters counters' = mae_counters (counter_registry (sa_mae sa')) /\
      not_inuse_update (xstats counters') =
        u64 (not_inuse_update (xstats (counter_registry (sa_mae sa'))) + 1).
Proof.
  intros Hne Hnn Hp.
  assert (Hidx : (Z.to_nat (mae_id c) <
                  length (mae_counters (counter_registry (sa_mae sa))))%nat).
  { apply lookup_lt_is_Some. eexists. exact Hp. }
  destruct sa as [[replies calls] mae mem nxt rxq lcore log sock burst dp]. simpl in *.
  unfold sfc_mae_counter_del.
  destruct (decide (mae_id c = EFX_MAE_RSRC_ID_INVALID)); [contradiction|].
  unfold bind, load_counter, store_counter, put_counters, get_counters,
    modify_mae, efx, efx_invoke, sfc_err, ret. simpl.
  destruct (decide (0 <= mae_id c)); [|contradiction].
  rewrite Hp. simpl.
  destruct replies as [|r rest]; simpl.
  - eexists. eexists. split; [reflexivity|]. simpl.
    split; [reflexivity|].
    split; [apply list_lookup_insert_eq; exact Hidx|].
    intros generation pkts bytes. unfold sfc_mae_counter_increment. simpl.
    rewrite list_lookup_insert_eq by exact Hidx. simpl.
    eexists. split; [reflexivity|]. split; reflexivity.
  - destruct (decide (rc_of r = 0)); simpl.
    all: eexists; eexists; (split; [reflexivity|]); simpl.
    all: split; [reflexivity|].
    all: split; [apply list_lookup_insert_eq; exact Hidx|].
    all: intros generation pkts bytes; unfold sfc_mae_counter_increment; simpl.
    all: rewrite list_lookup_insert_eq by exact Hidx; simpl.
    all: eexists; split; [reflexivity|]; split; reflexivity.
Qed.

(** The device refuses to free counter 2. *)
Lemma X4_released_counter_ignores_updates_witness :
  exists rc sa',
    sfc_mae_counter_del (mk_counter_id 2 5)
      (adapter_with_counters [reply_fail EINVAL]) = Some (rc, sa') /\
    en_calls (sa_nic sa') =
      en_calls (sa_nic (adapter_with_counters [reply_fail EINVAL])) ++
      [(OP_COUNTERS_FREE, 2)] /\
    mae_counters (counter_registry (sa_mae sa')) !! Z.to_nat 2 =
      Some (counter_set_inuse false (mk_counter true 3 100 6400 40 2560)) /\
    forall generation pkts bytes,
    exists counters',
      sfc_mae_counter_increment (counter_registry (sa_mae sa')) 2
                                generation pkts bytes = Some counters' /\
      mae_counters counters' = mae_counters (counter_registry (sa_mae sa')) /\
      not_inuse_update (xstats counters') =
        u64 (not_inuse_update (xstats (counter_registry (sa_mae sa'))) + 1).
Proof.
  apply (X4_released_counter_ignores_updates
           (adapter_with_counters [reply_fail EINVAL]) (mk_counter_id 2 5)
           (mk_counter true 3 100 6400 40 2560)).
  - discriminate.
  - simpl. lia.
  - reflexivity.
Defined.

Lemma slot_meta_eq_refl p : slot_meta_eq p p.
Proof. repeat split. Qed.

Lemma counters_meta_eq_slots c c' :
  n_mae_counters c' = n_mae_counters c -> mae_counters c' = mae_counters c ->
  counters_meta_eq c c'.
Proof.
  intros Hn Hs. split; [exact Hn|]. rewrite Hs. clear Hs.
  generalize (mae_counters c). intros l.
  induction l; constructor; [apply slot_meta_eq_refl|assumption].
Qed.

Lemma counters_meta_eq_refl c : counters_meta_eq c c.
Proof. apply counters_meta_eq_slots; reflexivity. Qed.

Lemma counters_meta_eq_trans c1 c2 c3 :
  counters_meta_eq c1 c2 -> counters_meta_eq c2 c3 -> counters_meta_eq c1 c3.
Proof.
  intros [N1 F1] [N2 F2]. split; [congruence|].
  revert F2. generalize (mae_counters c3).
  induction F1 as [|p q l k Hpq _ IH]; intros l3 F2; inversion F2; subst;
    constructor.
  - destruct Hpq as (A & B & C & D).
    match goal with H : slot_meta_eq q _ |- _ => destruct H as (A' & B' & C' & D') end.
    repeat split; congruence.
  - apply IH. assumption.
Qed.

Lemma counters_meta_eq_insert c i p p' :
  mae_counters c !! i = Some p -> slot_meta_eq p p' ->
  counters_meta_eq c (set_mae_counters (<[i := p']> (mae_counters c)) c).
Proof.
  intros Hp Hm. split; [reflexivity|]. simpl.
  revert i Hp. induction (mae_counters c) as [|q l IH]; intros i Hp;
    [discriminate|].
  destruct i as [|i]; simpl in *.
  - inversion Hp; subst. constructor; [exact Hm|].
    clear. induction l; constructor; [apply slot_meta_eq_refl|assumption].
  - constructor; [apply slot_meta_eq_refl|]. apply IH. exact Hp.
Qed.

Lemma counter_increment_meta c id generation pkts bytes c' :
  sfc_mae_counter_increment c id generation pkts bytes = Some c' ->
  counters_meta_eq c c'.
Proof.
  unfold sfc_mae_counter_increment.
  destruct (mae_counters c !! Z.to_nat id) as [p|] eqn:Hp; [|discriminate].
  destruct (negb (inuse p)).
  { intros H. inversion H; subst. apply counters_meta_eq_slots; reflexivity. }
  destruct (generation <? generation_count p).
  { intros H. inversion H; subst. apply counters_meta_eq_slots; reflexivity. }
  intros H. inversion H; subst. eapply counters_meta_eq_insert; [exact Hp|].
  repeat split.
Qed.

Lemma parse_counter_records_meta fmt payload generation n i c c' :
  parse_counter_records fmt payload generation i n c = Some c' ->
  counters_meta_eq c c'.
Proof.
  revert i c. induction n as [|n IH]; intros i c H; simpl in H.
  - inversion H; subst. apply counters_meta_eq_refl.
  - destruct (sfc_mae_counter_increment _ _ _ _ _) as [c1|] eqn:E;
      [|discriminate].
    eapply counters_meta_eq_trans;
      [eapply counter_increment_meta; exact E|eapply IH; exact H].
Qed.

Lemma parse_counter_records_runs fmt payload generation n :
  forall i c,
    Forall (fun j =>
              (Z.to_nat
                 (EFX_FIELD
                    (bytes_at payload
                       (j * Z.to_nat ER_RX_SL_PACKETISER_PAYLOAD_WORD_SIZE)
                       (Z.to_nat ER_RX_SL_PACKETISER_PAYLOAD_WORD_SIZE))
                    (ERF_SC_PACKETISER_PAYLOAD_COUNTER_INDEX fmt)) <
               length (mae_counters c))%nat) (seq i n) ->
    exists c', parse_counter_records fmt payload generation i n c = Some c'.
Proof.
  induction n as [|n IH]; intros i c Hall; simpl.
  - eexists. reflexivity.
  - inversion Hall as [|j js Hj Hjs]; subst.
    destruct (sfc_mae_counter_increment c _ generation _ _) as [c1|] eqn:E.
    + apply IH.
      pose proof (counter_increment_meta _ _ _ _ _ _ E) as [_ Hm].
      apply Forall2_length in Hm. rewrite <- Hm. exact Hjs.
    + exfalso. unfold sfc_mae_counter_increment in E.
      apply lookup_lt_is_Some_2 in Hj. destruct Hj as [p Hp].
      rewrite Hp in E. repeat case_match; discriminate E.
Qed.

(** X5. The telemetry decoder only ever moves accumulated values and the
    two diagnostic counters.  The decoder does not check the counter
    index of a record against the size of the slot array; for a packet in
    which every record the header announces names a slot of the array,
    [sfc_mae_parse_counter_packet] returns, and after it the slot array
    has its size, every slot its in-use flag, its generation and its
    query baseline, the registries are as they were, and no device call
    has been made. *)
Theorem X5_counter_packet_keeps_slot_state (fmt : packetiser_format)
    (m : rte_mbuf) (sa : sfc_adapter) :
  packet_indices_in_range fmt m
    (length (mae_counters (counter_registry (sa_mae sa)))) ->
  exists sa',
    sfc_mae_parse_counter_packet fmt m sa = Some (tt, sa') /\
    counters_meta_eq (counter_registry (sa_mae sa))
                     (counter_registry (sa_mae sa')) /\
    outer_rules (sa_mae sa') = outer_rules (sa_mae sa) /\
    encap_headers (sa_mae sa') = encap_headers (sa_mae sa) /\
    action_sets (sa_mae sa') = action_sets (sa_mae sa) /\
    counter_rxq_running (sa_mae sa') = counter_rxq_running (sa_mae sa) /\
    sa_nic sa' = sa_nic sa.
Proof.
  intros Hrange. unfold sfc_mae_parse_counter_packet.
  assert (Herr : forall msg, exists sa',
            sfc_err msg sa = Some (tt, sa') /\
            counters_meta_eq (counter_registry (sa_mae sa))
                             (counter_registry (sa_mae sa')) /\
            outer_rules (sa_mae sa') = outer_rules (sa_mae sa) /\
            encap_headers (sa_mae sa') = encap_headers (sa_mae sa) /\
            action_sets (sa_mae sa') = action_sets (sa_mae sa) /\
            counter_rxq_running (sa_mae sa') = counter_rxq_running (sa_mae sa) /\
            sa_nic sa' = sa_nic sa).
  { intros msg. eexists. split; [reflexivity|]. simpl.
    split; [apply counters_meta_eq_refl|]. repeat split. }
  repeat (case_decide; [apply Herr|]).
  cbv zeta.
  repeat (case_decide; [apply Herr|]).
  unfold packet_indices_in_range, packet_counter_index, packet_header in Hrange.
  cbv zeta in Hrange.
  destruct (parse_counter_records_runs fmt _ (hash_fdir_hi m) _ 0%nat
              (counter_registry (sa_mae sa)) Hrange) as [c' E].
  unfold bind, get_counters. rewrite E.
  eexists. split; [reflexivity|]. simpl.
  split; [eapply parse_counter_records_meta; exact E|]. repeat split.
Qed.

(** One record for counter 2 (5 packets, 320 bytes), generation 3. *)
Lemma X5_counter_packet_keeps_slot_state_witness :
  exists sa',
    sfc_mae_parse_counter_packet packetiser_format_hw
      (mk_mbuf 1 36 3 ([0; 0; 4; 20; 0; 0; 1; 0] ++ repeat 0 12 ++
                       [2; 0; 0; 5; 0; 0; 0; 0; 0; 64; 1; 0; 0; 0; 0; 0]))
      (adapter_with_counters []) = Some (tt, sa') /\
    counters_meta_eq (counter_registry (sa_mae (adapter_with_counters [])))
                     (counter_registry (sa_mae sa')) /\
    outer_rules (sa_mae sa') = outer_rules (sa_mae (adapter_with_counters [])) /\
    encap_headers (sa_mae sa') =
      encap_headers (sa_mae (adapter_with_counters [])) /\
    action_sets (sa_mae sa') = action_sets (sa_mae (adapter_with_counters [])) /\
    counter_rxq_running (sa_mae sa') =
      counter_rxq_running (sa_mae (adapter_with_counters [])) /\
    sa_nic sa' = sa_nic (adapter_with_counters []).
Proof.
  apply (X5_counter_packet_keeps_slot_state packetiser_format_hw
           (mk_mbuf 1 36 3 ([0; 0; 4; 20; 0; 0; 1; 0] ++ repeat 0 12 ++
                            [2; 0; 0; 5; 0; 0; 0; 0; 0; 64; 1; 0; 0; 0; 0; 0]))
           (adapter_with_counters [])).
  unfold packet_indices_in_range. cbv zeta.
  replace (Z.to_nat _) with 1%nat by (vm_compute; reflexivity).
  constructor; [vm_compute; lia|constructor].
Defined.

(** A record that names slot 7 of an array of four slots: the decoder
    reads outside the array. *)
Example counter_packet_index_out_of_range :
  sfc_mae_parse_counter_packet packetiser_format_hw
    (mk_mbuf 1 36 3 ([0; 0; 4; 20; 0; 0; 1; 0] ++ repeat 0 12 ++
                     [7; 0; 0; 5; 0; 0; 0; 0; 0; 64; 1; 0; 0; 0; 0; 0]))
    (adapter_with_counters []) = None.
Proof. vm_compute. reflexivity. Qed.

Lemma query_counter_loop_no_id cs n id data sa :
  (n <= length cs)%nat ->
  Forall (fun c => rte_id c <> id) (take n cs) ->
  query_counter_loop cs n (Some id) data sa =
    Some ((rte_flow_error_set ENOENT, data), sa).
Proof.
  revert cs. induction n as [|n IH]; intros cs Hn Hall; simpl.
  - reflexivity.
  - destruct cs as [|c cs]; [simpl in Hn; lia|]. simpl in *.
    inversion Hall; subst.
    unfold bind at 1. simpl.
    rewrite bool_decide_eq_true_2 by assumption.
    apply IH; [lia|assumption].
Qed.

Lemma query_counter_loop_found cs n id data sa pre c post counters' data' :
  take n cs = pre ++ c :: post ->
  Forall (fun c => rte_id c <> id) pre ->
  rte_id c = id ->
  sfc_mae_counter_get (counter_registry (sa_mae sa)) c data =
    Some (0, counters', data') ->
  query_counter_loop cs n (Some id) data sa =
    Some ((0, data'), set_mae (set_counter_registry counters' (sa_mae sa)) sa).
Proof.
  revert cs n. induction pre as [|q pre IH]; intros cs n Htake Hall Hid Hget.
  - destruct n as [|n]; [simpl in Htake; discriminate|].
    destruct cs as [|c0 cs]; [discriminate|]. simpl in Htake.
    inversion Htake; subst c0. simpl.
    unfold bind at 1. simpl.
    rewrite bool_decide_eq_false_2 by (intros Hne; apply Hne; exact Hid).
    unfold bind, get_counters, put_counters, modify_mae. rewrite Hget. simpl.
    reflexivity.
  - destruct n as [|n]; [simpl in Htake; discriminate|].
    destruct cs as [|c0 cs]; [discriminate|]. simpl in Htake.
    inversion Htake; subst c0. inversion Hall as [|? ? Hq Hpre]. simpl.
    unfold bind at 1. simpl.
    rewrite bool_decide_eq_true_2 by assumption.
    eapply IH; eassumption.
Qed.

(** X6. A flow's counter is queried by the caller's id: with a flow whose
    action set has no counter, [sfc_mae_query_counter] fails with [EINVAL];
    with an id none of the flow's counters carries it fails with [ENOENT];
    both leave the adapter as it is.  Otherwise the answer is that of
    [sfc_mae_counter_get] on the first counter with that id, and only the
    slot array changes. *)
Theorem X6_query_counter_by_id (sa : sfc_adapter) (spec : sfc_flow_spec_mae)
    (p : ptr) (a : sfc_mae_action_set) (id : Z) (data : rte_flow_query_count) :
  fs_action_set spec = Some p ->
  entry_lookup (action_sets (sa_mae sa)) p = Some a ->
  (Z.to_nat (as_n_counters a) <= length (as_counters a))%nat ->
  let bindings := take (Z.to_nat (as_n_counters a)) (as_counters a) in
  (as_n_counters a = 0 ->
   sfc_mae_query_counter spec (Some id) data sa =
     Some ((- EINVAL, data), sa)) /\
  (as_n_counters a <> 0 -> Forall (fun c => rte_id c <> id) bindings ->
   sfc_mae_query_counter spec (Some id) data sa =
     Some ((- ENOENT, data), sa)) /\
  (forall pre c post counters' data',
     as_n_counters a <> 0 ->
     bindings = pre ++ c :: post ->
     Forall (fun c => rte_id c <> id) pre ->
     rte_id c = id ->
     sfc_mae_counter_get (counter_registry (sa_mae sa)) c data =
       Some (0, counters', data') ->
     sfc_mae_query_counter spec (Some id) data sa =
       Some ((0, data'),
             set_mae (set_counter_registry counters' (sa_mae sa)) sa)).
Proof.
  intros Hspec Ha Hlen bindings.
  assert (Hrun : forall k : sfc_mae_action_set -> M (Z * rte_flow_query_count),
             (do q <- deref (fs_action_set spec);
              do action_set <- load_action_set q; k action_set) sa = k a sa).
  { intros k. rewrite Hspec. unfold deref, bind, ret, load_action_set.
    rewrite Ha. reflexivity. }
  unfold sfc_mae_query_counter. rewrite Hrun.
  split; [|split].
  - intros Hz. destruct (decide (as_n_counters a = 0)); [|contradiction].
    reflexivity.
  - intros Hnz Hall. destruct (decide (as_n_counters a = 0)); [contradiction|].
    apply query_counter_loop_no_id; assumption.
  - intros pre c post counters' data' Hnz Hb Hall Hid Hget.
    destruct (decide (as_n_counters a = 0)); [contradiction|].
    eapply query_counter_loop_found; eassumption.
Qed.

(** The flow of [adapter_with_counters] counts under id 5: a query for id
    5 answers 60 hits, a query for id 6 finds nothing. *)
Lemma X6_query_counter_by_id_witness :
  sfc_mae_query_counter flow_with_counter (Some 6)
    (mk_query_count false false false 0 0) (adapter_with_counters []) =
    Some ((- ENOENT, mk_query_count false false false 0 0),
          adapter_with_counters []) /\
  sfc_mae_query_counter flow_with_counter (Some 5)
    (mk_query_count false false false 0 0) (adapter_with_counters []) =
    Some ((0, mk_query_count false true true 60 3840),
          set_mae (set_counter_registry
                     (counter_registry (sa_mae (adapter_with_counters [])))
                     (sa_mae (adapter_with_counters [])))
                  (adapter_with_counters [])).
Proof.
  split.
  - apply (X6_query_counter_by_id (adapter_with_counters []) flow_with_counter
             0%nat
             (mk_action_set 1 [mk_counter_id 2 5] 1
                (mk_actions [EFX_MAE_ACTION_COUNT] EFX_MAE_RSRC_ID_INVALID 2)
                None (mk_fw_rsrc 1 9))
             6 (mk_query_count false false false 0 0)).
    + reflexivity.
    + reflexivity.
    + simpl. lia.
    + discriminate.
    + repeat constructor. simpl. discriminate.
  - apply (X6_query_counter_by_id (adapter_with_counters []) flow_with_counter
             0%nat
             (mk_action_set 1 [mk_counter_id 2 5] 1
                (mk_actions [EFX_MAE_ACTION_COUNT] EFX_MAE_RSRC_ID_INVALID 2)
                None (mk_fw_rsrc 1 9))
             5 (mk_query_count false false false 0 0)
             eq_refl eq_refl ltac:(simpl; lia))
      with (pre := []) (c := mk_counter_id 2 5) (post := []).
    + discriminate.
    + reflexivity.
    + constructor.
    + reflexivity.
    + reflexivity.
Defined.

(** ** The registries: references taken and released *)

Lemma entry_lookup_In {A : Type} (l : list (ptr * A)) (p : ptr) (a : A) :
  NoDup (map fst l) -> In (p, a) l -> entry_lookup l p = Some a.
Proof.
  induction l as [|[q b] l IH]; simpl; intros Hnd Hin; [contradiction|].
  inversion Hnd as [|? ? Hq Hnd']; subst.
  destruct Hin as [Heq|Hin].
  - inversion Heq; subst. case_decide; [reflexivity|contradiction].
  - case_decide.
    + subst q. exfalso. apply Hq. apply list_elem_of_In.
      apply (in_map fst) in Hin. exact Hin.
    + apply IH; assumption.
Qed.

Lemma entry_store_store {A : Type} (l : list (ptr * A)) (p : ptr) (a b : A) :
  entry_store (entry_store l p a) p b = entry_store l p b.
Proof.
  induction l as [|[q c] l IH]; simpl; [reflexivity|].
  case_decide; simpl; case_decide; try contradiction; [reflexivity|].
  rewrite IH. reflexivity.
Qed.

Lemma entry_store_same {A : Type} (l : list (ptr * A)) (p : ptr) (a : A) :
  entry_lookup l p = Some a -> entry_store l p a = l.
Proof.
  induction l as [|[q c] l IH]; simpl; intros H; [reflexivity|].
  case_decide; [inversion H; reflexivity|]. rewrite IH by exact H. reflexivity.
Qed.

Lemma entry_store_app_fresh {A : Type} (l : list (ptr * A)) (p : ptr) (a b : A) :
  entry_lookup l p = None ->
  entry_store (l ++ [(p, a)]) p b = l ++ [(p, b)].
Proof.
  induction l as [|[q c] l IH]; simpl; intros H.
  - case_decide; [reflexivity|contradiction].
  - case_decide; [discriminate|]. rewrite IH by exact H. reflexivity.
Qed.

Lemma entry_remove_app_fresh {A : Type} (l : list (ptr * A)) (p : ptr) (a : A) :
  entry_lookup l p = None -> entry_remove (l ++ [(p, a)]) p = l.
Proof.
  induction l as [|[q c] l IH]; simpl; intros H.
  - case_decide; [reflexivity|contradiction].
  - case_decide; [discriminate|]. rewrite IH by exact H. reflexivity.
Qed.

Lemma find_Some_In {A : Type} (f : A -> bool) (l : list A) (x : A) :
  find f l = Some x -> In x l /\ f x = true.
Proof.
  induction l as [|y l IH]; simpl; [discriminate|].
  destruct (f y) eqn:E.
  - intros H. inversion H; subst. split; [left; reflexivity|exact E].
  - intros H. destruct (IH H) as [Hin Hf]. split; [right; exact Hin|exact Hf].
Qed.

Lemma u32_small (x : Z) : 0 <= x < 2 ^ 32 -> u32 x = x.
Proof. intros H. unfold u32. apply Z.mod_small. exact H. Qed.

(** X7. A reference to an outer rule that is taken and released leaves
    the registry exactly as it was, and makes no device call.  In a
    well-formed registry: if [sfc_mae_outer_rule_attach] finds an entry, it
    is an entry with that encapsulation type, its refcount goes up by one,
    and [sfc_mae_outer_rule_del] brings the registry back; if it finds
    none, nothing changes, and an entry that [sfc_mae_outer_rule_add] then
    creates (refcount 1, no hardware resource, at a fresh address) is
    removed again by [sfc_mae_outer_rule_del]. *)
Theorem X7_outer_rule_reference_round_trip (sa : sfc_adapter)
    (match_spec : efx_mae_match_spec) (encap_type : efx_tunnel_protocol)
    (o : option ptr) (sa1 : sfc_adapter) :
  registry_wf or_refcnt (sa_next_ptr sa) (outer_rules (sa_mae sa)) ->
  sfc_mae_outer_rule_attach match_spec encap_type sa = Some (o, sa1) ->
  sa_nic sa1 = sa_nic sa /\
  match o with
  | Some p =>
      exists rule sa2,
        entry_lookup (outer_rules (sa_mae sa)) p = Some rule /\
        or_encap_type rule = encap_type /\
        entry_lookup (outer_rules (sa_mae sa1)) p =
          Some (outer_rule_set_refcnt (or_refcnt rule + 1) rule) /\
        sfc_mae_outer_rule_del p sa1 = Some (tt, sa2) /\
        outer_rules (sa_mae sa2) = outer_rules (sa_mae sa) /\
        sa_nic sa2 = sa_nic sa
  | None =>
      sa1 = sa /\
      forall rc o' sa2,
        sfc_mae_outer_rule_add match_spec encap_type sa = Some ((rc, o'), sa2) ->
        sa_nic sa2 = sa_nic sa /\
        match o' with
        | Some p =>
            rc = 0 /\
            entry_lookup (outer_rules (sa_mae sa)) p = None /\
            entry_lookup (outer_rules (sa_mae sa2)) p =
              Some (mk_outer_rule 1 match_spec encap_type
                                  (mk_fw_rsrc 0 EFX_MAE_RSRC_ID_INVALID)) /\
            exists sa3,
              sfc_mae_outer_rule_del p sa2 = Some (tt, sa3) /\
              outer_rules (sa_mae sa3) = outer_rules (sa_mae sa) /\
              sa_nic sa3 = sa_nic sa
        | None => rc = ENOMEM /\ outer_rules (sa_mae sa2) = outer_rules (sa_mae sa)
        end
  end.
Proof.
  intros [Hnd Hall] H.
  unfold sfc_mae_outer_rule_attach in H.
  rewrite (bind_run _ _ sa (sa_mae sa) sa eq_refl) in H.
  destruct (find _ (outer_rules (sa_mae sa))) as [[p rule]|] eqn:Hfind.
  - apply find_Some_In in Hfind. destruct Hfind as [Hin Hf].
    apply andb_prop in Hf. destruct Hf as [_ Htype].
    apply bool_decide_eq_true_1 in Htype. simpl in Htype.
    pose proof (entry_lookup_In _ _ _ Hnd Hin) as Hl.
    assert (Hrange : 0 < or_refcnt rule < 2 ^ 32 - 1).
    { rewrite Forall_forall in Hall. apply list_elem_of_In in Hin.
      destruct (Hall _ Hin) as [_ Hr]. exact Hr. }
    minv H. minv H. inversion Hm; subst; clear Hm. simpl.
    split; [reflexivity|].
    rewrite (u32_small (or_refcnt rule + 1)) by lia.
    exists rule. eexists.
    split; [exact Hl|]. split; [reflexivity|].
    split; [eapply entry_lookup_store; exact Hl|].
    unfold sfc_mae_outer_rule_del, bind, load_outer_rule, store_outer_rule,
      modify_mae, ret. simpl.
    rewrite (entry_lookup_store _ _ _ _ Hl). simpl.
    replace (or_refcnt rule + 1 - 1) with (or_refcnt rule) by lia.
    rewrite (u32_small (or_refcnt rule)) by lia.
    destruct (decide (or_refcnt rule = 0)); [lia|].
    split; [reflexivity|]. simpl. split; [|reflexivity].
    rewrite entry_store_store.
    apply entry_store_same. destruct rule; exact Hl.
  - minv H. split; [reflexivity|]. split; [reflexivity|].
    intros rc o' sa2 Hadd. unfold sfc_mae_outer_rule_add in Hadd. minv Hadd.
    apply rte_zmalloc_run in Hm. destruct Hm as (Hmae & Hnic & Hp).
    destruct a as [p|].
    + destruct Hp as [-> Hnext]. minv Hadd. minv Hadd.
      inversion Hm; subst; clear Hm. simpl. rewrite Hmae.
      split; [exact Hnic|]. split; [reflexivity|].
      assert (Hfresh : entry_lookup (outer_rules (sa_mae sa))
                                    (sa_next_ptr sa) = None).
      { eapply entry_lookup_fresh; [|reflexivity].
        eapply Forall_impl; [exact Hall|]. simpl. intros e [He _]. exact He. }
      split; [exact Hfresh|].
      split; [apply entry_lookup_app_fresh; exact Hfresh|].
      unfold sfc_mae_outer_rule_del, bind, load_outer_rule, store_outer_rule,
        modify_mae, ret. simpl.
      rewrite (entry_lookup_app_fresh _ _ _ Hfresh). simpl.
      eexists. split; [reflexivity|]. simpl. split; [|exact Hnic].
      rewrite entry_store_app_fresh by exact Hfresh.
      apply entry_remove_app_fresh. exact Hfresh.
    + minv Hadd. split; [exact Hnic|]. split; [reflexivity|].
      rewrite Hmae. reflexivity.
Qed.

(** The outer rule of [adapter_one_flow] is found and shared. *)
Lemma X7_outer_rule_reference_round_trip_witness :
  exists sa1,
    sfc_mae_outer_rule_attach (mk_match_spec EFX_MAE_RULE_OUTER 0 [])
      EFX_TUNNEL_PROTOCOL_VXLAN (adapter_one_flow []) = Some (Some 0%nat, sa1) /\
    sa_nic sa1 = sa_nic (adapter_one_flow []) /\
    exists rule sa2,
      entry_lookup (outer_rules (sa_mae (adapter_one_flow []))) 0%nat =
        Some rule /\
      or_encap_type rule = EFX_TUNNEL_PROTOCOL_VXLAN /\
      entry_lookup (outer_rules (sa_mae sa1)) 0%nat =
        Some (outer_rule_set_refcnt (or_refcnt rule + 1) rule) /\
      sfc_mae_outer_rule_del 0%nat sa1 = Some (tt, sa2) /\
      outer_rules (sa_mae sa2) = outer_rules (sa_mae (adapter_one_flow [])) /\
      sa_nic sa2 = sa_nic (adapter_one_flow []).
Proof.
  eexists. split; [vm_compute; reflexivity|].
  apply (X7_outer_rule_reference_round_trip (adapter_one_flow [])
           (mk_match_spec EFX_MAE_RULE_OUTER 0 []) EFX_TUNNEL_PROTOCOL_VXLAN
           (Some 0%nat)).
  - split.
    + repeat constructor. intros H. inversion H.
    + repeat constructor; simpl; lia.
  - vm_compute. reflexivity.
Defined.

Lemma find_app_last {A : Type} (f : A -> bool) (l : list A) (x : A) :
  Forall (fun y => f y = false) l -> f x = true -> find f (l ++ [x]) = Some x.
Proof.
  induction 1 as [|y l Hy _ IH]; intros Hx; simpl.
  - rewrite Hx. reflexivity.
  - rewrite Hy. apply IH. exact Hx.
Qed.

(** X8. An encap. header is found again by its size and bytes, and by
    nothing else.  When no registered header matches a bounce buffer and
    [sfc_mae_encap_header_add] registers it, the entry holds a copy of the
    first [size] bytes, refcount 1 and no hardware resource; a later
    [sfc_mae_encap_header_attach] with any bounce buffer of that size and
    with those bytes (whatever lies beyond them, whatever its tunnel type)
    returns that entry, with refcount 2, and changes nothing else. *)
Theorem X8_encap_header_found_by_bytes (sa sa1 : sfc_adapter)
    (bounce bounce' : sfc_mae_bounce_eh) (p : ptr) :
  registry_wf eh_refcnt (sa_next_ptr sa) (encap_headers (sa_mae sa)) ->
  Forall (fun e => ~ encap_header_matches bounce (snd e))
         (encap_headers (sa_mae sa)) ->
  sfc_mae_encap_header_add bounce sa = Some ((0, Some p), sa1) ->
  beh_size bounce' = beh_size bounce ->
  take (Z.to_nat (beh_size bounce)) (beh_buf bounce') =
  take (Z.to_nat (beh_size bounce)) (beh_buf bounce) ->
  let e :=
    mk_encap_header 1 (take (Z.to_nat (beh_size bounce)) (beh_buf bounce))
                    (beh_size bounce) (beh_type bounce)
                    (mk_fw_rsrc 0 EFX_MAE_RSRC_ID_INVALID) in
  encap_headers (sa_mae sa1) = encap_headers (sa_mae sa) ++ [(p, e)] /\
  entry_lookup (encap_headers (sa_mae sa)) p = None /\
  exists sa2,
    sfc_mae_encap_header_attach bounce' sa1 = Some (Some p, sa2) /\
    encap_headers (sa_mae sa2) =
      encap_headers (sa_mae sa) ++ [(p, encap_header_set_refcnt 2 e)] /\
    sa_nic sa2 = sa_nic sa.
Proof.
  intros [Hnd Hall] Hno Hadd Hsize Hbytes e.
  unfold sfc_mae_encap_header_add in Hadd. minv Hadd.
  apply rte_zmalloc_run in Hm. destruct Hm as (Hmae & Hnic & Hp).
  destruct a as [q|]; [|minv Hadd].
  destruct Hp as [-> Hnext]. minv Hadd.
  apply rte_zmalloc_run in Hm. destruct Hm as (Hmae1 & Hnic1 & _).
  destruct a as [q|]; [|minv Hadd]. minv Hadd. minv Hadd.
  inversion Hm; subst; clear Hm. simpl. rewrite Hmae1, Hmae.
  assert (Hfresh : entry_lookup (encap_headers (sa_mae sa)) (sa_next_ptr sa)
                   = None).
  { eapply entry_lookup_fresh; [|reflexivity].
    eapply Forall_impl; [exact Hall|]. simpl. intros x [Hx _]. exact Hx. }
  split; [reflexivity|]. split; [exact Hfresh|].
  unfold sfc_mae_encap_header_attach, bind, get_mae. simpl.
  rewrite ?Hmae1, ?Hmae, Hsize, Hbytes.
  rewrite find_app_last.
  - unfold store_encap_header, modify_mae, ret. simpl.
    eexists. split; [reflexivity|]. simpl. rewrite ?Hmae1, ?Hmae.
    split; [|congruence].
    rewrite entry_store_app_fresh by exact Hfresh. reflexivity.
  - eapply Forall_impl; [exact Hno|]. simpl. intros x Hx.
    apply andb_false_iff.
    destruct (decide (eh_size x.2 = beh_size bounce)) as [Hs|Hs].
    + right. apply bool_decide_eq_false_2. intros Hb. apply Hx.
      split; assumption.
    + left. apply bool_decide_eq_false_2. exact Hs.
  - simpl. apply andb_true_iff. split; apply bool_decide_eq_true_2.
    + reflexivity.
    + apply take_idemp.
Qed.

(** Four header bytes; the second bounce buffer differs beyond them and in
    its tunnel type. *)
Lemma X8_encap_header_found_by_bytes_witness :
  exists sa1,
    sfc_mae_encap_header_add
      (mk_bounce_eh [1; 2; 3; 4; 9; 9] 64 4 EFX_TUNNEL_PROTOCOL_VXLAN)
      (adapter_init 0 []) = Some ((0, Some 0%nat), sa1) /\
    encap_headers (sa_mae sa1) =
      encap_headers (sa_mae (adapter_init 0 [])) ++
      [(0%nat, mk_encap_header 1 [1; 2; 3; 4] 4 EFX_TUNNEL_PROTOCOL_VXLAN
                               (mk_fw_rsrc 0 EFX_MAE_RSRC_ID_INVALID))] /\
    entry_lookup (encap_headers (sa_mae (adapter_init 0 []))) 0%nat = None /\
    exists sa2,
      sfc_mae_encap_header_attach
        (mk_bounce_eh [1; 2; 3; 4; 7; 7] 64 4 EFX_TUNNEL_PROTOCOL_GENEVE) sa1 =
        Some (Some 0%nat, sa2) /\
      encap_headers (sa_mae sa2) =
        encap_headers (sa_mae (adapter_init 0 [])) ++
        [(0%nat, mk_encap_header 2 [1; 2; 3; 4] 4 EFX_TUNNEL_PROTOCOL_VXLAN
                                 (mk_fw_rsrc 0 EFX_MAE_RSRC_ID_INVALID))] /\
      sa_nic sa2 = sa_nic (adapter_init 0 []).
Proof.
  eexists. split; [vm_compute; reflexivity|].
  apply (X8_encap_header_found_by_bytes (adapter_init 0 []) _
           (mk_bounce_eh [1; 2; 3; 4; 9; 9] 64 4 EFX_TUNNEL_PROTOCOL_VXLAN)
           (mk_bounce_eh [1; 2; 3; 4; 7; 7] 64 4 EFX_TUNNEL_PROTOCOL_GENEVE)
           0%nat).
  - split; constructor.
  - constructor.
  - vm_compute. reflexivity.
  - reflexivity.
  - reflexivity.
Defined.

Lemma entry_lookup_remove {A : Type} (l : list (ptr * A)) (p : ptr) :
  NoDup (map fst l) -> entry_lookup (entry_remove l p) p = None.
Proof.
  induction l as [|[q c] l IH]; simpl; intros Hnd; [reflexivity|].
  inversion Hnd as [|? ? Hq Hnd']; subst.
  case_decide.
  - subst q. destruct (entry_lookup l p) eqn:E; [|reflexivity].
    exfalso. apply Hq. clear -E. induction l as [|[r d] l IH]; simpl in *;
      [discriminate|].
    case_decide; [subst; left|right; apply IH; exact E].
  - simpl. case_decide; [contradiction|]. apply IH. exact Hnd'.
Qed.

Lemma entry_store_keys {A : Type} (l : list (ptr * A)) (p : ptr) (a : A) :
  map fst (entry_store l p a) = map fst l.
Proof.
  induction l as [|[q c] l IH]; simpl; [reflexivity|].
  case_decide; simpl; [reflexivity|]. rewrite IH. reflexivity.
Qed.

Lemma entry_remove_store {A : Type} (l : list (ptr * A)) (p : ptr) (a : A) :
  entry_remove (entry_store l p a) p = entry_remove l p.
Proof.
  induction l as [|[q c] l IH]; simpl; [reflexivity|].
  case_decide; simpl; case_decide; try contradiction; [reflexivity|].
  rewrite IH. reflexivity.
Qed.

(** X9. The last release of an action set releases what the entry holds.
    With software refcount 1, no counter and an encap. header reference,
    [sfc_mae_action_set_del] takes the entry out of the registry and drops
    one reference of the header, which leaves its registry too if that was
    the last one; with a higher refcount it only counts down.  No device
    call is made in either case. *)
Theorem X9_action_set_del_releases_header (sa : sfc_adapter) (p h : ptr)
    (a : sfc_mae_action_set) (e : sfc_mae_encap_header) :
  NoDup (map fst (action_sets (sa_mae sa))) ->
  entry_lookup (action_sets (sa_mae sa)) p = Some a ->
  0 < as_refcnt a < 2 ^ 32 ->
  as_n_counters a = 0 ->
  as_encap_header a = Some h ->
  entry_lookup (encap_headers (sa_mae sa)) h = Some e ->
  0 < eh_refcnt e < 2 ^ 32 ->
  exists sa',
    sfc_mae_action_set_del p sa = Some (tt, sa') /\
    sa_nic sa' = sa_nic sa /\
    outer_rules (sa_mae sa') = outer_rules (sa_mae sa) /\
    if decide (as_refcnt a = 1) then
      entry_lookup (action_sets (sa_mae sa')) p = None /\
      action_sets (sa_mae sa') = entry_remove (action_sets (sa_mae sa)) p /\
      encap_headers (sa_mae sa') =
        (if decide (eh_refcnt e = 1)
         then entry_remove (encap_headers (sa_mae sa)) h
         else entry_store (encap_headers (sa_mae sa)) h
                (encap_header_set_refcnt (eh_refcnt e - 1) e))
    else
      action_sets (sa_mae sa') =
        entry_store (action_sets (sa_mae sa)) p
          (action_set_set_refcnt (as_refcnt a - 1) a) /\
      encap_headers (sa_mae sa') = encap_headers (sa_mae sa).
Proof.
  intros Hnd Ha Hr Hn Hh He Hre.
  unfold sfc_mae_action_set_del, bind, load_action_set, store_action_set,
    modify_mae, ret.
  rewrite Ha. simpl.
  rewrite (u32_small (as_refcnt a - 1)) by lia.
  destruct (decide (as_refcnt a - 1 = 0)) as [Hz|Hnz].
  - destruct (decide (as_refcnt a = 1)); [|lia].
    rewrite Hn. simpl. rewrite Hh.
    unfold sfc_mae_encap_header_del, bind, load_encap_header,
      store_encap_header, modify_mae, ret. simpl. rewrite He. simpl.
    rewrite (u32_small (eh_refcnt e - 1)) by lia.
    destruct (decide (eh_refcnt e - 1 = 0)) as [Hez|Henz].
    + destruct (decide (eh_refcnt e = 1)); [|lia].
      eexists. split; [reflexivity|]. simpl.
      split; [reflexivity|]. split; [reflexivity|].
      rewrite entry_remove_store.
      split; [apply entry_lookup_remove; exact Hnd|].
      split; [reflexivity|]. apply entry_remove_store.
    + destruct (decide (eh_refcnt e = 1)); [lia|].
      eexists. split; [reflexivity|]. simpl.
      split; [reflexivity|]. split; [reflexivity|].
      rewrite entry_remove_store.
      split; [apply entry_lookup_remove; exact Hnd|].
      split; reflexivity.
  - destruct (decide (as_refcnt a = 1)); [lia|].
    eexists. split; [reflexivity|]. simpl.
    split; [reflexivity|]. split; [reflexivity|]. split; reflexivity.
Qed.

(** The action set and the header of [adapter_with_header] both go. *)
Lemma X9_action_set_del_releases_header_witness :
  exists sa',
    sfc_mae_action_set_del 2%nat (adapter_with_header []) = Some (tt, sa') /\
    sa_nic sa' = sa_nic (adapter_with_header []) /\
    action_sets (sa_mae sa') = [] /\
    encap_headers (sa_mae sa') = [].
Proof.
  destruct (X9_action_set_del_releases_header (adapter_with_header [])
              2%nat 0%nat
              (mk_action_set 1 [] 0
                 (mk_actions [EFX_MAE_ACTION_ENCAP] EFX_MAE_RSRC_ID_INVALID
                             EFX_MAE_RSRC_ID_INVALID)
                 (Some 0%nat) (mk_fw_rsrc 0 EFX_MAE_RSRC_ID_INVALID))
              (mk_encap_header 1 [1; 2; 3; 4] 4 EFX_TUNNEL_PROTOCOL_VXLAN
                               (mk_fw_rsrc 0 EFX_MAE_RSRC_ID_INVALID)))
    as (sa' & Hrun & Hnic & _ & Hrest).
  - repeat constructor. intros H. inversion H.
  - reflexivity.
  - simpl. lia.
  - reflexivity.
  - reflexivity.
  - reflexivity.
  - simpl. lia.
  - simpl in Hrest. destruct Hrest as (_ & Hsets & Hhdr).
    exists sa'. split; [exact Hrun|]. split; [exact Hnic|].
    split; [exact Hsets|exact Hhdr].
Defined.

(** The test [decide P] of the goal, when the context decides it. *)
Ltac decide_one :=
  match goal with
  | |- context [decide ?P] =>
      first [ destruct (decide P); [|solve [contradiction | lia]]
            | destruct (decide P); [solve [contradiction | lia]|] ]
  end.

(** X10. A counter binding keeps its hardware id after the counter has
    been released, and the last release of the action set releases it
    again.  For an action set with one counter: enable allocates a counter
    (id [id]) and the action set, disable frees both, and
    [sfc_mae_action_set_del] then calls [sfc_mae_counter_del] on the
    binding, which still carries [id]: the slot is marked not in use once
    more and the device is asked to free counter [id] a second time. *)
Theorem X10_counter_released_twice (sa : sfc_adapter) (p : ptr)
    (a : sfc_mae_action_set) (rte_id id generation aset_id : Z)
    (rest : list efx_reply) :
  NoDup (map fst (action_sets (sa_mae sa))) ->
  entry_lookup (action_sets (sa_mae sa)) p = Some a ->
  as_refcnt a = 1 ->
  as_n_counters a = 1 ->
  as_counters a = [mk_counter_id EFX_MAE_RSRC_ID_INVALID rte_id] ->
  as_encap_header a = None ->
  as_fw_rsrc a = mk_fw_rsrc 0 EFX_MAE_RSRC_ID_INVALID ->
  en_replies (sa_nic sa) =
    mk_reply 0 id generation :: reply_ok 0 :: reply_ok aset_id ::
    reply_ok 0 :: reply_ok 0 :: rest ->
  0 <= id < n_mae_counters (counter_registry (sa_mae sa)) ->
  id <> EFX_MAE_RSRC_ID_INVALID ->
  counters_sized (counter_registry (sa_mae sa)) ->
  exists sa1 sa2 sa3 a2 slot,
    sfc_mae_action_set_enable p sa = Some (0, sa1) /\
    sfc_mae_action_set_disable p sa1 = Some (0, sa2) /\
    entry_lookup (action_sets (sa_mae sa2)) p = Some a2 /\
    as_counters a2 = [mk_counter_id id rte_id] /\
    as_fw_rsrc a2 = mk_fw_rsrc 0 EFX_MAE_RSRC_ID_INVALID /\
    sfc_mae_action_set_del p sa2 = Some (tt, sa3) /\
    en_calls (sa_nic sa3) =
      en_calls (sa_nic sa) ++
      [(OP_COUNTERS_ALLOC, 1); (OP_ACTION_SET_FILL_IN_COUNTER_ID, id);
       (OP_ACTION_SET_ALLOC, 0); (OP_ACTION_SET_FREE, aset_id);
       (OP_COUNTERS_FREE, id); (OP_COUNTERS_FREE, id)] /\
    entry_lookup (action_sets (sa_mae sa3)) p = None /\
    mae_counters (counter_registry (sa_mae sa3)) !! Z.to_nat id = Some slot /\
    inuse slot = false.
Proof.
  intros Hnd Ha Hrc Hn Hcs Heh Hfw Hrep Hid Hinv Hsized.
  destruct sa as [[replies calls] mae mem nxt rxq lcore log sock burst dp].
  simpl in *. subst replies. unfold counters_sized in Hsized.
  assert (Hidx : (Z.to_nat id <
                  length (mae_counters (counter_registry mae)))%nat) by lia.
  destruct (lookup_lt_is_Some_2 _ _ Hidx) as [slot0 Hslot].
  destruct a as [refcnt counters n spec eh fw]. simpl in *. subst.
  assert (Hr6 : rest = [] \/
                (exists r6 rest', rest = r6 :: rest' /\ rc_of r6 = 0) \/
                (exists r6 rest', rest = r6 :: rest' /\ rc_of r6 <> 0)).
  { destruct rest as [|r6 rest']; [left; reflexivity|].
    destruct (decide (rc_of r6 = 0)); [right; left|right; right];
      eexists; eexists; split; (reflexivity || assumption). }
  destruct Hr6 as [->|[(r6 & rest' & -> & Hr6)|(r6 & rest' & -> & Hr6)]].
  all: eexists; eexists; eexists; eexists; eexists.
  all: split;
    [unfold sfc_mae_action_set_enable, bind, load_action_set; simpl;
     rewrite Ha; simpl;
     unfold sfc_mae_counters_enable, sfc_mae_counter_add, bind, efx,
       efx_invoke, load_counter, store_counter, get_counters, put_counters,
       modify_mae, efx_mae_action_set_fill_in_counter_id, store_action_set,
       ret; simpl;
     decide_one; decide_one; simpl; rewrite Hslot; simpl; reflexivity|].
  all: split;
    [unfold sfc_mae_action_set_disable, bind, load_action_set; simpl;
     rewrite !entry_store_store;
     rewrite (entry_lookup_store _ _ _ _ Ha); simpl;
     unfold sfc_mae_counters_disable, sfc_mae_counter_del, bind, efx,
       efx_invoke, load_counter, store_counter, get_counters, put_counters,
       modify_mae, store_action_set, ret; simpl;
     decide_one; decide_one; simpl;
     rewrite list_lookup_insert_eq by exact Hidx; simpl; reflexivity|].
  all: simpl; rewrite !entry_store_store.
  all: split; [eapply entry_lookup_store; exact Ha|].
  all: split; [reflexivity|]; split; [reflexivity|].
  all: unfold sfc_mae_action_set_del, bind, load_action_set, store_action_set,
         modify_mae, ret; simpl.
  all: rewrite (entry_lookup_store _ _ _ _ Ha); simpl.
  all: unfold sfc_mae_counter_del, bind, efx, efx_invoke,
         load_counter, store_counter, get_counters, put_counters, modify_mae,
         sfc_err, ret; simpl.
  all: decide_one; decide_one; simpl.
  all: rewrite !list_insert_insert_eq.
  all: rewrite list_lookup_insert_eq by exact Hidx; simpl.
  all: repeat (decide_one; simpl).
  all: split; [reflexivity|]; simpl.
  all: split; [rewrite <- !app_assoc; reflexivity|].
  all: rewrite !entry_store_store, entry_remove_store.
  all: split; [apply entry_lookup_remove; exact Hnd|].
  all: rewrite !list_insert_insert_eq.
  all: split; [apply list_lookup_insert_eq; exact Hidx|reflexivity].
Qed.

Lemma X10_counter_released_twice_witness :
  exists sa1 sa2 sa3 a2 slot,
    sfc_mae_action_set_enable 0%nat
      (adapter_counter_unbound
         [mk_reply 0 1 8; reply_ok 0; reply_ok 9; reply_ok 0; reply_ok 0]) =
      Some (0, sa1) /\
    sfc_mae_action_set_disable 0%nat sa1 = Some (0, sa2) /\
    entry_lookup (action_sets (sa_mae sa2)) 0%nat = Some a2 /\
    as_counters a2 = [mk_counter_id 1 5] /\
    as_fw_rsrc a2 = mk_fw_rsrc 0 EFX_MAE_RSRC_ID_INVALID /\
    sfc_mae_action_set_del 0%nat sa2 = Some (tt, sa3) /\
    en_calls (sa_nic sa3) =
      [(OP_COUNTERS_ALLOC, 1); (OP_ACTION_SET_FILL_IN_COUNTER_ID, 1);
       (OP_ACTION_SET_ALLOC, 0); (OP_ACTION_SET_FREE, 9);
       (OP_COUNTERS_FREE, 1); (OP_COUNTERS_FREE, 1)] /\
    entry_lookup (action_sets (sa_mae sa3)) 0%nat = None /\
    mae_counters (counter_registry (sa_mae sa3)) !! Z.to_nat 1 = Some slot /\
    inuse slot = false.
Proof.
  apply (X10_counter_released_twice
           (adapter_counter_unbound
              [mk_reply 0 1 8; reply_ok 0; reply_ok 9; reply_ok 0; reply_ok 0])
           0%nat
           (mk_action_set 1 [mk_counter_id EFX_MAE_RSRC_ID_INVALID 5] 1
              (mk_actions [EFX_MAE_ACTION_COUNT] EFX_MAE_RSRC_ID_INVALID 2)
              None (mk_fw_rsrc 0 EFX_MAE_RSRC_ID_INVALID))
           5 1 8 9 []).
  - repeat constructor. intros H. inversion H.
  - reflexivity.
  - reflexivity.
  - reflexivity.
  - reflexivity.
  - reflexivity.
  - reflexivity.
  - reflexivity.
  - simpl. lia.
  - vm_compute. discriminate.
  - reflexivity.
Defined.
(** X11. Flows that share an outer rule share its hardware rule.  With a
    device that accepts every call, the first enable of a released outer
    rule inserts it into hardware, the second only counts the reference,
    and both flows get the same hardware id written to the OUTER_RULE_ID
    field of their action rule specification.  The first disable makes no
    device call, the second removes the hardware rule, and the registry is
    then exactly as before the first enable. *)
Theorem X11_outer_rule_hardware_is_shared (sa : sfc_adapter) (p : ptr)
    (rule : sfc_mae_outer_rule) (spec1 spec2 : efx_mae_match_spec)
    (r1 r2 r3 r4 : efx_reply) (rest : list efx_reply) :
  entry_lookup (outer_rules (sa_mae sa)) p = Some rule ->
  or_fw_rsrc rule = mk_fw_rsrc 0 EFX_MAE_RSRC_ID_INVALID ->
  en_replies (sa_nic sa) = r1 :: r2 :: r3 :: r4 :: rest ->
  rc_of r1 = 0 -> rc_of r2 = 0 -> rc_of r3 = 0 -> rc_of r4 = 0 ->
  exists sa1 sa2 sa3 sa4,
    sfc_mae_outer_rule_enable p spec1 sa =
      Some ((0, match_spec_write spec1 EFX_MAE_FIELD_OUTER_RULE_ID
                  (u32_le_bytes (out_of r1)) [255; 255; 255; 255]), sa1) /\
    sfc_mae_outer_rule_enable p spec2 sa1 =
      Some ((0, match_spec_write spec2 EFX_MAE_FIELD_OUTER_RULE_ID
                  (u32_le_bytes (out_of r1)) [255; 255; 255; 255]), sa2) /\
    sfc_mae_outer_rule_disable p sa2 = Some (0, sa3) /\
    sfc_mae_outer_rule_disable p sa3 = Some (0, sa4) /\
    en_calls (sa_nic sa3) =
      en_calls (sa_nic sa) ++
      [(OP_OUTER_RULE_INSERT, efx_tunnel_protocol_num (or_encap_type rule));
       (OP_MATCH_SPEC_OUTER_RULE_ID_SET, out_of r1);
       (OP_MATCH_SPEC_OUTER_RULE_ID_SET, out_of r1)] /\
    en_calls (sa_nic sa4) =
      en_calls (sa_nic sa3) ++ [(OP_OUTER_RULE_REMOVE, out_of r1)] /\
    outer_rules (sa_mae sa4) = outer_rules (sa_mae sa).
Proof.
  intros Hl Hfw Hrep H1 H2 H3 H4.
  destruct sa as [[replies calls] mae mem nxt rxq lcore log sock burst dp].
  destruct rule as [refcnt mspec etype fw].
  destruct r1 as [rc1 o1 g1], r2 as [rc2 o2 g2], r3 as [rc3 o3 g3],
           r4 as [rc4 o4 g4].
  simpl in *. subst.
  assert (Hu1 : u32 (0 + 1) = 1) by reflexivity.
  assert (Hu2 : u32 (1 + 1) = 2) by reflexivity.
  assert (Hu3 : u32 (2 - 1) = 1) by reflexivity.
  assert (Hu4 : u32 (1 - 1) = 0) by reflexivity.
  eexists; eexists; eexists; eexists.
  split.
  { unfold sfc_mae_outer_rule_enable, bind, load_outer_rule; simpl.
    rewrite Hl; simpl.
    unfold efx_mae_match_spec_outer_rule_id_set, store_outer_rule, bind, efx,
      efx_invoke, modify_mae, ret; simpl.
    rewrite Hu1, !entry_store_store. reflexivity. }
  split.
  { unfold sfc_mae_outer_rule_enable, bind, load_outer_rule; simpl.
    rewrite (entry_lookup_store _ _ _ _ Hl); simpl.
    unfold efx_mae_match_spec_outer_rule_id_set, store_outer_rule, bind, efx,
      efx_invoke, modify_mae, ret; simpl.
    rewrite Hu2, !entry_store_store. reflexivity. }
  split.
  { unfold sfc_mae_outer_rule_disable, bind, load_outer_rule; simpl.
    rewrite (entry_lookup_store _ _ _ _ Hl); simpl.
    unfold store_outer_rule, bind, modify_mae, ret; simpl.
    rewrite Hu3, !entry_store_store. reflexivity. }
  split.
  { unfold sfc_mae_outer_rule_disable, bind, load_outer_rule; simpl.
    rewrite (entry_lookup_store _ _ _ _ Hl); simpl.
    unfold store_outer_rule, bind, efx, efx_invoke, modify_mae, ret; simpl.
    rewrite Hu4, !entry_store_store. reflexivity. }
  simpl. split; [rewrite <- !app_assoc; reflexivity|].
  split; [reflexivity|].
  apply entry_store_same. exact Hl.
Qed.

Lemma X11_outer_rule_hardware_is_shared_witness :
  exists s1 s2 sa1 sa2 sa3 sa4,
    sfc_mae_outer_rule_enable 0%nat (mk_match_spec EFX_MAE_RULE_ACTION 0 [])
      (adapter_not_enabled [reply_ok 5; reply_ok 0; reply_ok 0; reply_ok 0]) =
      Some ((0, s1), sa1) /\
    sfc_mae_outer_rule_enable 0%nat (mk_match_spec EFX_MAE_RULE_ACTION 1 [])
      sa1 = Some ((0, s2), sa2) /\
    sfc_mae_outer_rule_disable 0%nat sa2 = Some (0, sa3) /\
    sfc_mae_outer_rule_disable 0%nat sa3 = Some (0, sa4) /\
    en_calls (sa_nic sa3) =
      [(OP_OUTER_RULE_INSERT, efx_tunnel_protocol_num EFX_TUNNEL_PROTOCOL_VXLAN);
       (OP_MATCH_SPEC_OUTER_RULE_ID_SET, 5);
       (OP_MATCH_SPEC_OUTER_RULE_ID_SET, 5)] /\
    en_calls (sa_nic sa4) =
      en_calls (sa_nic sa3) ++ [(OP_OUTER_RULE_REMOVE, 5)] /\
    outer_rules (sa_mae sa4) = outer_rules (sa_mae (adapter_not_enabled [])).
Proof.
  destruct (X11_outer_rule_hardware_is_shared
              (adapter_not_enabled
                 [reply_ok 5; reply_ok 0; reply_ok 0; reply_ok 0])
              0%nat
              (mk_outer_rule 2 (mk_match_spec EFX_MAE_RULE_OUTER 0 [])
                             EFX_TUNNEL_PROTOCOL_VXLAN
                             (mk_fw_rsrc 0 EFX_MAE_RSRC_ID_INVALID))
              (mk_match_spec EFX_MAE_RULE_ACTION 0 [])
              (mk_match_spec EFX_MAE_RULE_ACTION 1 [])
              (reply_ok 5) (reply_ok 0) (reply_ok 0) (reply_ok 0) [])
    as (sa1 & sa2 & sa3 & sa4 & E1 & E2 & E3 & E4 & C3 & C4 & Hreg);
    try reflexivity.
  eexists; eexists. exists sa1, sa2, sa3, sa4.
  split; [exact E1|]. split; [exact E2|]. split; [exact E3|].
  split; [exact E4|]. split; [exact C3|]. split; [exact C4|exact Hreg].
Defined.
(** ** The VXLAN encap. header template *)

Ltac elem_cases H :=
  repeat (apply elem_of_cons in H; destruct H as [H|H]);
  try (apply elem_of_nil in H; contradiction).

Ltac phase_reached ph' :=
  exists ph'; split;
  [ unfold encap_progress, phase_wf, phase_size, encap_layout_size,
      sizeof_rte_ether_hdr, sizeof_rte_vlan_hdr, sizeof_rte_ipv4_hdr,
      sizeof_rte_ipv6_hdr, sizeof_rte_udp_hdr, sizeof_rte_vxlan_hdr in *;
    simpl in *; repeat split; try tauto; try lia; try eauto;
    try (repeat case_decide; try discriminate; lia)
  | simpl; rewrite <- ?app_assoc; reflexivity ].

Lemma vxlan_encap_item_progress buf_size item ph st st' :
  encap_progress ph st ->
  vxlan_encap_item buf_size item st = VE_NEXT st' ->
  (item_type item = RTE_FLOW_ITEM_TYPE_VOID /\ st' = st) \/
  (item_type item <> RTE_FLOW_ITEM_TYPE_VOID /\
   exists ph', encap_progress ph' st' /\
               phase_types ph' = phase_types ph ++ [item_type item]).
Proof.
  intros (Hwf & Hexp & Hsize & Hx) H.
  unfold vxlan_encap_item in H.
  destruct (item_spec item) as [spec|]; [|discriminate].
  destruct (item_mask item) as [mask|]; [|discriminate].
  destruct (item_last item); [discriminate|].
  destruct (decide (item_type item = RTE_FLOW_ITEM_TYPE_VOID)) as [Hv|Hv].
  { left. split; [exact Hv|congruence]. }
  right. split; [exact Hv|].
  rewrite Hexp in H.
  destruct (bool_decide (item_type item ∈ phase_exp_items ph)) eqn:Hin;
    [|discriminate].
  apply bool_decide_eq_true_1 in Hin. simpl in H.
  unfold vxlan_encap_switch in H.
  destruct ph as [|n|n l3|n l3|n l3]; [|destruct n as [|[|n]]|..];
    simpl in Hin; elem_cases Hin; rewrite Hin in *; simpl in H.
  all: try match type of Hx with
           | is_Some _ => destruct Hx as [udp Hudp]; rewrite Hudp in H
           | ves_nb_vlan_tags _ = _ => rewrite Hx in H
           end.
  all: repeat (case_decide; try discriminate; try contradiction; try lia);
    simpl in H; inversion H; subst st'; clear H.
  - phase_reached (EP_L2 0).
  - phase_reached (EP_L2 1).
  - phase_reached (EP_L3 0 RTE_FLOW_ITEM_TYPE_IPV4).
  - phase_reached (EP_L3 0 RTE_FLOW_ITEM_TYPE_IPV6).
  - phase_reached (EP_L3 1 RTE_FLOW_ITEM_TYPE_IPV4).
  - phase_reached (EP_L3 1 RTE_FLOW_ITEM_TYPE_IPV6).
  - phase_reached (EP_L2 2).
  - phase_reached (EP_L3 (S (S n)) RTE_FLOW_ITEM_TYPE_IPV4).
  - phase_reached (EP_L3 (S (S n)) RTE_FLOW_ITEM_TYPE_IPV6).
  - phase_reached (EP_UDP n l3).
  - phase_reached (EP_VXLAN n l3).
Qed.

Lemma vxlan_encap_item_checked buf_size item st st' :
  vxlan_encap_item buf_size item st = VE_NEXT st' ->
  is_Some (item_spec item) /\ is_Some (item_mask item) /\ item_last item = None.
Proof.
  unfold vxlan_encap_item. intros H.
  destruct (item_spec item); [|discriminate].
  destruct (item_mask item); [|discriminate].
  destruct (item_last item); [discriminate|].
  repeat split; eexists; reflexivity.
Qed.

Lemma vxlan_encap_items_progress buf_size pattern :
  forall ph st st',
    encap_progress ph st ->
    vxlan_encap_items buf_size pattern st = VE_NEXT st' ->
    Forall (fun item => is_Some (item_spec item) /\ is_Some (item_mask item) /\
                        item_last item = None) pattern /\
    exists ph', encap_progress ph' st' /\
                phase_types ph' = phase_types ph ++ non_void_types pattern.
Proof.
  induction pattern as [|item rest IH]; simpl; intros ph st st' Hp H.
  - inversion H; subst. split; [constructor|].
    exists ph. split; [exact Hp|]. unfold non_void_types. simpl.
    rewrite app_nil_r. reflexivity.
  - destruct (vxlan_encap_item buf_size item st) as [st1| |] eqn:E;
      try discriminate.
    pose proof (vxlan_encap_item_checked _ _ _ _ E) as Hc.
    destruct (vxlan_encap_item_progress _ _ _ _ _ Hp E)
      as [[Hv ->]|[Hv (ph1 & Hp1 & Ht1)]].
    + destruct (IH _ _ _ Hp H) as (Hall & ph' & Hp' & Ht').
      split; [constructor; assumption|].
      exists ph'. split; [exact Hp'|]. rewrite Ht'.
      unfold non_void_types. simpl. rewrite filter_cons_False; [reflexivity|].
      intros Hne. apply Hne. exact Hv.
    + destruct (IH _ _ _ Hp1 H) as (Hall & ph' & Hp' & Ht').
      split; [constructor; assumption|].
      exists ph'. split; [exact Hp'|]. rewrite Ht', Ht1.
      unfold non_void_types. simpl. rewrite filter_cons_True by exact Hv.
      rewrite <- app_assoc. reflexivity.
Qed.

Lemma vxlan_encap_item_reject buf_size item st rc st' :
  vxlan_encap_item buf_size item st = VE_REJECT rc st' -> rc <> 0.
Proof.
  unfold vxlan_encap_item. intros H.
  repeat case_match; simplify_eq; discriminate.
Qed.

Lemma vxlan_encap_items_reject buf_size pattern :
  forall st rc st',
    vxlan_encap_items buf_size pattern st = VE_REJECT rc st' -> rc <> 0.
Proof.
  induction pattern as [|item rest IH]; simpl; intros st rc st' H;
    [discriminate|].
  destruct (vxlan_encap_item buf_size item st) as [st1|rc1 st1|] eqn:E;
    try discriminate.
  - eapply IH. exact H.
  - inversion H; subst. eapply vxlan_encap_item_reject. exact E.
Qed.

(** X12. The encap. header templates the VXLAN_ENCAP action accepts.
    Whenever [sfc_mae_rule_parse_action_vxlan_encap] succeeds, the
    definition is there, every item of it (VOID items too) has a spec and
    a mask and no range, and the items other than VOID are exactly
    Ethernet, at most two VLAN tags, IPv4 or IPv6, UDP and VXLAN, in this
    order.  The bounce buffer is then marked VXLAN, its size is the sum of
    these protocol headers, and ENCAP has been appended to the action set
    specification. *)
Theorem X12_vxlan_encap_accepts_one_layout
    (definition : option (list rte_flow_item)) (spec spec' : efx_mae_actions)
    (sa sa' : sfc_adapter) :
  sfc_mae_rule_parse_action_vxlan_encap definition spec sa =
    Some ((0, spec'), sa') ->
  exists pattern nb_vlan_tags l3,
    definition = Some pattern /\
    (nb_vlan_tags <= 2)%nat /\
    (l3 = RTE_FLOW_ITEM_TYPE_IPV4 \/ l3 = RTE_FLOW_ITEM_TYPE_IPV6) /\
    non_void_types pattern = encap_layout nb_vlan_tags l3 /\
    Forall (fun item => is_Some (item_spec item) /\ is_Some (item_mask item) /\
                        item_last item = None) pattern /\
    beh_size (bounce_eh (sa_mae sa')) =
      Z.of_nat (encap_layout_size nb_vlan_tags l3) /\
    beh_type (bounce_eh (sa_mae sa')) = EFX_TUNNEL_PROTOCOL_VXLAN /\
    ema_actions spec' = ema_actions spec ++ [EFX_MAE_ACTION_ENCAP].
Proof.
  unfold sfc_mae_rule_parse_action_vxlan_encap. intros H.
  destruct definition as [pattern|]; [|inversion H].
  rewrite (bind_run _ _ sa (sa_mae sa) sa eq_refl) in H.
  set (st0 := mk_encap_state _ _ _ _ _ _ _ _ _ _ _) in H.
  assert (Hp0 : encap_progress EP_START st0).
  { repeat split. }
  destruct (vxlan_encap_items _ pattern st0) as [st|rc st|] eqn:E.
  - destruct (vxlan_encap_items_progress _ _ _ _ _ Hp0 E)
      as (Hall & ph & Hp & Ht).
    destruct (decide (ves_exp_items st <> [])) as [Hne|He].
    { minv H. inversion H. }
    destruct (sfc_mae_header_force_item_masks _ _) as [buf|];
      [|discriminate H].
    minv H. unfold modify_mae in Hm. inversion Hm; subst; clear Hm.
    unfold efx_mae_action_set_populate in H. minv H.
    apply efx_inv in Hm. destruct Hm as (Hmae & _).
    destruct (decide (rc_of a = 0)); [|minv H; contradiction].
    minv H. rewrite Hmae. simpl.
    destruct Hp as (Hwf & Hexp & Hsize & _).
    destruct ph as [|n|n l3|n l3|n l3];
      try (exfalso; apply He; rewrite Hexp; try destruct n as [|[|n]];
           discriminate).
    destruct Hwf as [Hn Hl3].
    exists pattern, n, l3.
    split; [reflexivity|]. split; [exact Hn|]. split; [exact Hl3|].
    split; [symmetry; exact Ht|]. split; [exact Hall|].
    split; [rewrite Hsize; reflexivity|]. split; reflexivity.
  - minv H. apply vxlan_encap_items_reject in E.
    inversion H as [[Hrc Hs]]. unfold rte_flow_error_set in Hrc. lia.
  - discriminate H.
Qed.

(** A template with one VLAN tag: 14 + 4 + 20 + 8 + 8 bytes. *)
Lemma X12_vxlan_encap_accepts_one_layout_witness :
  exists spec' sa',
    sfc_mae_rule_parse_action_vxlan_encap (Some encap_template_vlan_ipv4)
      (mk_actions [] EFX_MAE_RSRC_ID_INVALID EFX_MAE_RSRC_ID_INVALID)
      (adapter_init 0 []) = Some ((0, spec'), sa') /\
    exists pattern nb_vlan_tags l3,
      Some encap_template_vlan_ipv4 = Some pattern /\
      (nb_vlan_tags <= 2)%nat /\
      (l3 = RTE_FLOW_ITEM_TYPE_IPV4 \/ l3 = RTE_FLOW_ITEM_TYPE_IPV6) /\
      non_void_types pattern = encap_layout nb_vlan_tags l3 /\
      Forall (fun item => is_Some (item_spec item) /\
                          is_Some (item_mask item) /\
                          item_last item = None) pattern /\
      beh_size (bounce_eh (sa_mae sa')) =
        Z.of_nat (encap_layout_size nb_vlan_tags l3) /\
      beh_type (bounce_eh (sa_mae sa')) = EFX_TUNNEL_PROTOCOL_VXLAN /\
      ema_actions spec' = [] ++ [EFX_MAE_ACTION_ENCAP].
Proof.
  eexists. eexists. split; [vm_compute; reflexivity|].
  apply (X12_vxlan_encap_accepts_one_layout (Some encap_template_vlan_ipv4)
           (mk_actions [] EFX_MAE_RSRC_ID_INVALID EFX_MAE_RSRC_ID_INVALID)
           _ (adapter_init 0 []) _).
  vm_compute. reflexivity.
Defined.
(** ** The TPIDs of a VLAN-tagged pattern *)

Lemma check_tpids_one d nbs sa k sa' :
  nb_vlan_tags d = 1%nat ->
  (nbs = 1 \/ nbs = length supported_tpids)%nat ->
  check_tpids 1 0 d nbs sa = Some (Some k, sa') ->
  exists et,
    ethertypes d !! 0%nat = Some et /\ et_mask et = 65535 /\
    et_value et ∈ supported_tpids /\
    (nbs = 1%nat -> et_value et = RTE_ETHER_TYPE_VLAN).
Proof.
  intros Hnb Hnbs H. simpl in H. rewrite Hnb in H.
  unfold bind, deref in H.
  destruct (ethertypes d !! 0%nat) as [et|]; [|discriminate H].
  simpl in H. exists et. split; [reflexivity|].
  destruct (decide (et_mask et <> 65535)) as [|Hm]; [discriminate H|].
  assert (Hmask : et_mask et = 65535) by lia.
  split; [exact Hmask|].
  destruct Hnbs as [-> | ->]; simpl in H; unfold supported_tpids in *;
    simpl in H.
  all: repeat (case_decide; simplify_eq; try lia; try discriminate).
  all: split; [|intros Hone; try assumption; simpl in Hone; lia].
  all: match goal with Heq : et_value _ = _ |- _ => rewrite Heq end.
  all: apply list_elem_of_In; simpl; auto 10.
Qed.

Lemma check_tpids_two d sa k sa' :
  nb_vlan_tags d = 2%nat ->
  check_tpids 2 0 d (length supported_tpids) sa = Some (Some k, sa') ->
  exists et0 et1,
    ethertypes d !! 0%nat = Some et0 /\ ethertypes d !! 1%nat = Some et1 /\
    et_mask et0 = 65535 /\ et_mask et1 = 65535 /\
    et_value et0 ∈ [RTE_ETHER_TYPE_QINQ; RTE_ETHER_TYPE_QINQ1;
                    RTE_ETHER_TYPE_QINQ2; RTE_ETHER_TYPE_QINQ3] /\
    et_value et1 = RTE_ETHER_TYPE_VLAN.
Proof.
  intros Hnb H. simpl in H. rewrite Hnb in H.
  unfold bind, deref in H.
  destruct (ethertypes d !! 0%nat) as [et0|]; [|discriminate H].
  simpl in H.
  destruct (decide (et_mask et0 <> 65535)) as [|Hm0]; [discriminate H|].
  unfold supported_tpids in H. simpl in H.
  destruct (ethertypes d !! 1%nat) as [et1|];
    [|repeat (case_decide; simplify_eq; try lia; try discriminate)].
  simpl in H.
  destruct (decide (et_mask et1 <> 65535)) as [|Hm1];
    [repeat (case_decide; simplify_eq; try lia; try discriminate)|].
  exists et0, et1. split; [reflexivity|]. split; [reflexivity|].
  split; [lia|]. split; [lia|].
  repeat (case_decide; simplify_eq; try lia; try discriminate).
  all: split; [|assumption].
  all: match goal with Heq : et_value ?e = _ |- et_value ?e ∈ _ => rewrite Heq end.
  all: apply list_elem_of_In; simpl; auto 10.
Qed.

(** X13. The TPIDs of a VLAN-tagged pattern.  Whenever
    [sfc_mae_rule_process_pattern_data] succeeds: with one VLAN tag, the
    EtherType given for the tag is matched exactly and is one of the five
    supported TPIDs, and it is 0x8100 if an L3 item restricts the innermost
    EtherType; with two tags both are matched exactly, the outer one is a
    double-tagging TPID (0x88a8, 0x9100, 0x9200 or 0x9300) and the inner
    one is 0x8100. *)
Theorem X13_vlan_tpids_are_checked (ctx ctx' : sfc_mae_parse_ctx)
    (sa sa' : sfc_adapter) :
  sfc_mae_rule_process_pattern_data ctx sa = Some ((0, ctx'), sa') ->
  let pdata := pattern_data ctx in
  (nb_vlan_tags pdata = 1%nat ->
   exists et,
     ethertypes pdata !! 0%nat = Some et /\ et_mask et = 65535 /\
     et_value et ∈ supported_tpids /\
     (et_mask (innermost_ethertype_restriction pdata) <> 0 ->
      et_value et = RTE_ETHER_TYPE_VLAN)) /\
  (nb_vlan_tags pdata = 2%nat ->
   exists et0 et1,
     ethertypes pdata !! 0%nat = Some et0 /\
     ethertypes pdata !! 1%nat = Some et1 /\
     et_mask et0 = 65535 /\ et_mask et1 = 65535 /\
     et_value et0 ∈ [RTE_ETHER_TYPE_QINQ; RTE_ETHER_TYPE_QINQ1;
                     RTE_ETHER_TYPE_QINQ2; RTE_ETHER_TYPE_QINQ3] /\
     et_value et1 = RTE_ETHER_TYPE_VLAN).
Proof.
  intros H pdata. unfold sfc_mae_rule_process_pattern_data in H.
  fold pdata in H. minv H.
  destruct a as [k|].
  2:{ minv H; discriminate. }
  clear H. split; intros Hnb; rewrite Hnb in Hm.
  - destruct (decide (et_mask (innermost_ethertype_restriction pdata) <> 0))
      as [Hr|Hr].
    + destruct (decide (1 < SFC_MAE_MATCH_VLAN_MAX_NTAGS)%nat) as [_|Hlt];
        [|exfalso; apply Hlt; unfold SFC_MAE_MATCH_VLAN_MAX_NTAGS; lia].
      destruct (check_tpids_one _ _ _ _ _ Hnb (or_introl eq_refl) Hm)
        as (et & He & Hmask & Hin & Hone).
      exists et. split; [exact He|]. split; [exact Hmask|].
      split; [exact Hin|]. intros _. apply Hone. reflexivity.
    + destruct (check_tpids_one _ _ _ _ _ Hnb (or_intror eq_refl) Hm)
        as (et & He & Hmask & Hin & Hone).
      exists et. split; [exact He|]. split; [exact Hmask|].
      split; [exact Hin|]. intros Hc. contradiction.
  - assert (Hnbs : (if decide (et_mask (innermost_ethertype_restriction pdata)
                               <> 0)
                    then if decide (2 < SFC_MAE_MATCH_VLAN_MAX_NTAGS)%nat
                         then 1%nat else length supported_tpids
                    else length supported_tpids) = length supported_tpids).
    { destruct (decide (et_mask (innermost_ethertype_restriction pdata) <> 0));
        [|reflexivity].
      destruct (decide (2 < SFC_MAE_MATCH_VLAN_MAX_NTAGS)%nat) as [Hlt|];
        [|reflexivity].
      unfold SFC_MAE_MATCH_VLAN_MAX_NTAGS in Hlt. lia. }
    rewrite Hnbs in Hm.
    exact (check_tpids_two _ _ _ _ Hnb Hm).
Qed.

Lemma X13_vlan_tpids_are_checked_witness :
  exists ctx' sa',
    sfc_mae_rule_process_pattern_data ctx_double_tagged (adapter_init 0 []) =
      Some ((0, ctx'), sa') /\
    exists et0 et1,
      ethertypes (pattern_data ctx_double_tagged) !! 0%nat = Some et0 /\
      ethertypes (pattern_data ctx_double_tagged) !! 1%nat = Some et1 /\
      et_mask et0 = 65535 /\ et_mask et1 = 65535 /\
      et_value et0 ∈ [RTE_ETHER_TYPE_QINQ; RTE_ETHER_TYPE_QINQ1;
                      RTE_ETHER_TYPE_QINQ2; RTE_ETHER_TYPE_QINQ3] /\
      et_value et1 = RTE_ETHER_TYPE_VLAN.
Proof.
  eexists. eexists. split; [vm_compute; reflexivity|].
  eapply (X13_vlan_tpids_are_checked ctx_double_tagged _ (adapter_init 0 [])).
  - vm_compute. reflexivity.
  - reflexivity.
Defined.
(** ** Traffic source items *)

(** An error exit returns a nonzero code. *)
Ltac error_exit H :=
  minv H;
  first [ contradiction | discriminate
        | unfold rte_flow_error_set in *; lia
        | match goal with
          | E : rte_flow_error_set _ = 0 |- _ => vm_compute in E; discriminate E
          | E : 0 = rte_flow_error_set _ |- _ => vm_compute in E; discriminate E
          end ].

Lemma parse_item_mport_sets_flag op arg ctx sa ctx' sa' :
  parse_item_mport op arg ctx sa = Some ((0, ctx'), sa') ->
  match_mport_set ctx' = true.
Proof.
  unfold parse_item_mport. intros H. minv H.
  destruct (decide (rc_of a = 0)); [|error_exit H].
  minv H. destruct a0 as [rc c].
  destruct (decide (rc = 0)); [|error_exit H].
  minv H. reflexivity.
Qed.

Lemma flow_parse_init_keeps_spec item supp def size spec mask s :
  sfc_flow_parse_init item supp def size = (0, spec, mask) ->
  item_spec item = Some s -> spec = Some s.
Proof.
  unfold sfc_flow_parse_init. intros H Hs. rewrite Hs in H.
  repeat case_match; simplify_eq; try reflexivity; discriminate.
Qed.

(** X14. A pattern names at most one traffic source.  Each of the four
    traffic source items (PORT_ID, PHY_PORT, PF, VF) is refused with
    [ENOTSUP], before anything is looked at or changed, once a traffic
    source has been set; and each of them, when it is accepted and names a
    source (PF always does, the others through their spec), leaves the
    context in that state.  So no second traffic source item is accepted
    after such an item. *)
Theorem X14_one_traffic_source_per_pattern (k k2 : traffic_source_item)
    (item item2 : rte_flow_item) (ctx ctx' : sfc_mae_parse_ctx)
    (sa sa' : sfc_adapter) :
  traffic_source_parse k item ctx sa = Some ((0, ctx'), sa') ->
  k = TS_PF \/ is_Some (item_spec item) ->
  match_mport_set ctx = false /\
  match_mport_set ctx' = true /\
  traffic_source_parse k2 item2 ctx' sa' =
    Some ((rte_flow_error_set ENOTSUP, ctx'), sa').
Proof.
  intros H Hspec.
  assert (Hset : match_mport_set ctx = false /\ match_mport_set ctx' = true).
  { destruct (match_mport_set ctx) eqn:Hf.
    { exfalso. destruct k; simpl in H;
        unfold sfc_mae_rule_parse_item_port_id,
          sfc_mae_rule_parse_item_phy_port, sfc_mae_rule_parse_item_pf,
          sfc_mae_rule_parse_item_vf in H;
        rewrite Hf in H; error_exit H. }
    split; [reflexivity|].
    destruct k; simpl in H;
      unfold sfc_mae_rule_parse_item_port_id,
        sfc_mae_rule_parse_item_phy_port, sfc_mae_rule_parse_item_pf,
        sfc_mae_rule_parse_item_vf in H;
      rewrite Hf in H;
      try (eapply parse_item_mport_sets_flag; exact H).
    all: destruct Hspec as [Hk|[s Hs]]; [discriminate Hk|].
    all: match type of H with
         | context [sfc_flow_parse_init ?i ?a ?b ?c] =>
             destruct (sfc_flow_parse_init i a b c) as [[rc spec] mask] eqn:E
         end.
    all: destruct (decide (rc = 0)) as [->|]; [|error_exit H].
    all: rewrite (flow_parse_init_keeps_spec _ _ _ _ _ _ _ E Hs) in H.
    all: repeat (case_decide; [error_exit H|]).
    all: eapply parse_item_mport_sets_flag; exact H. }
  destruct Hset as [Hf Ht]. split; [exact Hf|]. split; [exact Ht|].
  destruct k2; simpl;
    unfold sfc_mae_rule_parse_item_port_id, sfc_mae_rule_parse_item_phy_port,
      sfc_mae_rule_parse_item_pf, sfc_mae_rule_parse_item_vf;
    rewrite Ht; reflexivity.
Qed.

(** A PF item, then a PORT_ID item. *)
Lemma X14_one_traffic_source_per_pattern_witness :
  exists ctx' sa',
    traffic_source_parse TS_PF (item_any RTE_FLOW_ITEM_TYPE_PF)
      (ctx_after_ipv4 0 0) (adapter_init 0 [reply_ok 7]) =
      Some ((0, ctx'), sa') /\
    match_mport_set (ctx_after_ipv4 0 0) = false /\
    match_mport_set ctx' = true /\
    traffic_source_parse TS_PORT_ID (item_any RTE_FLOW_ITEM_TYPE_PORT_ID)
      ctx' sa' = Some ((rte_flow_error_set ENOTSUP, ctx'), sa').
Proof.
  eexists. eexists. split; [vm_compute; reflexivity|].
  eapply (X14_one_traffic_source_per_pattern TS_PF TS_PORT_ID
            (item_any RTE_FLOW_ITEM_TYPE_PF)
            (item_any RTE_FLOW_ITEM_TYPE_PORT_ID)
            (ctx_after_ipv4 0 0) _ (adapter_init 0 [reply_ok 7])).
  - vm_compute. reflexivity.
  - left. reflexivity.
Defined.
(** ** The action compiler: bundles *)

(** X15. The three OpenFlow VLAN actions make one VLAN_PUSH, in whatever
    order they come.  Starting from the empty bundle, the action loop over
    OF_PUSH_VLAN, OF_SET_VLAN_VID and OF_SET_VLAN_PCP (once each, in any
    order) makes no device call and leaves the action set specification as
    it is; the next action of another kind, or the end of the list,
    submits the bundle as a single VLAN_PUSH with the TPID of
    OF_PUSH_VLAN and the TCI made of the 12 VID bits and the 3 PCP bits,
    and starts from the empty bundle again. *)
Theorem X15_vlan_actions_make_one_push (actions : list rte_flow_action)
    (tpid vid pcp : Z) (next : option rte_flow_action_type)
    (outer_rule : option ptr) (spec : efx_mae_actions) (sa : sfc_adapter)
    (r : efx_reply) (rest : list efx_reply) :
  Permutation actions
    [RTE_FLOW_ACTION_TYPE_OF_PUSH_VLAN tpid;
     RTE_FLOW_ACTION_TYPE_OF_SET_VLAN_VID vid;
     RTE_FLOW_ACTION_TYPE_OF_SET_VLAN_PCP pcp] ->
  (forall t, next = Some t ->
             t ∉ [AT_OF_PUSH_VLAN; AT_OF_SET_VLAN_VID; AT_OF_SET_VLAN_PCP]) ->
  en_replies (sa_nic sa) = r :: rest ->
  rc_of r = 0 ->
  exists bundle sa',
    parse_actions_loop actions outer_rule bundle_zero spec sa =
      Some ((0, bundle, spec), sa) /\
    sfc_mae_actions_bundle_sync next bundle spec sa =
      Some ((0, bundle_zero,
             mk_actions
               (ema_actions spec ++
                [EFX_MAE_ACTION_VLAN_PUSH tpid
                   (Z.lor (Z.land vid 4095)
                          (u16 (Z.shiftl (Z.land pcp 7) 13)))])
               (ema_eh_id spec) (ema_counter_id spec)), sa') /\
    en_calls (sa_nic sa') =
      en_calls (sa_nic sa) ++ [(OP_ACTION_SET_POPULATE, 0)].
Proof.
  intros Hperm Hnext Hrep Hrc.
  destruct sa as [[replies calls] mae mem nxt rxq lcore log sock burst dp].
  destruct r as [rc o g]. simpl in *. subst.
  symmetry in Hperm. apply permutations_Permutation in Hperm.
  simpl in Hperm.
  assert (Hn : match next with
               | Some AT_OF_PUSH_VLAN | Some AT_OF_SET_VLAN_VID
               | Some AT_OF_SET_VLAN_PCP => False
               | _ => True
               end).
  { destruct next as [t|]; [|exact I].
    specialize (Hnext t eq_refl).
    destruct t; try exact I; apply Hnext, list_elem_of_In; simpl; auto. }
  clear Hnext.
  elem_cases Hperm; subst actions.
  all: eexists; eexists.
  all: split; [reflexivity|].
  all: unfold sfc_mae_actions_bundle_sync, sfc_mae_actions_bundle_submit,
         efx_mae_action_set_populate, bind, efx, efx_invoke, ret; simpl.
  all: rewrite ?Z.lor_0_l.
  all: rewrite ?(Z.lor_comm (u16 (Z.shiftl (Z.land pcp 7) 13))
                            (Z.land vid 4095)).
  all: destruct next as [[]|]; try contradiction; simpl.
  all: split; reflexivity.
Qed.

(** VID 5 and PCP 3 given before the OF_PUSH_VLAN of TPID 0x8100. *)
Lemma X15_vlan_actions_make_one_push_witness :
  exists bundle sa',
    parse_actions_loop
      [RTE_FLOW_ACTION_TYPE_OF_SET_VLAN_VID 5;
       RTE_FLOW_ACTION_TYPE_OF_SET_VLAN_PCP 3;
       RTE_FLOW_ACTION_TYPE_OF_PUSH_VLAN RTE_ETHER_TYPE_VLAN]
      None bundle_zero
      (mk_actions [] EFX_MAE_RSRC_ID_INVALID EFX_MAE_RSRC_ID_INVALID)
      (adapter_init 0 [reply_ok 0]) =
      Some ((0, bundle,
             mk_actions [] EFX_MAE_RSRC_ID_INVALID EFX_MAE_RSRC_ID_INVALID),
            adapter_init 0 [reply_ok 0]) /\
    sfc_mae_actions_bundle_sync None bundle
      (mk_actions [] EFX_MAE_RSRC_ID_INVALID EFX_MAE_RSRC_ID_INVALID)
      (adapter_init 0 [reply_ok 0]) =
      Some ((0, bundle_zero,
             mk_actions
               [EFX_MAE_ACTION_VLAN_PUSH RTE_ETHER_TYPE_VLAN 24581]
               EFX_MAE_RSRC_ID_INVALID EFX_MAE_RSRC_ID_INVALID), sa') /\
    en_calls (sa_nic sa') = [(OP_ACTION_SET_POPULATE, 0)].
Proof.
  apply (X15_vlan_actions_make_one_push
           [RTE_FLOW_ACTION_TYPE_OF_SET_VLAN_VID 5;
            RTE_FLOW_ACTION_TYPE_OF_SET_VLAN_PCP 3;
            RTE_FLOW_ACTION_TYPE_OF_PUSH_VLAN RTE_ETHER_TYPE_VLAN]
           RTE_ETHER_TYPE_VLAN 5 3 None None
           (mk_actions [] EFX_MAE_RSRC_ID_INVALID EFX_MAE_RSRC_ID_INVALID)
           (adapter_init 0 [reply_ok 0]) (reply_ok 0) []).
  - apply Permutation_sym, Permutation_cons_append.
  - intros t Ht. discriminate Ht.
  - reflexivity.
  - reflexivity.
Defined.
(** ** The action compiler: what a failure leaves behind *)

Lemma encap_header_del_frame e :
  preserves compiler_frame (sfc_mae_encap_header_del e).
Proof.
  unfold sfc_mae_encap_header_del, store_encap_header. destruct e; footprint.
Qed.

Lemma action_set_attach_none_frame encap_header n_count spec sa sa' :
  sfc_mae_action_set_attach encap_header n_count spec sa = Some (None, sa') ->
  sa' = sa.
Proof.
  unfold sfc_mae_action_set_attach. intros H.
  rewrite (bind_run _ _ sa (sa_mae sa) sa eq_refl) in H.
  destruct (find _ _) as [[p a]|]; [|minv H; reflexivity].
  minv H. minv H.
Qed.

Lemma action_set_add_none_frame actions spec encap_header n_counters sa rc sa' :
  sfc_mae_action_set_add actions spec encap_header n_counters sa =
    Some ((rc, None), sa') ->
  compiler_frame sa sa'.
Proof.
  unfold sfc_mae_action_set_add. intros H. minv H.
  assert (F0 : compiler_frame sa sa0).
  { assert (Hz : preserves compiler_frame rte_zmalloc) by auto with footprint.
    eapply Hz. exact Hm. }
  destruct a as [p|].
  2:{ minv H. assert (Hz : preserves compiler_frame (sfc_err "failed to alloc action set"))
        by auto with footprint.
      apply Hz in Hm0. minv H. transitivity sa0; assumption. }
  minv H.
  assert (F1 : compiler_frame sa0 sa1).
  { destruct (decide (0 < n_counters)).
    - minv Hm0.
      assert (Hz : preserves compiler_frame rte_zmalloc) by auto with footprint.
      apply Hz in Hm1. destruct a0.
      + minv Hm0; try exact Hm1.
      + minv Hm0.
        assert (He : preserves compiler_frame (sfc_err "failed to alloc counters"))
          by auto with footprint.
        apply He in Hm2. minv Hm0; try (transitivity sa2; assumption).
    - minv Hm0; try reflexivity. }
  destruct a as [[counters n]|].
  - minv H. minv H.
  - minv H; try (etransitivity; eassumption).
Qed.

(** X16. A failed compilation of an action list leaves no action set
    behind.  Whenever [sfc_mae_rule_parse_actions] returns an error, the
    action set registry is exactly as it was before the call, and the
    flow specification is unchanged except that its action set pointer
    may have been cleared. *)
Theorem X16_failed_action_compile_leaves_registry
    (actions : option (list rte_flow_action)) (spec_mae flow' : sfc_flow_spec_mae)
    (sa sa' : sfc_adapter) (rc : Z) :
  sfc_mae_rule_parse_actions actions spec_mae sa = Some ((rc, flow'), sa') ->
  rc <> 0 ->
  action_sets (sa_mae sa') = action_sets (sa_mae sa) /\
  (flow' = spec_mae \/ flow' = flow_set_action_set None spec_mae).
Proof.
  intros H Hrc. unfold sfc_mae_rule_parse_actions in H.
  assert (G : compiler_frame sa sa' /\
              (flow' = spec_mae \/ flow' = flow_set_action_set None spec_mae));
    [|destruct G as [[E1 E2] E3]; split; [exact E1|exact E3]].
  destruct actions as [actions|].
  2:{ minv H. split; [reflexivity|left; reflexivity]. }
  minv H. pose proof (action_set_spec_init_frame _ _ _ Hm) as G0.
  destruct a as [rc0 [spec0|]]; cbv beta iota in H.
  2:{ minv H. split; [assumption|left; reflexivity]. }
  minv H. pose proof (bounce_eh_invalidate_frame _ _ _ Hm0) as F1.
  minv H. destruct a0 as [[rc1 b1] spec1].
  pose proof (parse_actions_loop_frame _ _ _ _ _ _ _ Hm1) as F2.
  assert (G2 : compiler_frame sa sa2).
  { transitivity sa0; [exact G0|]. transitivity sa1; assumption. }
  destruct (decide (rc1 = 0)) as [Hr1|Hr1].
  2:{ minv H. split; [assumption|left; reflexivity]. }
  minv H. destruct a0 as [[rc2 b2] spec2].
  pose proof (bundle_sync_frame _ _ _ _ _ _ Hm2) as F3.
  assert (G3 : compiler_frame sa sa3) by (transitivity sa2; assumption).
  destruct (decide (rc2 = 0)) as [Hr2|Hr2].
  2:{ minv H. split; [assumption|left; reflexivity]. }
  minv H. apply get_mae_read in Hm3. subst sa4.
  minv H. destruct a1 as [rc3 encap_header].
  pose proof (process_encap_header_frame _ _ _ _ Hm3) as F4.
  assert (G4 : compiler_frame sa sa4) by (transitivity sa3; assumption).
  destruct (decide (rc3 = 0)) as [Hr3|Hr3].
  2:{ minv H. split; [assumption|left; reflexivity]. }
  cbv zeta in H.
  destruct (decide (1 < efx_mae_action_set_get_nb_count spec2)) as [Hn|Hn].
  { minv H.
    assert (Hz : preserves compiler_frame
                   (sfc_err "failed to get number of count actions"))
      by auto with footprint.
    apply Hz in Hm4. minv H.
    apply encap_header_del_frame in Hm5.
    assert (G6 : compiler_frame sa sa6)
      by (transitivity sa4; [assumption|]; transitivity sa5; assumption).
    minv H. split; [assumption|left; reflexivity]. }
  minv H. destruct a1 as [p|].
  { minv H; minv H; try contradiction. }
  apply action_set_attach_none_frame in Hm4. subst sa5.
  minv H. destruct a1 as [rc4 [p|]].
  { minv H; try contradiction. }
  apply action_set_add_none_frame in Hm4.
  minv H. apply encap_header_del_frame in Hm5.
  assert (G6 : compiler_frame sa sa6)
    by (transitivity sa4; [assumption|]; transitivity sa5; assumption).
  minv H. split; [assumption|right; reflexivity].
Qed.

(** Two COUNT actions in one list: refused after both have been compiled. *)
Lemma X16_failed_action_compile_leaves_registry_witness :
  exists sa',
    sfc_mae_rule_parse_actions
      (Some [RTE_FLOW_ACTION_TYPE_COUNT false 1;
             RTE_FLOW_ACTION_TYPE_COUNT false 2])
      (flow_spec_init 0) (adapter_with_counters []) =
      Some ((- ENOTSUP, flow_spec_init 0), sa') /\
    - ENOTSUP <> 0 /\
    action_sets (sa_mae sa') = action_sets (sa_mae (adapter_with_counters [])) /\
    (flow_spec_init 0 = flow_spec_init 0 \/
     flow_spec_init 0 = flow_set_action_set None (flow_spec_init 0)).
Proof.
  eexists. split; [vm_compute; reflexivity|].
  split; [vm_compute; discriminate|].
  eapply (X16_failed_action_compile_leaves_registry
            (Some [RTE_FLOW_ACTION_TYPE_COUNT false 1;
                   RTE_FLOW_ACTION_TYPE_COUNT false 2])
            (flow_spec_init 0) (flow_spec_init 0)
            (adapter_with_counters []) _ (- ENOTSUP)).
  - vm_compute. reflexivity.
  - vm_compute. discriminate.
Defined.
(** ** Encap. headers in hardware *)

(** X17. A first enable of an encap. header that fails at the fill-in
    step gives the hardware header back but keeps its id.  For a header
    that is not in hardware: the header is allocated (id [out_of r1]),
    [efx_mae_action_set_fill_in_eh_id] fails, the header is freed again
    whatever the device answers to that, and the error of the fill-in is
    returned with the action set specification unchanged.  The entry is
    left with hardware refcount 0 and the id of the freed header, so it
    satisfies the invariant "id invalid iff refcount 0" only if the device
    had handed out the invalid id. *)
Theorem X17_encap_header_enable_failure_keeps_id (sa : sfc_adapter) (p : ptr)
    (e : sfc_mae_encap_header) (spec : efx_mae_actions)
    (r1 r2 : efx_reply) (rest : list efx_reply) :
  entry_lookup (encap_headers (sa_mae sa)) p = Some e ->
  eh_fw_rsrc e = mk_fw_rsrc 0 EFX_MAE_RSRC_ID_INVALID ->
  en_replies (sa_nic sa) = r1 :: r2 :: rest ->
  rc_of r1 = 0 -> rc_of r2 <> 0 ->
  exists sa',
    sfc_mae_encap_header_enable (Some p) spec sa =
      Some ((rc_of r2, spec), sa') /\
    en_calls (sa_nic sa') =
      en_calls (sa_nic sa) ++
      [(OP_ENCAP_HEADER_ALLOC, eh_size e);
       (OP_ACTION_SET_FILL_IN_EH_ID, out_of r1);
       (OP_ENCAP_HEADER_FREE, out_of r1)] /\
    entry_lookup (encap_headers (sa_mae sa')) p =
      Some (encap_header_set_fw (mk_fw_rsrc 0 (out_of r1)) e) /\
    (fw_rsrc_consistent (mk_fw_rsrc 0 (out_of r1)) <->
     out_of r1 = EFX_MAE_RSRC_ID_INVALID).
Proof.
  intros Hl Hfw Hrep H1 H2.
  destruct sa as [[replies calls] mae mem nxt rxq lcore log sock burst dp].
  destruct e as [refcnt buf size type fw].
  destruct r1 as [rc1 o1 g1], r2 as [rc2 o2 g2].
  simpl in *. subst.
  destruct rest as [|r3 rest].
  all: eexists; split;
    [unfold sfc_mae_encap_header_enable, bind, load_encap_header; simpl;
     rewrite Hl; simpl;
     unfold efx_mae_action_set_fill_in_eh_id, store_encap_header, bind, efx,
       efx_invoke, modify_mae, ret; simpl;
     destruct (decide (rc2 = 0)); [contradiction|]; simpl;
     destruct (decide (rc2 = 0)); [contradiction|]; simpl;
     reflexivity|].
  all: split; [simpl; rewrite <- !app_assoc; reflexivity|].
  all: split; [simpl; eapply entry_lookup_store; exact Hl|].
  all: unfold fw_rsrc_consistent; simpl;
    split; [intros [_ H]; apply H; reflexivity|].
  all: intros ->; split; reflexivity.
Qed.

Lemma X17_encap_header_enable_failure_keeps_id_witness :
  exists sa',
    sfc_mae_encap_header_enable (Some 0%nat)
      (mk_actions [EFX_MAE_ACTION_ENCAP] EFX_MAE_RSRC_ID_INVALID
                  EFX_MAE_RSRC_ID_INVALID)
      (adapter_with_header [reply_ok 7; reply_fail EINVAL]) =
      Some ((EINVAL,
             mk_actions [EFX_MAE_ACTION_ENCAP] EFX_MAE_RSRC_ID_INVALID
                        EFX_MAE_RSRC_ID_INVALID), sa') /\
    en_calls (sa_nic sa') =
      [(OP_ENCAP_HEADER_ALLOC, 4); (OP_ACTION_SET_FILL_IN_EH_ID, 7);
       (OP_ENCAP_HEADER_FREE, 7)] /\
    entry_lookup (encap_headers (sa_mae sa')) 0%nat =
      Some (mk_encap_header 1 [1; 2; 3; 4] 4 EFX_TUNNEL_PROTOCOL_VXLAN
                            (mk_fw_rsrc 0 7)) /\
    (fw_rsrc_consistent (mk_fw_rsrc 0 7) <-> 7 = EFX_MAE_RSRC_ID_INVALID).
Proof.
  apply (X17_encap_header_enable_failure_keeps_id
           (adapter_with_header [reply_ok 7; reply_fail EINVAL]) 0%nat
           (mk_encap_header 1 [1; 2; 3; 4] 4 EFX_TUNNEL_PROTOCOL_VXLAN
                            (mk_fw_rsrc 0 EFX_MAE_RSRC_ID_INVALID))
           (mk_actions [EFX_MAE_ACTION_ENCAP] EFX_MAE_RSRC_ID_INVALID
                       EFX_MAE_RSRC_ID_INVALID)
           (reply_ok 7) (reply_fail EINVAL) []).
  - reflexivity.
  - reflexivity.
  - reflexivity.
  - reflexivity.
  - vm_compute. discriminate.
Defined.
(** ** Flow insertion: the failure path *)

(** X18. A flow whose action rule the device refuses leaves the
    registries as they were.  For a flow with an outer rule and an action
    set (no counter, no encap. header), neither of them in hardware:
    [sfc_mae_flow_insert] inserts the outer rule, allocates the action
    set, and when the action rule insertion fails it frees the action set
    and removes the outer rule again, in this order, and returns the error
    of the insertion.  If the device accepts the two releases, both
    registries are exactly as before the call; the flow keeps its rule id,
    and its match specification holds the id the outer rule had. *)
Theorem X18_flow_insert_failure_rolls_back (sa : sfc_adapter)
    (flow : sfc_flow_spec_mae) (p q : ptr) (rule : sfc_mae_outer_rule)
    (a : sfc_mae_action_set) (match_spec : efx_mae_match_spec)
    (r1 r2 r3 r4 r5 r6 : efx_reply) (rest : list efx_reply) :
  fs_outer_rule flow = Some p ->
  fs_action_set flow = Some q ->
  fs_match_spec flow = Some match_spec ->
  entry_lookup (outer_rules (sa_mae sa)) p = Some rule ->
  or_fw_rsrc rule = mk_fw_rsrc 0 EFX_MAE_RSRC_ID_INVALID ->
  entry_lookup (action_sets (sa_mae sa)) q = Some a ->
  as_fw_rsrc a = mk_fw_rsrc 0 EFX_MAE_RSRC_ID_INVALID ->
  as_n_counters a = 0 ->
  as_encap_header a = None ->
  en_replies (sa_nic sa) = r1 :: r2 :: r3 :: r4 :: r5 :: r6 :: rest ->
  rc_of r1 = 0 -> rc_of r2 = 0 -> rc_of r3 = 0 -> rc_of r4 <> 0 ->
  rc_of r5 = 0 -> rc_of r6 = 0 ->
  exists sa',
    sfc_mae_flow_insert flow sa =
      Some ((rc_of r4,
             flow_set_match_spec
               (match_spec_write match_spec EFX_MAE_FIELD_OUTER_RULE_ID
                                 (u32_le_bytes (out_of r1))
                                 [255; 255; 255; 255]) flow), sa') /\
    en_calls (sa_nic sa') =
      en_calls (sa_nic sa) ++
      [(OP_OUTER_RULE_INSERT, efx_tunnel_protocol_num (or_encap_type rule));
       (OP_MATCH_SPEC_OUTER_RULE_ID_SET, out_of r1);
       (OP_ACTION_SET_ALLOC, 0);
       (OP_ACTION_RULE_INSERT, out_of r3);
       (OP_ACTION_SET_FREE, out_of r3);
       (OP_OUTER_RULE_REMOVE, out_of r1)] /\
    outer_rules (sa_mae sa') = outer_rules (sa_mae sa) /\
    action_sets (sa_mae sa') = action_sets (sa_mae sa).
Proof.
  intros Hp Hq Hms Hl Hfw Ha Hafw Hn Heh Hrep H1 H2 H3 H4 H5 H6.
  destruct sa as [[replies calls] mae mem nxt rxq lcore log sock burst dp].
  destruct flow as [prio fo fa fm rid].
  destruct rule as [refcnt mspec etype fw].
  destruct a as [arefcnt counters n aspec eh afw].
  destruct r1 as [rc1 o1 g1], r2 as [rc2 o2 g2], r3 as [rc3 o3 g3],
           r4 as [rc4 o4 g4], r5 as [rc5 o5 g5], r6 as [rc6 o6 g6].
  simpl in *. subst.
  assert (Hu1 : u32 (0 + 1) = 1) by reflexivity.
  assert (Hu4 : u32 (1 - 1) = 0) by reflexivity.
  eexists. split.
  { unfold sfc_mae_flow_insert, deref, bind, ret; simpl.
    unfold sfc_mae_outer_rule_enable, bind, load_outer_rule; simpl.
    rewrite Hl; simpl.
    unfold efx_mae_match_spec_outer_rule_id_set, store_outer_rule, bind, efx,
      efx_invoke, modify_mae, ret; simpl.
    unfold sfc_mae_action_set_enable, bind, load_action_set; simpl.
    rewrite Ha; simpl.
    unfold store_action_set, bind, efx, efx_invoke, modify_mae, ret; simpl.
    rewrite !entry_store_store.
    rewrite (entry_lookup_store _ _ _ _ Ha); simpl.
    destruct (decide (rc4 = 0)); [contradiction|]. simpl.
    unfold sfc_mae_action_set_disable, bind, load_action_set; simpl.
    rewrite (entry_lookup_store _ _ _ _ Ha); simpl.
    unfold store_action_set, bind, efx, efx_invoke, modify_mae, ret; simpl.
    unfold sfc_mae_outer_rule_disable, bind, load_outer_rule; simpl.
    rewrite !entry_store_store.
    rewrite (entry_lookup_store _ _ _ _ Hl); simpl.
    unfold store_outer_rule, bind, efx, efx_invoke, modify_mae, ret; simpl.
    rewrite !entry_store_store. reflexivity. }
  simpl. split; [rewrite <- !app_assoc; reflexivity|].
  split; apply entry_store_same; assumption.
Qed.

Lemma X18_flow_insert_failure_rolls_back_witness :
  exists sa',
    sfc_mae_flow_insert flow_one
      (adapter_not_enabled
         [reply_ok 5; reply_ok 0; reply_ok 9; reply_fail EINVAL;
          reply_ok 0; reply_ok 0]) =
      Some ((EINVAL,
             flow_set_match_spec
               (match_spec_write (mk_match_spec EFX_MAE_RULE_ACTION 0 [])
                                 EFX_MAE_FIELD_OUTER_RULE_ID
                                 (u32_le_bytes 5) [255; 255; 255; 255])
               flow_one), sa') /\
    en_calls (sa_nic sa') =
      [(OP_OUTER_RULE_INSERT, efx_tunnel_protocol_num EFX_TUNNEL_PROTOCOL_VXLAN);
       (OP_MATCH_SPEC_OUTER_RULE_ID_SET, 5);
       (OP_ACTION_SET_ALLOC, 0);
       (OP_ACTION_RULE_INSERT, 9);
       (OP_ACTION_SET_FREE, 9);
       (OP_OUTER_RULE_REMOVE, 5)] /\
    outer_rules (sa_mae sa') = outer_rules (sa_mae (adapter_not_enabled [])) /\
    action_sets (sa_mae sa') = action_sets (sa_mae (adapter_not_enabled [])).
Proof.
  apply (X18_flow_insert_failure_rolls_back
           (adapter_not_enabled
              [reply_ok 5; reply_ok 0; reply_ok 9; reply_fail EINVAL;
               reply_ok 0; reply_ok 0])
           flow_one 0%nat 1%nat
           (mk_outer_rule 2 (mk_match_spec EFX_MAE_RULE_OUTER 0 [])
                          EFX_TUNNEL_PROTOCOL_VXLAN
                          (mk_fw_rsrc 0 EFX_MAE_RSRC_ID_INVALID))
           (mk_action_set 1 [] 0
              (mk_actions [EFX_MAE_ACTION_DROP] EFX_MAE_RSRC_ID_INVALID
                          EFX_MAE_RSRC_ID_INVALID)
              None (mk_fw_rsrc 0 EFX_MAE_RSRC_ID_INVALID))
           (mk_match_spec EFX_MAE_RULE_ACTION 0 [])
           (reply_ok 5) (reply_ok 0) (reply_ok 9) (reply_fail EINVAL)
           (reply_ok 0) (reply_ok 0) []);
    try reflexivity.
  vm_compute. discriminate.
Defined.
(** ** The counter stream *)

(** The symbolic run of the counter start over the answers to come. *)
Ltac counter_start_step :=
  first
    [ progress simpl
    | match goal with
      | |- context [match ?l with [] => _ | _ :: _ => _ end] =>
          is_var l; destruct l as [|[? ? ?] ?]
      | |- context [decide ?P] => destruct (decide P)
      end ].

Ltac snoc_witness :=
  match goal with
  | |- exists pre, ?l = pre ++ _ /\ _ => exists (removelast l); simpl
  | |- exists pre sid, ?l = pre ++ _ => exists (removelast l); simpl
  end.

(** X19. The counter stream is started once, and a failed start leaves
    nothing behind.  With the stream not running, whatever the device and
    the service-core library answer, [sfc_mae_counter_start] returns,
    having first asked the device to start the stream, and the registries
    are as they were.  On success the stream counts as running, the
    registry of the counter service is prepared (no buffer pushed yet,
    the receive callback and queue of the adapter), nothing is logged and
    a second call returns 0 at once, without a call and without a change.
    On failure the stream still counts as not running and one line is
    logged; either the device refused to start the stream and that was
    the only call, or the last call stops the stream again and, if the
    service component had been registered (its core mapping was
    requested), the call before that unregisters it. *)
Theorem X19_counter_stream_is_started_once (sa : sfc_adapter) :
  counter_rxq_running (sa_mae sa) = false ->
  exists rc sa' cs,
    sfc_mae_counter_start sa = Some (rc, sa') /\
    en_calls (sa_nic sa') =
      en_calls (sa_nic sa) ++ (OP_COUNTERS_STREAM_START, 0) :: cs /\
    mae_registries sa' = mae_registries sa /\
    (rc = 0 ->
     counter_rxq_running (sa_mae sa') = true /\
     pushed_n_buffers (counter_service (sa_mae sa')) = 0 /\
     rx_pkt_burst (counter_service (sa_mae sa')) = sa_rx_pkt_burst sa /\
     rx_dp (counter_service (sa_mae sa')) = sa_counter_rxq_dp sa /\
     sa_log sa' = sa_log sa /\
     sfc_mae_counter_start sa' = Some (0, sa')) /\
    (rc <> 0 ->
     counter_rxq_running (sa_mae sa') = false /\
     (exists msg, sa_log sa' = sa_log sa ++ [msg]) /\
     (cs = [] \/
      exists pre,
        cs = pre ++ [(OP_COUNTERS_STREAM_STOP, 0)] /\
        (In (OP_SERVICE_MAP_LCORE_SET, 1) pre ->
         exists pre' sid,
           pre = pre' ++ [(OP_SERVICE_COMPONENT_UNREGISTER, sid)]))).
Proof.
  intros Hrun.
  destruct sa as [[replies calls] mae mem nxt rxq lcore log sock burst dp].
  simpl in Hrun.
  unfold sfc_mae_counter_start, sfc_mae_counter_service_register,
    sfc_get_service_lcore, mae_registries, bind, get_mae, get_sa, modify_mae,
    sfc_err, efx, efx_invoke, ret.
  simpl. rewrite Hrun.
  repeat counter_start_step.
  all: eexists _, _, _; split; [reflexivity|].
  all: split; [simpl; rewrite <- ?app_assoc; simpl; reflexivity|].
  all: split; [reflexivity|].
  all: split;
    [ intros Hz;
      first [ discriminate Hz
            | exfalso; unfold ENOTSUP, ENOEXEC in *; lia
            | simpl; repeat split; reflexivity ]
    | intros Hnz;
      first [ contradiction
            | simpl; split; [exact Hrun|];
              split; [eexists; reflexivity|];
              first [ left; reflexivity
                    | right; snoc_witness; split; [reflexivity|];
                      intros Hin; simpl in Hin;
                      first [ solve [ repeat (destruct Hin as [Hin|Hin];
                                              try discriminate Hin);
                                      contradiction ]
                            | clear Hin; snoc_witness; eexists; reflexivity ] ] ] ].
Qed.

(** The stream starts, a service core is found and started, and the
    registration of the service component is refused. *)
Lemma X19_counter_stream_is_started_once_witness :
  option_map (fun r => (fst r, en_calls (sa_nic (snd r)), sa_log (snd r)))
    (sfc_mae_counter_start
       (adapter_not_enabled
          [reply_ok 1; reply_ok 3; reply_ok 0; reply_fail ENOMEM])) =
    Some (ENOEXEC,
          [(OP_COUNTERS_STREAM_START, 0); (OP_GET_SERVICE_LCORE, 0);
           (OP_SERVICE_LCORE_START, 3); (OP_SERVICE_COMPONENT_REGISTER, 0);
           (OP_COUNTERS_STREAM_STOP, 0)],
          ["failed to register counter service component"%string]) /\
  exists rc sa' cs,
    sfc_mae_counter_start
      (adapter_not_enabled
         [reply_ok 1; reply_ok 3; reply_ok 0; reply_fail ENOMEM]) =
      Some (rc, sa') /\
    en_calls (sa_nic sa') = [] ++ (OP_COUNTERS_STREAM_START, 0) :: cs /\
    mae_registries sa' =
      mae_registries
        (adapter_not_enabled
           [reply_ok 1; reply_ok 3; reply_ok 0; reply_fail ENOMEM]) /\
    (rc = 0 ->
     counter_rxq_running (sa_mae sa') = true /\
     pushed_n_buffers (counter_service (sa_mae sa')) = 0 /\
     rx_pkt_burst (counter_service (sa_mae sa')) = 0 /\
     rx_dp (counter_service (sa_mae sa')) = 0 /\
     sa_log sa' = [] /\
     sfc_mae_counter_start sa' = Some (0, sa')) /\
    (rc <> 0 ->
     counter_rxq_running (sa_mae sa') = false /\
     (exists msg, sa_log sa' = [] ++ [msg]) /\
     (cs = [] \/
      exists pre,
        cs = pre ++ [(OP_COUNTERS_STREAM_STOP, 0)] /\
        (In (OP_SERVICE_MAP_LCORE_SET, 1) pre ->
         exists pre' sid,
           pre = pre' ++ [(OP_SERVICE_COMPONENT_UNREGISTER, sid)]))).
Proof.
  split; [vm_compute; reflexivity|].
  apply (X19_counter_stream_is_started_once
           (adapter_not_enabled
              [reply_ok 1; reply_ok 3; reply_ok 0; reply_fail ENOMEM])).
  reflexivity.
Defined.

(** The last step of the registration fails: the service is taken down in
    reverse order and the stream is stopped. *)
Example counter_start_runstate_failure :
  option_map (fun r => (fst r, en_calls (sa_nic (snd r)), sa_log (snd r),
                        counter_rxq_running (sa_mae (snd r)),
                        counter_service (sa_mae (snd r))))
    (sfc_mae_counter_start
       (adapter_not_enabled
          [reply_ok 1; reply_ok 3; reply_fail (- EALREADY); reply_ok 7;
           reply_ok 0; reply_ok 0; reply_fail (- 5)])) =
    Some (5,
          [(OP_COUNTERS_STREAM_START, 0); (OP_GET_SERVICE_LCORE, 0);
           (OP_SERVICE_LCORE_START, 3); (OP_SERVICE_COMPONENT_REGISTER, 0);
           (OP_SERVICE_MAP_LCORE_SET, 1);
           (OP_SERVICE_COMPONENT_RUNSTATE_SET, 1);
           (OP_SERVICE_RUNSTATE_SET, 1);
           (OP_SERVICE_COMPONENT_RUNSTATE_SET, 0);
           (OP_SERVICE_MAP_LCORE_SET, 0);
           (OP_SERVICE_COMPONENT_UNREGISTER, 7);
           (OP_COUNTERS_STREAM_STOP, 0)],
          ["failed to run counter service"%string], false,
          mk_counter_service 0 0 0 true 0 0).
Proof. vm_compute. reflexivity. Qed.

(** No service core on the socket of the adapter, one elsewhere: the
    service is registered on it. *)
Example counter_start_other_socket :
  option_map (fun r => (fst r, en_calls (sa_nic (snd r)), sa_log (snd r),
                        counter_rxq_running (sa_mae (snd r)),
                        counter_service (sa_mae (snd r))))
    (sfc_mae_counter_start
       (adapter_not_enabled
          [reply_ok 0; reply_ok RTE_MAX_LCORE; reply_ok 5; reply_ok 0;
           reply_ok 7])) =
    Some (0,
          [(OP_COUNTERS_STREAM_START, 0); (OP_GET_SERVICE_LCORE, 0);
           (OP_GET_SERVICE_LCORE, SOCKET_ID_ANY);
           (OP_SERVICE_LCORE_START, 5); (OP_SERVICE_COMPONENT_REGISTER, 0);
           (OP_SERVICE_MAP_LCORE_SET, 1);
           (OP_SERVICE_COMPONENT_RUNSTATE_SET, 1);
           (OP_SERVICE_RUNSTATE_SET, 1)],
          [], true, mk_counter_service 0 0 0 false 5 7).
Proof. vm_compute. reflexivity. Qed.

(** ** The supported mask of an item *)

Lemma bytes_put_length (src : list Z) :
  forall buf ofst, length (bytes_put buf ofst src) = length buf.
Proof.
  induction src as [|b src IH]; intros buf ofst; simpl; [reflexivity|].
  rewrite IH. apply length_insert.
Qed.

Lemma bytes_put_lookup (src : list Z) :
  forall buf ofst i,
    (i < length buf)%nat ->
    bytes_put buf ofst src !! i =
    if decide (ofst <= i < ofst + length src)%nat then src !! (i - ofst)%nat
    else buf !! i.
Proof.
  induction src as [|b src IH]; intros buf ofst i Hi; simpl.
  - case_decide; [lia|reflexivity].
  - rewrite IH by (rewrite length_insert; exact Hi).
    destruct (decide (i = ofst)) as [->|Hne].
    + case_decide; [lia|]. case_decide; [|lia].
      rewrite Nat.sub_diag. simpl. apply list_lookup_insert_eq. exact Hi.
    + rewrite list_lookup_insert_ne by (intros ->; apply Hne; reflexivity).
      case_decide; case_decide; try lia; [|reflexivity].
      replace (i - ofst)%nat with (S (i - S ofst)) by lia. reflexivity.
Qed.

Lemma repeat_lookup {A : Type} (x : A) (n i : nat) :
  (i < n)%nat -> repeat x n !! i = Some x.
Proof.
  revert i. induction n as [|n IH]; intros i Hi; [lia|].
  destruct i as [|i]; simpl; [reflexivity|]. apply IH. lia.
Qed.

Lemma memset_ff_lookup buf ofst size i :
  (i < length buf)%nat -> (ofst + size <= length buf)%nat ->
  memset_ff buf ofst size !! i =
  if decide (ofst <= i < ofst + size)%nat then Some 255 else buf !! i.
Proof.
  intros Hi Hb. unfold memset_ff.
  rewrite bytes_put_lookup by exact Hi.
  rewrite repeat_length.
  replace (min size (length buf - ofst)) with size by lia.
  case_decide; [|reflexivity].
  apply repeat_lookup. lia.
Qed.

Lemma build_supp_mask_from (flocs : list sfc_mae_field_locator) :
  forall mask,
    Forall (fun fl => (fl_ofst fl + fl_size fl <= length mask)%nat) flocs ->
    let mask' :=
      fold_left (fun mask fl => memset_ff mask (fl_ofst fl) (fl_size fl))
                flocs mask in
    length mask' = length mask /\
    forall i, (i < length mask)%nat ->
      mask' !! i =
      if decide (Exists (floc_covers i) flocs) then Some 255 else mask !! i.
Proof.
  induction flocs as [|fl flocs IH]; intros mask Hb; simpl.
  - split; [reflexivity|]. intros i Hi.
    destruct (decide (Exists (floc_covers i) [])) as [He|He];
      [inversion He|reflexivity].
  - inversion Hb as [|? ? Hfl Hrest]; subst.
    assert (Hlen : length (memset_ff mask (fl_ofst fl) (fl_size fl)) =
                   length mask).
    { unfold memset_ff. apply bytes_put_length. }
    destruct (IH (memset_ff mask (fl_ofst fl) (fl_size fl))) as [Hl Hi'].
    { rewrite Hlen. exact Hrest. }
    split; [rewrite Hl; exact Hlen|].
    intros i Hi. rewrite Hi' by (rewrite Hlen; exact Hi).
    rewrite memset_ff_lookup by assumption.
    destruct (decide (Exists (floc_covers i) flocs)) as [He|He].
    + destruct (decide (Exists (floc_covers i) (fl :: flocs))) as [Hc|Hc];
        [reflexivity|].
      exfalso. apply Hc. right. exact He.
    + destruct (decide (fl_ofst fl <= i < fl_ofst fl + fl_size fl)%nat)
        as [Hin|Hin].
      * destruct (decide (Exists (floc_covers i) (fl :: flocs))) as [Hc|Hc];
          [reflexivity|].
        exfalso. apply Hc. left. exact Hin.
      * destruct (decide (Exists (floc_covers i) (fl :: flocs))) as [Hc|Hc];
          [|reflexivity].
        exfalso. inversion Hc; subst; contradiction.
Qed.

(** X20. The supported mask of an item is 0xff exactly on the fields its
    locators name.  With every locator inside the item structure (what the
    code asserts), [sfc_mae_item_build_supp_mask] gives a mask of the size
    of the structure whose byte [i] is 0xff if some locator, deferred or
    not, covers byte [i], and 0 otherwise. *)
Theorem X20_supp_mask_covers_located_fields
    (field_locators : list sfc_mae_field_locator) (mask_size i : nat) :
  Forall (fun fl => (fl_ofst fl + fl_size fl <= mask_size)%nat)
         field_locators ->
  (i < mask_size)%nat ->
  let supp_mask := sfc_mae_item_build_supp_mask field_locators mask_size in
  length supp_mask = mask_size /\
  (Exists (floc_covers i) field_locators -> supp_mask !! i = Some 255) /\
  (~ Exists (floc_covers i) field_locators -> supp_mask !! i = Some 0).
Proof.
  intros Hb Hi. unfold sfc_mae_item_build_supp_mask.
  destruct (build_supp_mask_from field_locators (repeat 0 mask_size))
    as [Hl Hlook].
  { rewrite repeat_length. exact Hb. }
  rewrite repeat_length in Hl, Hlook.
  split; [exact Hl|].
  specialize (Hlook i Hi).
  destruct (decide (Exists (floc_covers i) field_locators)) as [He|He].
  - split; [intros _; exact Hlook|intros Hc; contradiction].
  - split; [intros Hc; contradiction|].
    intros _. rewrite Hlook. apply repeat_lookup. exact Hi.
Qed.

(** Byte 13 of the ETH item is the low byte of the EtherType, which the
    first (deferred) locator covers. *)
Lemma X20_supp_mask_covers_located_fields_witness :
  length (sfc_mae_item_build_supp_mask flocs_eth sizeof_rte_flow_item_eth) =
    sizeof_rte_flow_item_eth /\
  (Exists (floc_covers 13) flocs_eth ->
   sfc_mae_item_build_supp_mask flocs_eth sizeof_rte_flow_item_eth !! 13%nat =
     Some 255) /\
  (~ Exists (floc_covers 13) flocs_eth ->
   sfc_mae_item_build_supp_mask flocs_eth sizeof_rte_flow_item_eth !! 13%nat =
     Some 0).
Proof.
  apply (X20_supp_mask_covers_located_fields flocs_eth
           sizeof_rte_flow_item_eth 13).
  - unfold flocs_eth, sizeof_rte_flow_item_eth.
    repeat constructor; simpl; lia.
  - unfold sizeof_rte_flow_item_eth. lia.
Defined.
(** ** The IPv4 checksum of the encap. header *)

Lemma bytes_put_is_byte (src : list Z) :
  forall buf ofst,
    Forall is_byte buf -> Forall is_byte src ->
    Forall is_byte (bytes_put buf ofst src).
Proof.
  induction src as [|b src IH]; intros buf ofst Hb Hs; simpl; [exact Hb|].
  inversion Hs; subst. apply IH; [|assumption].
  apply Forall_insert; assumption.
Qed.

Lemma bytes_at_is_byte buf ofst size :
  Forall is_byte buf -> Forall is_byte (bytes_at buf ofst size).
Proof.
  intros H. unfold bytes_at. apply Forall_take, Forall_drop. exact H.
Qed.

Lemma bytes_at_length buf ofst size :
  (ofst + size <= length buf)%nat -> length (bytes_at buf ofst size) = size.
Proof.
  intros H. unfold bytes_at. rewrite length_take, length_drop. lia.
Qed.

Lemma bytes_at_lookup buf ofst size i :
  (i < size)%nat -> bytes_at buf ofst size !! i = buf !! (ofst + i)%nat.
Proof.
  intros H. unfold bytes_at. rewrite lookup_take_lt by exact H.
  apply lookup_drop.
Qed.

(** A write outside a window does not show in it; a write inside it is a
    write to the window. *)
Lemma bytes_at_put_outside buf ofst size o src :
  (ofst + size <= length buf)%nat ->
  (o + length src <= ofst \/ ofst + size <= o)%nat ->
  bytes_at (bytes_put buf o src) ofst size = bytes_at buf ofst size.
Proof.
  intros Hb Ho. apply list_eq. intros i.
  destruct (decide (i < size)%nat) as [Hi|Hi].
  - rewrite !bytes_at_lookup by exact Hi.
    rewrite bytes_put_lookup by lia.
    case_decide; [lia|reflexivity].
  - rewrite !lookup_ge_None_2; [reflexivity| |];
      rewrite bytes_at_length; rewrite ?bytes_put_length; lia.
Qed.

Lemma bytes_at_put_inside buf ofst size k src :
  (ofst + size <= length buf)%nat ->
  (k + length src <= size)%nat ->
  bytes_at (bytes_put buf (ofst + k) src) ofst size =
  bytes_put (bytes_at buf ofst size) k src.
Proof.
  intros Hb Hk. apply list_eq. intros i.
  destruct (decide (i < size)%nat) as [Hi|Hi].
  - rewrite bytes_at_lookup by exact Hi.
    rewrite !bytes_put_lookup by (rewrite ?bytes_at_length; lia).
    rewrite bytes_at_lookup by exact Hi.
    case_decide; case_decide; try lia; [|reflexivity].
    f_equal. lia.
  - rewrite !lookup_ge_None_2; [reflexivity| |];
      rewrite ?bytes_put_length, bytes_at_length;
      rewrite ?bytes_put_length; lia.
Qed.

Lemma be16_word (hi lo : Z) :
  0 <= lo < 256 -> Z.lor (Z.shiftl hi 8) lo = hi * 256 + lo.
Proof.
  intros Hlo.
  assert (Hz : Z.land (Z.shiftl hi 8) lo = 0).
  { apply Z.bits_inj'. intros n Hn. rewrite Z.land_spec, Z.bits_0.
    destruct (Z.lt_ge_cases n 8) as [Hlt|Hge].
    - rewrite Z.shiftl_spec_low by lia. reflexivity.
    - rewrite <- (Z.mod_small lo (2 ^ 8)) by lia.
      rewrite Z.mod_pow2_bits_high by lia. apply andb_false_r. }
  pose proof (Z.add_lor_land (Z.shiftl hi 8) lo) as H.
  rewrite Hz in H. rewrite Z.shiftl_mul_pow2 in * by lia. lia.
Qed.

Lemma be16_sum_bound (bytes : list Z) :
  Forall is_byte bytes ->
  0 <= be16_sum bytes <= 65535 * Z.of_nat (Nat.div2 (S (length bytes))).
Proof.
  induction bytes as [bytes IH] using (induction_ltof1 _ (@length Z)).
  destruct bytes as [|hi [|lo rest]].
  - intros _. simpl. lia.
  - intros Hb. inversion Hb; subst. unfold is_byte in *. simpl.
    rewrite Z.shiftl_mul_pow2 by lia. lia.
  - intros Hb. inversion Hb as [|? ? Hhi Hr]; subst.
    inversion Hr as [|? ? Hlo Hrest]; subst.
    change (be16_sum (hi :: lo :: rest))
      with (Z.lor (Z.shiftl hi 8) lo + be16_sum rest).
    unfold is_byte in *. rewrite be16_word by lia.
    assert (Hrec : 0 <= be16_sum rest <=
                   65535 * Z.of_nat (Nat.div2 (S (length rest)))).
    { apply IH; [unfold ltof; simpl; lia|exact Hrest]. }
    change (Nat.div2 (S (length (hi :: lo :: rest))))
      with (S (Nat.div2 (S (length rest)))).
    lia.
Qed.

(** One's complement arithmetic: the complement of the folded sum, added
    to the sum, folds to 0xffff. *)
Lemma cksum_fold (s : Z) :
  0 <= s <= 65535 * 10 ->
  let fold x := Z.land x 65535 + Z.shiftr x 16 in
  let c := u16 (Z.lnot (fold (fold s))) in
  0 <= c < 65536 /\ fold (fold (s + c)) = 65535.
Proof.
  intros Hs fold c.
  assert (Hfold : forall x, 0 <= x -> fold x = x mod 65536 + x / 65536).
  { intros x Hx. unfold fold.
    change 65535 with (Z.ones 16).
    rewrite Z.land_ones, Z.shiftr_div_pow2 by lia. reflexivity. }
  pose proof (Z.div_mod s 65536 ltac:(lia)) as Hdm.
  pose proof (Z.mod_pos_bound s 65536 ltac:(lia)) as Hr.
  assert (Hq : 0 <= s / 65536 < 10).
  { split; [apply Z.div_pos; lia|].
    apply Z.div_lt_upper_bound; lia. }
  set (q := s / 65536) in *. set (r := s mod 65536) in *.
  assert (Hf1 : fold s = r + q) by (apply Hfold; lia).
  pose proof (Z.div_mod (r + q) 65536 ltac:(lia)) as Hdm1.
  pose proof (Z.mod_pos_bound (r + q) 65536 ltac:(lia)) as Hr1.
  assert (Hq1 : 0 <= (r + q) / 65536 < 2).
  { split; [apply Z.div_pos; lia|].
    apply Z.div_lt_upper_bound; lia. }
  set (q1 := (r + q) / 65536) in *. set (r1 := (r + q) mod 65536) in *.
  assert (Hf : fold (fold s) = r1 + q1).
  { rewrite Hf1. apply Hfold. lia. }
  assert (Hfb : 0 <= r1 + q1 <= 65535).
  { destruct (decide (q1 = 0)); [lia|]. assert (q1 = 1) by lia. lia. }
  assert (Hc : c = 65535 - (r1 + q1)).
  { unfold c, u16. rewrite Hf, Z.lnot_eq_pred_opp.
    change (2 ^ 16) with 65536.
    symmetry. apply (Z.mod_unique_pos _ _ (-1)); lia. }
  split; [lia|].
  set (k := q + q1 + 1).
  assert (Ht : s + c = 65536 * (k - 1) + (65536 - k)) by (unfold k; lia).
  assert (Hd : (s + c) / 65536 = k - 1).
  { symmetry. apply (Z.div_unique_pos _ _ _ (65536 - k)); unfold k in *; lia. }
  assert (Hm : (s + c) mod 65536 = 65536 - k).
  { symmetry. apply (Z.mod_unique_pos _ _ (k - 1)); unfold k in *; lia. }
  rewrite (Hfold (s + c)) by lia. rewrite Hd, Hm.
  replace (65536 - k + (k - 1)) with 65535 by lia.
  reflexivity.
Qed.

(** X21. The IPv4 header checksum the VXLAN_ENCAP action computes
    verifies.  When the template has an IPv4 header (inside the buffer, the
    VXLAN header after it), the header as [vxlan_encap_defaults] leaves
    it, with version, TTL, total length and checksum filled in, sums to
    0xffff in one's complement arithmetic: [rte_ipv4_cksum] over it,
    checksum field included, gives 0.  This is the header before the item
    masks are forced onto it. *)
Theorem X21_default_ipv4_checksum_verifies (st : vxlan_encap_state)
    (ipv4 : nat) :
  ves_ipv4 st = Some ipv4 ->
  ves_ipv6 st = None ->
  (ipv4 + sizeof_rte_ipv4_hdr <= length (ves_buf st))%nat ->
  Forall is_byte (ves_buf st) ->
  match ves_vxlan st with
  | Some vxlan => (ipv4 + sizeof_rte_ipv4_hdr <= vxlan)%nat
  | None => True
  end ->
  rte_ipv4_cksum
    (bytes_at (vxlan_encap_defaults st) ipv4 sizeof_rte_ipv4_hdr) = 0.
Proof.
  unfold sizeof_rte_ipv4_hdr. intros H4 H6 Hlen Hbytes Hvx.
  unfold vxlan_encap_defaults. rewrite H4, H6.
  set (buf := ves_buf st) in *.
  assert (Hin :
    bytes_at
      (bytes_put
         (bytes_put
            (bytes_put (bytes_put buf ipv4 [RTE_IPV4_VHL_DEF]) (ipv4 + 8)
                       [SFC_IPV4_TTL_DEF])
            (ipv4 + 2) (be16_bytes 36))
         (ipv4 + 10) (be16_bytes 0)) ipv4 20 =
    bytes_put
      (bytes_put
         (bytes_put (bytes_put (bytes_at buf ipv4 20) 0 [RTE_IPV4_VHL_DEF]) 8
                    [SFC_IPV4_TTL_DEF])
         2 (be16_bytes 36))
      10 (be16_bytes 0)).
  { rewrite bytes_at_put_inside by (rewrite ?bytes_put_length; simpl; lia).
    rewrite bytes_at_put_inside by (rewrite ?bytes_put_length; simpl; lia).
    rewrite bytes_at_put_inside by (rewrite ?bytes_put_length; simpl; lia).
    replace (bytes_put buf ipv4 [RTE_IPV4_VHL_DEF])
      with (bytes_put buf (ipv4 + 0) [RTE_IPV4_VHL_DEF])
      by (rewrite Nat.add_0_r; reflexivity).
    rewrite bytes_at_put_inside by (simpl; lia). reflexivity. }
  assert (Hout : forall b,
            length b = length buf ->
            bytes_at (match ves_vxlan st with
                      | Some vxlan =>
                          bytes_put b vxlan (be32_bytes SFC_VXLAN_FLAGS_DEF)
                      | None => b
                      end) ipv4 20 = bytes_at b ipv4 20).
  { intros b Hb. destruct (ves_vxlan st) as [vxlan|]; [|reflexivity].
    apply bytes_at_put_outside; [lia|right; exact Hvx]. }
  rewrite Hout by (rewrite !bytes_put_length; reflexivity).
  rewrite bytes_at_put_inside by (rewrite ?bytes_put_length; simpl; lia).
  rewrite Hin.
  pose proof (bytes_at_length buf ipv4 20 Hlen) as HBl.
  pose proof (bytes_at_is_byte buf ipv4 20 Hbytes) as HBb.
  set (B := bytes_at buf ipv4 20) in *. clearbody B.
  do 20 (destruct B as [|? B]; [discriminate HBl|]).
  destruct B; [|discriminate HBl].
  repeat match goal with
         | H : Forall is_byte (_ :: _) |- _ =>
             let Hb := fresh "Hb" in
             let Hr := fresh "Hr" in
             inversion H as [|? ? Hb Hr]; subst; clear H
         end.
  clear Hin Hout HBl.
  change (be16_bytes 36) with [0; 36]. change (be16_bytes 0) with [0; 0].
  change RTE_IPV4_VHL_DEF with 69. change SFC_IPV4_TTL_DEF with 64.
  match goal with
  | |- rte_ipv4_cksum (bytes_put ?h 10 _) = 0 =>
      change h with [69; z0; 0; 36; z3; z4; z5; z6; 64; z8; 0; 0; z11; z12;
                     z13; z14; z15; z16; z17; z18]
  end.
  set (H0 := [69; z0; 0; 36; z3; z4; z5; z6; 64; z8; 0; 0; z11; z12;
              z13; z14; z15; z16; z17; z18]).
  assert (Hs : 0 <= be16_sum H0 <= 65535 * 10).
  { assert (HF : Forall is_byte H0).
    { unfold H0.
      repeat (constructor; [unfold is_byte in *; lia|]).
      constructor. }
    apply be16_sum_bound in HF. exact HF. }
  destruct (cksum_fold (be16_sum H0) Hs) as [Hc Hf].
  unfold rte_ipv4_cksum at 2. cbv zeta.
  set (c := u16 (Z.lnot _)) in *.
  assert (Hsum : be16_sum (bytes_put H0 10 (be16_bytes c)) = be16_sum H0 + c).
  { unfold be16_bytes, H0. cbn [bytes_put].
    change (be16_sum
              [69; z0; 0; 36; z3; z4; z5; z6; 64; z8; Z.shiftr c 8;
               Z.land c 255; z11; z12; z13; z14; z15; z16; z17; z18] =
            be16_sum
              [69; z0; 0; 36; z3; z4; z5; z6; 64; z8; 0; 0; z11; z12; z13;
               z14; z15; z16; z17; z18] + c).
    cbn [be16_sum].
    assert (Hw : Z.lor (Z.shiftl (Z.shiftr c 8) 8) (Z.land c 255) = c).
    { change 255 with (Z.ones 8).
      rewrite Z.land_ones by lia.
      rewrite be16_word by (apply Z.mod_pos_bound; lia).
      rewrite Z.shiftr_div_pow2 by lia.
      pose proof (Z.div_mod c (2 ^ 8) ltac:(lia)). lia. }
    rewrite Hw.
    change (Z.lor (Z.shiftl 0 8) 0) with 0. lia. }
  unfold rte_ipv4_cksum. cbv zeta. rewrite Hsum, Hf. reflexivity.
Qed.

Lemma X21_default_ipv4_checksum_verifies_witness :
  rte_ipv4_cksum
    (bytes_at (vxlan_encap_defaults encap_state_ipv4) 14 sizeof_rte_ipv4_hdr) =
  0.
Proof.
  apply (X21_default_ipv4_checksum_verifies encap_state_ipv4 14).
  - reflexivity.
  - reflexivity.
  - unfold encap_state_ipv4, sizeof_rte_ipv4_hdr. simpl. lia.
  - unfold encap_state_ipv4. simpl.
    repeat (constructor; [unfold is_byte; lia|]). constructor.
  - unfold encap_state_ipv4, sizeof_rte_ipv4_hdr. simpl. lia.
Defined.
(** ** Flow verification *)

Section ClassVerifyRuns.
Variable cmp : efx_mae_match_spec -> efx_mae_match_spec -> M (Z * bool).
Hypothesis cmp_runs : forall l r sa, runs (cmp l r) sa.

Lemma rules_class_cmp_runs l r sa : runs (sfc_mae_rules_class_cmp cmp l r) sa.
Proof.
  unfold sfc_mae_rules_class_cmp.
  destruct (cmp_runs l r sa) as ([rc same] & sa' & E).
  eapply runs_bind; [exact E|]. eexists. eexists. reflexivity.
Qed.

Lemma outer_rule_class_loop_runs entries p rule :
  forall sa, runs (outer_rule_class_loop cmp entries p rule) sa.
Proof.
  induction entries as [|[q entry] rest IH]; intros sa; simpl.
  - eexists. eexists. reflexivity.
  - destruct (decide (q = p)); [apply IH|].
    destruct (rules_class_cmp_runs (or_match_spec entry) (or_match_spec rule) sa)
      as (same & sa' & E).
    eapply runs_bind; [exact E|].
    destruct same; [eexists; eexists; reflexivity|apply IH].
Qed.

Lemma action_rule_class_loop_runs flows spec :
  is_Some (fs_match_spec spec) ->
  Forall (fun e => fst e = SFC_FLOW_SPEC_MAE -> is_Some (fs_match_spec (snd e)))
         flows ->
  forall sa, runs (action_rule_class_loop cmp flows spec) sa.
Proof.
  intros [r Hr] Hall. induction Hall as [|[t es] rest He Hrest IH];
    intros sa; simpl.
  - eexists. eexists. reflexivity.
  - destruct t; [apply IH|].
    destruct (He eq_refl) as [l Hl]. simpl in Hl. rewrite Hl, Hr.
    unfold deref.
    eapply runs_bind; [reflexivity|]. eapply runs_bind; [reflexivity|].
    destruct (rules_class_cmp_runs l r sa) as (same & sa' & E).
    eapply runs_bind; [exact E|].
    destruct same; [eexists; eexists; reflexivity|apply IH].
Qed.
End ClassVerifyRuns.

(** X22. Flow verification never rejects a flow for its class.  Whatever
    the class comparison of the device answers (as long as it answers),
    [sfc_mae_flow_verify] returns [EAGAIN] when the adapter is not
    started and 0 when it is: for a flow whose outer rule (if any) is
    registered and whose match specification is there, in a flow list
    whose MAE flows have their match specifications, the result of the
    class comparisons does not show in the return code. *)
Theorem X22_flow_verify_never_rejects
    (cmp : efx_mae_match_spec -> efx_mae_match_spec -> M (Z * bool))
    (started : bool)
    (flow_list : list (sfc_flow_spec_type * sfc_flow_spec_mae))
    (spec_mae : sfc_flow_spec_mae) (sa : sfc_adapter) :
  (forall l r sa0, runs (cmp l r) sa0) ->
  (forall p, fs_outer_rule spec_mae = Some p ->
             is_Some (entry_lookup (outer_rules (sa_mae sa)) p)) ->
  is_Some (fs_match_spec spec_mae) ->
  Forall (fun e => fst e = SFC_FLOW_SPEC_MAE -> is_Some (fs_match_spec (snd e)))
         flow_list ->
  exists sa',
    sfc_mae_flow_verify cmp started flow_list spec_mae sa =
      Some ((if started then 0 else EAGAIN), sa').
Proof.
  intros Hcmp Hor Hms Hfl. unfold sfc_mae_flow_verify.
  destruct started; simpl; [|eexists; reflexivity].
  assert (Hstep : exists sa1,
            match fs_outer_rule spec_mae with
            | Some outer_rule => sfc_mae_outer_rule_class_verify cmp outer_rule
            | None => ret 0
            end sa = Some (0, sa1)).
  { destruct (fs_outer_rule spec_mae) as [p|]; [|eexists; reflexivity].
    destruct (Hor p eq_refl) as [rule Hrule].
    unfold sfc_mae_outer_rule_class_verify, bind, load_outer_rule.
    rewrite Hrule.
    destruct (decide (fw_id (or_fw_rsrc rule) <> EFX_MAE_RSRC_ID_INVALID));
      [eexists; reflexivity|].
    unfold get_mae.
    destruct (outer_rule_class_loop_runs cmp Hcmp
                (rev (outer_rules (sa_mae sa))) p rule sa)
      as (found & sa1 & E).
    rewrite E. destruct found; eexists; reflexivity. }
  destruct Hstep as (sa1 & E1).
  unfold bind at 1. rewrite E1.
  destruct (decide (0 <> 0)) as [Hc|_]; [contradiction|].
  unfold sfc_mae_action_rule_class_verify.
  destruct (action_rule_class_loop_runs cmp Hcmp (rev flow_list) spec_mae Hms
              ltac:(apply Forall_rev; exact Hfl) sa1) as (found & sa2 & E2).
  unfold bind. rewrite E2. destruct found; eexists; reflexivity.
Qed.

(** A device that finds no two rules of the same class. *)
Lemma X22_flow_verify_never_rejects_witness :
  exists sa',
    sfc_mae_flow_verify (fun _ _ => ret (0, false)) true
      [(SFC_FLOW_SPEC_MAE, flow_one);
       (SFC_FLOW_SPEC_FILTER, flow_spec_init 0)]
      flow_one (adapter_not_enabled []) =
      Some ((if true then 0 else EAGAIN), sa').
Proof.
  apply (X22_flow_verify_never_rejects (fun _ _ => ret (0, false)) true
           [(SFC_FLOW_SPEC_MAE, flow_one);
            (SFC_FLOW_SPEC_FILTER, flow_spec_init 0)]
           flow_one (adapter_not_enabled [])).
  - intros l r sa0. eexists. eexists. reflexivity.
  - intros p Hp. inversion Hp; subst. eexists. reflexivity.
  - eexists. reflexivity.
  - repeat constructor; simpl; intros H; try discriminate H.
    eexists. reflexivity.
Defined.
(** ** Compilation and clean-up of a flow's actions *)

Lemma parse_action_bounce a o b s :
  action_type a <> AT_VXLAN_ENCAP ->
  preserves (keeps (fun sa => bounce_eh (sa_mae sa)))
            (sfc_mae_rule_parse_action a o b s).
Proof.
  intros Hne.
  unfold sfc_mae_rule_parse_action, sfc_mae_rule_parse_action_count,
    parse_action_deliver, efx_mae_action_set_populate.
  destruct a; try (exfalso; apply Hne; reflexivity); footprint.
Qed.

Lemma bundle_sync_bounce t b s :
  preserves (keeps (fun sa => bounce_eh (sa_mae sa)))
            (sfc_mae_actions_bundle_sync t b s).
Proof.
  unfold sfc_mae_actions_bundle_sync, sfc_mae_actions_bundle_submit,
    efx_mae_action_set_populate.
  footprint.
Qed.

Lemma parse_actions_loop_bounce actions o :
  Forall (fun a => action_type a <> AT_VXLAN_ENCAP) actions ->
  forall b s,
    preserves (keeps (fun sa => bounce_eh (sa_mae sa)))
              (parse_actions_loop actions o b s).
Proof.
  intros Hall. induction Hall as [|a rest Ha Hrest IH]; intros b s; simpl.
  - footprint.
  - pose proof (bundle_sync_bounce (Some (action_type a))) as Hs.
    pose proof (parse_action_bounce a o) as Hp.
    apply preserves_bind; [apply Hs|intros [[rc b1] s1]].
    destruct (decide (rc = 0)); [|footprint].
    apply preserves_bind; [apply Hp; exact Ha|intros [[rc2 b2] s2]].
    destruct (decide (rc2 = 0)); [apply IH|footprint].
Qed.

Lemma action_set_add_counters_unbound actions :
  forall n,
    Forall (fun c => mae_id c = EFX_MAE_RSRC_ID_INVALID)
           (action_set_add_counters actions n).
Proof.
  induction actions as [|a rest IH]; intros n; destruct n as [|n]; simpl;
    try constructor.
  destruct a; try apply IH. constructor; [reflexivity|apply IH].
Qed.

Lemma counters_remove_unbound counters sa :
  Forall (fun c => mae_id c = EFX_MAE_RSRC_ID_INVALID) counters ->
  sfc_mae_counters_remove counters sa = Some (tt, sa).
Proof.
  intros Hall. induction Hall as [|c rest Hc Hrest IH]; simpl; [reflexivity|].
  unfold bind, sfc_mae_counter_del.
  destruct (decide (mae_id c = EFX_MAE_RSRC_ID_INVALID)); [|contradiction].
  simpl. destruct (decide (0 = 0)); [|contradiction]. simpl. exact IH.
Qed.

Lemma action_set_add_counters_inv actions spec encap_header n_counters sa rc p
    sa' a :
  sfc_mae_action_set_add actions spec encap_header n_counters sa =
    Some ((rc, Some p), sa') ->
  action_sets (sa_mae sa') = action_sets (sa_mae sa) ++ [(p, a)] ->
  Forall (fun c => mae_id c = EFX_MAE_RSRC_ID_INVALID) (as_counters a).
Proof.
  unfold sfc_mae_action_set_add. intros H Hsets. minv H.
  apply rte_zmalloc_run in Hm. destruct Hm as (Hmae & _ & Hp).
  destruct a0 as [q|]; [|minv H; minv H].
  minv H.
  assert (Hcs : sa_mae sa1 = sa_mae sa /\
                match a0 with
                | Some (cs, _) =>
                    Forall (fun c => mae_id c = EFX_MAE_RSRC_ID_INVALID) cs
                | None => True
                end).
  { destruct (decide (0 < n_counters)).
    - minv Hm. apply rte_zmalloc_run in Hm0. destruct Hm0 as (Hmae1 & _ & _).
      destruct a1 as [q2|].
      + minv Hm; try (split; [congruence|apply action_set_add_counters_unbound]).
      + minv Hm; inversion Hm0; subst; minv Hm;
          try (split; [simpl; congruence|exact I]).
    - minv Hm; try (split; [exact Hmae|constructor]). }
  destruct Hcs as [Hmae1 Hcs].
  destruct a0 as [[cs n]|]; [|minv H].
  minv H. inversion Hm0; subst; clear Hm0. minv H.
  simpl in Hsets. rewrite Hmae1 in Hsets.
  apply app_inv_head in Hsets. inversion Hsets; subst. exact Hcs.
Qed.

Lemma action_set_attach_run encap_header n_count spec sa o sa' :
  sfc_mae_action_set_attach encap_header n_count spec sa = Some (o, sa') ->
  match o with
  | Some p =>
      exists a,
        In (p, a) (action_sets (sa_mae sa)) /\
        sa' = set_mae
                (set_action_sets
                   (entry_store (action_sets (sa_mae sa)) p
                      (action_set_set_refcnt (u32 (as_refcnt a + 1)) a))
                   (sa_mae sa)) sa
  | None => sa' = sa
  end.
Proof.
  unfold sfc_mae_action_set_attach. intros H.
  rewrite (bind_run _ _ sa (sa_mae sa) sa eq_refl) in H.
  destruct (find _ _) as [[p a]|] eqn:Ef.
  - apply find_Some_In in Ef. destruct Ef as [Hin _].
    unfold bind, store_action_set, modify_mae, ret in H.
    inversion H; subst. exists a. split; [exact Hin|reflexivity].
  - inversion H; subst. reflexivity.
Qed.

(** X23. Clean-up undoes the compilation of an action list.  In a
    well-formed action set registry, for a flow without an outer rule and
    an action list without VXLAN_ENCAP: when [sfc_mae_rule_parse_actions]
    succeeds, the flow holds an action set of the registry, and
    [sfc_mae_flow_cleanup] on that flow runs without a device call and
    leaves the action set registry exactly as it was before the
    compilation, whether the compilation had found an existing entry or
    had made a new one. *)
Theorem X23_cleanup_undoes_action_compile (actions : list rte_flow_action)
    (spec_mae flow' : sfc_flow_spec_mae) (sa sa1 : sfc_adapter) :
  registry_wf as_refcnt (sa_next_ptr sa) (action_sets (sa_mae sa)) ->
  Forall (fun a => action_type a <> AT_VXLAN_ENCAP) actions ->
  fs_outer_rule spec_mae = None ->
  sfc_mae_rule_parse_actions (Some actions) spec_mae sa =
    Some ((0, flow'), sa1) ->
  exists p sa2,
    fs_action_set flow' = Some p /\
    is_Some (entry_lookup (action_sets (sa_mae sa1)) p) /\
    sfc_mae_flow_cleanup flow' sa1 = Some (tt, sa2) /\
    action_sets (sa_mae sa2) = action_sets (sa_mae sa) /\
    sa_nic sa2 = sa_nic sa1.
Proof.
  intros [Hnd Hwf] Hne Hor H. unfold sfc_mae_rule_parse_actions in H.
  minv H. pose proof (action_set_spec_init_frame _ _ _ Hm) as F0.
  destruct a as [rc0 [spec0|]]; cbv beta iota in H.
  2:{ unfold efx_mae_action_set_spec_init in Hm. minv Hm.
      destruct (decide (rc_of a = 0)); minv Hm; minv H; fail_exit. }
  minv H. pose proof (bounce_eh_invalidate_frame _ _ _ Hm0) as F1.
  assert (Hb1 : beh_type (bounce_eh (sa_mae sa2)) = EFX_TUNNEL_PROTOCOL_NONE).
  { unfold sfc_mae_bounce_eh_invalidate, modify_mae in Hm0.
    inversion Hm0; subst. reflexivity. }
  minv H. destruct a0 as [[rc1 b1] spec1].
  pose proof (parse_actions_loop_frame _ _ _ _ _ _ _ Hm1) as F2.
  pose proof (parse_actions_loop_bounce _ _ Hne _ _ _ _ _ Hm1) as B2.
  destruct (decide (rc1 = 0)) as [Hr1|Hr1]; [|minv H; fail_exit].
  minv H. destruct a0 as [[rc2 b2] spec2].
  pose proof (bundle_sync_frame _ _ _ _ _ _ Hm2) as F3.
  pose proof (bundle_sync_bounce _ _ _ _ _ _ Hm2) as B3.
  destruct (decide (rc2 = 0)) as [Hr2|Hr2]; [|minv H; fail_exit].
  rewrite (bind_run _ _ sa4 (sa_mae sa4) sa4 eq_refl) in H.
  unfold keeps in B2, B3.
  assert (Hb4 : beh_type (bounce_eh (sa_mae sa4)) = EFX_TUNNEL_PROTOCOL_NONE)
    by (rewrite B3, B2; exact Hb1).
  unfold sfc_mae_process_encap_header in H. rewrite Hb4 in H.
  destruct (decide (EFX_TUNNEL_PROTOCOL_NONE = EFX_TUNNEL_PROTOCOL_NONE))
    as [_|Hc]; [|contradiction].
  rewrite (bind_run _ _ sa4 (0, None) sa4 eq_refl) in H.
  destruct (decide (0 = 0)) as [_|Hc]; [|contradiction].
  cbv zeta in H.
  destruct (decide (1 < efx_mae_action_set_get_nb_count spec2)) as [Hn|Hn].
  { minv H. minv H. minv H; fail_exit. }
  assert (G : compiler_frame sa sa4).
  { transitivity sa0; [exact F0|]. transitivity sa2; [exact F1|].
    transitivity sa3; assumption. }
  destruct G as [Gs Gp]. unfold ptr_mono in Gp.
  minv H. apply action_set_attach_run in Hm3.
  destruct a0 as [p|].
  - destruct Hm3 as (a' & Hin & ->). rewrite Gs in Hin.
    pose proof (entry_lookup_In _ _ _ Hnd Hin) as Hl.
    assert (Hr : 0 < as_refcnt a' < 2 ^ 32 - 1).
    { rewrite Forall_forall in Hwf. apply list_elem_of_In in Hin.
      apply (Hwf (p, a')) in Hin. apply Hin. }
    unfold bind, ret, sfc_mae_encap_header_del in H.
    inversion H; subst; clear H.
    exists p. eexists. simpl. split; [reflexivity|].
    split; [rewrite Gs; eexists; eapply entry_lookup_store; exact Hl|].
    split.
    { unfold sfc_mae_flow_cleanup. simpl. rewrite Hor.
      unfold sfc_mae_action_set_del, bind, ret, load_action_set,
        store_action_set, modify_mae. simpl.
      rewrite Gs, (entry_lookup_store _ _ _ _ Hl). simpl.
      rewrite (u32_small (as_refcnt a' + 1)) by lia.
      rewrite (u32_small (as_refcnt a' + 1 - 1)) by lia.
      destruct (decide (as_refcnt a' + 1 - 1 = 0)); [lia|].
      reflexivity. }
    simpl. split; [|reflexivity].
    rewrite entry_store_store. apply entry_store_same.
    rewrite Hl. f_equal. destruct a'. unfold action_set_set_refcnt. simpl.
    f_equal. lia.
  - subst sa5. minv H. destruct a0 as [rc4 [p|]].
    2:{ apply action_set_add_inv in Hm3. subst rc4. minv H. minv H; fail_exit. }
    minv H.
    pose proof Hm3 as Hadd. apply action_set_add_inv in Hm3.
    destruct Hm3 as (_ & Hp & aset & Hsets & Hrc & _ & Heh & _ & _).
    pose proof (action_set_add_counters_inv _ _ _ _ _ _ _ _ _ Hadd Hsets)
      as Hcs.
    rewrite Gs in Hsets.
    assert (Hfresh : entry_lookup (action_sets (sa_mae sa)) p = None).
    { apply (entry_lookup_fresh _ (sa_next_ptr sa)); [|lia].
      eapply Forall_impl; [exact Hwf|]. intros e He. apply He. }
    assert (Hl : entry_lookup (action_sets (sa_mae sa5)) p = Some aset).
    { rewrite Hsets. apply entry_lookup_app_fresh. exact Hfresh. }
    exists p. eexists. split; [reflexivity|].
    split; [eexists; exact Hl|].
    split.
    { unfold sfc_mae_flow_cleanup. simpl. rewrite Hor.
      unfold sfc_mae_action_set_del, bind at 1 2, ret at 1, load_action_set.
      rewrite Hl. unfold bind at 1, store_action_set, modify_mae. simpl.
      rewrite Hrc. change (u32 (1 - 1)) with 0.
      destruct (decide (0 = 0)) as [_|Hc]; [|contradiction].
      unfold bind at 1.
      rewrite counters_remove_unbound by (apply Forall_take; exact Hcs).
      rewrite Heh. unfold bind, sfc_mae_encap_header_del, ret, modify_mae.
      reflexivity. }
    simpl. split; [|reflexivity].
    rewrite Hsets. rewrite entry_store_app_fresh by exact Hfresh.
    apply entry_remove_app_fresh. exact Hfresh.
Qed.

(** A DROP action finds the registered action set again. *)
Lemma X23_cleanup_undoes_action_compile_witness :
  exists flow' sa1,
    sfc_mae_rule_parse_actions (Some [RTE_FLOW_ACTION_TYPE_DROP])
      (flow_spec_init 0) (adapter_not_enabled []) = Some ((0, flow'), sa1) /\
    exists p sa2,
      fs_action_set flow' = Some p /\
      is_Some (entry_lookup (action_sets (sa_mae sa1)) p) /\
      sfc_mae_flow_cleanup flow' sa1 = Some (tt, sa2) /\
      action_sets (sa_mae sa2) = action_sets (sa_mae (adapter_not_enabled [])) /\
      sa_nic sa2 = sa_nic sa1.
Proof.
  eexists. eexists. split; [vm_compute; reflexivity|].
  eapply (X23_cleanup_undoes_action_compile [RTE_FLOW_ACTION_TYPE_DROP]
            (flow_spec_init 0) _ (adapter_not_enabled [])).
  - split.
    + repeat constructor. intros H. inversion H.
    + repeat constructor; simpl; lia.
  - repeat constructor. discriminate.
  - reflexivity.
  - vm_compute. reflexivity.
Defined.
(** ** The pattern compiler: what it leaves alone *)

Section PatternFrame.
Context {X : Type} (f : sfc_adapter -> X).
Hypothesis f_nic : forall nic sa, f (set_nic nic sa) = f sa.

Lemma keeps_efx op arg : preserves (keeps f) (efx op arg).
Proof. apply preserves_keeps_efx. exact f_nic. Qed.

#[local] Hint Resolve keeps_efx : footprint.

Lemma ctx_field_set_keeps c fid v m : preserves (keeps f) (ctx_field_set c fid v m).
Proof.
  unfold ctx_field_set, efx_mae_match_spec_field_set, deref. footprint.
Qed.

#[local] Hint Resolve ctx_field_set_keeps : footprint.

Lemma parse_item_keeps flocs spec mask :
  forall c, preserves (keeps f) (sfc_mae_parse_item flocs spec mask c).
Proof.
  induction flocs as [|fl rest IH]; intros c; simpl; [footprint|].
  destruct (decide (fl_field_id fl = SFC_MAE_FIELD_HANDLING_DEFERRED));
    [apply IH|].
  apply preserves_bind; [auto with footprint|intros [rc c']].
  destruct (decide (rc = 0)); [apply IH|footprint].
Qed.

#[local] Hint Resolve parse_item_keeps : footprint.

Lemma set_ethertypes_tags_keeps pdata n :
  forall i c, preserves (keeps f) (set_ethertypes_tags pdata n i c).
Proof.
  induction n as [|n IH]; intros i c; simpl; [footprint|].
  unfold deref.
  destruct (ethertypes pdata !! i); [|footprint].
  apply preserves_bind; [footprint|intros et].
  destruct (_ !! i); [|footprint].
  apply preserves_bind; [footprint|intros fid].
  apply preserves_bind; [auto with footprint|intros [rc c']].
  destruct (decide (rc = 0)); [apply IH|footprint].
Qed.

#[local] Hint Resolve set_ethertypes_tags_keeps : footprint.

Lemma check_tpids_keeps n : forall i d nb, preserves (keeps f) (check_tpids n i d nb).
Proof.
  intros i d nb sa x sa' H. apply check_tpids_state in H. subst. reflexivity.
Qed.

#[local] Hint Resolve check_tpids_keeps : footprint.

Lemma process_pattern_data_keeps c :
  preserves (keeps f) (sfc_mae_rule_process_pattern_data c).
Proof.
  unfold sfc_mae_rule_process_pattern_data, sfc_mae_set_ethertypes, deref.
  footprint.
Qed.

#[local] Hint Resolve process_pattern_data_keeps : footprint.

Lemma parse_item_mport_keeps op arg c :
  preserves (keeps f) (parse_item_mport op arg c).
Proof. unfold parse_item_mport, ctx_mport_set, deref. footprint. Qed.

#[local] Hint Resolve parse_item_mport_keeps : footprint.

Lemma flow_items_keep :
  Forall (fun fi => forall it c, preserves (keeps f) (fi_parse fi it c))
         sfc_flow_items.
Proof.
  unfold sfc_flow_items.
  repeat (constructor; [simpl; intros it c|]); [..|constructor].
  all: unfold sfc_mae_rule_parse_item_port_id, sfc_mae_rule_parse_item_phy_port,
         sfc_mae_rule_parse_item_pf, sfc_mae_rule_parse_item_vf,
         sfc_mae_rule_parse_item_eth, sfc_mae_rule_parse_item_vlan,
         sfc_mae_rule_parse_item_ipv4, sfc_mae_rule_parse_item_ipv6,
         sfc_mae_rule_parse_item_tcp, sfc_mae_rule_parse_item_udp,
         sfc_mae_rule_parse_item_tunnel.
  all: footprint.
Qed.

Lemma flow_parse_pattern_keeps flow_items pattern :
  Forall (fun fi => forall it c, preserves (keeps f) (fi_parse fi it c))
         flow_items ->
  forall prev c,
    preserves (keeps f) (sfc_flow_parse_pattern flow_items pattern prev c).
Proof.
  intros Hall. rewrite Forall_forall in Hall.
  induction pattern as [|it rest IH]; intros prev c; simpl; [footprint|].
  destruct (find _ flow_items) as [fi|] eqn:Ef; [|footprint].
  apply find_Some_In in Ef. destruct Ef as [Hin _].
  apply list_elem_of_In in Hin. specialize (Hall fi Hin).
  destruct (_ && _); [footprint|].
  apply preserves_bind; [apply Hall|intros [rc c']].
  destruct (decide (rc = 0)); [apply IH|footprint].
Qed.

Lemma encap_parse_init_keeps pattern c :
  preserves (keeps f) (sfc_mae_rule_encap_parse_init pattern c).
Proof.
  unfold sfc_mae_rule_encap_parse_init, efx_mae_match_spec_init. footprint.
Qed.
End PatternFrame.

Lemma process_outer_keeps c :
  preserves (keeps (fun sa => (mae_but_outer_rules sa, sa_log sa)))
            (sfc_mae_rule_process_outer c).
Proof.
  unfold sfc_mae_rule_process_outer, efx_mae_match_spec_is_valid, deref,
    sfc_mae_outer_rule_attach, sfc_mae_outer_rule_add, sfc_mae_outer_rule_del,
    store_outer_rule, efx_mae_match_spec_outer_rule_id_set.
  footprint.
Qed.

(** X24. The pattern compiler only ever touches the outer rule registry.
    Whatever the pattern and whatever the device answers, after
    [sfc_mae_rule_parse_pattern] the action set registry, the encap.
    header registry, the counter slots, the bounce buffer and the state of
    the counter stream are as they were, and nothing has been added to the
    error log. *)
Theorem X24_pattern_compile_keeps_other_registries
    (pattern : option (list rte_flow_item)) (spec spec' : sfc_flow_spec_mae)
    (sa sa' : sfc_adapter) (rc : Z) :
  sfc_mae_rule_parse_pattern pattern spec sa = Some ((rc, spec'), sa') ->
  mae_but_outer_rules sa' = mae_but_outer_rules sa /\ sa_log sa' = sa_log sa.
Proof.
  intros H.
  assert (Hk : preserves (keeps (fun sa => (mae_but_outer_rules sa, sa_log sa)))
                 (sfc_mae_rule_parse_pattern pattern spec)).
  { unfold sfc_mae_rule_parse_pattern, efx_mae_match_spec_init,
      efx_mae_match_spec_is_valid, deref.
    pose proof (fun p c => encap_parse_init_keeps
                  (fun sa => (mae_but_outer_rules sa, sa_log sa))
                  (fun _ _ => eq_refl) p c) as H1.
    pose proof (fun p prev c => flow_parse_pattern_keeps
                  (fun sa => (mae_but_outer_rules sa, sa_log sa))
                  sfc_flow_items p
                  (flow_items_keep
                     (fun sa => (mae_but_outer_rules sa, sa_log sa))
                     (fun _ _ => eq_refl)) prev c) as H2.
    pose proof (fun c => process_pattern_data_keeps
                  (fun sa => (mae_but_outer_rules sa, sa_log sa))
                  (fun _ _ => eq_refl) c) as H3.
    pose proof process_outer_keeps as H4.
    footprint. }
  apply Hk in H. unfold keeps in H.
  split; [exact (f_equal fst H)|exact (f_equal snd H)].
Qed.


(** A pattern with a tunnel item, which registers an outer rule. *)
Lemma X24_pattern_compile_keeps_other_registries_witness :
  exists rc spec' sa',
    sfc_mae_rule_parse_pattern (Some (pattern_vxlan (item_eth_type 129 0) 0 5)) (flow_spec_init 0)
      (adapter_with_counters []) = Some ((rc, spec'), sa') /\
    mae_but_outer_rules sa' = mae_but_outer_rules (adapter_with_counters []) /\
    sa_log sa' = sa_log (adapter_with_counters []).
Proof.
  eexists. eexists. eexists. split; [vm_compute; reflexivity|].
  eapply (X24_pattern_compile_keeps_other_registries
            (Some (pattern_vxlan (item_eth_type 129 0) 0 5)) (flow_spec_init 0) _
            (adapter_with_counters [])).
  vm_compute. reflexivity.
Defined.
(** ** The action compiler: actions that are never accepted *)

Lemma parse_action_config a o b s :
  preserves (keeps counter_path_config) (sfc_mae_rule_parse_action a o b s).
Proof.
  unfold sfc_mae_rule_parse_action, sfc_mae_rule_parse_action_count,
    parse_action_deliver, sfc_mae_rule_parse_action_vxlan_encap,
    efx_mae_action_set_populate.
  destruct a; footprint.
Qed.

Lemma bundle_sync_config t b s :
  preserves (keeps counter_path_config) (sfc_mae_actions_bundle_sync t b s).
Proof.
  unfold sfc_mae_actions_bundle_sync, sfc_mae_actions_bundle_submit,
    efx_mae_action_set_populate.
  footprint.
Qed.

Lemma parse_action_refused sa a o b s sa0 rc b' s' sa1 :
  action_refused sa o a ->
  counter_path_config sa0 = counter_path_config sa ->
  sfc_mae_rule_parse_action a o b s sa0 = Some ((rc, b', s'), sa1) ->
  rc <> 0.
Proof.
  intros Hr Hk H. unfold counter_path_config in Hk.
  inversion Hk as [[Hq Hl]]; clear Hk.
  destruct a; simpl in Hr; try contradiction.
  - subst o. simpl in H. unfold bind, ret in H. simpl in H.
    inversion H; subst. discriminate.
  - destruct definition; [contradiction|]. simpl in H.
    unfold bind, ret in H. simpl in H. inversion H; subst. discriminate.
  - simpl in H. unfold sfc_mae_rule_parse_action_count in H.
    destruct shared.
    + unfold bind, ret in H. simpl in H. inversion H; subst. discriminate.
    + destruct Hr as [Hc|[Hc|Hc]]; [discriminate Hc| |].
      * unfold bind, get_sa, sfc_err, ret in H. rewrite Hq, Hc in H.
        simpl in H. inversion H; subst. discriminate.
      * unfold bind, get_sa, sfc_err, ret in H. rewrite Hl, Hc in H.
        destruct (sa_counter_rxq_initialized sa0); simpl in H;
          inversion H; subst; discriminate.
  - simpl in H. inversion H; subst. discriminate.
Qed.

Lemma parse_actions_loop_refused sa o actions :
  Exists (action_refused sa o) actions ->
  forall b s sa0 rc b' s' sa1,
    counter_path_config sa0 = counter_path_config sa ->
    parse_actions_loop actions o b s sa0 = Some ((rc, b', s'), sa1) ->
    rc <> 0.
Proof.
  induction actions as [|a rest IH]; intros Hex; [inversion Hex|].
  intros b s sa0 rc b' s' sa1 Hk H. simpl in H.
  minv H. destruct a0 as [[rc1 b1] s1].
  pose proof (bundle_sync_config _ _ _ _ _ _ Hm) as K1. unfold keeps in K1.
  destruct (decide (rc1 = 0)) as [->|Hne]; [|minv H; assumption].
  minv H. destruct a0 as [[rc2 b2] s2].
  pose proof (parse_action_config _ _ _ _ _ _ _ Hm0) as K2. unfold keeps in K2.
  destruct (decide (rc2 = 0)) as [->|Hne]; [|minv H; assumption].
  inversion Hex as [? ? Hr|? ? Hrest]; subst.
  - exfalso. eapply (parse_action_refused sa a o b1 s1 sa2);
      [exact Hr|congruence|exact Hm0|reflexivity].
  - eapply (IH Hrest); [|exact H]. congruence.
Qed.

(** X25. Actions that are never accepted.  An action list that holds a
    shared COUNT, a COUNT on an adapter without a configured counter queue
    or without a service core, a VXLAN_DECAP in a flow without an outer
    rule, a VXLAN_ENCAP without a definition or an action of a type the
    driver does not know is never compiled: whatever else the list holds
    and whatever the device answers, [sfc_mae_rule_parse_actions] returns
    an error. *)
Theorem X25_refused_actions_fail_the_compile (actions : list rte_flow_action)
    (spec_mae flow' : sfc_flow_spec_mae) (sa sa' : sfc_adapter) (rc : Z) :
  Exists (action_refused sa (fs_outer_rule spec_mae)) actions ->
  sfc_mae_rule_parse_actions (Some actions) spec_mae sa =
    Some ((rc, flow'), sa') ->
  rc <> 0.
Proof.
  intros Hex H Hz. subst rc. unfold sfc_mae_rule_parse_actions in H.
  minv H.
  assert (K0 : counter_path_config sa0 = counter_path_config sa).
  { assert (Hk : preserves (keeps counter_path_config)
                   efx_mae_action_set_spec_init).
    { unfold efx_mae_action_set_spec_init. footprint. }
    exact (Hk _ _ _ Hm). }
  destruct a as [rc0 [spec0|]]; cbv beta iota in H.
  2:{ unfold efx_mae_action_set_spec_init in Hm. minv Hm.
      destruct (decide (rc_of a = 0)); minv Hm; minv H; fail_exit. }
  minv H.
  assert (K1 : counter_path_config sa1 = counter_path_config sa).
  { unfold sfc_mae_bounce_eh_invalidate, modify_mae in Hm0.
    inversion Hm0; subst. exact K0. }
  minv H. destruct a0 as [[rc1 b1] spec1].
  pose proof (parse_actions_loop_refused sa _ _ Hex _ _ _ _ _ _ _ K1 Hm1)
    as Hne.
  destruct (decide (rc1 = 0)); [contradiction|].
  minv H; fail_exit.
Qed.

Lemma X25_refused_actions_fail_the_compile_witness :
  exists rc flow' sa',
    Exists (action_refused (adapter_with_counters [])
                           (fs_outer_rule (flow_spec_init 0)))
           [RTE_FLOW_ACTION_TYPE_MARK 7; RTE_FLOW_ACTION_TYPE_VXLAN_DECAP] /\
    sfc_mae_rule_parse_actions
      (Some [RTE_FLOW_ACTION_TYPE_MARK 7; RTE_FLOW_ACTION_TYPE_VXLAN_DECAP])
      (flow_spec_init 0) (adapter_with_counters []) =
      Some ((rc, flow'), sa') /\
    rc <> 0.
Proof.
  assert (Hex : Exists (action_refused (adapter_with_counters [])
                          (fs_outer_rule (flow_spec_init 0)))
                  [RTE_FLOW_ACTION_TYPE_MARK 7;
                   RTE_FLOW_ACTION_TYPE_VXLAN_DECAP]).
  { apply Exists_cons_tl, Exists_cons_hd. reflexivity. }
  eexists _, _, _. split; [exact Hex|].
  assert (Hrun : sfc_mae_rule_parse_actions
      (Some [RTE_FLOW_ACTION_TYPE_MARK 7; RTE_FLOW_ACTION_TYPE_VXLAN_DECAP])
      (flow_spec_init 0) (adapter_with_counters []) =
      Some ((- EINVAL, flow_spec_init 0),
            snd (default (0, flow_spec_init 0, adapter_with_counters [])
                   (sfc_mae_rule_parse_actions
                      (Some [RTE_FLOW_ACTION_TYPE_MARK 7;
                             RTE_FLOW_ACTION_TYPE_VXLAN_DECAP])
                      (flow_spec_init 0) (adapter_with_counters []))))).
  { vm_compute. reflexivity. }
  split; [exact Hrun|].
  exact (X25_refused_actions_fail_the_compile _ _ _ _ _ _ Hex Hrun).
Defined.
